(* ===== verification/_CoqProject ===== *)
-Q . S2P
Prelude.v
RecvWin.v
LinkedList.v
Sha.v
Chunk.v
ChunkList.v
Machine.v
Util.v
Packet.v
Sending.v
Hashes.v
Upload.v
Download.v
SendHelper.v
PeerServer.v
ParsePacket.v
Transfer.v
Liveness.v
ServerInv.v
Congestion.v
ServerOps.v
ServerSafe.v
Handlers.v
UserInput.v
CommandLine.v
Spiffy.v
PeerInit.v
EventLoop.v
Main.v
Requests.v
Integrity.v
Outcomes.v
Schedule.v
ScheduleSteps.v
GotFile.v
MakeChunks.v
ServerTransfer.v
Alike.v
Network.v
Exchange.v
Copied.v
ShaBuilds.v
Printf.v
Diagnostics.v
TestPrograms.v
UnitTests.v
