(* ===== verification/Prelude.v ===== *)
(** * peer_server: a verification of a BitTorrent-like peer

    The repository implements a peer that exchanges 512 KB chunks of files over UDP
    with its own reliable transport. This library models its C code (src/src/, headers
    in src/src/include/) as functions on explicit state, and proves what makes it
    correct. This file is the root: it documents the development and holds the shared
    vocabulary (fixed-width integers, C arrays, record updates, tactics).

    ** The program

    [main] (peer.c) reads the options and the list of peers (bt_parse.c), loads the
    chunk lists ([peer_init], peer_server.c) and enters the loop of [peer_run], which
    waits for a datagram or a line of input for a tenth of a second and then checks all
    timers ([check_all_timeout]). A line [GET chunks output] floods a [WHOHAS] with the
    wanted hashes; a peer answers [IHAVE]; the asker sends [GET] for the first unfetched
    chunk announced; then the uploader (upload.c) sends 512 [DATA] packets of 1024 bytes
    under congestion control, and the downloader (download.c) stores them with a receive
    window (recv_win.c) and sends cumulative [ACK]s. A complete chunk is hashed (sha.c)
    and written to the output file if its hash is the wanted one.

    ** How the code is modelled

    The server's global [psvr] is the record [PeerServer] (Machine.v), peers and
    transfers are the records [Peer], [upload_t], [download_t] with the fields of the C
    structures. Operations run in the state monad [M] over a [World]: [psvr], the number
    of system calls so far, and the events emitted (datagrams sent, bytes written, log
    lines). [None] is undefined behaviour: an access outside an array, a wild pointer, a
    string that is not terminated. The answers of the system (clock, [mmap], [malloc],
    [write], uninitialised stack) are the functions of the class [Env], of which nothing
    is assumed unless a theorem says so. Integers have their C width: [u32], [s32], ...
    are applied where the code stores or converts, so that wrap-around is visible. A
    product of [int]s that overflows has no value ([int_mul]): the place of a chunk in a
    file is one. Sums and differences of [int]s (counters that change by one, numbers of
    packets) are taken modulo 2^32, where C leaves their overflow undefined. Machine is a
    little-endian LP64 one; a [char] is given by its byte. [main] has both builds, with
    [TESTING] (which the Makefile defines) and without.

    ** The files

    - Prelude: this file. Machine: state, environment, monad, [wp] (total correctness).
    - RecvWin (recv_win.c), LinkedList (linkedlist.c), Sha (sha.c), Chunk (chunk.c),
      ChunkList (chunklist.c, hash2Index), Util (util.c, write_winsize): one component
      each, its operations, then its contract and the refinement of it. ShaBuilds: sha.c
      with its [#if]s, for every build and byte order, against SHA-1 as in FIPS 180.
    - Packet (packet.h, valid_packet): bytes, byte order, accessors, validation.
      Sending (packet.c): [send_packet] for data, acknowledgements and lists of hashes.
      Hashes: what lists of hashes say, and what the receiver reads in them.
    - Upload (upload.c) and Download (download.c): the two ends of a transfer.
      Congestion: what the states of the congestion control say of the sender's window.
      Transfer composes the two over a network that loses, repeats and reorders; Liveness
      adds that no run is a dead end.
    - SendHelper (send_helper.c), PeerServer (peer_server.c, peerlist.c), ParsePacket
      (parse_packet.c, process_inbound_udp and process_get of peer.c): the server.
    - ServerInv: the invariant [server_inv]. ServerOps, ServerSafe, Handlers: each
      operation keeps it. Requests, Integrity, Outcomes: what the handlers do.
    - UserInput (input_buffer.c, handle_user_input), CommandLine (bt_parse.c,
      set_debug), PeerInit (peer_init, readString), EventLoop (peer_run), Main (main),
      Spiffy (spiffy.c).
    - Schedule: the abstract system of a download, lines that are fetched by peers, its
      invariant [books] and the file it writes. ScheduleSteps: every operation of the
      server is a sequence of its steps. GotFile: so is every run of [peer_run].
    - MakeChunks (make_chunks.c), and the way from a file to its copy. ServerTransfer:
      the server runs the transfers of Transfer.
    - Alike, Network, Exchange: two whole servers that get each other's datagrams. Alike
      moves a theorem about a transfer on otherwise idle hosts into a server that does
      more; Network has the deliveries ([delivery]: a datagram that one server has sent
      to the other is handled there by [process_inbound_udp]) and the fetching of one
      chunk; Exchange goes from the [GET] to the last chunk of a list. Copied: the list
      is the one that make-chunks prints of a file of the other server.
    - UnitTests: the programs of src/src/test/ that are built.
    - Printf, Diagnostics (logger.c, debug.c, [print_packet], [ul_dump], [dl_dump],
      [bt_dump_config] and the help texts), TestPrograms (client.c, server.c,
      test_input_buffer.c, the [main]s of sha.c, chunk.c and debug.c).

    Definitions have the names of the C functions; the body of a loop is a fixpoint
    [.._loop], the case of a [switch] a definition [handle_..].

    ** What the theorems show

    - The transfer: [transfer_safety] (every packet stored is the right part of the
      chunk, a finished download has the chunk, a finished upload is of a finished
      download), [transfer_monotone], [transfer_never_stuck] (no undefined behaviour)
      and [transfer_can_finish]: with a clock that works at the sender, from every
      configuration reached within four million steps some run completes.
    - The whole server: [main_safe] (in both builds, from the first instruction, for every
      datagram that the shim takes and every line typed, no undefined behaviour, and at
      most [-m] downloads, with a working clock also uploads), [connection_limits] (the
      counters are exact and bounded by [-m]), [data_written_verified] (what a [DATA]
      writes begins a whole chunk with the wanted SHA-1, in the file of the download, at the
      place of that chunk, or at the start of the file after an [lseek] that failed).
    - The files: [server_refines_schedule] (whatever happens, a run is a sequence of
      starts, give-ups and saves of single chunks and of [GET] commands, with exactly
      their writes and reports), [download_books_kept] (after a [GET] on an idle server,
      each chunk being fetched has exactly one download, and [dl_remain] counts the
      chunks missing), [got_file_complete] (the list is reported exactly when nothing is
      missing, and then the output file has every chunk at its place),
      [make_chunks_prints] and [made_list_fetched] (the list that make-chunks prints of
      a file, fetched and reported, gives a file with the same hashes).
    - Two servers: [whole_list_fetched] (an idle server whose user asks for a list of
      chunks that another server has can get all of it: some order of deliveries ends
      with the list reported and the output file made of the other server's chunks) and
      [file_copied] (so a file that make-chunks has listed is copied byte for byte; this
      needs no assumption on SHA-1 but that the chunks of the file have different hashes).
    - The server's handlers run the transfers: [server_runs_uploads],
      [server_runs_downloads], so that [transfer_safety] and the rest speak of them.
      Congestion control: [congestion_law] (window, threshold and packets in flight in
      every state, after any calls of the sender's handlers),
      [fast_retransmit_on_third_duplicate].
    - The protocol: [whohas_answered], [ihave_starts_download], [get_starts_upload],
      [download_settled] (saved, or to be fetched again), [silent_peer_given_up],
      [hashes_roundtrip],
      [send_packet_lists_chunks], [packet_wire_roundtrip], [valid_packet_decides],
      [spiffy_roundtrip].
    - Components against their contracts: [recvwin_mark_refines],
      [recvwin_slideack_refines], [ll_append_refines], [ll_remove_refines],
      [ll_delete_allnodes_refines], [dl_recv_contract], [dl_timeout_contract],
      [ul_handle_ack_outcome], [ul_send_window], [ul_timeout_retransmits],
      [sha1_incremental] (streaming is SHA-1, with the published vectors in
      [sha1_vectors]), [every_build_computes_sha1],
      [hex_roundtrip], [make_chunks_correct],
      [chunk_file_roundtrip], [hash2Index_spec], [user_lines_stream],
      [command_line_configures], [print_packet_valid], [ul_dump_defined],
      [scan_printed] (a printed number is read back).
    - The small programs: [magic_arrives] (client.c to server.c through a router),
      [test_input_prints], [sha1_test_prints], [chunk_test_prints]; [upload_test_safe],
      [recv_message_safe], [ack_line_sends], [malformed_ignored] (what the tests send
      and do; the server drops every packet of test_send_corrupt.c).
    - Where the code errs: [get_hash_misreads_extension], [last_of_371_not_announced],
      [stale_bytes_end_input], [add_chunk_never_adds], [parse_chunk_malformed],
      [timeout_shrinks_rtt], [ul_handle_ack_edges], [client_three_arguments],
      [download_over_reads], [corrupt_loop_undefined], [seq_fit_in_wraps] (near 2^32,
      where no transfer gets); a file that grows while make-chunks reads it is a case of
      [make_chunks_prints]. Where it departs from the README: in slow start the window
      grows by the number of packets newly acknowledged, not by one for each
      acknowledgement ([ul_handle_ack_outcome]); a loss sets the threshold to half the
      window, not to half the threshold ([fast_retransmit_on_third_duplicate]).

    ** Hypotheses of the theorems about the server

    [mmap_ok]: a chunk of the master file can be mapped whole (after a failed [mmap] the
    code uses a null pointer). [clock_ok]: [gettimeofday] never fails and never gives
    timestamp 0 (only for the number of uploads and for liveness). [files_ok]
    ([file_fits]): no word of a chunk file exceeds 40 characters, as [fscanf] has no
    bound, and the numbers of its lines are at least -4096 and below 4096, since their
    product with the chunk size is an [int]; the lists that the server starts with are
    such ([list_ok]). [turn_ok]: datagrams
    are bytes and [spiffy_recvfrom] succeeds, whose failure the code does not test; a
    simulator's datagram shorter than its header is such a failure
    ([spiffy_short_datagram]). [malloc_ok]: at start, memory is not exhausted.
    [startup_ok]: options, nodes and file names fit the buffers they are copied to, there
    are at most 1024 nodes, and the first line of the master chunk file has fewer than
    256 characters. [gets_list]: the command of the user names files that fit their
    buffers, the server is idle, and the list can be parsed; [turns_ok]: nothing
    more is typed, as a second [GET] would replace the list under the running downloads;
    [places_ok]: the lines of a list have different identities, below 4096.
    [fetcher] and [holder]: the list has 1 to 74 lines (one packet of hashes), with
    different hashes and places; the other server is the only living peer of the asker,
    has an upload free and [source]s of the chunks: a first line with that hash, whose
    place in the mapped file has a chunk with it; at the asker [malloc], [open], [lseek]
    and [write] succeed ([disk_ok]). [chunked]: a file of whole chunks, since a shorter
    last piece is listed with a hash that no peer can produce.
    [build_ok]: a byte order that is fixed in a build of sha.c is the machine's.

    ** Fuel and bounds

    Loops over arrays recurse on the number of turns left, which the code's bound gives
    (1024 peers, 4096 lines, 512 packets, 8192 bytes of input). Loops that end for
    another reason have fuel and give [None] without it: lists are walked with the number
    of nodes, [input_loop] with the length of the buffer (each turn shortens the string),
    [peer_list_loop] with that of the file (each turn consumes a byte), [readString] with
    256 turns, after which the code is undefined. Theorems state that a result exists, so
    that the fuel suffices. [transfer_can_finish] bounds the steps by four million: the
    window grows by at most 512 a step, so that below this it cannot wrap around.

    ** Not modelled

    The calls of the logger and of [printf] inside functions that do other work: the
    output they make does not reach the state. The tests test_chunk.c and test_packet.c,
    which are not built, and the socket calls of the small programs. [select] is the choice of the [turn]s; [readfds]
    is used there without [FD_ZERO]. [getopt], [gethostbyname], the socket calls and the
    files are parameters. [finish_download], which does nothing, has no definition.

    ** Planned

    [whole_list_fetched] for lists of more than one packet of hashes, for several living
    peers, and with the timers of [check_all_timeout] among the deliveries. *)

From stdpp Require Export base list numbers option gmap.
From Stdlib Require Export ZArith Lia.

Declare Scope c_scope.
Delimit Scope c_scope with c.
#[global] Open Scope Z_scope.
#[global] Set Default Goal Selector "!".

(** ** Machine integers

    An integer of [w] bits is a [Z]; the conversions below are C's, on an LP64
    platform with two's complement arithmetic. *)

Definition u8 (z : Z) : Z := z mod 2 ^ 8.
Definition u16 (z : Z) : Z := z mod 2 ^ 16.
Definition u32 (z : Z) : Z := z mod 2 ^ 32.
Definition u64 (z : Z) : Z := z mod 2 ^ 64.
Definition s8 (z : Z) : Z := (z + 2 ^ 7) mod 2 ^ 8 - 2 ^ 7.
Definition s16 (z : Z) : Z := (z + 2 ^ 15) mod 2 ^ 16 - 2 ^ 15.
Definition s32 (z : Z) : Z := (z + 2 ^ 31) mod 2 ^ 32 - 2 ^ 31.

(** [C_MIN] and [C_MAX] are the macros [MIN] and [MAX] of packet.h and util.h. *)
Definition C_MIN (a b : Z) : Z := if a <? b then a else b.
Definition C_MAX (a b : Z) : Z := if a >? b then a else b.

(** The product of two [int]s: unlike conversions, an overflow has no value in C. *)
Definition int_mul (a b : Z) : option Z := if decide (- 2 ^ 31 <= a * b < 2 ^ 31) then Some (a * b) else None.

(** [bool_int b] is the value of a C comparison. *)
Definition bool_int (b : bool) : Z := if b then 1 else 0.

Lemma u8_small z : 0 <= z < 2 ^ 8 -> u8 z = z.
Proof. apply Z.mod_small. Qed.
Lemma u16_small z : 0 <= z < 2 ^ 16 -> u16 z = z.
Proof. apply Z.mod_small. Qed.
Lemma u32_small z : 0 <= z < 2 ^ 32 -> u32 z = z.
Proof. apply Z.mod_small. Qed.
Lemma u64_small z : 0 <= z < 2 ^ 64 -> u64 z = z.
Proof. apply Z.mod_small. Qed.
Lemma s32_small z : - 2 ^ 31 <= z < 2 ^ 31 -> s32 z = z.
Proof. intros. unfold s32. rewrite Z.mod_small; lia. Qed.
Lemma s16_small z : - 2 ^ 15 <= z < 2 ^ 15 -> s16 z = z.
Proof. intros. unfold s16. rewrite Z.mod_small; lia. Qed.
Lemma u8_range z : 0 <= u8 z < 2 ^ 8.
Proof. by apply Z.mod_pos_bound. Qed.
Lemma u16_range z : 0 <= u16 z < 2 ^ 16.
Proof. by apply Z.mod_pos_bound. Qed.
Lemma u32_range z : 0 <= u32 z < 2 ^ 32.
Proof. by apply Z.mod_pos_bound. Qed.
Lemma s32_range z : - 2 ^ 31 <= s32 z < 2 ^ 31.
Proof. unfold s32. pose proof (Z.mod_pos_bound (z + 2 ^ 31) (2 ^ 32)). lia. Qed.
(** A value survives the cast to the other signedness and back. *)
Lemma s32_u32 x : - 2 ^ 31 <= x < 2 ^ 31 -> s32 (u32 x) = x.
Proof. unfold s32, u32. intros. Z.div_mod_to_equations. lia. Qed.
Lemma s16_u16 x : - 2 ^ 15 <= x < 2 ^ 15 -> s16 (u16 x) = x.
Proof. unfold s16, u16. intros. Z.div_mod_to_equations. lia. Qed.
Lemma u32_s32 x : 0 <= x < 2 ^ 32 -> u32 (s32 x) = x.
Proof. unfold s32, u32. intros. Z.div_mod_to_equations. lia. Qed.
Lemma u16_s16 x : 0 <= x < 2 ^ 16 -> u16 (s16 x) = x.
Proof. unfold s16, u16. intros. Z.div_mod_to_equations. lia. Qed.
Lemma s16_range x : - 2 ^ 15 <= s16 x < 2 ^ 15.
Proof. unfold s16. pose proof (Z.mod_pos_bound (x + 2 ^ 15) (2 ^ 16)). lia. Qed.
Lemma u32_idemp z : u32 (u32 z) = u32 z.
Proof. apply u32_small, u32_range. Qed.
Lemma C_MIN_min a b : C_MIN a b = Z.min a b.
Proof. unfold C_MIN. destruct (Z.ltb_spec a b); lia. Qed.
Lemma C_MAX_max a b : C_MAX a b = Z.max a b.
Proof. unfold C_MAX. rewrite Z.gtb_ltb. destruct (Z.ltb_spec b a); lia. Qed.

(** [wrap_small] removes the conversions whose argument is already in range;
    [mod_lia] is [lia] on goals that still hold them. *)
Ltac wrap_small :=
  repeat first
    [ rewrite u32_small by lia | rewrite u16_small by lia | rewrite u8_small by lia
    | rewrite u64_small by lia | rewrite s32_small by lia | rewrite s16_small by lia ].

Ltac mod_lia :=
  unfold u8, u16, u32, u64, s16, s32 in *; Z.div_mod_to_equations; lia.

(** Boolean tests of the code, turned into propositions. *)
Ltac bool_lia :=
  repeat match goal with
  | H : _ && _ = true |- _ => apply andb_true_iff in H; destruct H
  | H : _ || _ = false |- _ => apply orb_false_iff in H; destruct H
  | H : negb _ = true |- _ => apply negb_true_iff in H
  | H : negb _ = false |- _ => apply negb_false_iff in H
  end; try lia.

(** One step of the option monad, as a rewriting rule. *)
Lemma option_bind_Some {A B} (x : A) (f : A -> option B) : (Some x ≫= f) = f x.
Proof. reflexivity. Qed.

(** ** Record update

    [r .{ f := v }] is [r] with field [f] replaced by [v]. The setter is derived
    from the record's eta-expansion, which a [Settable] instance supplies. *)

Class Settable (R : Type) := eta_of : R -> R.
Class Setter {R E : Type} (get : R -> E) := setter_of : E -> R -> R.

Ltac head_of t := lazymatch t with ?f _ => head_of f | _ => t end.
Ltac derive_setter :=
  lazymatch goal with
  | |- @Setter ?R ?E ?get =>
    let i := (match constr:(_ : Settable R) with ?c => c end) in
    let c := head_of i in
    let i' := eval cbv beta delta [c] in i in
    exact (fun (v : E) (r : R) =>
      ltac:(let t := eval cbv beta in (i' r) in
            match eval pattern (get r) in t with
            | ?F _ => let t' := eval cbv beta in (F v) in exact t'
            end))
  end.
#[export] Hint Extern 1 (@Setter _ _ _) => derive_setter : typeclass_instances.

Definition upd {R E : Type} (get : R -> E) {s : Setter get} (v : E) (r : R) : R := s v r.
Arguments upd {R E} get {s} v r /.
Notation "r .{ f := v }" := (upd f v r)
  (at level 1, f at level 9, v at level 200, left associativity,
   format "r  .{ f  :=  v }") : c_scope.
#[global] Open Scope c_scope.

(** ** C arrays

    An array is the list of its elements. An access out of range is undefined
    behaviour in C: it is [None] here, so a theorem that an operation returns
    [Some] is a memory-safety statement. *)

Abbreviation zlen l := (Z.of_nat (length l)).

Section Arrays.
Context {A : Type}.
Implicit Types l src : list A.

Definition zget l (i : Z) : option A :=
  if decide (0 <= i) then l !! Z.to_nat i else None.

Definition zset l (i : Z) (x : A) : option (list A) :=
  if decide (0 <= i < zlen l) then Some (<[Z.to_nat i := x]> l) else None.

(** [memcpy] out of, and into, an array. *)
Definition zread l (off n : Z) : option (list A) :=
  if decide (0 <= off /\ 0 <= n /\ off + n <= zlen l)
  then Some (take (Z.to_nat n) (drop (Z.to_nat off) l)) else None.

Definition zwrite l (off : Z) src : option (list A) :=
  if decide (0 <= off /\ off + zlen src <= zlen l)
  then Some (take (Z.to_nat off) l ++ src ++ drop (Z.to_nat off + length src) l)
  else None.

Lemma zget_Some_range l i x : zget l i = Some x -> 0 <= i < zlen l.
Proof.
  unfold zget. case_decide; [|done]. intros Hl%lookup_lt_Some. lia.
Qed.

Lemma zget_is_Some l i : 0 <= i < zlen l -> exists x, zget l i = Some x.
Proof.
  intros H. unfold zget. rewrite decide_True by lia.
  apply lookup_lt_is_Some. lia.
Qed.

Lemma zget_None l i : ~ (0 <= i < zlen l) -> zget l i = None.
Proof.
  intros H. unfold zget. case_decide; [|done]. apply lookup_ge_None. lia.
Qed.

Lemma zset_is_Some l i x : 0 <= i < zlen l -> exists l', zset l i x = Some l'.
Proof. intros H. unfold zset. rewrite decide_True by lia. eauto. Qed.

Lemma zset_Some_range l i x l' : zset l i x = Some l' -> 0 <= i < zlen l.
Proof. unfold zset. by case_decide. Qed.

Lemma zset_length l i x l' : zset l i x = Some l' -> length l' = length l.
Proof.
  unfold zset. case_decide; [|done]. intros [= <-]. apply length_insert.
Qed.

Lemma zget_zset_eq l i x l' : zset l i x = Some l' -> zget l' i = Some x.
Proof.
  unfold zset, zget. case_decide; [|done]. intros [= <-].
  rewrite decide_True by lia. apply list_lookup_insert_eq. lia.
Qed.

Lemma zget_zset_ne l i j x l' : zset l i x = Some l' -> j <> i -> zget l' j = zget l j.
Proof.
  unfold zset, zget. case_decide; [|done]. intros [= <-] ?.
  case_decide; [|done]. apply list_lookup_insert_ne. lia.
Qed.

Lemma zget_zset l i j x l' :
  zset l i x = Some l' -> zget l' j = if decide (j = i) then Some x else zget l j.
Proof.
  intros H. case_decide; [subst; by eapply zget_zset_eq | by eapply zget_zset_ne].
Qed.

Lemma zread_is_Some l off n :
  0 <= off -> 0 <= n -> off + n <= zlen l -> exists r, zread l off n = Some r.
Proof. intros. unfold zread. rewrite decide_True by lia. eauto. Qed.

Lemma zread_length l off n r : zread l off n = Some r -> zlen r = n.
Proof.
  unfold zread. case_decide; [|done]. intros [= <-].
  rewrite length_take, length_drop. lia.
Qed.

Lemma zread_lookup l off n r i :
  zread l off n = Some r -> 0 <= i < n -> zget r i = zget l (off + i).
Proof.
  unfold zread, zget. case_decide; [|done]. intros [= <-] ?.
  rewrite !decide_True by lia.
  rewrite lookup_take_lt by lia. rewrite lookup_drop. f_equal. lia.
Qed.

Lemma zread_Forall (P : A -> Prop) l off n r : zread l off n = Some r -> Forall P l -> Forall P r.
Proof.
  unfold zread. case_decide; [|done]. intros [= <-] HP. by apply Forall_take, Forall_drop.
Qed.

Lemma zwrite_Forall (P : A -> Prop) l off src l' :
  zwrite l off src = Some l' -> Forall P l -> Forall P src -> Forall P l'.
Proof.
  unfold zwrite. case_decide; [|done]. intros [= <-] Hl Hs.
  rewrite !Forall_app. auto using Forall_take, Forall_drop.
Qed.

Lemma zwrite_is_Some l off src :
  0 <= off -> off + zlen src <= zlen l -> exists l', zwrite l off src = Some l'.
Proof. intros. unfold zwrite. rewrite decide_True by lia. eauto. Qed.

Lemma zwrite_length l off src l' : zwrite l off src = Some l' -> length l' = length l.
Proof.
  unfold zwrite. case_decide; [|done]. intros [= <-].
  rewrite !length_app, length_take, length_drop. lia.
Qed.

Lemma zget_zwrite l off src l' i :
  zwrite l off src = Some l' ->
  zget l' i =
    if decide (off <= i < off + zlen src) then zget src (i - off) else zget l i.
Proof.
  unfold zwrite, zget. case_decide as Hr; [|done]. intros [= <-].
  destruct (decide (0 <= i)) as [Hi|Hi]; last first.
  { rewrite (decide_False (P := off <= i < _)) by lia. done. }
  destruct (decide (off <= i < off + zlen src)) as [Hin|Hin].
  - rewrite decide_True by lia.
    rewrite lookup_app_r by (rewrite length_take; lia).
    rewrite lookup_app_l by (rewrite length_take; lia).
    f_equal. rewrite length_take. lia.
  - destruct (decide (i < off)).
    + rewrite lookup_app_l by (rewrite length_take; lia).
      by rewrite lookup_take_lt by lia.
    + rewrite lookup_app_r by (rewrite length_take; lia).
      rewrite lookup_app_r by (rewrite length_take; lia).
      rewrite lookup_drop. f_equal. rewrite length_take. lia.
Qed.

Lemma drop_zwrite l off src l' n :
  zwrite l off src = Some l' -> off + zlen src <= Z.of_nat n -> drop n l' = drop n l.
Proof.
  unfold zwrite. case_decide; [|done]. intros [= <-] Hn.
  rewrite drop_app_ge by (rewrite length_take; lia).
  rewrite drop_app_ge by (rewrite length_take; lia).
  rewrite drop_drop, length_take. f_equal. lia.
Qed.

Lemma take_zwrite l off src l' k :
  zwrite l off src = Some l' -> (k <= length src)%nat ->
  take (Z.to_nat off + k) l' = take (Z.to_nat off) l ++ take k src.
Proof.
  unfold zwrite. case_decide; [|done]. intros [= <-] Hk.
  rewrite take_app_ge by (rewrite length_take; lia). f_equal.
  rewrite length_take. rewrite take_app_le by lia. f_equal. lia.
Qed.

(** Two arrays of the same length with the same elements are equal. *)
Lemma zget_ext l1 l2 :
  zlen l1 = zlen l2 ->
  (forall i, 0 <= i < zlen l1 -> zget l1 i = zget l2 i) -> l1 = l2.
Proof.
  intros Hlen H. apply list_eq. intros i.
  destruct (decide (i < length l1)%nat).
  - specialize (H (Z.of_nat i) ltac:(lia)). unfold zget in H.
    rewrite !decide_True in H by lia. by rewrite Nat2Z.id in H.
  - rewrite !lookup_ge_None_2 by lia. done.
Qed.

(** A read that falls in what was just written sees the written bytes; a read
    disjoint from it sees the old ones. *)
Lemma zread_zwrite_eq l off src l' :
  zwrite l off src = Some l' -> zread l' off (zlen src) = Some src.
Proof.
  intros H. pose proof (zwrite_length _ _ _ _ H) as Hlen.
  assert (0 <= off /\ off + zlen src <= zlen l) as [? ?].
  { unfold zwrite in H. by case_decide. }
  destruct (zread_is_Some l' off (zlen src)) as [r Hr]; [lia..|].
  rewrite Hr. f_equal. pose proof (zread_length _ _ _ _ Hr).
  apply zget_ext; [done|]. intros i Hi.
  rewrite (zread_lookup _ _ _ _ _ Hr), (zget_zwrite _ _ _ _ _ H) by lia.
  rewrite decide_True by lia. f_equal. lia.
Qed.

Lemma zread_zwrite_ne l off src l' off' n :
  zwrite l off src = Some l' -> off' + n <= off \/ off + zlen src <= off' ->
  zread l' off' n = zread l off' n.
Proof.
  intros H Hd. pose proof (zwrite_length _ _ _ _ H) as Hlen.
  unfold zread at 2. case_decide as Hc; last first.
  { unfold zread. rewrite decide_False by lia. done. }
  destruct (zread_is_Some l off' n) as [r Hr]; [lia..|].
  destruct (zread_is_Some l' off' n) as [r' Hr']; [lia..|].
  rewrite Hr'. unfold zread in Hr. rewrite decide_True in Hr by lia.
  rewrite Hr. f_equal.
  assert (zread l off' n = Some r) as Hr2 by (unfold zread; by rewrite decide_True).
  pose proof (zread_length _ _ _ _ Hr2). pose proof (zread_length _ _ _ _ Hr').
  apply zget_ext; [lia|]. intros i Hi.
  rewrite (zread_lookup _ _ _ _ _ Hr'), (zread_lookup _ _ _ _ _ Hr2) by lia.
  rewrite (zget_zwrite _ _ _ _ _ H), decide_False by lia. done.
Qed.
End Arrays.

(** ** Automation

    [arrays] resolves the side conditions of array accesses, [machine] (extended in
    Machine.v) those of code that only emits events. *)
Create HintDb arrays.
Create HintDb machine.
#[export] Hint Resolve zget_is_Some zset_is_Some zread_is_Some zwrite_is_Some : arrays.
#[export] Hint Resolve zset_length zwrite_length zread_length : arrays.
