(* ===== verification/RecvWin.v ===== *)
(** * RecvWin: the receive window (recv_win.c, include/recv_win.h)

    The window is a bitmap of 1024 bits kept as a circular array of 32 signed
    32-bit words. [front] is the position of the bit of [next_seq], the first
    sequence number not received in order.

    The second half gives the window's contract: a set of the sequence numbers
    received out of order ([WinSpec]), the representation relation [rwin_rep],
    and the refinement of each operation. *)

From S2P Require Import Prelude.

(** ** The code *)

Definition RECV_WINDOW_SIZE : Z := 1024.
Definition INT_SIZE : Z := 32.
Definition BM_SIZE : Z := RECV_WINDOW_SIZE / INT_SIZE.

Record RecvWin := { bm : list Z; front : Z; next_seq : Z }.
#[export] Instance RecvWin_settable : Settable RecvWin :=
  fun r => Build_RecvWin (bm r) (front r) (next_seq r).

(** [1 << (i % INT_SIZE)], an [int]: bit 31 is the sign bit. *)
Definition bit_mask (i : Z) : Z := s32 (Z.shiftl 1 (i mod INT_SIZE)).

Definition BM_CLR : list Z := replicate (Z.to_nat BM_SIZE) 0.
Definition BM_SET (b : list Z) (i : Z) : option (list Z) :=
  w ← zget b (i / INT_SIZE); zset b (i / INT_SIZE) (Z.lor w (bit_mask i)).
Definition BM_UNSET (b : list Z) (i : Z) : option (list Z) :=
  w ← zget b (i / INT_SIZE); zset b (i / INT_SIZE) (Z.lxor w (bit_mask i)).
Definition BM_ISSET (b : list Z) (i : Z) : option bool :=
  w ← zget b (i / INT_SIZE); Some (negb (Z.land w (bit_mask i) =? 0)).

Definition MOD_WIN (i : Z) : Z := i mod RECV_WINDOW_SIZE.
(** The argument is computed on [uint32_t]. *)
Definition SEQ_IN_WIN (seq : Z) (rwin : RecvWin) : Z :=
  MOD_WIN (u32 (u32 (seq - next_seq rwin) + front rwin)).

Definition init_recvwin : RecvWin := {| bm := BM_CLR; front := 0; next_seq := 1 |}.

Definition seq_fit_in (rwin : RecvWin) (seq : Z) : bool :=
  (next_seq rwin <=? seq) && (seq <? u32 (next_seq rwin + RECV_WINDOW_SIZE)).

Definition seq_exist_in (rwin : RecvWin) (seq : Z) : option bool :=
  BM_ISSET (bm rwin) (SEQ_IN_WIN seq rwin).

Definition recvwin_mark (rwin : RecvWin) (seq : Z) : option RecvWin :=
  b ← BM_SET (bm rwin) (SEQ_IN_WIN seq rwin); Some (rwin .{ bm := b }).

(** The [for] loop of [recvwin_slideack]; [n] is [RECV_WINDOW_SIZE - size], so the
    loop condition [size < RECV_WINDOW_SIZE] is [n <> 0]. *)
Fixpoint slide_loop (n : nat) (rwin : RecvWin) (seq size : Z) : option (RecvWin * Z * Z) :=
  match n with
  | O => Some (rwin, seq, size)
  | S n' =>
    isset ← BM_ISSET (bm rwin) (SEQ_IN_WIN seq rwin);
    if isset : bool then
      b ← BM_UNSET (bm rwin) (SEQ_IN_WIN seq rwin);
      slide_loop n' (rwin .{ bm := b }) (u32 (seq + 1)) (u32 (size + 1))
    else Some (rwin, seq, size)
  end.

Definition recvwin_slideack (rwin : RecvWin) : option RecvWin :=
  r ← slide_loop (Z.to_nat RECV_WINDOW_SIZE) rwin (next_seq rwin) 0;
  let '(rwin', seq, size) := r in
  Some (rwin' .{ front := SEQ_IN_WIN seq rwin' }
              .{ next_seq := u32 (next_seq rwin' + size) }).

(** ** Words and bits *)

Definition word_wf (w : Z) : Prop := - 2 ^ 31 <= w < 2 ^ 31.
Definition bm_wf (b : list Z) : Prop := zlen b = BM_SIZE /\ Forall word_wf b.
Definition bmbit (b : list Z) (i : Z) : bool :=
  Z.testbit (default 0 (zget b (i / INT_SIZE))) (i mod INT_SIZE).

Lemma word_wf_shiftr w : word_wf w <-> Z.shiftr w 31 = 0 \/ Z.shiftr w 31 = -1.
Proof.
  rewrite Z.shiftr_div_pow2 by lia. unfold word_wf.
  split; intros; Z.div_mod_to_equations; lia.
Qed.

Lemma word_wf_lor a b : word_wf a -> word_wf b -> word_wf (Z.lor a b).
Proof.
  rewrite !word_wf_shiftr, Z.shiftr_lor. intros [-> | ->] [-> | ->]; cbn; auto.
Qed.

Lemma word_wf_lxor a b : word_wf a -> word_wf b -> word_wf (Z.lxor a b).
Proof.
  rewrite !word_wf_shiftr, Z.shiftr_lxor. intros [-> | ->] [-> | ->]; cbn; auto.
Qed.

Lemma word_wf_high w n : word_wf w -> 31 <= n -> Z.testbit w n = Z.testbit w 31.
Proof.
  rewrite word_wf_shiftr. intros Hw Hn.
  replace n with ((n - 31) + 31) by lia. replace 31 with (0 + 31) at 3 by lia.
  rewrite <- !Z.shiftr_spec by lia.
  destruct Hw as [-> | ->]; [by rewrite !Z.bits_0 | by rewrite !Z.bits_m1 by lia].
Qed.

Lemma bit_mask_wf i : word_wf (bit_mask i).
Proof. unfold bit_mask, word_wf, s32. mod_lia. Qed.

Lemma bit_mask_testbit i n :
  0 <= n -> Z.testbit (bit_mask i) n =
    if i mod INT_SIZE =? 31 then 31 <=? n else n =? i mod INT_SIZE.
Proof.
  intros Hn. unfold bit_mask, INT_SIZE.
  pose proof (Z.mod_pos_bound i 32 ltac:(lia)) as Hk.
  generalize dependent (i mod 32). intros k Hk.
  destruct (Z.eqb_spec k 31) as [->|Hk31].
  - change (s32 (Z.shiftl 1 31)) with (Z.lnot (Z.ones 31)).
    rewrite Z.lnot_spec by lia.
    destruct (Z.leb_spec 31 n).
    + by rewrite Z.ones_spec_high by lia.
    + by rewrite Z.ones_spec_low by lia.
  - rewrite Z.shiftl_1_l, s32_small.
    + rewrite Z.pow2_bits_eqb by lia. apply Z.eqb_sym.
    + split; [pose proof (Z.pow_nonneg 2 k); lia | apply Z.pow_lt_mono_r; lia].
Qed.

Lemma bit_mask_low i n :
  0 <= n < 32 -> Z.testbit (bit_mask i) n = (n =? i mod INT_SIZE).
Proof.
  intros Hn. rewrite bit_mask_testbit by lia.
  destruct (Z.eqb_spec (i mod INT_SIZE) 31) as [->|]; [|done].
  destruct (Z.leb_spec 31 n), (Z.eqb_spec n 31); lia || done.
Qed.

Lemma land_mask w i :
  word_wf w ->
  negb (Z.land w (bit_mask i) =? 0) = Z.testbit w (i mod INT_SIZE).
Proof.
  intros Hw. pose proof (Z.mod_pos_bound i INT_SIZE ltac:(done)) as Hk.
  unfold INT_SIZE in *.
  destruct (Z.testbit w (i mod 32)) eqn:Hb.
  - apply negb_true_iff, Z.eqb_neq. intros H0.
    assert (Z.testbit (Z.land w (bit_mask i)) (i mod 32) = true) as Ht.
    { rewrite Z.land_spec, Hb, bit_mask_low by lia. unfold INT_SIZE.
      by rewrite Z.eqb_refl. }
    rewrite H0, Z.bits_0 in Ht. done.
  - apply negb_false_iff, Z.eqb_eq. apply Z.bits_inj'. intros n Hn.
    rewrite Z.land_spec, Z.bits_0, bit_mask_testbit by lia. unfold INT_SIZE.
    destruct (Z.eqb_spec (i mod 32) 31) as [E|].
    + destruct (Z.leb_spec 31 n); [|by rewrite andb_false_r].
      rewrite (word_wf_high w n), <- E, Hb by (done || lia). done.
    + destruct (Z.eqb_spec n (i mod 32)) as [->|]; [by rewrite Hb | by rewrite andb_false_r].
Qed.

(** ** The bitmap operations *)

Lemma bm_index_range i :
  0 <= i < RECV_WINDOW_SIZE -> 0 <= i / INT_SIZE < BM_SIZE /\ 0 <= i mod INT_SIZE < 32.
Proof.
  unfold RECV_WINDOW_SIZE, INT_SIZE. change BM_SIZE with 32.
  intros. Z.div_mod_to_equations. lia.
Qed.

Lemma bm_lookup b i :
  bm_wf b -> 0 <= i < RECV_WINDOW_SIZE ->
  exists w, zget b (i / INT_SIZE) = Some w /\ word_wf w /\
    bmbit b i = Z.testbit w (i mod INT_SIZE).
Proof.
  intros [Hlen Hwf] Hi. destruct (bm_index_range i Hi).
  destruct (zget_is_Some b (i / INT_SIZE)) as [w Hw]; [lia|].
  exists w. unfold bmbit. rewrite Hw. split_and!; [done| |done].
  rewrite Forall_lookup in Hwf. unfold zget in Hw. case_decide; [|done]. eauto.
Qed.

Lemma BM_ISSET_spec b i :
  bm_wf b -> 0 <= i < RECV_WINDOW_SIZE -> BM_ISSET b i = Some (bmbit b i).
Proof.
  intros Hb Hi. destruct (bm_lookup b i Hb Hi) as (w & Hw & Hwf & ->).
  unfold BM_ISSET. rewrite Hw. simpl. by rewrite land_mask.
Qed.

(** Both updates of the bitmap replace one word [w] by [f w (bit_mask i)], where
    [f] acts bitwise as [g]. *)
Lemma bm_update_spec (f : Z -> Z -> Z) (g : bool -> bool -> bool) b i :
  (forall x y n, Z.testbit (f x y) n = g (Z.testbit x n) (Z.testbit y n)) ->
  (forall x, g x false = x) ->
  (forall x y, word_wf x -> word_wf y -> word_wf (f x y)) ->
  bm_wf b -> 0 <= i < RECV_WINDOW_SIZE ->
  exists b', (w ← zget b (i / INT_SIZE); zset b (i / INT_SIZE) (f w (bit_mask i))) = Some b'
    /\ bm_wf b'
    /\ forall j, 0 <= j < RECV_WINDOW_SIZE ->
         bmbit b' j = if j =? i then g (bmbit b i) true else bmbit b j.
Proof.
  intros Hf Hg Hwf Hb Hi. destruct (bm_lookup b i Hb Hi) as (w & Hw & Hww & Hbit).
  pose proof (bm_index_range i Hi) as [Hi1 Hi2]. destruct Hb as [Hlen Hall].
  rewrite Hw. simpl.
  destruct (zset_is_Some b (i / INT_SIZE) (f w (bit_mask i))) as [b' Hb']; [lia|].
  exists b'. split; [done|]. split.
  { split; [by rewrite (zset_length _ _ _ _ Hb')|].
    unfold zset in Hb'. case_decide; simplify_eq.
    apply Forall_insert; [done|]. apply Hwf; [done|apply bit_mask_wf]. }
  intros j Hj. pose proof (bm_index_range j Hj) as [Hj1 Hj2].
  rewrite Hbit. unfold bmbit. rewrite (zget_zset _ _ (j / INT_SIZE) _ _ Hb').
  unfold INT_SIZE in *. destruct (decide (j / 32 = i / 32)) as [E|E]; simpl.
  - rewrite Hf, bit_mask_low, E, Hw by lia. unfold INT_SIZE. simpl.
    destruct (Z.eqb_spec j i) as [->|Hne]; [by rewrite Z.eqb_refl|].
    destruct (Z.eqb_spec (j mod 32) (i mod 32)); [|by rewrite Hg].
    exfalso. Z.div_mod_to_equations. lia.
  - destruct (Z.eqb_spec j i) as [->|Hne]; done.
Qed.

Lemma BM_SET_spec b i :
  bm_wf b -> 0 <= i < RECV_WINDOW_SIZE ->
  exists b', BM_SET b i = Some b' /\ bm_wf b' /\
    forall j, 0 <= j < RECV_WINDOW_SIZE -> bmbit b' j = (j =? i) || bmbit b j.
Proof.
  intros Hb Hi. destruct (bm_update_spec Z.lor orb b i) as (b' & ? & ? & Hbits);
    [apply Z.lor_spec | apply orb_false_r | apply word_wf_lor | done | done |].
  exists b'. split_and!; [done..|]. intros j Hj. rewrite Hbits by done.
  rewrite orb_true_r. by destruct (j =? i).
Qed.

Lemma BM_UNSET_spec b i :
  bm_wf b -> 0 <= i < RECV_WINDOW_SIZE -> bmbit b i = true ->
  exists b', BM_UNSET b i = Some b' /\ bm_wf b' /\
    forall j, 0 <= j < RECV_WINDOW_SIZE -> bmbit b' j = negb (j =? i) && bmbit b j.
Proof.
  intros Hb Hi Hset. destruct (bm_update_spec Z.lxor xorb b i) as (b' & ? & ? & Hbits);
    [apply Z.lxor_spec | apply xorb_false_r | apply word_wf_lxor | done | done |].
  exists b'. split_and!; [done..|]. intros j Hj. rewrite Hbits, Hset by done.
  by destruct (j =? i).
Qed.

(** ** The contract *)

(** What the window stands for: the next sequence number expected, and those
    received beyond it. *)
Record WinSpec := { w_next : Z; w_got : gset Z }.

Definition in_window (next s : Z) : Prop := next <= s < next + RECV_WINDOW_SIZE.
#[export] Instance in_window_dec next s : Decision (in_window next s).
Proof. unfold in_window. apply _. Defined.

(** [W_LIMIT] keeps [next_seq] far enough from [2^32] for the window not to wrap. *)
Definition W_LIMIT : Z := 2 ^ 32 - 2 * RECV_WINDOW_SIZE.

Definition rwin_rep (r : RecvWin) (w : WinSpec) : Prop :=
  bm_wf (bm r) /\ 0 <= front r < RECV_WINDOW_SIZE /\
  next_seq r = w_next w /\ 1 <= w_next w <= W_LIMIT /\
  (forall s, s ∈ w_got w <->
     in_window (w_next w) s /\ bmbit (bm r) (SEQ_IN_WIN s r) = true).

Definition spec_mark (w : WinSpec) (s : Z) : WinSpec :=
  {| w_next := w_next w; w_got := {[ s ]} ∪ w_got w |}.

(** The next expected number moves to the first one missing; [n] bounds the search. *)
Fixpoint first_missing (n : nat) (got : gset Z) (s : Z) : Z :=
  match n with
  | O => s
  | S n' => if decide (s ∈ got) then first_missing n' got (s + 1) else s
  end.
Definition next_missing (w : WinSpec) : Z :=
  first_missing (Z.to_nat RECV_WINDOW_SIZE) (w_got w) (w_next w).
Definition spec_slide (w : WinSpec) : WinSpec :=
  {| w_next := next_missing w; w_got := filter (fun s => next_missing w <= s) (w_got w) |}.

Lemma SEQ_IN_WIN_range s r : 0 <= SEQ_IN_WIN s r < RECV_WINDOW_SIZE.
Proof. by apply Z.mod_pos_bound. Qed.

Lemma SEQ_IN_WIN_mod s r :
  SEQ_IN_WIN s r = (s - next_seq r + front r) mod RECV_WINDOW_SIZE.
Proof.
  unfold SEQ_IN_WIN, MOD_WIN, RECV_WINDOW_SIZE, u32.
  Z.div_mod_to_equations. lia.
Qed.

Lemma SEQ_IN_WIN_inj s t r :
  in_window (next_seq r) s -> in_window (next_seq r) t ->
  SEQ_IN_WIN s r = SEQ_IN_WIN t r -> s = t.
Proof.
  rewrite !SEQ_IN_WIN_mod. unfold in_window, RECV_WINDOW_SIZE. intros.
  Z.div_mod_to_equations. lia.
Qed.


(** ** Refinement of each operation *)

Lemma rwin_rep_window r w s : rwin_rep r w -> s ∈ w_got w -> in_window (w_next w) s.
Proof. intros (_ & _ & _ & _ & H) Hs. by apply H in Hs as [? _]. Qed.

Lemma first_missing_spec n got s :
  s <= first_missing n got s <= s + Z.of_nat n /\
  (forall t, s <= t < first_missing n got s -> t ∈ got) /\
  (first_missing n got s ∉ got \/ first_missing n got s = s + Z.of_nat n).
Proof.
  revert s. induction n as [|n IH]; intros s; simpl.
  - split_and!; [lia..| |right; lia]. intros; lia.
  - case_decide as Hs; [|split_and!; [lia..| |by left]; intros; lia].
    destruct (IH (s + 1)) as (? & Hall & Hend). split_and!; [lia..| |].
    + intros t Ht. destruct (decide (t = s)) as [->|]; [done|]. apply Hall. lia.
    + destruct Hend; [by left|right; lia].
Qed.

Lemma next_missing_spec r w :
  rwin_rep r w ->
  w_next w <= next_missing w <= w_next w + RECV_WINDOW_SIZE /\
  (forall t, w_next w <= t < next_missing w -> t ∈ w_got w) /\
  next_missing w ∉ w_got w.
Proof.
  intros Hrep. unfold next_missing.
  destruct (first_missing_spec (Z.to_nat RECV_WINDOW_SIZE) (w_got w) (w_next w))
    as (Hr & Hall & Hend).
  rewrite Z2Nat.id in Hr, Hend by (unfold RECV_WINDOW_SIZE; lia).
  split_and!; [lia..|done|]. destruct Hend as [?|E]; [done|]. rewrite E.
  intros Hin%(rwin_rep_window _ _ _ Hrep). unfold in_window in Hin. lia.
Qed.

Lemma seq_fit_in_rep r w s :
  rwin_rep r w -> seq_fit_in r s = bool_decide (in_window (w_next w) s).
Proof.
  intros (_ & _ & Hn & Hlim & _). unfold seq_fit_in. rewrite Hn.
  unfold W_LIMIT, RECV_WINDOW_SIZE in *. rewrite u32_small by lia.
  symmetry. unfold in_window, RECV_WINDOW_SIZE. case_bool_decide; lia.
Qed.

Lemma seq_exist_in_rep r w s :
  rwin_rep r w -> in_window (w_next w) s ->
  seq_exist_in r s = Some (bool_decide (s ∈ w_got w)).
Proof.
  intros (Hb & _ & Hn & _ & Hgot) Hs. unfold seq_exist_in.
  rewrite BM_ISSET_spec by (done || apply SEQ_IN_WIN_range). f_equal.
  case_bool_decide as Hd; rewrite Hgot in Hd; [by destruct Hd|].
  apply not_true_is_false. tauto.
Qed.

Lemma bmbit_clear i : bmbit BM_CLR i = false.
Proof.
  unfold bmbit. destruct (zget _ _) as [z|] eqn:E; simpl; [|apply Z.bits_0].
  unfold zget in E. case_decide; [|done]. apply lookup_replicate in E as [-> _]. apply Z.bits_0.
Qed.

Lemma init_recvwin_rep : rwin_rep init_recvwin {| w_next := 1; w_got := ∅ |}.
Proof.
  split_and!; [split; [done|] | done.. |].
  { apply Forall_replicate. unfold word_wf. lia. }
  simpl. intros s. split; [set_solver|]. intros [_ Hb]. by rewrite bmbit_clear in Hb.
Qed.

Lemma recvwin_mark_rep r w s :
  rwin_rep r w -> in_window (w_next w) s ->
  exists r', recvwin_mark r s = Some r' /\ rwin_rep r' (spec_mark w s).
Proof.
  intros (Hb & Hf & Hn & Hlim & Hgot) Hs. unfold recvwin_mark.
  destruct (BM_SET_spec (bm r) (SEQ_IN_WIN s r)) as (b' & -> & Hb' & Hbits);
    [done | apply SEQ_IN_WIN_range |].
  simpl. eexists. split; [done|]. split_and!; simpl; [done|lia..|].
  intros t. change (SEQ_IN_WIN t _) with (SEQ_IN_WIN t r).
  rewrite Hbits by apply SEQ_IN_WIN_range. simpl.
  rewrite elem_of_union, elem_of_singleton, Hgot, orb_true_iff, Z.eqb_eq.
  split; [intros [->|[? ?]]; tauto|]. intros [Ht [E|E]]; [left|tauto].
  eapply SEQ_IN_WIN_inj; rewrite ?Hn; eauto.
Qed.

Lemma slide_loop_rep got next n : forall r s,
  bm_wf (bm r) -> next_seq r = next -> next <= s -> s + Z.of_nat n = next + RECV_WINDOW_SIZE ->
  1 <= next <= W_LIMIT ->
  (forall t, in_window next t ->
     bmbit (bm r) (SEQ_IN_WIN t r) = true <-> t ∈ got /\ s <= t) ->
  exists r', slide_loop n r s (s - next) =
      Some (r', first_missing n got s, first_missing n got s - next)
    /\ bm_wf (bm r') /\ next_seq r' = next /\ front r' = front r
    /\ forall t, in_window next t ->
         bmbit (bm r') (SEQ_IN_WIN t r') = true <-> t ∈ got /\ first_missing n got s <= t.
Proof.
  induction n as [|n IH]; intros r s Hb Hnx Hs Hn Hlim Hbits; simpl; [eauto 7|].
  rewrite BM_ISSET_spec by (done || apply SEQ_IN_WIN_range). simpl.
  assert (in_window next s) as Hin by (unfold in_window, RECV_WINDOW_SIZE in *; lia).
  assert (bmbit (bm r) (SEQ_IN_WIN s r) = true <-> s ∈ got) as Hbs.
  { rewrite Hbits by done. split; [tauto|]. intros; split; [done|lia]. }
  case_decide as Hgs.
  - pose proof (proj2 Hbs Hgs) as E. rewrite E.
    destruct (BM_UNSET_spec (bm r) (SEQ_IN_WIN s r)) as (b' & -> & Hb' & Hbits');
      [done | apply SEQ_IN_WIN_range | done |].
    simpl. unfold W_LIMIT, RECV_WINDOW_SIZE in *. wrap_small.
    replace (s - next + 1) with (s + 1 - next) by lia.
    destruct (IH (r .{ bm := b' }) (s + 1)) as (r' & Hr' & ? & ? & ? & Hfin);
      simpl; [done | done | lia.. | |].
    + intros t Ht. change (SEQ_IN_WIN t _) with (SEQ_IN_WIN t r).
      rewrite Hbits' by apply SEQ_IN_WIN_range.
      rewrite andb_true_iff, Hbits, negb_true_iff, Z.eqb_neq by done.
      destruct (decide (t = s)) as [->|Hts].
      { split; [intros [? _]; congruence | intros [_ ?]; lia]. }
      assert (SEQ_IN_WIN t r <> SEQ_IN_WIN s r) by (intros Heq; apply Hts; eapply SEQ_IN_WIN_inj; rewrite ?Hnx; eauto).
      split; intros; split_and!; try tauto; lia.
    + exists r'. by split_and!.
  - rewrite (not_true_is_false _ (fun E => Hgs (proj1 Hbs E))). eauto 7.
Qed.

Lemma slide_loop_window r w :
  rwin_rep r w ->
  exists r', slide_loop (Z.to_nat RECV_WINDOW_SIZE) r (next_seq r) 0 =
      Some (r', next_missing w, next_missing w - next_seq r)
    /\ bm_wf (bm r') /\ next_seq r' = next_seq r /\ front r' = front r
    /\ forall t, in_window (next_seq r) t ->
         bmbit (bm r') (SEQ_IN_WIN t r') = true <-> t ∈ w_got w /\ next_missing w <= t.
Proof.
  intros (Hb & Hf & Hn & Hlim & Hgot). unfold next_missing. rewrite <- Hn in *.
  rewrite <- (Z.sub_diag (next_seq r)). apply slide_loop_rep; [done|done|lia| |lia|].
  { rewrite Z2Nat.id by (unfold RECV_WINDOW_SIZE; lia). done. }
  intros t Ht. rewrite Hgot. unfold in_window in *. tauto.
Qed.

Lemma recvwin_slideack_rep r w :
  rwin_rep r w -> w_next w + RECV_WINDOW_SIZE <= W_LIMIT ->
  exists r', recvwin_slideack r = Some r' /\ rwin_rep r' (spec_slide w).
Proof.
  intros Hrep Hlim'. pose proof Hrep as (Hb & Hf & Hn & Hlim & Hgot).
  unfold recvwin_slideack.
  destruct (slide_loop_window r w Hrep) as (r' & -> & Hb' & Hn' & Hf' & Hbits').
  destruct (next_missing_spec r w Hrep) as (Hfm & Hall & _).
  unfold spec_slide. generalize dependent (next_missing w). intros fm Hbits' Hfm Hall.
  cbn [mbind option_bind]. rewrite Hn'.
  replace (next_seq r + (fm - next_seq r)) with fm by lia.
  unfold W_LIMIT, RECV_WINDOW_SIZE in *. rewrite (u32_small fm) by lia.
  eexists. split; [done|].
  split_and!; simpl; [done|apply SEQ_IN_WIN_range..|done|lia|unfold W_LIMIT, RECV_WINDOW_SIZE; lia|].
  intros s. rewrite elem_of_filter.
  (* a number seen from the new front sits where its residue sat from the old one *)
  assert (forall t, SEQ_IN_WIN s
    {| bm := bm r'; front := SEQ_IN_WIN fm r'; next_seq := fm |} = SEQ_IN_WIN t r'
    <-> (s - t) mod RECV_WINDOW_SIZE = 0) as Hpos.
  { intros t. rewrite !SEQ_IN_WIN_mod. simpl. unfold RECV_WINDOW_SIZE.
    split; intros; Z.div_mod_to_equations; lia. }
  unfold in_window, RECV_WINDOW_SIZE in *. split.
  - intros [Hge Hs]. pose proof (rwin_rep_window _ _ _ Hrep Hs) as Hw.
    unfold in_window, RECV_WINDOW_SIZE in Hw. rewrite <- Hn in Hw. split; [lia|].
    rewrite (proj2 (Hpos s)) by (rewrite Z.sub_diag; done). apply Hbits'; [lia|done].
  - intros [Hs Hbit]. destruct (decide (s < next_seq r + 1024)).
    + rewrite (proj2 (Hpos s)) in Hbit by (rewrite Z.sub_diag; done).
      apply Hbits' in Hbit; [tauto|lia].
    + exfalso. rewrite (proj2 (Hpos (s - 1024))) in Hbit.
      * apply Hbits' in Hbit; lia.
      * by replace (s - (s - 1024)) with 1024 by lia.
Qed.

(** ** Memory safety without the contract

    Whatever the numbers, the operations stay inside the bitmap. *)

Lemma BM_UNSET_total b i :
  bm_wf b -> 0 <= i < RECV_WINDOW_SIZE -> exists b', BM_UNSET b i = Some b' /\ bm_wf b'.
Proof.
  intros Hb Hi. destruct (bm_update_spec Z.lxor xorb b i) as (b' & E & Hb' & _);
    [apply Z.lxor_spec | apply xorb_false_r | apply word_wf_lxor | done | done | eauto].
Qed.

Lemma recvwin_mark_total r s :
  bm_wf (bm r) -> exists b, recvwin_mark r s = Some (r .{ bm := b }) /\ bm_wf b.
Proof.
  intros Hb. destruct (BM_SET_spec (bm r) (SEQ_IN_WIN s r)) as (b & E & Hb' & _);
    [done|apply SEQ_IN_WIN_range|]. exists b. unfold recvwin_mark. by rewrite E.
Qed.

Lemma slide_loop_total n : forall r s size,
  bm_wf (bm r) -> exists r' s' size', slide_loop n r s size = Some (r', s', size') /\ bm_wf (bm r').
Proof.
  induction n as [|n IH]; intros r s size Hb; cbn [slide_loop]; [by eauto 10|].
  rewrite BM_ISSET_spec, option_bind_Some by (done || apply SEQ_IN_WIN_range).
  destruct (bmbit _ _); [|by eauto 10].
  destruct (BM_UNSET_total (bm r) (SEQ_IN_WIN s r)) as (b & E & Hb');
    [done|apply SEQ_IN_WIN_range|]. rewrite E, option_bind_Some. by apply IH.
Qed.

Lemma recvwin_slideack_total r :
  bm_wf (bm r) -> exists r', recvwin_slideack r = Some r' /\ bm_wf (bm r').
Proof.
  intros Hb. unfold recvwin_slideack.
  destruct (slide_loop_total (Z.to_nat RECV_WINDOW_SIZE) r (next_seq r) 0 Hb)
    as (r' & s' & size' & E & Hb'). rewrite E, option_bind_Some. eexists. split; [done|exact Hb'].
Qed.

Lemma seq_exist_in_total r s : bm_wf (bm r) -> exists b, seq_exist_in r s = Some b.
Proof. intros Hb. eexists. apply BM_ISSET_spec; [done|apply SEQ_IN_WIN_range]. Qed.

(** ** Properties *)

(** C17: for a window whose next number is from 1 to 2^32 - 2048 ([rwin_rep]; a chunk
    has 512 packets), [seq_fit_in] decides membership in the 1024 numbers from the
    next one, [seq_exist_in] decides whether a number in it was received,
    [recvwin_mark] records it; no access leaves the bitmap. *)
Theorem recvwin_mark_refines (r : RecvWin) (w : WinSpec) (s : Z) :
  rwin_rep r w ->
  seq_fit_in r s = bool_decide (in_window (w_next w) s) /\
  (seq_fit_in r s = true ->
     seq_exist_in r s = Some (bool_decide (s ∈ w_got w)) /\
     exists r', recvwin_mark r s = Some r' /\ rwin_rep r' (spec_mark w s)).
Proof.
  intros Hrep. pose proof (seq_fit_in_rep _ _ s Hrep) as Hfit. split; [done|].
  rewrite Hfit. intros Hin%bool_decide_eq_true.
  split; [by apply seq_exist_in_rep | by apply recvwin_mark_rep].
Qed.

Lemma recvwin_mark_refines_witness :
  exists r', recvwin_mark init_recvwin 3 = Some r' /\
    rwin_rep r' {| w_next := 1; w_got := {[ 3 ]} ∪ ∅ |}.
Proof.
  destruct (recvwin_mark_refines init_recvwin _ 3 init_recvwin_rep) as [_ [_ H]].
  - reflexivity.
  - exact H.
Defined.

(** Near 2^32 the end of the window wraps around in [seq_fit_in], and a window that
    should accept 1024 numbers accepts none; no chunk has that many packets. *)
Lemma seq_fit_in_wraps (r : RecvWin) (s : Z) :
  2 ^ 32 - RECV_WINDOW_SIZE <= next_seq r < 2 ^ 32 -> seq_fit_in r s = false.
Proof.
  unfold seq_fit_in, u32, RECV_WINDOW_SIZE. intros H.
  assert ((next_seq r + 1024) mod 2 ^ 32 = next_seq r + 1024 - 2 ^ 32) as ->.
  { symmetry. apply (Z.mod_unique _ _ 1); lia. }
  apply andb_false_iff. rewrite Z.leb_gt, Z.ltb_ge. lia.
Qed.

Lemma seq_fit_in_wraps_witness :
  seq_fit_in (init_recvwin .{ next_seq := 2 ^ 32 - 10 }) (2 ^ 32 - 10) = false.
Proof. apply seq_fit_in_wraps. unfold RECV_WINDOW_SIZE. simpl. lia. Defined.

(** C16: [recvwin_slideack] moves the window to the first number not received:
    every number it passes over had been received, the new [next_seq] had not, and
    the numbers beyond it are kept; the loop stops within the window's size. *)
Theorem recvwin_slideack_refines (r : RecvWin) (w : WinSpec) :
  rwin_rep r w -> w_next w + RECV_WINDOW_SIZE <= W_LIMIT ->
  exists r', recvwin_slideack r = Some r' /\ rwin_rep r' (spec_slide w) /\
    w_next w <= next_seq r' <= w_next w + RECV_WINDOW_SIZE /\
    (forall t, w_next w <= t < next_seq r' -> t ∈ w_got w) /\
    next_seq r' ∉ w_got w.
Proof.
  intros Hrep Hlim. destruct (recvwin_slideack_rep _ _ Hrep Hlim) as (r' & Hr' & Hrep').
  destruct (next_missing_spec _ _ Hrep) as (? & ? & ?).
  exists r'. assert (next_seq r' = next_missing w) as -> by apply Hrep'. auto.
Qed.

Lemma recvwin_slideack_refines_witness :
  exists r r', recvwin_mark init_recvwin 1 = Some r /\ recvwin_slideack r = Some r' /\
    rwin_rep r' (spec_slide {| w_next := 1; w_got := {[ 1 ]} ∪ ∅ |}).
Proof.
  destruct (recvwin_mark_rep init_recvwin _ 1 init_recvwin_rep) as (r & Hr & Hrep).
  - unfold in_window, RECV_WINDOW_SIZE. simpl. lia.
  - destruct (recvwin_slideack_refines r _ Hrep) as (r' & Hr' & Hrep' & _).
    + unfold W_LIMIT, RECV_WINDOW_SIZE. simpl. lia.
    + exists r, r'. auto.
Defined.
