(* ===== verification/LinkedList.v ===== *)
(** * LinkedList: the circular doubly-linked list (linkedlist.c)

    A [Linlist] embeds its head node; nodes live in a store indexed by address.
    The head is at address [head_loc]. Each list has its own store: a node is
    linked into one list only, and [malloc] gives it a fresh address. An access
    to an address that is not allocated is undefined behaviour, [None]. The item
    a node points to is owned by it alone, so it is kept in the node.

    [ll_rep] says that a list's store holds, in order, a given sequence of
    addresses and items; the operations refine the list operations on it. *)

From S2P Require Import Prelude.

(** ** The code *)

Record ll_Node {A : Type} := { nd_next : Z; nd_prev : Z; nd_item : option A }.
Arguments ll_Node : clear implicits.
#[export] Instance ll_Node_settable {A} : Settable (ll_Node A) :=
  fun n => {| nd_next := nd_next n; nd_prev := nd_prev n; nd_item := nd_item n |}.

Record Linlist {A : Type} := { ll_heap : gmap Z (ll_Node A); ll_cnt : Z; ll_brk : Z }.
Arguments Linlist : clear implicits.
#[export] Instance Linlist_settable {A} : Settable (Linlist A) :=
  fun l => {| ll_heap := ll_heap l; ll_cnt := ll_cnt l; ll_brk := ll_brk l |}.

Definition head_loc : Z := 0.
(** The value of a pointer that was never assigned: no store has this address. *)
Definition wild_loc : Z := -1.

Section Code.
Context {A : Type}.
Implicit Types (h : gmap Z (ll_Node A)) (ll : Linlist A).

(** Reading through a pointer. *)
Definition load h (l : Z) : option (ll_Node A) := h !! l.
Definition set_next h (l v : Z) : option (gmap Z (ll_Node A)) :=
  n ← load h l; Some (<[ l := n .{ nd_next := v } ]> h).
Definition set_prev h (l v : Z) : option (gmap Z (ll_Node A)) :=
  n ← load h l; Some (<[ l := n .{ nd_prev := v } ]> h).
Definition set_item h (l : Z) (x : A) : option (gmap Z (ll_Node A)) :=
  n ← load h l; Some (<[ l := n .{ nd_item := Some x } ]> h).

(** [malloc] succeeding; its failure is the caller's early return. *)
Definition new_ll_Node ll (x : A) : Linlist A * Z :=
  (ll .{ ll_heap := <[ ll_brk ll :=
           {| nd_next := wild_loc; nd_prev := wild_loc; nd_item := Some x |} ]> (ll_heap ll) }
      .{ ll_brk := ll_brk ll + 1 }, ll_brk ll).

Definition init_linkedlist ll : Linlist A :=
  ll .{ ll_heap := <[ head_loc :=
          {| nd_next := head_loc; nd_prev := head_loc; nd_item := None |} ]> (ll_heap ll) }
     .{ ll_cnt := 0 }.

(** The [while] loop of [ll_delete_allnodes]: [next] is read before the node is
    freed. The fuel is the number of allocated nodes, which the loop frees. *)
Fixpoint delete_loop (fuel : nat) h (iter : Z) : option (gmap Z (ll_Node A)) :=
  if iter =? head_loc then Some h else
  match fuel with
  | O => None
  | S fuel' => n ← load h iter; delete_loop fuel' (delete iter h) (nd_next n)
  end.
Definition ll_delete_allnodes ll : option (Linlist A) :=
  hd ← load (ll_heap ll) head_loc;
  h ← delete_loop (size (ll_heap ll)) (ll_heap ll) (nd_next hd);
  Some (ll .{ ll_heap := h }).

Definition ll_count ll : Z := ll_cnt ll.

Definition ll_insert_last ll (node : Z) : option (Linlist A) :=
  hd ← load (ll_heap ll) head_loc;
  let last := nd_prev hd in
  h1 ← set_next (ll_heap ll) last node;
  h2 ← set_prev h1 node last;
  h3 ← set_next h2 node head_loc;
  h4 ← set_prev h3 head_loc node;
  Some (ll .{ ll_heap := h4 } .{ ll_cnt := s32 (ll_cnt ll + 1) }).

Definition ll_remove ll (node : Z) : option (Linlist A) :=
  n ← load (ll_heap ll) node;
  h1 ← set_prev (ll_heap ll) (nd_next n) (nd_prev n);
  h2 ← set_next h1 (nd_prev n) (nd_next n);
  Some (ll .{ ll_heap := h2 } .{ ll_cnt := s32 (ll_cnt ll - 1) }).

Definition ll_start ll : option Z := hd ← load (ll_heap ll) head_loc; Some (nd_next hd).
Definition ll_next ll (node : Z) : option Z := n ← load (ll_heap ll) node; Some (nd_next n).
Definition ll_end : Z := head_loc.

(** The item a node points to, read and replaced through the node. *)
Definition ll_item ll (node : Z) : option A := n ← load (ll_heap ll) node; nd_item n.
Definition ll_update_item ll (node : Z) (x : A) : option (Linlist A) :=
  h ← set_item (ll_heap ll) node x; Some (ll .{ ll_heap := h }).
End Code.

(** ** The representation *)

Section Rep.
Context {A : Type}.
Implicit Types (h : gmap Z (ll_Node A)) (ll : Linlist A) (xs : list (Z * A)).

Definition nx h (l : Z) : option Z := nd_next <$> h !! l.
Definition pv h (l : Z) : option Z := nd_prev <$> h !! l.
Definition it h (l : Z) : option (option A) := nd_item <$> h !! l.

(** From [p], the links lead through the nodes of [xs] to [e], and back. *)
Fixpoint chain h (p : Z) xs (e : Z) : Prop :=
  match xs with
  | [] => nx h p = Some e /\ pv h e = Some p
  | (l, x) :: xs' =>
    nx h p = Some l /\ pv h l = Some p /\ it h l = Some (Some x) /\ chain h l xs' e
  end.

Definition ll_rep ll xs : Prop :=
  chain (ll_heap ll) head_loc xs head_loc /\
  NoDup (head_loc :: xs.*1) /\
  ll_cnt ll = zlen xs /\ zlen xs < 2 ^ 31 - 1 /\
  head_loc < ll_brk ll /\
  (forall l, is_Some (ll_heap ll !! l) -> head_loc <= l < ll_brk ll).

Definition last_loc (p : Z) xs : Z := default p (last (xs.*1)).

Lemma last_loc_cons p l x xs : last_loc p ((l, x) :: xs) = last_loc l xs.
Proof. unfold last_loc. rewrite fmap_cons, last_cons. simpl. by destruct (last xs.*1). Qed.

Lemma last_loc_elem p xs : last_loc p xs ∈ p :: xs.*1.
Proof.
  unfold last_loc. destruct (last xs.*1) as [l|] eqn:E; simpl; [|left].
  right. by apply last_Some_elem_of.
Qed.

Lemma last_loc_snoc p xs l x : last_loc p (xs ++ [(l, x)]) = l.
Proof. unfold last_loc. by rewrite fmap_app, last_app. Qed.

Lemma set_next_spec h l v : is_Some (h !! l) ->
  exists h', set_next h l v = Some h' /\
    (forall m, nx h' m = if decide (m = l) then Some v else nx h m) /\
    (forall m, pv h' m = pv h m) /\ (forall m, it h' m = it h m) /\ dom h' = dom h.
Proof.
  intros [n Hn]. unfold set_next, load. rewrite Hn. simpl. eexists. split; [done|].
  unfold nx, pv, it. split_and!.
  - intros m. rewrite lookup_insert. destruct (decide (l = m)), (decide (m = l)); subst; done.
  - intros m. rewrite lookup_insert. case_decide; subst; [by rewrite Hn|done].
  - intros m. rewrite lookup_insert. case_decide; subst; [by rewrite Hn|done].
  - apply dom_insert_lookup_L. by rewrite Hn.
Qed.

Lemma set_prev_spec h l v : is_Some (h !! l) ->
  exists h', set_prev h l v = Some h' /\
    (forall m, pv h' m = if decide (m = l) then Some v else pv h m) /\
    (forall m, nx h' m = nx h m) /\ (forall m, it h' m = it h m) /\ dom h' = dom h.
Proof.
  intros [n Hn]. unfold set_prev, load. rewrite Hn. simpl. eexists. split; [done|].
  unfold nx, pv, it. split_and!.
  - intros m. rewrite lookup_insert. destruct (decide (l = m)), (decide (m = l)); subst; done.
  - intros m. rewrite lookup_insert. case_decide; subst; [by rewrite Hn|done].
  - intros m. rewrite lookup_insert. case_decide; subst; [by rewrite Hn|done].
  - apply dom_insert_lookup_L. by rewrite Hn.
Qed.

Lemma nx_is_Some h l v : nx h l = Some v -> is_Some (h !! l).
Proof. unfold nx. intros (n & -> & _)%fmap_Some. eauto. Qed.
Lemma pv_is_Some h l v : pv h l = Some v -> is_Some (h !! l).
Proof. unfold pv. intros (n & -> & _)%fmap_Some. eauto. Qed.

Lemma alloc_dom h h' l : dom h' = dom h -> is_Some (h !! l) <-> is_Some (h' !! l).
Proof. intros E. by rewrite <- !elem_of_dom, E. Qed.

Lemma chain_ends h p xs e :
  chain h p xs e -> pv h e = Some (last_loc p xs) /\ nx h (last_loc p xs) = Some e.
Proof.
  revert p. induction xs as [|[l x] xs IH]; intros p; simpl; [tauto|].
  intros (_ & _ & _ & H). rewrite last_loc_cons. by apply IH.
Qed.

Lemma chain_alloc h p xs e l : chain h p xs e -> l ∈ p :: xs.*1 -> is_Some (h !! l).
Proof.
  revert p. induction xs as [|[l' x] xs IH]; intros p; simpl.
  - intros [Hp _]. rewrite list_elem_of_singleton. intros ->. by eapply nx_is_Some.
  - intros (Hp & _ & _ & H). rewrite elem_of_cons.
    intros [->|Hl]; [by eapply nx_is_Some|by eapply IH].
Qed.

(** A chain through a node splits there. *)
Lemma chain_mid h p xs l x ys e :
  chain h p (xs ++ (l, x) :: ys) e <->
  chain h p xs l /\ it h l = Some (Some x) /\ chain h l ys e.
Proof.
  revert p. induction xs as [|[l' x'] xs IH]; intros p; simpl; [tauto|].
  rewrite IH. tauto.
Qed.

(** A chain survives changes away from its nodes, and may be led to another end. *)
Lemma chain_redirect h h' p xs e e' :
  chain h p xs e -> NoDup (p :: xs.*1) ->
  nx h' (last_loc p xs) = Some e' -> pv h' e' = Some (last_loc p xs) ->
  (forall m, m ∈ p :: xs.*1 -> m <> last_loc p xs -> nx h' m = nx h m) ->
  (forall m, m ∈ xs.*1 -> pv h' m = pv h m /\ it h' m = it h m) ->
  chain h' p xs e'.
Proof.
  revert p. induction xs as [|[l x] xs IH]; intros p; simpl; [by unfold last_loc|].
  intros (Hp & Hl & Hi & Hc) [Hnp Hnd]%NoDup_cons. rewrite last_loc_cons.
  intros Hlast Hback Hnx Hpv.
  destruct (Hpv l) as [Hpl Hil]; [left|]. split_and!; [| congruence | congruence |].
  - rewrite Hnx; [done|left|]. intros E. apply Hnp. rewrite E. apply last_loc_elem.
  - apply IH; [done..| |].
    + intros m Hm. apply Hnx. by right.
    + intros m Hm. apply Hpv. by right.
Qed.

Lemma chain_frame h h' p xs e :
  chain h p xs e ->
  (forall m, m ∈ p :: xs.*1 -> nx h' m = nx h m) ->
  (forall m, m ∈ xs.*1 -> pv h' m = pv h m /\ it h' m = it h m) ->
  pv h' e = pv h e ->
  chain h' p xs e.
Proof.
  revert p. induction xs as [|[l x] xs IH]; intros p; simpl.
  - intros [? ?] Hnx _ He. rewrite Hnx, He by left. done.
  - intros (? & ? & ? & Hc) Hnx Hpv He. rewrite Hnx by left.
    destruct (Hpv l) as [-> ->]; [left|]. split_and!; [done..|].
    apply IH; [done| | |done]; intros m Hm; [apply Hnx; by right|apply Hpv; by right].
Qed.

Lemma ll_rep_head ll xs : ll_rep ll xs -> exists hd,
  load (ll_heap ll) head_loc = Some hd /\ nd_prev hd = last_loc head_loc xs.
Proof.
  intros (Hc & _). destruct (chain_ends _ _ _ _ Hc) as [Hpv _]. unfold pv in Hpv.
  apply fmap_Some in Hpv as (hd & Hhd & ->). unfold load. eauto.
Qed.

(** The node given by [malloc] is allocated, outside the list, and does not
    disturb it. *)
Lemma new_ll_Node_rep ll xs x :
  ll_rep ll xs ->
  let '(ll', l) := new_ll_Node ll x in
  ll_rep ll' xs /\ (l ∉ (head_loc :: xs.*1)) /\ it (ll_heap ll') l = Some (Some x).
Proof.
  intros (Hc & Hnd & Hcnt & Hmax & Hbrk & Hdom). simpl.
  assert (ll_brk ll ∉ (head_loc :: xs.*1)) as Hfresh.
  { intros Hin. apply (chain_alloc _ _ _ _ _ Hc), Hdom in Hin. lia. }
  split_and!; [|done|unfold it; by rewrite lookup_insert_eq].
  split_and!; simpl; [|done..|lia|].
  - eapply chain_frame; [done| | |];
      [intros m Hm|intros m Hm|]; unfold nx, pv, it; rewrite lookup_insert_ne;
      try done; try (intros <-; apply Hfresh; by (done || right)).
    intros E. apply Hfresh. rewrite E. left.
  - intros l. rewrite lookup_insert_is_Some. intros [<-|[_ ?%Hdom]]; lia.
Qed.

Lemma ll_insert_last_rep ll xs l x :
  ll_rep ll xs -> l ∉ (head_loc :: xs.*1) -> it (ll_heap ll) l = Some (Some x) ->
  zlen xs < 2 ^ 31 - 2 ->
  exists ll', ll_insert_last ll l = Some ll' /\ ll_rep ll' (xs ++ [(l, x)]).
Proof.
  intros Hrep Hfresh Hit Hmax2.
  destruct (ll_rep_head _ _ Hrep) as (hd & Hhd & Hlast).
  destruct Hrep as (Hc & Hnd & Hcnt & Hmax & Hbrk & Hdom).
  pose proof (last_loc_elem head_loc xs) as Hll.
  pose proof (chain_alloc _ _ _ _ _ Hc Hll) as Hall.
  pose proof (chain_alloc _ _ _ _ head_loc Hc ltac:(left)) as Halh.
  assert (is_Some (ll_heap ll !! l)) as Hal.
  { unfold it in Hit. apply fmap_Some in Hit as (n & -> & _). eauto. }
  assert (l <> last_loc head_loc xs /\ l <> head_loc) as [Hne1 Hne2].
  { split; intros E; apply Hfresh; rewrite E; [done|left]. }
  unfold ll_insert_last. rewrite Hhd. cbn [mbind option_bind]. rewrite Hlast.
  destruct (set_next_spec (ll_heap ll) (last_loc head_loc xs) l) as (h1 & -> & Hn1 & Hp1 & Hi1 & Hd1); [done|].
  cbn [mbind option_bind].
  destruct (set_prev_spec h1 l (last_loc head_loc xs)) as (h2 & -> & Hp2 & Hn2 & Hi2 & Hd2).
  { by rewrite <- (alloc_dom _ _ _ Hd1). }
  cbn [mbind option_bind].
  destruct (set_next_spec h2 l head_loc) as (h3 & -> & Hn3 & Hp3 & Hi3 & Hd3).
  { by rewrite <- (alloc_dom _ _ _ Hd2), <- (alloc_dom _ _ _ Hd1). }
  cbn [mbind option_bind].
  destruct (set_prev_spec h3 head_loc l) as (h4 & -> & Hp4 & Hn4 & Hi4 & Hd4).
  { by rewrite <- (alloc_dom _ _ _ Hd3), <- (alloc_dom _ _ _ Hd2), <- (alloc_dom _ _ _ Hd1). }
  eexists. split; [done|]. split_and!; simpl; [| | | | done |].
  - apply chain_mid. split_and!.
    + eapply chain_redirect; [exact Hc|done|..].
      * rewrite Hn4, Hn3, Hn2, Hn1, decide_False, decide_True by congruence. done.
      * rewrite Hp4, Hp3, Hp2, decide_False, decide_True by congruence. done.
      * intros m Hm Hml. rewrite Hn4, Hn3, Hn2, Hn1, !decide_False by congruence. done.
      * intros m Hm. apply NoDup_cons in Hnd as [Hh _].
        assert (m <> l /\ m <> head_loc) as [? ?].
        { split; intros ->; [apply Hfresh; by right|done]. }
        rewrite Hp4, Hp3, Hp2, Hp1, Hi4, Hi3, Hi2, Hi1, !decide_False by done. done.
    + by rewrite Hi4, Hi3, Hi2, Hi1.
    + simpl. rewrite Hn4, Hn3, Hp4, !decide_True by done. done.
  - rewrite fmap_app. simpl. change (NoDup ((head_loc :: xs.*1) ++ [l])).
    apply NoDup_app. split_and!; [done| |apply NoDup_singleton].
    intros m Hm E%list_elem_of_singleton. congruence.
  - rewrite Hcnt, length_app, s32_small; simpl; lia.
  - rewrite length_app. simpl. lia.
  - intros m Hm. apply Hdom.
    by rewrite (alloc_dom _ _ _ Hd1), (alloc_dom _ _ _ Hd2), (alloc_dom _ _ _ Hd3), (alloc_dom _ _ _ Hd4).
Qed.

Lemma NoDup_mid xs l x ys :
  NoDup (head_loc :: (xs ++ (l, x) :: ys).*1) ->
  NoDup (head_loc :: (xs ++ ys).*1) /\ NoDup (head_loc :: xs.*1) /\
  (l ∉ (head_loc :: (xs ++ ys).*1)) /\
  (forall m, m ∈ head_loc :: xs.*1 -> m ∉ ys.*1).
Proof.
  rewrite !fmap_app, fmap_cons. simpl. rewrite !app_comm_cons. intros Hnd.
  assert (Permutation ((head_loc :: xs.*1) ++ l :: ys.*1) (l :: (head_loc :: xs.*1) ++ ys.*1))
    as HP by (symmetry; apply Permutation_middle).
  rewrite HP in Hnd. apply NoDup_cons in Hnd as [Hl Hnd].
  pose proof (NoDup_app (head_loc :: xs.*1) ys.*1) as [Happ _].
  destruct (Happ Hnd) as (? & ? & ?). done.
Qed.

(** Unlinking a node leaves it allocated, but out of the list. *)
Lemma ll_remove_rep ll xs l x ys :
  ll_rep ll (xs ++ (l, x) :: ys) ->
  exists ll', ll_remove ll l = Some ll' /\ ll_rep ll' (xs ++ ys).
Proof.
  intros (Hc & Hnd & Hcnt & Hmax & Hbrk & Hdom).
  destruct (NoDup_mid _ _ _ _ Hnd) as (Hnd' & Hndx & Hl & Hdisj).
  pose proof (chain_alloc _ _ _ _ head_loc Hc ltac:(left)) as Halh.
  assert (forall m, m ∈ head_loc :: xs.*1 \/ m ∈ ys.*1 -> is_Some (ll_heap ll !! m)) as Hal.
  { intros m Hm. apply (chain_alloc _ _ _ _ _ Hc).
    rewrite fmap_app, fmap_cons, elem_of_cons, elem_of_app, elem_of_cons.
    rewrite elem_of_cons in Hm. tauto. }
  apply chain_mid in Hc as (Hcx & Hit & Hcy).
  destruct (chain_ends _ _ _ _ Hcx) as [Hpl Hnl].
  assert (exists nxt, nx (ll_heap ll) l = Some nxt /\
    nxt = default head_loc (fst <$> head ys)) as (nxt & Hnxt & Enxt).
  { destruct ys as [|[l2 x2] ys]; simpl in Hcy; destruct Hcy as [? ?]; eauto. }
  assert (is_Some (ll_heap ll !! nxt)) as Haln.
  { apply Hal. subst nxt. destruct ys as [|[l2 x2] ys]; simpl; [left; left|right; left]. }
  unfold ll_remove, load.
  unfold nx, pv in Hnxt, Hpl. destruct (ll_heap ll !! l) as [n|] eqn:En; [|done].
  cbn [mbind option_bind]. injection Hnxt as ->. injection Hpl as ->.
  destruct (set_prev_spec (ll_heap ll) nxt (last_loc head_loc xs))
    as (h1 & -> & Hp1 & Hn1 & Hi1 & Hd1); [done|]. cbn [mbind option_bind].
  destruct (set_next_spec h1 (last_loc head_loc xs) nxt)
    as (h2 & -> & Hn2 & Hp2 & Hi2 & Hd2).
  { rewrite <- (alloc_dom _ _ _ Hd1). apply Hal. left. apply last_loc_elem. }
  eexists. split; [done|]. split_and!; simpl; [|done|..|done|].
  - assert (chain h2 head_loc xs nxt) as Hcx2.
    { eapply chain_redirect; [exact Hcx|done|..].
      - by rewrite Hn2, decide_True.
      - by rewrite Hp2, Hp1, decide_True.
      - intros m _ Hm. by rewrite Hn2, Hn1, decide_False.
      - intros m Hm. rewrite Hp2, Hp1, Hi2, Hi1, decide_False; [done|].
        intros ->. subst nxt. destruct ys as [|[l2 x2] ys]; simpl in *.
        + apply NoDup_cons in Hndx as [? _]. done.
        + apply (Hdisj l2); [by right|left]. }
    destruct ys as [|[l2 x2] ys]; simpl in Enxt; subst nxt; [by rewrite app_nil_r|].
    apply chain_mid. destruct Hcy as (_ & _ & Hi & Hcy).
    split_and!; [done|by rewrite Hi2, Hi1|].
    apply NoDup_mid in Hnd' as (_ & _ & Hl2 & _).
    eapply chain_frame; [exact Hcy|..].
    + intros m Hm. rewrite Hn2, Hn1, decide_False; [done|]. intros ->.
      apply (Hdisj _ (last_loc_elem head_loc xs)). done.
    + intros m Hm. rewrite Hp2, Hp1, Hi2, Hi1, decide_False; [done|]. intros ->.
      apply Hl2. right. rewrite fmap_app, elem_of_app. by right.
    + rewrite Hp2, Hp1, decide_False; [done|]. intros <-. apply Hl2. left.
  - rewrite Hcnt, !length_app in *. simpl in *. rewrite s32_small; lia.
  - rewrite !length_app in *. simpl in *. lia.
  - intros m Hm. apply Hdom. by rewrite (alloc_dom _ _ _ Hd1), (alloc_dom _ _ _ Hd2).
Qed.

(** The deleting loop reaches the head again, having freed exactly the nodes of
    the list, each once; it only follows the forward links. *)
Fixpoint fwd h (iter : Z) xs : Prop :=
  match xs with
  | [] => iter = head_loc
  | (l, _) :: xs' => iter = l /\ exists n, h !! l = Some n /\ fwd h (nd_next n) xs'
  end.

Lemma chain_fwd h p xs : chain h p xs head_loc ->
  exists iter, nx h p = Some iter /\ fwd h iter xs.
Proof.
  revert p. induction xs as [|[l x] xs IH]; intros p; simpl; [by intros [-> _]; eauto|].
  intros (Hp & _ & _ & (iter & Hi & Hf)%IH). exists l. split; [done|]. split; [done|].
  unfold nx in Hi. apply fmap_Some in Hi as (n & Hn & ->). eauto.
Qed.

Lemma fwd_delete h iter xs l : l ∉ xs.*1 -> fwd h iter xs -> fwd (delete l h) iter xs.
Proof.
  revert iter. induction xs as [|[l' x] xs IH]; intros iter; simpl; [done|].
  intros [Hl Hx]%not_elem_of_cons [-> (n & Hn & Hf)]. split; [done|].
  exists n. rewrite lookup_delete_ne by done. auto.
Qed.

Lemma delete_loop_spec xs : forall h (fuel : nat) iter,
  fwd h iter xs -> NoDup xs.*1 -> head_loc ∉ xs.*1 -> (length xs <= fuel)%nat ->
  exists h', delete_loop fuel h iter = Some h' /\
    forall m, h' !! m = if decide (m ∈ xs.*1) then None else h !! m.
Proof.
  induction xs as [|[l x] xs IH]; intros h fuel iter Hf Hnd Hh Hlen; simpl in *.
  - subst iter. exists h. split; [by destruct fuel|done].
  - destruct Hf as [-> (n & Hn & Hf)].
    apply NoDup_cons in Hnd as [Hl Hnd]. apply not_elem_of_cons in Hh as [Hhl Hh].
    destruct fuel as [|fuel]; simpl; [lia|].
    destruct (Z.eqb_spec l head_loc) as [E|_]; [congruence|].
    unfold load. rewrite Hn. cbn [mbind option_bind].
    destruct (IH (delete l h) fuel (nd_next n)) as (h' & -> & Hh');
      [by apply fwd_delete|done..|lia|].
    exists h'. split; [done|]. intros m. rewrite Hh', lookup_delete.
    pose proof (elem_of_cons xs.*1 m l) as Hcons.
    repeat case_decide; subst; tauto || done || (exfalso; intuition congruence).
Qed.

(** [ll_delete_allnodes] terminates, frees every node of the list and nothing
    else; the list is empty again once initialised. *)
Lemma ll_delete_allnodes_rep ll xs :
  ll_rep ll xs ->
  exists ll', ll_delete_allnodes ll = Some ll' /\ ll_rep (init_linkedlist ll') [] /\
    (forall m, ll_heap ll' !! m = if decide (m ∈ xs.*1) then None else ll_heap ll !! m).
Proof.
  intros (Hc & Hnd & Hcnt & Hmax & Hbrk & Hdom).
  destruct (chain_fwd _ _ _ Hc) as (iter & Hit & Hf). unfold nx in Hit.
  unfold ll_delete_allnodes, load.
  destruct (ll_heap ll !! head_loc) as [hd|] eqn:Ehd; [|done].
  injection Hit as <-. cbn [mbind option_bind]. apply NoDup_cons in Hnd as [Hh Hnd].
  destruct (delete_loop_spec xs (ll_heap ll) (size (ll_heap ll)) (nd_next hd))
    as (h' & -> & Hh'); [done..| |].
  { rewrite <- (length_fmap fst xs), <- (size_list_to_set (C := gset Z) xs.*1) by done.
    rewrite <- size_dom. apply subseteq_size. intros l. rewrite elem_of_list_to_set, elem_of_dom.
    intros Hl. apply (chain_alloc _ _ _ _ _ Hc). by right. }
  eexists. split; [done|]. split; [|done]. split_and!; simpl; try done; try lia.
  - unfold nx, pv. by rewrite lookup_insert_eq.
  - apply NoDup_singleton.
  - intros l. rewrite lookup_insert_is_Some. intros [<-|[_ Hl]]; [unfold head_loc in *; lia|].
    apply Hdom. rewrite Hh' in Hl. by case_decide; [destruct Hl|].
Qed.

(** Walking a list, and replacing the item of its last node. *)
Definition first_loc xs : Z := match xs with [] => head_loc | (l, _) :: _ => l end.

Lemma chain_first h p xs : chain h p xs head_loc -> nx h p = Some (first_loc xs).
Proof. destruct xs as [|[l x] xs]; simpl; tauto. Qed.

Lemma ll_start_rep ll xs : ll_rep ll xs -> ll_start ll = Some (first_loc xs).
Proof.
  intros (Hc & _). apply chain_first in Hc. unfold nx in Hc.
  apply fmap_Some in Hc as (n & Hn & ->). unfold ll_start, load. by rewrite Hn.
Qed.

Lemma ll_walk ll xs l x ys :
  ll_rep ll (xs ++ (l, x) :: ys) ->
  l <> head_loc /\ ll_item ll l = Some x /\ ll_next ll l = Some (first_loc ys).
Proof.
  intros (Hc & Hnd & _). apply chain_mid in Hc as (_ & Hit & Hc%chain_first).
  destruct (NoDup_mid _ _ _ _ Hnd) as (_ & _ & Hl & _). split.
  { intros ->. apply Hl. left. }
  unfold nx, it in *. apply fmap_Some in Hc as (n & Hn & ->). rewrite Hn in Hit.
  injection Hit as Hit. unfold ll_item, ll_next, load. by rewrite Hn.
Qed.

Lemma ll_rep_size ll xs : ll_rep ll xs -> (length xs < size (ll_heap ll))%nat.
Proof.
  intros (Hc & Hnd & _). assert (list_to_set (head_loc :: xs.*1) ⊆ dom (ll_heap ll)) as Hsub.
  { intros l Hl. apply elem_of_dom. eapply chain_alloc; [exact Hc|].
    by apply elem_of_list_to_set in Hl. }
  apply subseteq_size in Hsub. rewrite size_list_to_set in Hsub by exact Hnd.
  rewrite size_dom in Hsub. simpl in Hsub. rewrite length_fmap in Hsub. lia.
Qed.

Lemma ll_update_item_rep ll xs l x y :
  ll_rep ll (xs ++ [(l, x)]) ->
  exists ll', ll_update_item ll l y = Some ll' /\ ll_rep ll' (xs ++ [(l, y)]).
Proof.
  intros (Hc & Hnd & Hcnt & Hmax & Hbrk & Hdom). pose proof Hc as (Hc1 & Hit & Hc2)%chain_mid.
  destruct (NoDup_mid _ _ _ _ Hnd) as (_ & _ & Hl & _).
  unfold it in Hit. apply fmap_Some in Hit as (n & Hn & Hnx).
  unfold ll_update_item, set_item, load. rewrite Hn. simpl. eexists. split; [done|].
  set (h' := <[_ := _]> _).
  assert (forall m, nx h' m = nx (ll_heap ll) m /\ pv h' m = pv (ll_heap ll) m) as Hnp.
  { intros m. unfold nx, pv, h'. destruct (decide (m = l)) as [->|Hne].
    - by rewrite lookup_insert_eq, Hn.
    - by rewrite lookup_insert_ne by done. }
  split; [|split; [|split; [|split; [|split]]]].
  - simpl. apply chain_mid. split; [|split].
    + eapply chain_frame; [exact Hc1| | |apply Hnp].
      * intros m _. apply Hnp.
      * intros m Hm. split; [apply Hnp|]. unfold it, h'. rewrite lookup_insert_ne; [done|].
        intros <-. apply Hl. right. rewrite app_nil_r. exact Hm.
    + unfold it, h'. by rewrite lookup_insert_eq.
    + simpl in *. by rewrite (proj1 (Hnp l)), (proj2 (Hnp head_loc)).
  - rewrite fmap_app in *. exact Hnd.
  - simpl. rewrite Hcnt, !length_app. done.
  - rewrite length_app in *. exact Hmax.
  - exact Hbrk.
  - simpl. intros m Hm. apply Hdom. unfold h' in Hm. rewrite lookup_insert_is_Some in Hm.
    destruct Hm as [<-|[_ Hm]]; [by rewrite Hn|done].
Qed.
End Rep.

(** ** Properties *)

(** Appending a new node ([new_ll_Node], then [ll_insert_last]) to a list
    holding [xs] gives a well-linked list holding [xs ++ [x]], whose [ll_count] is
    its length; no other node is touched. *)
Theorem ll_append_refines {A} (ll : Linlist A) (xs : list (Z * A)) (x : A) :
  ll_rep ll xs -> zlen xs < 2 ^ 31 - 2 ->
  let '(ll1, l) := new_ll_Node ll x in
  exists ll', ll_insert_last ll1 l = Some ll' /\ ll_rep ll' (xs ++ [(l, x)]) /\
    ll_count ll' = zlen xs + 1.
Proof.
  intros Hrep Hmax. pose proof (new_ll_Node_rep _ _ x Hrep) as Hnew.
  destruct (new_ll_Node ll x) as [ll1 l]. destruct Hnew as (Hrep1 & Hl & Hit).
  destruct (ll_insert_last_rep _ _ _ _ Hrep1 Hl Hit Hmax) as (ll' & Hll' & Hrep').
  exists ll'. split_and!; [done..|]. destruct Hrep' as (_ & _ & Hcnt & _).
  unfold ll_count. rewrite Hcnt, length_app. simpl. lia.
Qed.

(** C36: [ll_remove] of a node of the list unlinks exactly that node, wherever it
    stands, and keeps the order of the others; [ll_count] goes down by one. *)
Theorem ll_remove_refines {A} (ll : Linlist A) (xs ys : list (Z * A)) (l : Z) (x : A) :
  ll_rep ll (xs ++ (l, x) :: ys) ->
  exists ll', ll_remove ll l = Some ll' /\ ll_rep ll' (xs ++ ys) /\
    ll_count ll' = ll_count ll - 1.
Proof.
  intros Hrep. destruct (ll_remove_rep _ _ _ _ _ Hrep) as (ll' & Hll' & Hrep').
  exists ll'. split_and!; [done..|]. destruct Hrep as (_ & _ & Hc & _), Hrep' as (_ & _ & Hc' & _).
  unfold ll_count. rewrite Hc, Hc', !length_app. simpl. lia.
Qed.

(** C37: [ll_delete_allnodes] terminates on every well-linked list, frees each of
    its nodes once and no other address, and [init_linkedlist] makes the empty list
    of what is left. *)
Theorem ll_delete_allnodes_refines {A} (ll : Linlist A) (xs : list (Z * A)) :
  ll_rep ll xs ->
  exists ll', ll_delete_allnodes ll = Some ll' /\ ll_rep (init_linkedlist ll') [] /\
    (forall m, ll_heap ll' !! m = if decide (m ∈ xs.*1) then None else ll_heap ll !! m).
Proof. apply ll_delete_allnodes_rep. Qed.

(** An empty list and a list of two nodes, for the witnesses. *)
Definition empty_ll {A} : Linlist A := init_linkedlist {| ll_heap := ∅; ll_cnt := 0; ll_brk := 1 |}.
Lemma empty_ll_rep {A} : ll_rep (@empty_ll A) [].
Proof.
  split_and!; simpl; try done; try lia.
  - apply NoDup_singleton.
  - intros l. rewrite lookup_insert_is_Some. intros [<-|[_ [? [=]]]].
    unfold head_loc. lia.
Qed.

Definition two_ll : option (Linlist Z) :=
  let '(l1, a) := new_ll_Node empty_ll 7 in
  l2 ← ll_insert_last l1 a;
  let '(l3, b) := new_ll_Node l2 8 in
  ll_insert_last l3 b.
Lemma two_ll_rep : exists ll, two_ll = Some ll /\ ll_rep ll [(1, 7); (2, 8)].
Proof.
  unfold two_ll. pose proof (new_ll_Node_rep empty_ll [] 7 empty_ll_rep) as H1.
  cbn [new_ll_Node] in *. destruct H1 as (Hr & Hl & Hi).
  destruct (ll_insert_last_rep _ _ _ _ Hr Hl Hi) as (l2 & E & Hr2); [simpl; lia|].
  rewrite E, option_bind_Some.
  assert (ll_brk l2 = 2) as E2 by (vm_compute in E; injection E as <-; done).
  pose proof (new_ll_Node_rep l2 _ 8 Hr2) as H2.
  cbn [new_ll_Node] in *. destruct H2 as (Hr3 & Hl3 & Hi3). rewrite E2 in *.
  destruct (ll_insert_last_rep _ _ _ _ Hr3 Hl3 Hi3) as (l4 & E4 & Hr4); [simpl; lia|].
  eauto.
Qed.

Lemma ll_append_refines_witness :
  exists ll', (let '(ll1, l) := new_ll_Node empty_ll 7 in ll_insert_last ll1 l) = Some ll' /\
    ll_rep ll' [(1, 7)].
Proof.
  destruct (ll_append_refines empty_ll [] 7 empty_ll_rep) as (ll' & H1 & H2 & _).
  - simpl. lia.
  - exists ll'. auto.
Defined.

Lemma ll_remove_refines_witness :
  exists ll ll', two_ll = Some ll /\ ll_remove ll 1 = Some ll' /\ ll_rep ll' [(2, 8)].
Proof.
  destruct two_ll_rep as (ll & E & Hrep).
  destruct (ll_remove_refines ll [] [(2, 8)] 1 7 Hrep) as (ll' & H1 & H2 & _).
  exists ll, ll'. auto.
Defined.

Lemma ll_delete_allnodes_refines_witness :
  exists ll ll', two_ll = Some ll /\ ll_delete_allnodes ll = Some ll' /\
    ll_rep (init_linkedlist ll') [].
Proof.
  destruct two_ll_rep as (ll & E & Hrep).
  destruct (ll_delete_allnodes_refines ll _ Hrep) as (ll' & H1 & H2 & _).
  exists ll, ll'. auto.
Defined.
