(* ===== verification/Sha.v ===== *)
(** * Sha: the SHA-1 implementation (sha.c, include/sha.h)

    The context with its 64-byte buffer, the compression function, and the
    streaming interface, on a little-endian machine and with the compile-time
    options the build uses (no [SHA1_FAST_COPY], no [RUNTIME_ENDIAN],
    [SHA1_UNROLL] 20). The other builds, and [burnStack], which only overwrites dead
    stack memory, are in ShaBuilds.

    The second half defines the hash of a whole message by blocks, as the
    standard does ([sha1_spec]), and shows that the streaming code computes it
    however the message is cut into updates. *)

From S2P Require Import Prelude.

(** ** The code *)

Definition SHA1_HASH_SIZE : Z := 20.
Definition SHA1_HASH_STR_SIZE : Z := SHA1_HASH_SIZE * 2.

Record SHA1Context :=
  { totalLength : Z; hash : list Z; bufferLength : Z; buffer_bytes : list Z }.
#[export] Instance SHA1Context_settable : Settable SHA1Context :=
  fun c => Build_SHA1Context (totalLength c) (hash c) (bufferLength c) (buffer_bytes c).

Definition ROTL (x n : Z) : Z := Z.lor (u32 (Z.shiftl x n)) (Z.shiftr x (32 - n)).
Definition ROTR (x n : Z) : Z := Z.lor (Z.shiftr x n) (u32 (Z.shiftl x (32 - n))).

Definition F_0_19 (x y z : Z) : Z := Z.lxor z (Z.land x (Z.lxor y z)).
Definition F_20_39 (x y z : Z) : Z := Z.lxor (Z.lxor x y) z.
Definition F_40_59 (x y z : Z) : Z := Z.lor (Z.land x (Z.lor y z)) (Z.land y z).
Definition F_60_79 (x y z : Z) : Z := Z.lxor (Z.lxor x y) z.

Definition K_0_19 : Z := 0x5a827999.
Definition K_20_39 : Z := 0x6ed9eba1.
Definition K_40_59 : Z := 0x8f1bbcdc.
Definition K_60_79 : Z := 0xca62c1d6.

Definition BYTESWAP (x : Z) : Z :=
  Z.lor (Z.land (ROTR x 8) 0xff00ff00) (Z.land (ROTL x 8) 0x00ff00ff).
Definition BYTESWAP64 (x : Z) : Z :=
  let a := u32 (Z.shiftr x 32) in
  let b := u32 x in
  Z.lor (Z.shiftl (BYTESWAP b) 32) (BYTESWAP a).

(** Little-endian memory: the word at a group of four bytes, the bytes of an integer. *)
Fixpoint load_le (bs : list Z) : Z :=
  match bs with [] => 0 | b :: bs' => b + 2 ^ 8 * load_le bs' end.
Fixpoint store_le (n : nat) (z : Z) : list Z :=
  match n with O => [] | S n' => z mod 2 ^ 8 :: store_le n' (z / 2 ^ 8) end.
Definition words_of (bs : list Z) : list Z :=
  load_le <$> reshape (replicate (length bs / 4) 4%nat) bs.

(** The variables [a] to [e] of [SHA1Guts]. *)
Record Regs := { ra : Z; rb : Z; rc : Z; rd : Z; re : Z }.

Definition DO_ROUND (F : Z -> Z -> Z -> Z) (K : Z) (r : Regs) (w : Z) : Regs :=
  let temp := u32 (u32 (ROTL (ra r) 5 + F (rb r) (rc r) (rd r) + re r + w) + K) in
  {| re := rd r; rd := rc r; rc := ROTL (rb r) 30; rb := ra r; ra := temp |}.

(** The message schedule: the pointers [W3], [W8], [W14] and [W16] walk behind [W]. *)
Fixpoint schedule (n : nat) (W : list Z) : list Z :=
  match n with
  | O => W
  | S n' =>
    let at_ k := nth (length W - k) W 0 in
    schedule n' (W ++ [ROTL (Z.lxor (Z.lxor (Z.lxor (at_ 3%nat) (at_ 8%nat)) (at_ 14%nat)) (at_ 16%nat)) 1])
  end.

(** Four groups of twenty unrolled rounds. *)
Definition rounds (W : list Z) (r : Regs) : Regs :=
  let seg i := take 20 (drop (20 * i) W) in
  let r := foldl (DO_ROUND F_0_19 K_0_19) r (seg 0%nat) in
  let r := foldl (DO_ROUND F_20_39 K_20_39) r (seg 1%nat) in
  let r := foldl (DO_ROUND F_40_59 K_40_59) r (seg 2%nat) in
  foldl (DO_ROUND F_60_79 K_60_79) r (seg 3%nat).

(** [SHA1Guts] on the chaining words [h] and the bytes of [cbuf]. *)
Definition SHA1Guts (h : list Z) (cbuf : list Z) : list Z :=
  let W := schedule 64 (BYTESWAP <$> words_of cbuf) in
  let at_ i := nth i h 0 in
  let r0 := {| ra := at_ 0%nat; rb := at_ 1%nat; rc := at_ 2%nat; rd := at_ 3%nat; re := at_ 4%nat |} in
  let r := rounds W r0 in
  [u32 (at_ 0%nat + ra r); u32 (at_ 1%nat + rb r); u32 (at_ 2%nat + rc r);
   u32 (at_ 3%nat + rd r); u32 (at_ 4%nat + re r)].

(** The context's buffer is not initialised: [junk] is what it held. *)
Definition SHA1Init (junk : list Z) : SHA1Context :=
  {| totalLength := 0;
     hash := [0x67452301; 0xefcdab89; 0x98badcfe; 0x10325476; 0xc3d2e1f0];
     bufferLength := 0; buffer_bytes := junk |}.

(** The [while (len)] loop of [SHA1Update]; [data] is what is left to absorb, so
    [len] is its length. Each turn absorbs at least one byte. *)
Fixpoint update_loop (fuel : nat) (sc : SHA1Context) (data : list Z) : option SHA1Context :=
  if zlen data =? 0 then Some sc else
  match fuel with
  | O => None
  | S fuel' =>
    let bufferBytesLeft := u32 (64 - bufferLength sc) in
    let bytesToCopy := if bufferBytesLeft >? zlen data then zlen data else bufferBytesLeft in
    b ← zwrite (buffer_bytes sc) (bufferLength sc) (take (Z.to_nat bytesToCopy) data);
    let sc := sc .{ buffer_bytes := b }
                 .{ totalLength := u64 (totalLength sc + bytesToCopy * 8) }
                 .{ bufferLength := u32 (bufferLength sc + bytesToCopy) } in
    let sc := if bufferLength sc =? 64
              then sc .{ hash := SHA1Guts (hash sc) (buffer_bytes sc) } .{ bufferLength := 0 }
              else sc in
    update_loop fuel' sc (drop (Z.to_nat bytesToCopy) data)
  end.

(** [len] is a [uint32_t]. *)
Definition SHA1Update (sc : SHA1Context) (data : list Z) (len : Z) : option SHA1Context :=
  d ← zread data 0 (u32 len); update_loop (length d) sc d.

Definition padding : list Z := 0x80 :: replicate 63 0.

Definition SHA1Final (sc : SHA1Context) : option (list Z) :=
  let bytesToPad := u32 (120 - bufferLength sc) in
  let bytesToPad := if bytesToPad >? 64 then u32 (bytesToPad - 64) else bytesToPad in
  let lengthPad := store_le 8 (BYTESWAP64 (totalLength sc)) in
  sc ← SHA1Update sc padding bytesToPad;
  sc ← SHA1Update sc lengthPad 8;
  Some (mjoin ((fun w => [u8 (Z.shiftr w 24); u8 (Z.shiftr w 16); u8 (Z.shiftr w 8); u8 w])
          <$> hash sc)).

(** A whole run, as the callers make it. *)
Definition sha1 (junk msg : list Z) : option (list Z) :=
  sc ← SHA1Update (SHA1Init junk) msg (zlen msg); SHA1Final sc.

(** ** The reference *)

Definition blocks (m : list Z) : list (list Z) :=
  reshape (replicate (length m / 64) 64%nat) m.
Definition iv : list Z := hash (SHA1Init []).

(** Padding of the standard: a one bit, zeros, and the length in bits on 64
    bits, most significant byte first. *)
Definition store_be (n : nat) (z : Z) : list Z := reverse (store_le n z).
Definition sha1_pad (m : list Z) : list Z :=
  m ++ [0x80] ++ replicate (Z.to_nat ((55 - zlen m) mod 64)) 0 ++ store_be 8 (8 * zlen m).
Definition sha1_spec (m : list Z) : list Z :=
  mjoin (store_be 4 <$> foldl SHA1Guts iv (blocks (sha1_pad m))).

(** ** Blocks *)

Lemma reshape_app_blocks (m1 m2 : list Z) k :
  length m1 = (64 * k)%nat ->
  reshape (replicate (k + length m2 / 64) 64%nat) (m1 ++ m2) =
    reshape (replicate k 64%nat) m1 ++ blocks m2.
Proof.
  revert m1. induction k as [|k IH]; intros m1 Hlen; simpl.
  - by destruct m1.
  - rewrite take_app_le, drop_app_le by lia. rewrite IH; [done|].
    rewrite length_drop. lia.
Qed.

Lemma blocks_app m1 m2 :
  (length m1 mod 64 = 0)%nat -> blocks (m1 ++ m2) = blocks m1 ++ blocks m2.
Proof.
  intros Hm. pose proof (Nat.div_mod_eq (length m1) 64) as Hd. rewrite Hm in Hd.
  unfold blocks at 1 2. rewrite length_app.
  replace ((length m1 + length m2) / 64)%nat with (length m1 / 64 + length m2 / 64)%nat.
  - apply reshape_app_blocks. lia.
  - rewrite Hd at 2. rewrite Nat.add_0_r, (Nat.mul_comm 64), Nat.div_add_l by lia. done.
Qed.

Lemma blocks_one b : length b = 64%nat -> blocks b = [b].
Proof. intros Hb. unfold blocks. rewrite Hb. simpl. by rewrite take_ge by lia. Qed.

Lemma blocks_small m : (length m < 64)%nat -> blocks m = [].
Proof. intros. unfold blocks. by rewrite Nat.div_small by lia. Qed.

(** ** What a context stands for *)

(** [sc] has absorbed [m]: the whole blocks of [m] are in [hash], the rest in
    the buffer. *)
Definition ctx_rep (sc : SHA1Context) (m : list Z) : Prop :=
  exists whole rest, m = whole ++ rest /\
    (length whole mod 64 = 0)%nat /\ (length rest < 64)%nat /\
    length (buffer_bytes sc) = 64%nat /\ bufferLength sc = zlen rest /\
    take (length rest) (buffer_bytes sc) = rest /\
    hash sc = foldl SHA1Guts iv (blocks whole) /\
    totalLength sc = u64 (8 * zlen m).

Lemma SHA1Init_rep junk : length junk = 64%nat -> ctx_rep (SHA1Init junk) [].
Proof. intros. exists [], []. split_and!; try done. simpl; lia. Qed.

Lemma u64_add_mul z n : u64 (u64 z + n) = u64 (z + n).
Proof. apply Z.add_mod_idemp_l. done. Qed.

(** One turn of the loop absorbs a prefix that fits the buffer. *)
Lemma absorb_rep sc m d b :
  ctx_rep sc m -> bufferLength sc + zlen d <= 64 ->
  zwrite (buffer_bytes sc) (bufferLength sc) d = Some b ->
  let sc1 := sc .{ buffer_bytes := b } .{ totalLength := u64 (totalLength sc + zlen d * 8) }
                .{ bufferLength := u32 (bufferLength sc + zlen d) } in
  ctx_rep (if bufferLength sc1 =? 64
           then sc1 .{ hash := SHA1Guts (hash sc1) (buffer_bytes sc1) } .{ bufferLength := 0 }
           else sc1) (m ++ d).
Proof.
  intros (whole & rest & -> & Hw & Hr & Hbuf & Hbl & Htake & Hh & Ht) Hfit Hwr. simpl.
  rewrite Hbl in *. pose proof (zwrite_length _ _ _ _ Hwr) as Hlen. rewrite Hbuf in Hlen.
  assert (take (length rest + length d) b = rest ++ d) as Hpre.
  { unfold zwrite in Hwr. case_decide; [|done]. injection Hwr as <-.
    rewrite Nat2Z.id, Htake, app_assoc.
    rewrite take_app_le by (rewrite length_app; lia).
    rewrite take_ge; [done|rewrite length_app; lia]. }
  assert (u64 (totalLength sc + zlen d * 8) = u64 (8 * zlen ((whole ++ rest) ++ d))) as Htot.
  { rewrite Ht, u64_add_mul, !length_app. f_equal. lia. }
  rewrite u32_small by lia. destruct (Z.eqb_spec (zlen rest + zlen d) 64) as [E|E].
  - exists ((whole ++ rest) ++ d), []. rewrite app_nil_r.
    assert (take 64 b = rest ++ d) as Hb64.
    { replace 64%nat with (length rest + length d)%nat by lia. done. }
    rewrite take_ge in Hb64 by lia.
    split_and!; [done| |simpl; lia|done..| |done].
    + rewrite <- app_assoc, !length_app, Nat.add_assoc.
      replace (length whole + length rest + length d)%nat with (length whole + 1 * 64)%nat by lia.
      by rewrite Nat.Div0.mod_add.
    + rewrite <- app_assoc, blocks_app, foldl_app, <- Hh by done.
      rewrite <- Hb64, blocks_one by lia. done.
  - exists whole, (rest ++ d). rewrite <- app_assoc. rewrite length_app.
    split_and!; [done|done|lia|done| |done|done|]; simpl; [lia|by rewrite app_assoc].
Qed.

Lemma update_loop_rep fuel : forall sc m data,
  ctx_rep sc m -> (length data <= fuel)%nat ->
  exists sc', update_loop fuel sc data = Some sc' /\ ctx_rep sc' (m ++ data).
Proof.
  induction fuel as [|fuel IH]; intros sc m data Hrep Hf; simpl.
  { destruct data; [|simpl in Hf; lia]. rewrite app_nil_r. eauto. }
  destruct (Z.eqb_spec (zlen data) 0) as [E|E].
  { destruct data; [|simpl in E; lia]. rewrite app_nil_r. eauto. }
  pose proof Hrep as (whole & rest & Hm & _ & Hr & Hbuf & Hbl & _).
  rewrite (u32_small (64 - _)) by lia.
  set (n := if _ >? _ then _ else _).
  assert (0 < n <= zlen data /\ n <= 64 - bufferLength sc) as Hn.
  { unfold n. rewrite Z.gtb_ltb. destruct (Z.ltb_spec (zlen data) (64 - bufferLength sc)); lia. }
  clearbody n.
  assert (zlen (take (Z.to_nat n) data) = n) as Htk by (rewrite length_take; lia).
  destruct (zwrite_is_Some (buffer_bytes sc) (bufferLength sc) (take (Z.to_nat n) data))
    as [b Hb]; [lia..|].
  rewrite Hb. cbn [mbind option_bind].
  assert (bufferLength sc + zlen (take (Z.to_nat n) data) <= 64) as Hfit by lia.
  pose proof (absorb_rep sc m _ b Hrep Hfit Hb) as Hstep. rewrite Htk in Hstep.
  destruct (IH _ _ (drop (Z.to_nat n) data) Hstep) as (sc' & Hsc' & Hrep').
  { rewrite length_drop. lia. }
  exists sc'. split; [exact Hsc'|]. by rewrite <- app_assoc, take_drop in Hrep'.
Qed.

Lemma SHA1Update_rep sc m data n :
  ctx_rep sc m -> 0 <= n <= zlen data -> n < 2 ^ 32 ->
  exists sc', SHA1Update sc data n = Some sc' /\ ctx_rep sc' (m ++ take (Z.to_nat n) data).
Proof.
  intros Hrep Hn Hn32. unfold SHA1Update. rewrite u32_small by lia.
  unfold zread. rewrite decide_True by lia. rewrite drop_0. cbn [mbind option_bind].
  by apply update_loop_rep.
Qed.

(** ** Byte order *)

Lemma store_le_length n z : length (store_le n z) = n.
Proof. revert z. induction n; intros z; simpl; auto. Qed.

Lemma store_le_lookup n z i :
  (i < n)%nat -> store_le n z !! i = Some ((z / 2 ^ (8 * Z.of_nat i)) mod 2 ^ 8).
Proof.
  revert z i. induction n as [|n IH]; intros z i Hi; [lia|].
  destruct i as [|i]; cbn [store_le lookup list_lookup].
  - by rewrite Z.div_1_r.
  - rewrite IH, Z.div_div, <- Z.pow_add_r by lia.
    by replace (8 * Z.of_nat (S i)) with (8 + 8 * Z.of_nat i) by lia.
Qed.

Lemma byte_testbit z k i :
  0 <= k -> 0 <= i -> Z.testbit ((z / 2 ^ k) mod 2 ^ 8) i = if i <? 8 then Z.testbit z (k + i) else false.
Proof.
  intros. rewrite <- Z.shiftr_div_pow2 by lia. destruct (Z.ltb_spec i 8).
  - rewrite Z.mod_pow2_bits_low by lia. rewrite Z.shiftr_spec by lia. f_equal. lia.
  - by rewrite Z.mod_pow2_bits_high by lia.
Qed.

Lemma byte_ext x y j k :
  0 <= j -> 0 <= k ->
  (forall i, 0 <= i < 8 -> Z.testbit x (j + i) = Z.testbit y (k + i)) ->
  (x / 2 ^ j) mod 2 ^ 8 = (y / 2 ^ k) mod 2 ^ 8.
Proof.
  intros Hj Hk H. apply Z.bits_inj'. intros i Hi. rewrite !byte_testbit by lia.
  destruct (Z.ltb_spec i 8); [apply H; lia|done].
Qed.

Ltac octets H := (* [0 <= i < 8] by cases *)
  match type of H with 0 <= ?i < 8 =>
    let C := fresh in
    assert (i = 0 \/ i = 1 \/ i = 2 \/ i = 3 \/ i = 4 \/ i = 5 \/ i = 6 \/ i = 7) as C by lia;
    destruct C as [->|[->|[->|[->|[->|[->|[->| ->]]]]]]]
  end.

(** Bits of the masks, and tests on closed positions. *)
Ltac closed_bits :=
  repeat match goal with
  | |- context [Z.testbit (Zpos ?p) ?n] =>
    let b := eval vm_compute in (Z.testbit (Zpos p) n) in change (Z.testbit (Zpos p) n) with b
  | |- context [?n <? 32] =>
    let b := eval vm_compute in (n <? 32) in change (n <? 32) with b
  end; cbv beta iota.

(** Byte [3 - k] of the swapped word is byte [k] of the word. *)
Lemma BYTESWAP_testbit x k i :
  0 <= x < 2 ^ 32 -> k = 0 \/ k = 8 \/ k = 16 \/ k = 24 -> 0 <= i < 8 ->
  Z.testbit (BYTESWAP x) (24 - k + i) = Z.testbit x (k + i).
Proof.
  intros Hx Hk Hi.
  assert (forall n, 32 <= n -> Z.testbit x n = false) as Hhigh.
  { intros n Hn. rewrite <- (Z.mod_small x (2 ^ 32)) by lia. by apply Z.mod_pow2_bits_high. }
  assert (forall n s, 0 <= n -> 0 <= s -> Z.testbit (u32 (Z.shiftl x s)) n =
      if n <? 32 then Z.testbit x (n - s) else false) as Hshl.
  { intros n s Hn Hs. unfold u32. destruct (Z.ltb_spec n 32).
    - rewrite Z.mod_pow2_bits_low by lia. by rewrite Z.shiftl_spec by lia.
    - by rewrite Z.mod_pow2_bits_high by lia. }
  unfold BYTESWAP, ROTL, ROTR.
  rewrite !Z.lor_spec, !Z.land_spec, !Z.lor_spec, !Z.shiftr_spec, !Hshl by lia.
  destruct Hk as [->|[->|[->| ->]]]; octets Hi; closed_bits;
    rewrite ?andb_true_r, ?andb_false_r, ?orb_false_r, ?orb_false_l;
    repeat match goal with |- context [Z.testbit x ?n] =>
      first [rewrite (Hhigh n) by lia | rewrite (Z.testbit_neg_r x n) by lia] end;
    rewrite ?orb_false_r, ?orb_false_l; f_equal; lia.
Qed.

Lemma BYTESWAP_range x : 0 <= x < 2 ^ 32 -> 0 <= BYTESWAP x < 2 ^ 32.
Proof.
  intros Hx.
  assert (BYTESWAP x = u32 (BYTESWAP x)) as ->; [|apply u32_range].
  unfold u32. rewrite <- Z.land_ones by lia. apply Z.bits_inj'. intros n Hn.
  rewrite Z.land_spec. destruct (Z.ltb_spec n 32).
  - by rewrite Z.ones_spec_low, andb_true_r by lia.
  - rewrite Z.ones_spec_high, andb_false_r by lia.
    unfold BYTESWAP. rewrite Z.lor_spec, !Z.land_spec.
    rewrite !(Z.bits_above_log2 (Zpos _)) by (simpl; lia). by rewrite !andb_false_r.
Qed.

Lemma BYTESWAP64_bytes x :
  0 <= x < 2 ^ 64 -> store_le 8 (BYTESWAP64 x) = reverse (store_le 8 x).
Proof.
  intros Hx. unfold BYTESWAP64.
  set (a := u32 (Z.shiftr x 32)). set (b := u32 x).
  pose proof (u32_range (Z.shiftr x 32)) as Ha. pose proof (u32_range x) as Hb.
  fold a in Ha. fold b in Hb.
  pose proof (BYTESWAP_range a Ha) as Hsa.
  set (y := Z.lor _ _).
  assert (forall n, 0 <= n -> Z.testbit y n =
    if n <? 32 then Z.testbit (BYTESWAP a) n else Z.testbit (BYTESWAP b) (n - 32)) as Hy.
  { intros n Hn. unfold y. rewrite Z.lor_spec, Z.shiftl_spec by lia.
    destruct (Z.ltb_spec n 32); [by rewrite Z.testbit_neg_r by lia|].
    rewrite <- (Z.mod_small (BYTESWAP a) (2 ^ 32)) by lia.
    rewrite Z.mod_pow2_bits_high by lia. by rewrite orb_false_r. }
  assert (forall n, 0 <= n < 32 -> Z.testbit a n = Z.testbit x (n + 32)) as Hax.
  { intros n Hn. unfold a, u32. rewrite Z.mod_pow2_bits_low by lia.
    by rewrite Z.shiftr_spec by lia. }
  assert (forall n, 0 <= n < 32 -> Z.testbit b n = Z.testbit x n) as Hbx.
  { intros n Hn. unfold b, u32. by rewrite Z.mod_pow2_bits_low by lia. }
  assert (forall k, k = 0 \/ k = 8 \/ k = 16 \/ k = 24 ->
    (y / 2 ^ (24 - k)) mod 2 ^ 8 = (x / 2 ^ (k + 32)) mod 2 ^ 8 /\
    (y / 2 ^ (56 - k)) mod 2 ^ 8 = (x / 2 ^ k) mod 2 ^ 8) as Hbytes.
  { intros k Hk. split; apply byte_ext; try lia; intros i Hi; rewrite Hy by lia.
    - rewrite (proj2 (Z.ltb_lt _ _)) by lia.
      rewrite BYTESWAP_testbit, Hax by lia. f_equal. lia.
    - rewrite (proj2 (Z.ltb_ge _ _)) by lia.
      replace (56 - k + i - 32) with (24 - k + i) by lia.
      rewrite BYTESWAP_testbit, Hbx by lia. done. }
  apply list_eq. intros i. destruct (decide (i < 8)%nat) as [Hi|Hi]; last first.
  { rewrite !lookup_ge_None_2 by (rewrite ?length_reverse, store_le_length; lia). done. }
  rewrite reverse_lookup by (rewrite store_le_length; lia).
  rewrite store_le_length, !store_le_lookup by lia. f_equal.
  destruct (decide (i < 4)%nat).
  - destruct (Hbytes (24 - 8 * Z.of_nat i)) as [H _]; [lia|].
    replace (24 - (24 - 8 * Z.of_nat i)) with (8 * Z.of_nat i) in H by lia.
    rewrite H. do 4 f_equal. lia.
  - destruct (Hbytes (56 - 8 * Z.of_nat i)) as [_ H]; [lia|].
    replace (56 - (56 - 8 * Z.of_nat i)) with (8 * Z.of_nat i) in H by lia.
    rewrite H. do 4 f_equal. lia.
Qed.

(** ** The streaming code computes the standard's hash *)

Lemma padding_take n : (1 <= n <= 64)%nat -> take n padding = 0x80 :: replicate (n - 1) 0.
Proof.
  intros. unfold padding. destruct n as [|n]; [lia|]. cbn [take].
  rewrite take_replicate. f_equal. f_equal. lia.
Qed.

Lemma word_bytes w :
  [u8 (Z.shiftr w 24); u8 (Z.shiftr w 16); u8 (Z.shiftr w 8); u8 w] = store_be 4 w.
Proof.
  unfold store_be, u8. rewrite !Z.shiftr_div_pow2 by lia.
  cbn [store_le reverse rev_append]. rewrite !Z.div_div by lia. done.
Qed.

Definition pad_count (m : list Z) : Z := 1 + (55 - zlen m) mod 64.

Lemma pad_count_range m : 1 <= pad_count m <= 64.
Proof. unfold pad_count. pose proof (Z.mod_pos_bound (55 - zlen m) 64). lia. Qed.

(** The number of padding bytes [SHA1Final] computes from the buffered length. *)
Lemma pad_count_code m :
  let n := u32 (120 - zlen m mod 64) in
  (if n >? 64 then u32 (n - 64) else n) = pad_count m.
Proof.
  pose proof (Z.mod_pos_bound (zlen m) 64 ltac:(lia)). cbv zeta.
  unfold pad_count. rewrite (u32_small (120 - _)), Z.gtb_ltb by lia.
  destruct (Z.ltb_spec 64 (120 - zlen m mod 64)); [rewrite u32_small by lia|];
    Z.div_mod_to_equations; lia.
Qed.

(** What [SHA1Final] appends is the standard's padding. *)
Lemma final_padding m :
  zlen m < 2 ^ 61 ->
  m ++ take (Z.to_nat (pad_count m)) padding ++
    take (Z.to_nat 8) (store_le 8 (BYTESWAP64 (u64 (8 * zlen m)))) = sha1_pad m.
Proof.
  intros Hm. pose proof (pad_count_range m).
  rewrite padding_take by lia. rewrite u64_small by lia.
  rewrite BYTESWAP64_bytes by lia.
  rewrite take_ge by (rewrite length_reverse, store_le_length; lia).
  unfold sha1_pad, store_be, pad_count in *. cbn [app]. do 4 f_equal. lia.
Qed.

Lemma sha1_pad_aligned m : (length (sha1_pad m) mod 64 = 0)%nat.
Proof.
  apply Nat2Z.inj. rewrite Nat2Z.inj_mod. unfold sha1_pad, store_be.
  rewrite !length_app, length_reverse, store_le_length, length_replicate. simpl.
  pose proof (Z.mod_pos_bound (55 - zlen m) 64 ltac:(lia)).
  Z.div_mod_to_equations. lia.
Qed.

Lemma ctx_rep_bufferLength sc m : ctx_rep sc m -> bufferLength sc = zlen m mod 64.
Proof.
  intros (whole & rest & -> & Hw & Hr & _ & -> & _). rewrite length_app.
  apply (f_equal Z.of_nat) in Hw. rewrite Nat2Z.inj_mod in Hw.
  Z.div_mod_to_equations. lia.
Qed.

Lemma ctx_rep_aligned sc m :
  ctx_rep sc m -> (length m mod 64 = 0)%nat -> hash sc = foldl SHA1Guts iv (blocks m).
Proof.
  intros Hrep Ha. pose proof (ctx_rep_bufferLength _ _ Hrep) as Hbl.
  destruct Hrep as (whole & rest & E & _ & _ & _ & Hr & _ & Hh & _).
  apply (f_equal Z.of_nat) in Ha. rewrite Nat2Z.inj_mod in Ha.
  destruct rest; [|simpl in *; lia]. by rewrite E, app_nil_r.
Qed.

(** The two updates [SHA1Final] makes. *)
Lemma final_pad_rep sc m :
  ctx_rep sc m -> exists sc1, SHA1Update sc padding (pad_count m) = Some sc1 /\
    ctx_rep sc1 (m ++ take (Z.to_nat (pad_count m)) padding).
Proof.
  intros Hrep. pose proof (pad_count_range m).
  apply SHA1Update_rep; [done|change (zlen padding) with 64; lia|lia].
Qed.

Lemma final_length_rep sc m t :
  zlen m < 2 ^ 61 -> t = u64 (8 * zlen m) ->
  ctx_rep sc (m ++ take (Z.to_nat (pad_count m)) padding) ->
  exists sc1, SHA1Update sc (store_le 8 (BYTESWAP64 t)) 8 = Some sc1 /\
    ctx_rep sc1 (sha1_pad m).
Proof.
  intros Hm -> Hrep.
  destruct (SHA1Update_rep sc _ (store_le 8 (BYTESWAP64 (u64 (8 * zlen m)))) 8 Hrep)
    as (sc1 & E & Hrep1); [rewrite store_le_length; lia|lia|].
  exists sc1. split; [exact E|]. by rewrite <- app_assoc, final_padding in Hrep1.
Qed.

Lemma sha1_spec_eq m :
  sha1_spec m = mjoin (store_be 4 <$> foldl SHA1Guts iv (blocks (sha1_pad m))).
Proof. reflexivity. Qed.

Lemma hash_bytes h :
  mjoin ((fun w => [u8 (Z.shiftr w 24); u8 (Z.shiftr w 16); u8 (Z.shiftr w 8); u8 w]) <$> h) =
  mjoin (store_be 4 <$> h).
Proof. f_equal. apply list_fmap_ext. intros _ w _. apply word_bytes. Qed.

Lemma SHA1Final_eq sc n : bufferLength sc = n -> SHA1Final sc =
  (sc1 ← SHA1Update sc padding (let n := u32 (120 - n) in if n >? 64 then u32 (n - 64) else n);
   sc2 ← SHA1Update sc1 (store_le 8 (BYTESWAP64 (totalLength sc))) 8;
   Some (mjoin ((fun w => [u8 (Z.shiftr w 24); u8 (Z.shiftr w 16); u8 (Z.shiftr w 8); u8 w])
           <$> hash sc2))).
Proof. intros <-. reflexivity. Qed.

Lemma SHA1Final_rep sc m :
  ctx_rep sc m -> zlen m < 2 ^ 61 -> SHA1Final sc = Some (sha1_spec m).
Proof.
  intros Hrep Hm.
  assert (totalLength sc = u64 (8 * zlen m)) as Ht.
  { destruct Hrep as (? & ? & Hrep). apply Hrep. }
  destruct (final_pad_rep _ _ Hrep) as (sc1 & E1 & Hrep1).
  destruct (final_length_rep _ _ _ Hm Ht Hrep1) as (sc2 & E2 & Hrep2).
  rewrite (SHA1Final_eq _ _ (ctx_rep_bufferLength _ _ Hrep)), pad_count_code, E1, option_bind_Some, E2, option_bind_Some.
  by rewrite hash_bytes, (ctx_rep_aligned _ _ Hrep2 (sha1_pad_aligned m)), sha1_spec_eq.
Qed.

(** However a message is cut, absorbing the pieces in order and finishing gives
    the hash of the whole message. *)
Fixpoint update_all (sc : SHA1Context) (pieces : list (list Z)) : option SHA1Context :=
  match pieces with
  | [] => Some sc
  | p :: ps => sc' ← SHA1Update sc p (zlen p); update_all sc' ps
  end.

Lemma update_all_rep pieces : forall sc m,
  ctx_rep sc m -> Forall (fun p => zlen p < 2 ^ 32) pieces ->
  exists sc', update_all sc pieces = Some sc' /\ ctx_rep sc' (m ++ mjoin pieces).
Proof.
  induction pieces as [|p ps IH]; intros sc m Hrep Hall; simpl.
  { rewrite app_nil_r. eauto. }
  apply Forall_cons in Hall as [Hp Hall].
  destruct (SHA1Update_rep sc m p (zlen p) Hrep) as (sc1 & -> & Hrep1); [lia|done|].
  cbn [mbind option_bind]. rewrite Nat2Z.id, take_ge in Hrep1 by lia.
  destruct (IH _ _ Hrep1 Hall) as (sc' & -> & Hrep'). rewrite <- app_assoc in Hrep'. eauto.
Qed.

Lemma sha1_correct junk m :
  length junk = 64%nat -> zlen m < 2 ^ 32 -> sha1 junk m = Some (sha1_spec m).
Proof.
  intros Hj Hm. unfold sha1.
  destruct (SHA1Update_rep _ _ m (zlen m) (SHA1Init_rep junk Hj)) as (sc & -> & Hrep);
    [lia|done|].
  cbn [mbind option_bind]. rewrite Nat2Z.id, take_ge in Hrep by lia.
  apply SHA1Final_rep; [done|lia].
Qed.

Lemma sha1_spec_length m : length (sha1_spec m) = 20%nat.
Proof.
  assert (forall h l, length h = 5%nat -> length (foldl SHA1Guts h l) = 5%nat) as Hfold.
  { intros h l. revert h. induction l as [|b l IH]; intros h Hh; simpl; [done|]. by apply IH. }
  unfold sha1_spec.
  pose proof (Hfold iv (blocks (sha1_pad m)) eq_refl) as H5. revert H5.
  generalize (foldl SHA1Guts iv (blocks (sha1_pad m))). intros h Hh.
  assert (forall l, length (mjoin (store_be 4 <$> l)) = (4 * length l)%nat) as Hj.
  { intros l. induction l as [|w l IH]; [done|]. rewrite fmap_cons.
    change (mjoin (store_be 4 w :: ?l)) with (store_be 4 w ++ mjoin l).
    rewrite length_app, IH. unfold store_be. rewrite length_reverse, store_le_length.
    simpl. lia. }
  by rewrite Hj, Hh.
Qed.

(** ** Properties *)

(** However a message of fewer than 2^32 bytes is cut into pieces, absorbing
    them with [SHA1Update] and finishing gives the big-endian SHA-1 of the padded
    message; nothing depends on the garbage in the context's buffer, and no access
    leaves it. *)
Theorem sha1_incremental (junk : list Z) (pieces : list (list Z)) :
  length junk = 64%nat -> zlen (mjoin pieces) < 2 ^ 32 ->
  exists sc, update_all (SHA1Init junk) pieces = Some sc /\
    SHA1Final sc = Some (sha1_spec (mjoin pieces)).
Proof.
  intros Hj Hlen.
  assert (Forall (fun p => zlen p < 2 ^ 32) pieces) as Hall.
  { revert Hlen. clear. induction pieces as [|p ps IH]; intros Hlen; [constructor|].
    change (mjoin (p :: ps)) with (p ++ mjoin ps) in Hlen. rewrite length_app in Hlen.
    constructor; [lia|apply IH; lia]. }
  destruct (update_all_rep _ _ _ (SHA1Init_rep junk Hj) Hall) as (sc & Hrun & Hrep).
  exists sc. split; [done|]. apply SHA1Final_rep; [done|]. simpl. lia.
Qed.

Lemma sha1_incremental_witness :
  exists sc, update_all (SHA1Init (replicate 64 7)) [[97]; []; [98; 99]] = Some sc /\
    SHA1Final sc = Some (sha1_spec [97; 98; 99]).
Proof.
  destruct (sha1_incremental (replicate 64 7) [[97]; []; [98; 99]]) as (sc & H1 & H2).
  - reflexivity.
  - vm_compute. reflexivity.
  - exists sc. split; [exact H1|exact H2].
Defined.

(** The code computes the published digests of the empty message, of "abc" and
    of the 56-byte message of FIPS 180 (the last needs a second padding block). *)
Theorem sha1_vectors :
  sha1 (replicate 64 1) [] = Some
    [0xda; 0x39; 0xa3; 0xee; 0x5e; 0x6b; 0x4b; 0x0d; 0x32; 0x55;
     0xbf; 0xef; 0x95; 0x60; 0x18; 0x90; 0xaf; 0xd8; 0x07; 0x09] /\
  sha1 (replicate 64 1) [97; 98; 99] = Some
    [0xa9; 0x99; 0x3e; 0x36; 0x47; 0x06; 0x81; 0x6a; 0xba; 0x3e;
     0x25; 0x71; 0x78; 0x50; 0xc2; 0x6c; 0x9c; 0xd0; 0xd8; 0x9d] /\
  sha1 (replicate 64 1) (mjoin (imap (fun i _ => (fun j => 97 + Z.of_nat (i + j)) <$> seq 0 4)
                           (replicate 14 ()))) = Some
    [0x84; 0x98; 0x3e; 0x44; 0x1c; 0x3b; 0xd2; 0x6e; 0xba; 0xae;
     0x4a; 0xa1; 0xf9; 0x51; 0x29; 0xe5; 0xe5; 0x46; 0x70; 0xf1].
Proof. split_and!; vm_compute; reflexivity. Qed.
