(* ===== verification/Chunk.v ===== *)
(** * Chunk: hashes of chunks and their hexadecimal form (chunk.c)

    [binary2hex] and [hex2binary] work on C buffers; [make_chunks] cuts a file
    into chunks of [BT_CHUNK_SIZE] bytes and hashes each. *)

From S2P Require Import Prelude Sha.

Definition BT_CHUNK_SIZE : Z := 512 * 1024.

(** ** The code *)

(** A digit of [printf]'s [%x]; [sprintf_2x] is the text of ["%.2x"] for a byte. *)
Definition hexdigit (n : Z) : Z := if n <? 10 then 48 + n else 87 + n.
Definition sprintf_2x (b : Z) : list Z := [hexdigit (b / 16); hexdigit (b mod 16)].

(** [sprintf] also writes the terminating NUL. *)
Fixpoint binary2hex_loop (n : nat) (i : Z) (buf hex : list Z) : option (list Z) :=
  match n with
  | O => Some hex
  | S n' =>
    b ← zget buf i;
    hex' ← zwrite hex (i * 2) (sprintf_2x b ++ [0]);
    binary2hex_loop n' (i + 1) buf hex'
  end.
Definition binary2hex (buf : list Z) (len : Z) (hex : list Z) : option (list Z) :=
  hex' ← binary2hex_loop (Z.to_nat len) 0 buf hex; zset hex' (len * 2) 0.

(** [char] is signed; [toupper] is that of the C locale. *)
Definition toupper (c : Z) : Z := if (97 <=? c) && (c <=? 122) then c - 32 else c.
Definition _hex2binary (c : Z) : Z :=
  let hex := toupper (s8 c) in
  u8 (if hex <=? 57 then hex - 48 else hex - (65 - 10)).

(** The loop counts by two; [n] is the number of turns left. *)
Fixpoint hex2binary_loop (n : nat) (i : Z) (hex buf : list Z) : option (list Z) :=
  match n with
  | O => Some buf
  | S n' =>
    h ← zget hex i;
    l ← zget hex (i + 1);
    buf' ← zset buf (i / 2) (u8 (Z.lor (Z.shiftl (_hex2binary h) 4) (_hex2binary l)));
    hex2binary_loop n' (i + 2) hex buf'
  end.
Definition hex2binary (hex : list Z) (len : Z) (buf : list Z) : option (list Z) :=
  hex2binary_loop (Z.to_nat ((len + 1) / 2)) 0 hex buf.

(** [shahash] on the first [len] bytes of [str]; [junk] is the stack's content. *)
Definition shahash (junk str : list Z) (len : Z) : option (list Z) :=
  sc ← SHA1Update (SHA1Init junk) str (u32 len); SHA1Final sc.

(** The hashes [make_chunks] stores and their number: each [fread] returns the
    next [BT_CHUNK_SIZE] bytes of the file, or what is left. The buffer comes from a
    [malloc] that is not checked: reading into a null pointer is undefined. *)
Fixpoint make_chunks_loop (fuel : nat) (junk file : list Z) (numchunks : Z) (hashes : list (list Z))
    : option (Z * list (list Z)) :=
  match file, fuel with
  | [], _ => Some (numchunks, hashes)
  | _, O => None
  | _, S fuel' =>
    let buffer := take (Z.to_nat BT_CHUNK_SIZE) file in
    h ← shahash junk buffer (zlen buffer);
    make_chunks_loop fuel' junk (drop (Z.to_nat BT_CHUNK_SIZE) file) (numchunks + 1) (hashes ++ [h])
  end.
Definition make_chunks (malloc_ok : bool) (junk file : list Z) : option (Z * list (list Z)) :=
  if negb malloc_ok then None else make_chunks_loop (length file) junk file 0 [].

(** C strings in buffers. *)
Fixpoint strcmp (a b : list Z) : option Z :=
  match a, b with
  | x :: a', y :: b' => if x =? y then if x =? 0 then Some 0 else strcmp a' b' else Some (x - y)
  | _, _ => None
  end.
Fixpoint strncmp (a b : list Z) (n : nat) : option Z :=
  match n, a, b with
  | O, _, _ => Some 0
  | S n', x :: a', y :: b' =>
    if x =? y then if x =? 0 then Some 0 else strncmp a' b' n' else Some (x - y)
  | _, _, _ => None
  end.

(** ** Hexadecimal *)

Definition is_byte (b : Z) : Prop := 0 <= b < 2 ^ 8.

(** Integers in memory. *)

Lemma load_store n : forall z, load_le (store_le n z) = z mod 2 ^ (8 * Z.of_nat n).
Proof.
  induction n as [|n IH]; intros z; [by rewrite Z.mod_1_r|].
  cbn [store_le load_le]. rewrite IH.
  replace (8 * Z.of_nat (S n)) with (8 + 8 * Z.of_nat n) by lia.
  rewrite Z.pow_add_r by lia. rewrite Z.rem_mul_r by (try apply Z.pow_pos_nonneg; lia). lia.
Qed.

Lemma load_store_small n z : 0 <= z < 2 ^ (8 * Z.of_nat n) -> load_le (store_le n z) = z.
Proof. intros. rewrite load_store. by apply Z.mod_small. Qed.

Lemma load_le_range bs : Forall is_byte bs -> 0 <= load_le bs < 2 ^ (8 * zlen bs).
Proof.
  induction 1 as [|b bs Hb _ IH]; [done|]. unfold is_byte in Hb. cbn [load_le length].
  replace (8 * Z.of_nat (S (length bs))) with (8 + 8 * zlen bs) by lia.
  rewrite Z.pow_add_r by lia. lia.
Qed.

Lemma store_load bs : Forall is_byte bs -> store_le (length bs) (load_le bs) = bs.
Proof.
  induction 1 as [|b bs Hb _ IH]; [done|]. unfold is_byte in Hb. cbn [load_le length store_le].
  f_equal; [Z.div_mod_to_equations; lia|].
  replace ((b + 2 ^ 8 * load_le bs) / 2 ^ 8) with (load_le bs); [done|].
  Z.div_mod_to_equations. lia.
Qed.

Lemma store_le_bytes n : forall z, Forall is_byte (store_le n z).
Proof.
  induction n as [|n IH]; intros z; [constructor|]. simpl. constructor; [|done].
  by apply Z.mod_pos_bound.
Qed.
Definition hexstring (bs : list Z) : list Z := mjoin (sprintf_2x <$> bs).
(** The digits [%x] prints. *)
Definition is_hexdigit (c : Z) : Prop := 48 <= c <= 57 \/ 97 <= c <= 102.

Lemma hexstring_cons b bs : hexstring (b :: bs) = sprintf_2x b ++ hexstring bs.
Proof. done. Qed.
Lemma hexstring_app bs1 bs2 : hexstring (bs1 ++ bs2) = hexstring bs1 ++ hexstring bs2.
Proof. unfold hexstring. by rewrite fmap_app, join_app. Qed.
Lemma hexstring_length bs : zlen (hexstring bs) = 2 * zlen bs.
Proof.
  induction bs as [|b bs IH]; [done|]. rewrite hexstring_cons, length_app. simpl length. lia.
Qed.

Lemma hexdigit_is n : 0 <= n < 16 -> is_hexdigit (hexdigit n).
Proof. intros. unfold is_hexdigit, hexdigit. destruct (Z.ltb_spec n 10); lia. Qed.

Lemma hexstring_digits bs : Forall is_byte bs -> Forall is_hexdigit (hexstring bs).
Proof.
  induction 1 as [|b bs Hb _ IH]; [constructor|]. rewrite hexstring_cons. unfold is_byte in Hb.
  repeat apply Forall_cons_2; [apply hexdigit_is..|done]; Z.div_mod_to_equations; lia.
Qed.
Lemma hexdigit_nonzero l : Forall is_hexdigit l -> Forall (fun c => c <> 0) l.
Proof. intros Hl. eapply Forall_impl; [exact Hl|]. unfold is_hexdigit. lia. Qed.

Lemma _hex2binary_hexdigit n : 0 <= n < 16 -> _hex2binary (hexdigit n) = n.
Proof.
  intros Hn. unfold _hex2binary, hexdigit, toupper, s8.
  assert (exists k, (k < 16)%nat /\ n = Z.of_nat k) as (k & Hk & ->)
    by (exists (Z.to_nat n); lia).
  do 16 (destruct k as [|k]; [reflexivity|]). lia.
Qed.

Lemma hexdigit__hex2binary c :
  is_hexdigit c -> 0 <= _hex2binary c < 16 /\ hexdigit (_hex2binary c) = c.
Proof.
  unfold is_hexdigit. intros Hc.
  assert (s8 c = c) as Hs by (unfold s8; rewrite Z.mod_small; lia).
  unfold _hex2binary, hexdigit, toupper. rewrite Hs.
  destruct (Z.leb_spec 97 c), (Z.leb_spec c 122); try lia; cbn [andb].
  - destruct (Z.leb_spec (c - 32) 57); [lia|]. rewrite u8_small by lia.
    destruct (Z.ltb_spec (c - 32 - (65 - 10)) 10); lia.
  - destruct (Z.leb_spec c 57); [|lia]. rewrite u8_small by lia.
    destruct (Z.ltb_spec (c - 48) 10); lia.
Qed.

Lemma nibbles_byte h l :
  0 <= h < 16 -> 0 <= l < 16 -> u8 (Z.lor (Z.shiftl h 4) l) = 16 * h + l.
Proof.
  intros Hh Hl. rewrite Z.shiftl_mul_pow2 by lia.
  assert (Z.land (h * 2 ^ 4) l = 0) as H0.
  { apply Z.bits_inj'. intros n Hn. rewrite Z.land_spec, Z.bits_0.
    destruct (Z.ltb_spec n 4).
    - by rewrite Z.mul_pow2_bits_low by lia.
    - rewrite <- (Z.mod_small l (2 ^ 4)) by lia.
      rewrite Z.mod_pow2_bits_high by lia. by rewrite andb_false_r. }
  pose proof (Z.add_lor_land (h * 2 ^ 4) l). rewrite u8_small; lia.
Qed.

(** The loop of [binary2hex] after [i] turns: the digits of the first [i] bytes,
    then a NUL. *)
Lemma binary2hex_loop_spec bs2 : forall bs1 hex,
  zlen hex >= 2 * zlen bs1 + 2 * zlen bs2 + 1 ->
  take (Z.to_nat (2 * zlen bs1)) hex = hexstring bs1 ->
  exists hex', binary2hex_loop (length bs2) (zlen bs1) (bs1 ++ bs2) hex = Some hex' /\
    length hex' = length hex /\
    take (Z.to_nat (2 * zlen (bs1 ++ bs2))) hex' = hexstring (bs1 ++ bs2) /\
    drop (Z.to_nat (2 * zlen (bs1 ++ bs2) + 1)) hex' =
      drop (Z.to_nat (2 * zlen (bs1 ++ bs2) + 1)) hex.
Proof.
  induction bs2 as [|b bs2 IH]; intros bs1 hex Hlen Hpre.
  { rewrite app_nil_r. exists hex. by split_and!. }
  cbn [binary2hex_loop length]. unfold zget at 1. rewrite decide_True by lia.
  rewrite Nat2Z.id, list_lookup_middle by done. rewrite option_bind_Some.
  cbn [length] in Hlen.
  destruct (zwrite_is_Some hex (zlen bs1 * 2) (sprintf_2x b ++ [0])) as [h Hh];
    [lia|simpl; lia|].
  rewrite Hh, option_bind_Some. pose proof (zwrite_length _ _ _ _ Hh) as Hl.
  destruct (IH (bs1 ++ [b]) h) as (hex' & Hrun & Hl' & Ht & Hd).
  { rewrite length_app. simpl length. lia. }
  { pose proof (take_zwrite _ _ _ _ 2 Hh ltac:(simpl; lia)) as Ht2.
    rewrite hexstring_app, length_app, <- Hpre. simpl length.
    replace (Z.to_nat (2 * Z.of_nat (length bs1 + 1))) with (Z.to_nat (zlen bs1 * 2) + 2)%nat by lia.
    rewrite Ht2. f_equal. f_equal. lia. }
  exists hex'. rewrite <- !app_assoc in *. simpl in Hrun, Ht, Hd |- *.
  replace (zlen bs1 + 1) with (zlen (bs1 ++ [b])) by (rewrite length_app; simpl; lia).
  split_and!; [done|congruence|done|]. rewrite Hd.
  eapply drop_zwrite; [exact Hh|]. rewrite !length_app. cbn [length sprintf_2x]. lia.
Qed.

(** [binary2hex] writes the hexadecimal string of the buffer, NUL included, and
    leaves the rest of the destination alone. *)
Lemma binary2hex_spec bs hex :
  zlen hex >= 2 * zlen bs + 1 ->
  binary2hex bs (zlen bs) hex =
    Some (hexstring bs ++ 0 :: drop (Z.to_nat (2 * zlen bs + 1)) hex).
Proof.
  intros Hlen. destruct (binary2hex_loop_spec bs [] hex) as (hex' & Hrun & Hl & Ht & Hd);
    [simpl; lia|done|].
  change (zlen (@nil Z)) with 0 in Hrun. simpl in Hrun, Ht, Hd. unfold binary2hex. rewrite Nat2Z.id, Hrun, option_bind_Some.
  unfold zset. rewrite decide_True by lia. f_equal.
  pose proof (hexstring_length bs) as Hhl.
  rewrite insert_take_drop by lia.
  replace (Z.to_nat (zlen bs * 2)) with (Z.to_nat (2 * zlen bs)) by lia.
  rewrite Ht, <- Hd. do 3 f_equal. lia.
Qed.

Lemma hex2binary_loop_spec bs2 : forall bs1 rest buf,
  Forall is_byte bs2 -> zlen buf >= zlen bs1 + zlen bs2 -> take (length bs1) buf = bs1 ->
  exists buf', hex2binary_loop (length bs2) (2 * zlen bs1)
      (hexstring (bs1 ++ bs2) ++ rest) buf = Some buf' /\
    take (length (bs1 ++ bs2)) buf' = bs1 ++ bs2 /\
    drop (length (bs1 ++ bs2)) buf' = drop (length (bs1 ++ bs2)) buf.
Proof.
  induction bs2 as [|b bs2 IH]; intros bs1 rest buf Hall Hlen Hpre.
  { rewrite app_nil_r. exists buf. by split_and!. }
  apply Forall_cons in Hall as [Hb Hall]. unfold is_byte in Hb. cbn [length] in *.
  pose proof (hexstring_length bs1) as Hhl.
  assert (forall k d, (k < 2)%nat -> sprintf_2x b !! k = Some d ->
    zget (hexstring (bs1 ++ b :: bs2) ++ rest) (2 * zlen bs1 + Z.of_nat k) = Some d) as Hget.
  { intros k d Hk Hd. unfold zget. rewrite decide_True by lia.
    rewrite hexstring_app, hexstring_cons, <- !app_assoc.
    rewrite lookup_app_r by lia.
    replace (Z.to_nat (2 * zlen bs1 + Z.of_nat k) - length (hexstring bs1))%nat with k by lia.
    by rewrite lookup_app_l by (simpl; lia). }
  cbn [hex2binary_loop].
  pose proof (Hget 0%nat _ ltac:(lia) eq_refl) as H0. rewrite Z.add_0_r in H0.
  rewrite H0, option_bind_Some.
  rewrite (Hget 1%nat _ ltac:(lia) eq_refl : zget _ (2 * zlen bs1 + 1) = _), option_bind_Some.
  rewrite !_hex2binary_hexdigit by (Z.div_mod_to_equations; lia).
  rewrite nibbles_byte by (Z.div_mod_to_equations; lia).
  replace (16 * (b / 16) + b mod 16) with b by (Z.div_mod_to_equations; lia).
  replace (2 * zlen bs1 / 2) with (zlen bs1) by (Z.div_mod_to_equations; lia).
  unfold zset. rewrite decide_True by lia. rewrite option_bind_Some, Nat2Z.id.
  assert (forall l, take (length (bs1 ++ [b])) (<[length bs1:=b]> buf) = bs1 ++ [b] /\
     drop (length (bs1 ++ b :: l)) (<[length bs1:=b]> buf) = drop (length (bs1 ++ b :: l)) buf) as Hins.
  { intros l. rewrite !length_app. simpl. split.
    - rewrite (insert_take_drop buf) by lia. rewrite Hpre.
      rewrite take_app_ge by lia. f_equal. by replace (_ - _)%nat with 1%nat by lia.
    - apply drop_insert_lt; lia. }
  destruct (IH (bs1 ++ [b]) rest (<[length bs1:=b]> buf)) as (buf' & Hrun & Ht & Hd);
    [done|rewrite length_insert, length_app; simpl; lia|apply (Hins [])|].
  exists buf'. rewrite <- app_assoc in *. simpl in Hrun, Ht, Hd.
  rewrite length_app in Hrun. simpl in Hrun.
  replace (2 * zlen bs1 + 2) with (2 * Z.of_nat (length bs1 + 1)) by lia.
  split_and!; [done|done|]. rewrite Hd. apply Hins.
Qed.

(** Reading the digits back gives the bytes. *)
Lemma hex2binary_spec bs rest buf :
  Forall is_byte bs -> zlen buf >= zlen bs ->
  hex2binary (hexstring bs ++ rest) (2 * zlen bs) buf = Some (bs ++ drop (length bs) buf).
Proof.
  intros Hall Hlen.
  destruct (hex2binary_loop_spec bs [] rest buf Hall) as (buf' & Hrun & Ht & Hd);
    [simpl; lia|done|].
  unfold hex2binary. replace ((2 * zlen bs + 1) / 2) with (zlen bs) by (Z.div_mod_to_equations; lia).
  rewrite Nat2Z.id. change (2 * zlen (@nil Z)) with 0 in Hrun.
  simpl in Hrun, Ht, Hd. rewrite Hrun. f_equal.
  rewrite <- (take_drop (length bs) buf'). by rewrite Ht, Hd.
Qed.

(** A string of digits is the hexadecimal form of some bytes. *)
Lemma hexdigits_hexstring s n :
  Forall is_hexdigit s -> zlen s = 2 * Z.of_nat n ->
  exists bs, s = hexstring bs /\ length bs = n /\ Forall is_byte bs.
Proof.
  revert s. induction n as [|n IH]; intros s Hall Hlen.
  { destruct s; [|simpl in Hlen; lia]. by exists []. }
  destruct s as [|h [|l s]]; [simpl in Hlen; lia..|].
  rewrite !Forall_cons in Hall. destruct Hall as (Hh & Hl & Hall).
  destruct (IH s Hall) as (bs & -> & Hbs & Hbytes); [simpl in Hlen; lia|].
  destruct (hexdigit__hex2binary h Hh) as [Hhr Hhe].
  destruct (hexdigit__hex2binary l Hl) as [Hlr Hle].
  exists ((16 * _hex2binary h + _hex2binary l) :: bs).
  rewrite hexstring_cons. unfold sprintf_2x. split_and!; [|simpl; lia|].
  - replace ((16 * _hex2binary h + _hex2binary l) / 16) with (_hex2binary h)
      by (Z.div_mod_to_equations; lia).
    replace ((16 * _hex2binary h + _hex2binary l) mod 16) with (_hex2binary l)
      by (Z.div_mod_to_equations; lia).
    by rewrite Hhe, Hle.
  - apply Forall_cons_2; [unfold is_byte; lia|done].
Qed.

(** ** Properties *)

(** [hex2binary] inverts [binary2hex]: for any buffer of bytes and any
    destinations that are large enough, the digits read back are the bytes, and
    only the bytes announced are written. *)
Theorem hex_roundtrip (bs hex buf : list Z) :
  Forall is_byte bs -> zlen hex >= 2 * zlen bs + 1 -> zlen buf >= zlen bs ->
  exists hex', binary2hex bs (zlen bs) hex = Some hex' /\
    hex2binary hex' (2 * zlen bs) buf = Some (bs ++ drop (length bs) buf).
Proof.
  intros Hb Hh Hbuf. eexists. split; [by apply binary2hex_spec|]. by apply hex2binary_spec.
Qed.

Lemma hex_roundtrip_witness :
  exists hex', binary2hex [0; 171; 255] 3 (replicate 9 1) = Some hex' /\
    hex2binary hex' 6 (replicate 4 9) = Some [0; 171; 255; 9].
Proof.
  apply (hex_roundtrip [0; 171; 255] (replicate 9 1) (replicate 4 9)).
  - repeat constructor; done.
  - simpl. lia.
  - simpl. lia.
Defined.

(** On lower-case hexadecimal text of even length [binary2hex] inverts
    [hex2binary], so the chunk files' text and the binary hashes name each other. *)
Theorem hex_text_roundtrip (s buf hex : list Z) (n : nat) :
  Forall is_hexdigit s -> zlen s = 2 * Z.of_nat n -> length buf = n ->
  zlen hex = 2 * Z.of_nat n + 1 ->
  exists bs, hex2binary s (zlen s) buf = Some bs /\ length bs = n /\
    binary2hex bs (Z.of_nat n) hex = Some (s ++ [0]).
Proof.
  intros Hs Hlen Hbuf Hhex.
  destruct (hexdigits_hexstring s n Hs Hlen) as (bs & -> & <- & Hb).
  pose proof (hexstring_length bs) as Hhl. exists bs.
  pose proof (hex2binary_spec bs [] buf Hb) as H. rewrite app_nil_r in H.
  rewrite Hhl, H, (drop_ge buf), app_nil_r by lia. split_and!; [done..|].
  rewrite binary2hex_spec by lia. by rewrite drop_ge by lia.
Qed.

Lemma hex_text_roundtrip_witness :
  exists bs, hex2binary [97; 48] 2 [0] = Some bs /\ length bs = 1%nat /\
    binary2hex bs 1 [1; 1; 1] = Some [97; 48; 0].
Proof.
  apply (hex_text_roundtrip [97; 48] [0] [1; 1; 1] 1).
  - repeat constructor; unfold is_hexdigit; lia.
  - reflexivity.
  - reflexivity.
  - reflexivity.
Defined.

Lemma shahash_spec junk m :
  length junk = 64%nat -> zlen m < 2 ^ 32 -> shahash junk m (zlen m) = Some (sha1_spec m).
Proof. intros. unfold shahash. rewrite u32_small by lia. by apply sha1_correct. Qed.

Lemma make_chunks_loop_spec junk fuel : forall file k hs,
  length junk = 64%nat -> (length file <= fuel)%nat ->
  exists n cs, make_chunks_loop fuel junk file k hs = Some (k + Z.of_nat n, hs ++ (sha1_spec <$> cs)) /\
    mjoin cs = file /\ length cs = n /\
    (forall i c, cs !! i = Some c ->
       0 < zlen c <= BT_CHUNK_SIZE /\ (S i < n -> zlen c = BT_CHUNK_SIZE)%nat).
Proof.
  induction fuel as [|fuel IH]; intros file k hs Hj Hf.
  { destruct file; [|simpl in Hf; lia]. exists 0%nat, []. simpl.
    rewrite Z.add_0_r, app_nil_r. by split_and!. }
  destruct file as [|b file].
  { exists 0%nat, []. simpl. rewrite Z.add_0_r, app_nil_r. by split_and!. }
  assert (Hp : 0 < BT_CHUNK_SIZE < 2 ^ 32) by done. cbn [make_chunks_loop].
  remember (b :: file) as f eqn:Ef. assert (0 < length f)%nat by (subst; simpl; lia). clear Ef.
  generalize dependent BT_CHUNK_SIZE. intros C IH HC.
  set (m := take (Z.to_nat C) f).
  assert (zlen m = Z.min C (zlen f)) as Hm by (unfold m; rewrite length_take; lia).
  rewrite shahash_spec, option_bind_Some by (done || lia).
  destruct (IH (drop (Z.to_nat C) f) (k + 1) (hs ++ [sha1_spec m])) as (n & cs & Hrun & Hcat & Hn & Hcs).
  { done. }
  { rewrite length_drop. lia. }
  exists (S n), (m :: cs). rewrite Hrun. split_and!.
  - rewrite <- app_assoc, fmap_cons. simpl. do 2 f_equal. lia.
  - change (mjoin (m :: cs)) with (m ++ mjoin cs). rewrite Hcat. apply take_drop.
  - simpl. lia.
  - intros [|i] c Hc; simpl in Hc.
    + injection Hc as <-. split; [lia|]. intros Hi.
      destruct cs as [|c' cs]; [simpl in Hn; lia|].
      destruct (Hcs 0%nat c' eq_refl) as [? _].
      assert (0 < length (drop (Z.to_nat C) f))%nat as Hd.
      { rewrite <- Hcat. change (mjoin (c' :: cs)) with (c' ++ mjoin cs). rewrite length_app. lia. }
      rewrite length_drop in Hd. lia.
    + destruct (Hcs i c Hc) as [? Hfull]. split; [done|]. intros. apply Hfull. lia.
Qed.

(** [make_chunks], given its buffer, terminates on every file and returns the SHA-1 of each of its
    512 KiB pieces in order (the last may be shorter), with their number; the pieces
    make up the file. *)
Theorem make_chunks_correct (junk file : list Z) :
  length junk = 64%nat ->
  exists cs, make_chunks true junk file = Some (zlen cs, sha1_spec <$> cs) /\ mjoin cs = file /\
    (forall i c, cs !! i = Some c ->
       0 < zlen c <= BT_CHUNK_SIZE /\ (S i < length cs -> zlen c = BT_CHUNK_SIZE)%nat).
Proof.
  intros Hj.
  destruct (make_chunks_loop_spec junk (length file) file 0 [] Hj) as (n & cs & Hrun & Hcat & <- & Hcs);
    [done|]. exists cs. split_and!; done.
Qed.

Lemma make_chunks_correct_witness :
  exists cs, make_chunks true (replicate 64 0) [97; 98; 99] = Some (zlen cs, sha1_spec <$> cs) /\
    mjoin cs = [97; 98; 99].
Proof.
  destruct (make_chunks_correct (replicate 64 0) [97; 98; 99]) as (cs & H1 & H2 & _).
  - reflexivity.
  - exists cs. split; [exact H1|exact H2].
Defined.
