(* ===== verification/ChunkList.v ===== *)
(** * ChunkList: lists of chunks and their files (chunklist.c, make_chunks.c)

    A chunk list is an array of [MAX_CHUNK_NUM] lines and a count. [parse_chunk]
    fills it from a file with [fscanf("%d %s")], modelled on the file's bytes;
    make-chunks prints the files it reads. *)

From S2P Require Import Prelude Sha Chunk.

(** ** The data *)

Definition MAX_CHUNK_NUM : Z := 4096.

Inductive ChunkState := unfetched | fetching | fetched.
#[export] Instance ChunkState_eq_dec : EqDecision ChunkState.
Proof. solve_decision. Defined.

(** [sha1] is the buffer [char sha1[SHA1_HASH_SIZE*2 + 1]]. *)
Record ChunkLine := { state : ChunkState; cl_id : Z; sha1_buf : list Z }.
#[export] Instance ChunkLine_settable : Settable ChunkLine :=
  fun c => Build_ChunkLine (state c) (cl_id c) (sha1_buf c).
Definition SHA1_BUF_SIZE : Z := SHA1_HASH_SIZE * 2 + 1.

Record ChunkList := { cl_count : Z; chunks : list ChunkLine }.
#[export] Instance ChunkList_settable : Settable ChunkList :=
  fun c => Build_ChunkList (cl_count c) (chunks c).

(** A line of the zero-initialised global arrays, or of fresh memory. *)
Definition zero_line : ChunkLine :=
  {| state := unfetched; cl_id := 0; sha1_buf := replicate (Z.to_nat SHA1_BUF_SIZE) 0 |}.
Definition zero_list : ChunkList :=
  {| cl_count := 0; chunks := replicate (Z.to_nat MAX_CHUNK_NUM) zero_line |}.

(** ** [fscanf(fp, "%d %s", &id, sha1)] on the unread bytes of the file *)

Definition isspace (c : Z) : bool := (c =? 32) || ((9 <=? c) && (c <=? 13)).
Definition isdigit (c : Z) : bool := (48 <=? c) && (c <=? 57).
Fixpoint skip_space (l : list Z) : list Z :=
  match l with c :: l' => if isspace c then skip_space l' else l | [] => [] end.
Fixpoint span (p : Z -> bool) (l : list Z) : list Z * list Z :=
  match l with
  | c :: l' => if p c then let '(a, b) := span p l' in (c :: a, b) else ([], l)
  | [] => ([], [])
  end.
Definition digits_value (ds : list Z) : Z := foldl (fun v d => 10 * v + (d - 48)) 0 ds.

(** [strtol] saturates at the bounds of [long]; the result is stored in an [int]. *)
Definition strtol (neg : bool) (ds : list Z) : Z :=
  let v := digits_value ds in
  Z.max (- 2 ^ 63) (Z.min (2 ^ 63 - 1) (if neg then - v else v)).

Definition EOF : Z := -1.
(** The return value, the conversions made, and the bytes left. *)
Record scanned := { sc_ret : Z; sc_id : option Z; sc_str : option (list Z); sc_rest : list Z }.

Definition fscanf_d_s (inp : list Z) : scanned :=
  match skip_space inp with
  | [] => {| sc_ret := EOF; sc_id := None; sc_str := None; sc_rest := [] |}
  | c :: l =>
    let '(neg, body) :=
      if c =? 45 then (true, l) else if c =? 43 then (false, l) else (false, c :: l) in
    match span isdigit body with
    | ([], rest) => {| sc_ret := 0; sc_id := None; sc_str := None; sc_rest := rest |}
    | (ds, rest) =>
      let id := s32 (strtol neg ds) in
      match span (fun c => negb (isspace c)) (skip_space rest) with
      | ([], rest') => {| sc_ret := 1; sc_id := Some id; sc_str := None; sc_rest := rest' |}
      | (str, rest') => {| sc_ret := 2; sc_id := Some id; sc_str := Some str; sc_rest := rest' |}
      end
    end
  end.

(** ** The code *)

(** The [while] loop of [parse_chunk]; [n] is [MAX_CHUNK_NUM - i]. *)
Fixpoint parse_loop (n : nat) (inp : list Z) (i : Z) (cs : list ChunkLine)
    : option (Z * list ChunkLine) :=
  match n with
  | O => Some (i, cs)
  | S n' =>
    let r := fscanf_d_s inp in
    if sc_ret r =? EOF then Some (i, cs) else
    line ← zget cs i;
    buf ← match sc_str r with
          | Some str => zwrite (sha1_buf line) 0 (str ++ [0])
          | None => Some (sha1_buf line)
          end;
    cs' ← zset cs i {| state := unfetched; cl_id := default (cl_id line) (sc_id r); sha1_buf := buf |};
    parse_loop n' (sc_rest r) (i + 1) cs'
  end.

(** [fopen] gives the file's bytes, or fails; the result is the return value and
    the list. *)
Definition parse_chunk (cl : ChunkList) (fopen : option (list Z)) : option (Z * ChunkList) :=
  match fopen with
  | None => Some (-1, cl)
  | Some file =>
    r ← parse_loop (Z.to_nat MAX_CHUNK_NUM) file 0 (chunks cl);
    Some (0, {| cl_count := fst r; chunks := snd r |})
  end.

(** The [for] loop of [add_chunk]: [None] for the [return] inside it. *)
Fixpoint add_chunk_find (n : nat) (i : Z) (clist : ChunkList) (cline : ChunkLine)
    : option (option Z) :=
  match n with
  | O => Some (Some i)
  | S n' =>
    c ← zget (chunks clist) i;
    d ← strcmp (sha1_buf c) (sha1_buf cline);
    if d =? 0 then Some None else add_chunk_find n' (i + 1) clist cline
  end.
Definition add_chunk (clist : ChunkList) (cline : ChunkLine) : option ChunkList :=
  r ← add_chunk_find (Z.to_nat (cl_count clist)) 0 clist cline;
  match r with
  | None => Some clist
  | Some i =>
    if i <? cl_count clist then
      cs ← zset (chunks clist) i cline;
      Some {| cl_count := cl_count clist + 1; chunks := cs |}
    else Some clist
  end.

(** [hash2Index] of peer_server.c. *)
Fixpoint hash2Index_loop (n : nat) (i : Z) (clist : ChunkList) (hash : list Z) : option Z :=
  match n with
  | O => Some (-1)
  | S n' =>
    c ← zget (chunks clist) i;
    d ← strcmp (sha1_buf c) hash;
    if 0 =? d then Some i else hash2Index_loop n' (i + 1) clist hash
  end.
Definition hash2Index (clist : ChunkList) (hash : list Z) : option Z :=
  hash2Index_loop (Z.to_nat (cl_count clist)) 0 clist hash.

(** The [main] of make_chunks.c prints a line ["%d %s\n"] for each hash. *)
Fixpoint dec_digits (fuel : nat) (n : Z) : list Z :=
  match fuel with
  | O => []
  | S fuel' => if n <? 10 then [48 + n] else dec_digits fuel' (n / 10) ++ [48 + n mod 10]
  end.
Definition printf_d (n : Z) : list Z := dec_digits 10 n.
Definition print_line (id : Z) (hash : list Z) : list Z :=
  printf_d id ++ [32] ++ hexstring hash ++ [10].
Definition make_chunks_output (hashes : list (list Z)) : list Z :=
  mjoin (imap (fun i h => print_line (Z.of_nat i) h) hashes).

(** ** C strings and well-formed lists *)

(** The string in a buffer: what precedes the first NUL. *)
Fixpoint cstr (buf : list Z) : list Z :=
  match buf with c :: l => if c =? 0 then [] else c :: cstr l | [] => [] end.

(** An initialised list: every line's buffer holds a terminated string. *)
Definition line_wf (c : ChunkLine) : Prop := zlen (sha1_buf c) = SHA1_BUF_SIZE /\ 0 ∈ sha1_buf c.
Definition list_wf (cl : ChunkList) : Prop :=
  zlen (chunks cl) = MAX_CHUNK_NUM /\ 0 <= cl_count cl <= MAX_CHUNK_NUM /\
  Forall line_wf (chunks cl).

(** The identities whose place in a file, the product with [BT_CHUNK_SIZE], is an [int],
    and the lists that have no others. *)
Definition is_place (k : Z) : Prop := - 4096 <= k < 4096.
Definition places_int (cl : ChunkList) : Prop := Forall (fun c => is_place (cl_id c)) (chunks cl).
Definition list_ok (cl : ChunkList) : Prop := list_wf cl /\ places_int cl.
Definition place_of (c : ChunkLine) : Z := cl_id c * BT_CHUNK_SIZE.

Lemma int_mul_place k : is_place k -> int_mul k BT_CHUNK_SIZE = Some (k * BT_CHUNK_SIZE).
Proof. unfold is_place, int_mul. change BT_CHUNK_SIZE with 524288. intros. by rewrite decide_True by lia. Qed.
Lemma places_line cl i c : places_int cl -> zget (chunks cl) i = Some c -> is_place (cl_id c).
Proof. unfold places_int, zget. case_decide; [|done]. rewrite Forall_lookup. eauto. Qed.
Lemma list_ok_wf cl : list_ok cl -> list_wf cl.
Proof. by intros []. Qed.

(** The [i]-th line holds the string in [hash]. *)
Definition line_matches (cl : ChunkList) (hash : list Z) (i : Z) : Prop :=
  exists c, zget (chunks cl) i = Some c /\ cstr (sha1_buf c) = cstr hash.

Lemma strcmp_spec a b :
  0 ∈ a -> 0 ∈ b -> exists d, strcmp a b = Some d /\ (d = 0 <-> cstr a = cstr b).
Proof.
  revert b. induction a as [|x a IH]; intros b Ha Hb; [by apply not_elem_of_nil in Ha|].
  destruct b as [|y b]; [by apply not_elem_of_nil in Hb|]. simpl.
  destruct (Z.eqb_spec x y) as [->|Hne].
  - destruct (Z.eqb_spec y 0) as [->|Hy]; [by exists 0|].
    apply elem_of_cons in Ha as [?|Ha]; [congruence|].
    apply elem_of_cons in Hb as [?|Hb]; [congruence|].
    destruct (IH b Ha Hb) as (d & Hd & Hiff). exists d. split; [done|].
    rewrite Hiff. split; [by intros ->|by intros [= ->]].
  - exists (x - y). split; [done|]. split; [lia|]. intros E. exfalso.
    destruct (Z.eqb_spec x 0), (Z.eqb_spec y 0); simplify_eq.
Qed.

Lemma list_wf_line cl i c : list_wf cl -> zget (chunks cl) i = Some c -> line_wf c.
Proof.
  intros (_ & _ & Hall) Hc. unfold zget in Hc. case_decide; [|done].
  rewrite Forall_lookup in Hall. eauto.
Qed.

Lemma list_wf_get cl i :
  list_wf cl -> 0 <= i < cl_count cl -> exists c, zget (chunks cl) i = Some c /\ line_wf c.
Proof.
  intros Hwf Hi. destruct (zget_is_Some (chunks cl) i) as [c Hc].
  { destruct Hwf as (? & ? & _). lia. }
  eauto using list_wf_line.
Qed.

Lemma hash2Index_loop_spec cl hash n : forall i,
  list_wf cl -> 0 ∈ hash -> 0 <= i -> i + Z.of_nat n <= cl_count cl ->
  exists r, hash2Index_loop n i cl hash = Some r /\
    ((r = -1 /\ forall j, i <= j < i + Z.of_nat n -> ~ line_matches cl hash j) \/
     (i <= r < i + Z.of_nat n /\ line_matches cl hash r /\
      forall j, i <= j < r -> ~ line_matches cl hash j)).
Proof.
  induction n as [|n IH]; intros i Hwf Hh Hi Hn; cbn [hash2Index_loop].
  { exists (-1). split; [done|]. left. split; [done|]. intros; lia. }
  destruct (list_wf_get cl i Hwf) as (c & Hc & Hlc); [lia|].
  destruct (strcmp_spec (sha1_buf c) hash) as (d & Hd & Hiff); [apply Hlc|done|].
  rewrite Hc, option_bind_Some, Hd, option_bind_Some.
  destruct (Z.eqb_spec 0 d) as [<-|Hne].
  - exists i. split; [done|]. right. split_and!; [lia..| |intros; lia].
    exists c. split; [done|]. by apply Hiff.
  - assert (~ line_matches cl hash i) as Hno.
    { intros (c' & Hc' & E). simplify_eq. apply Hiff in E. lia. }
    assert (forall j, i <= j -> j <> i -> i + 1 <= j) as Hstep by lia.
    destruct (IH (i + 1)) as (r & Hr & Hcase); [done..|lia|lia|].
    exists r. split; [exact Hr|]. destruct Hcase as [[-> Hall]|(Hr1 & Hm & Hall)];
      [left|right]; split_and!; try done; try lia; intros j Hj;
      destruct (decide (j = i)) as [->|]; try done; apply Hall; lia.
Qed.

Lemma add_chunk_find_end n : forall i cl c r,
  add_chunk_find n i cl c = Some (Some r) -> r = i + Z.of_nat n.
Proof.
  induction n as [|n IH]; intros i cl c r; simpl; [intros [= ->]; lia|].
  destruct (zget _ _) as [x|]; simpl; [|done]. destruct (strcmp _ _) as [d|]; simpl; [|done].
  destruct (d =? 0); [done|]. intros H%IH. lia.
Qed.

Lemma add_chunk_find_total cl c n : forall i,
  list_wf cl -> line_wf c -> 0 <= i -> i + Z.of_nat n <= cl_count cl ->
  exists r, add_chunk_find n i cl c = Some r.
Proof.
  induction n as [|n IH]; intros i Hwf Hc Hi Hn; simpl; [eauto|].
  destruct (list_wf_get cl i Hwf) as (x & Hx & Hlx); [lia|].
  destruct (strcmp_spec (sha1_buf x) (sha1_buf c)) as (d & Hd & _); [apply Hlx|apply Hc|].
  rewrite Hx, option_bind_Some, Hd, option_bind_Some.
  destruct (d =? 0); [eauto|]. apply IH; done || lia.
Qed.

(** ** Reading a printed file back *)

Lemma skip_space_digit c l : is_hexdigit c -> skip_space (c :: l) = c :: l.
Proof.
  unfold is_hexdigit. intros Hc. simpl. unfold isspace.
  destruct (Z.eqb_spec c 32), (Z.leb_spec 9 c), (Z.leb_spec c 13); simpl; done || lia.
Qed.

Lemma span_app p l c rest :
  Forall (fun x => p x = true) l -> p c = false -> span p (l ++ c :: rest) = (l, c :: rest).
Proof.
  induction 1 as [|x l Hx _ IH]; intros Hc; simpl; [by rewrite Hc|].
  by rewrite Hx, IH.
Qed.

Definition is_digit (c : Z) : Prop := 48 <= c <= 57.

Lemma dec_digits_spec fuel : forall n,
  0 <= n < 10 ^ Z.of_nat fuel -> (0 < fuel)%nat ->
  Forall is_digit (dec_digits fuel n) /\ dec_digits fuel n <> [] /\
  digits_value (dec_digits fuel n) = n.
Proof.
  induction fuel as [|fuel IH]; intros n Hn Hf; [lia|].
  cbn [dec_digits]. destruct (Z.ltb_spec n 10).
  { split_and!; [apply Forall_singleton; unfold is_digit; lia|done|unfold digits_value; simpl; lia]. }
  assert (0 < fuel)%nat as Hf'.
  { destruct fuel; [|lia]. change (10 ^ Z.of_nat 1) with 10 in Hn. lia. }
  rewrite Nat2Z.inj_succ, Z.pow_succ_r in Hn by lia.
  destruct (IH (n / 10)) as (Hd & Hne & Hv); [Z.div_mod_to_equations; lia|done|].
  split_and!.
  - apply Forall_app. split; [done|]. apply Forall_singleton. unfold is_digit.
    Z.div_mod_to_equations. lia.
  - intros E. apply app_eq_nil in E as [_ E]. done.
  - unfold digits_value in *. rewrite foldl_app, Hv. simpl. Z.div_mod_to_equations. lia.
Qed.

Lemma isspace_digit c : is_hexdigit c -> isspace c = false.
Proof.
  unfold is_hexdigit, isspace. intros.
  destruct (Z.eqb_spec c 32), (Z.leb_spec 9 c), (Z.leb_spec c 13); simpl; done || lia.
Qed.

Lemma skip_space_word c l : isspace c = false -> skip_space (c :: l) = c :: l.
Proof. intros E. simpl. by rewrite E. Qed.

(** A printed number is the digits that a conversion of [%d] reads. *)
Lemma printf_d_digits n : 0 <= n < 2 ^ 31 ->
  exists d ds, printf_d n = d :: ds /\ Forall is_digit (d :: ds) /\ s32 (strtol false (d :: ds)) = n.
Proof.
  intros Hn. destruct (dec_digits_spec 10 n) as (Hd & Hdne & Hv); [|lia|].
  { split; [lia|]. eapply Z.lt_trans; [apply Hn|]. done. }
  fold (printf_d n) in Hd, Hdne, Hv. destruct (printf_d n) as [|d ds]; [done|]. exists d, ds. split_and!; [done..|].
  unfold strtol. rewrite Hv, Z.min_r, Z.max_r by lia. apply s32_small. lia.
Qed.

Lemma digits_isdigit ds : Forall is_digit ds -> Forall (fun c => isdigit c = true) ds.
Proof. intros Hd. eapply Forall_impl; [exact Hd|]. unfold is_digit, isdigit. intros x Hx. lia. Qed.

(** One [fscanf] reads a printed number and the word that follows it. *)
Lemma fscanf_word id w c rest :
  0 <= id < 2 ^ 31 -> Forall (fun x => isspace x = false) w -> w <> [] -> isspace c = true ->
  fscanf_d_s (printf_d id ++ 32 :: w ++ c :: rest) =
    {| sc_ret := 2; sc_id := Some id; sc_str := Some w; sc_rest := c :: rest |}.
Proof.
  intros Hid Hw Hne Hc. destruct (printf_d_digits id Hid) as (d & ds & -> & Hd & Hv).
  unfold fscanf_d_s. rewrite <- app_comm_cons.
  assert (is_digit d) as Hd0 by (by apply Forall_cons in Hd as [? _]). unfold is_digit in Hd0.
  rewrite skip_space_digit by (left; lia).
  destruct (Z.eqb_spec d 45); [lia|]. destruct (Z.eqb_spec d 43); [lia|].
  rewrite app_comm_cons, span_app; [|by apply digits_isdigit|done].
  change (skip_space (32 :: ?x)) with (skip_space x). destruct w as [|x w]; [done|].
  rewrite <- app_comm_cons, skip_space_word by (by apply Forall_cons in Hw as [? _]). rewrite app_comm_cons.
  rewrite span_app; [by rewrite Hv| |by rewrite Hc].
  eapply Forall_impl; [exact Hw|]. by intros y ->.
Qed.

(** One [fscanf] reads one printed line. *)
Lemma fscanf_print_line id hash rest :
  0 <= id < 10 ^ 4 -> Forall is_byte hash -> hash <> [] ->
  fscanf_d_s (print_line id hash ++ rest) =
    {| sc_ret := 2; sc_id := Some id; sc_str := Some (hexstring hash); sc_rest := 10 :: rest |}.
Proof.
  intros Hid Hb Hne. unfold print_line. rewrite <- !app_assoc. apply fscanf_word; [lia| | |done].
  - eapply Forall_impl; [by apply hexstring_digits|]. intros x. apply isspace_digit.
  - destruct hash; [done|]. by rewrite hexstring_cons.
Qed.

(** The line a printed hash is read into. *)
Definition read_line (id : Z) (hash : list Z) : ChunkLine :=
  {| state := unfetched; cl_id := id; sha1_buf := hexstring hash ++ [0] |}.

Lemma skip_space_nl l : skip_space (10 :: l) = skip_space l.
Proof. done. Qed.

(** The blank left by the previous line is skipped. *)
Lemma fscanf_nl l : fscanf_d_s (10 :: l) = fscanf_d_s l.
Proof. unfold fscanf_d_s. by rewrite skip_space_nl. Qed.

Lemma parse_loop_nl n l i cs : parse_loop n (10 :: l) i cs = parse_loop n l i cs.
Proof. destruct n; [done|]. cbn [parse_loop]. by rewrite fscanf_nl. Qed.

Definition good_hash (h : list Z) : Prop := zlen h = SHA1_HASH_SIZE /\ Forall is_byte h.

Lemma parse_loop_print hs : forall n i k (pre post : list ChunkLine),
  Forall good_hash hs -> (length hs <= n)%nat -> i = zlen pre -> zlen pre = Z.of_nat k ->
  (length hs <= length post)%nat -> zlen pre + zlen hs <= MAX_CHUNK_NUM ->
  Forall (fun c => zlen (sha1_buf c) = SHA1_BUF_SIZE) post ->
  parse_loop n (mjoin (imap (fun j h => print_line (Z.of_nat (k + j)) h) hs)) i (pre ++ post) =
  Some (i + zlen hs,
        pre ++ imap (fun j h => read_line (Z.of_nat (k + j)) h) hs ++ drop (length hs) post).
Proof.
  induction hs as [|h hs IH]; intros n i k pre post Hg Hn -> Hk Hpost Hmax Hbuf.
  { simpl. destruct n; simpl; rewrite Z.add_0_r; by rewrite ?drop_0. }
  destruct n as [|n]; [simpl in Hn; lia|]. apply Forall_cons in Hg as [[Hh1 Hh2] Hg].
  rewrite imap_cons. change (mjoin (?a :: ?b)) with (a ++ mjoin b).
  cbn [parse_loop]. unfold MAX_CHUNK_NUM in *. simpl length in *.
  rewrite fscanf_print_line; [|lia|done|by intros ->]. cbn [sc_ret sc_str sc_id sc_rest].
  change (2 =? EOF) with false. cbv iota.
  destruct post as [|line post]; [simpl in Hpost; lia|]. simpl length in Hpost.
  apply Forall_cons in Hbuf as [Hline Hbuf].
  unfold zget. rewrite decide_True by lia. rewrite Nat2Z.id, list_lookup_middle by done.
  rewrite option_bind_Some.
  assert (zlen (hexstring h ++ [0]) = SHA1_BUF_SIZE) as Hlen.
  { rewrite length_app, Nat2Z.inj_add, hexstring_length, Hh1. done. }
  unfold zwrite. rewrite decide_True by lia. rewrite option_bind_Some.
  rewrite (drop_ge (sha1_buf line)) by lia. rewrite app_nil_r.
  unfold zset. rewrite decide_True by (rewrite length_app; simpl; lia).
  rewrite option_bind_Some, parse_loop_nl, Nat2Z.id.
  rewrite (insert_app_r_alt pre) by lia. rewrite Nat.sub_diag. cbn [insert list_insert].
  match goal with |- context [pre ++ ?c :: post] =>
    replace c with (read_line (Z.of_nat (k + 0)) h) by
      (unfold read_line; rewrite Z2Nat.inj_0, take_0; done) end.
  replace (pre ++ read_line (Z.of_nat (k + 0)) h :: post)
    with ((pre ++ [read_line (Z.of_nat (k + 0)) h]) ++ post) by (by rewrite <- app_assoc).
  erewrite imap_ext; [erewrite (IH n _ (S k))|].
  all: try done; try lia; try (rewrite length_app; simpl; lia).
  - f_equal. f_equal; [lia|]. rewrite imap_cons, <- app_assoc. cbn [app].
    do 3 f_equal. apply imap_ext. intros j x _. simpl. f_equal. lia.
  - intros j x _. simpl. f_equal. lia.
Qed.

(** ** Files whose words fit the buffers

    [%s] has no bound: a word of 41 bytes would overflow [sha1], which is undefined. *)

Definition words_fit (l : list Z) : Prop :=
  forall a w b, l = a ++ w ++ b -> Forall (fun c => isspace c = false) w -> zlen w < SHA1_BUF_SIZE.

Lemma words_fit_suffix a b : words_fit (a ++ b) -> words_fit b.
Proof. intros Hf x w y ->. apply (Hf (a ++ x) w y). by rewrite <- app_assoc. Qed.
Lemma words_fit_cons c l : words_fit (c :: l) -> words_fit l.
Proof. apply (words_fit_suffix [c]). Qed.

Lemma skip_space_fit l : words_fit l -> words_fit (skip_space l).
Proof.
  induction l as [|c l IH]; [done|]. intros Hf. simpl. destruct (isspace c); [|done].
  by apply IH, (words_fit_cons c).
Qed.

Lemma span_split p l a b : span p l = (a, b) -> l = a ++ b /\ Forall (fun c => p c = true) a.
Proof.
  revert a b. induction l as [|c l IH]; intros a b E; simpl in E; [by simplify_eq|].
  destruct (p c) eqn:Ep; [|by simplify_eq]. destruct (span p l) as [a' b'] eqn:Es.
  simplify_eq. destruct (IH _ _ eq_refl) as [-> Ha]. split; [done|]. by constructor.
Qed.

Lemma fscanf_fit l : words_fit l ->
  words_fit (sc_rest (fscanf_d_s l)) /\ forall s, sc_str (fscanf_d_s l) = Some s -> zlen s < SHA1_BUF_SIZE.
Proof.
  intros Hf%skip_space_fit. unfold fscanf_d_s. destruct (skip_space l) as [|c l'].
  { split; [exact Hf|done]. }
  set (nb := if c =? 45 then (true, l') else if c =? 43 then (false, l') else (false, c :: l')).
  assert (words_fit (snd nb)) as Hb.
  { pose proof (words_fit_cons _ _ Hf). unfold nb. by destruct (c =? 45), (c =? 43). }
  destruct nb as [neg body]. cbn [snd] in Hb.
  destruct (span isdigit body) as [ds rest] eqn:E1. apply span_split in E1 as [-> _].
  apply words_fit_suffix in Hb. destruct ds as [|d ds]; [split; [exact Hb|done]|].
  apply skip_space_fit in Hb.
  destruct (span _ (skip_space rest)) as [str rest'] eqn:E2. apply span_split in E2 as [E2 Hw].
  rewrite E2 in Hb. pose proof (words_fit_suffix _ _ Hb) as Hb'.
  assert (zlen str < SHA1_BUF_SIZE) as Hs.
  { apply (Hb [] str rest'); [done|]. eapply Forall_impl; [exact Hw|]. by intros x ->%negb_true_iff. }
  destruct str as [|x str]; (split; [exact Hb'|]); [done|by intros s [= <-]].
Qed.

Lemma zwrite_str_wf buf str : zlen buf = SHA1_BUF_SIZE -> zlen str < SHA1_BUF_SIZE ->
  exists b, zwrite buf 0 (str ++ [0]) = Some b /\ zlen b = SHA1_BUF_SIZE /\ 0 ∈ b.
Proof.
  intros Hb Hs. destruct (zwrite_is_Some buf 0 (str ++ [0])) as [b E]; [done| |].
  { rewrite length_app. cbn [length]. lia. }
  exists b. split; [done|]. split; [by rewrite (zwrite_length _ _ _ _ E)|].
  unfold zwrite in E. case_decide; [|done]. injection E as <-. rewrite !elem_of_app. left. right. left.
Qed.

(** On such a file [parse_chunk] keeps the list well-formed, whatever the file says. *)
Lemma parse_loop_wf n : forall inp i cs,
  words_fit inp -> 0 <= i -> i + Z.of_nat n <= zlen cs -> Forall line_wf cs ->
  exists k cs', parse_loop n inp i cs = Some (k, cs') /\ i <= k <= i + Z.of_nat n /\
    zlen cs' = zlen cs /\ Forall line_wf cs'.
Proof.
  induction n as [|n IH]; intros inp i cs Hf Hi Hn Hall; cbn [parse_loop].
  { exists i, cs. split_and!; [done|lia|lia|done|done]. }
  destruct (fscanf_fit _ Hf) as [Hrest Hstr]. destruct (sc_ret (fscanf_d_s inp) =? EOF).
  { exists i, cs. split_and!; [done|lia|lia|done|done]. }
  destruct (zget_is_Some cs i) as [line Hl]; [lia|]. rewrite Hl, option_bind_Some.
  assert (line_wf line) as [Hll Hl0].
  { unfold zget in Hl. case_decide; [|done]. rewrite Forall_lookup in Hall. eauto. }
  assert (exists buf, match sc_str (fscanf_d_s inp) with
    | Some str => zwrite (sha1_buf line) 0 (str ++ [0]) | None => Some (sha1_buf line) end = Some buf /\
    zlen buf = SHA1_BUF_SIZE /\ 0 ∈ buf) as (buf & -> & Hbuf).
  { destruct (sc_str _) as [str|]; [|by eexists]. apply zwrite_str_wf; [done|by apply Hstr]. }
  rewrite option_bind_Some. set (line' := {| state := unfetched; cl_id := _; sha1_buf := buf |}).
  destruct (zset_is_Some cs i line') as [cs1 E1]; [lia|]. rewrite E1, option_bind_Some.
  pose proof (zset_length _ _ _ _ E1) as Hlen.
  destruct (IH (sc_rest (fscanf_d_s inp)) (i + 1) cs1) as (k & cs' & -> & Hk & Hl' & Hall'); [done|lia|lia| |].
  { unfold zset in E1. case_decide; [|done]. injection E1 as <-. by apply Forall_insert. }
  exists k, cs'. split_and!; [done|lia|lia|lia|done].
Qed.

Lemma parse_chunk_wf cl fopen :
  list_wf cl -> (forall file, fopen = Some file -> words_fit file) ->
  exists r cl', parse_chunk cl fopen = Some (r, cl') /\ list_wf cl' /\
    (r < 0 <-> fopen = None) /\ (fopen = None -> cl' = cl).
Proof.
  intros Hwf Hf. pose proof Hwf as (Hl & _ & Hall). unfold parse_chunk.
  destruct fopen as [file|]; [|by exists (-1), cl].
  destruct (parse_loop_wf (Z.to_nat MAX_CHUNK_NUM) file 0 (chunks cl)) as (k & cs & -> & Hk & Hl' & Hall').
  { by apply Hf. }
  { done. }
  { rewrite Hl. done. }
  { done. }
  rewrite option_bind_Some. eexists _, _. split; [done|]. split; [|done].
  split; [simpl; lia|]. split; [|done]. simpl. change MAX_CHUNK_NUM with 4096 in *. lia.
Qed.

(** The numbers that the first [n] calls of [fscanf] read. *)
Fixpoint read_ids (n : nat) (inp : list Z) : list Z :=
  match n with
  | O => []
  | S n' =>
    let r := fscanf_d_s inp in
    if sc_ret r =? EOF then [] else option_list (sc_id r) ++ read_ids n' (sc_rest r)
  end.

(** A file that [parse_chunk] can read: its words fit, and its numbers are places. *)
Definition file_fits (file : list Z) : Prop :=
  words_fit file /\ Forall is_place (read_ids (Z.to_nat MAX_CHUNK_NUM) file).

Lemma parse_loop_places n : forall inp i cs k cs', parse_loop n inp i cs = Some (k, cs') ->
  Forall is_place (read_ids n inp) -> Forall (fun c => is_place (cl_id c)) cs -> Forall (fun c => is_place (cl_id c)) cs'.
Proof.
  induction n as [|n IH]; intros inp i cs k cs'; cbn [parse_loop read_ids]; [by intros [= _ <-]|].
  destruct (sc_ret (fscanf_d_s inp) =? EOF); [by intros [= _ <-]|].
  destruct (zget cs i) as [line|] eqn:El; [|by cbn]. rewrite option_bind_Some.
  destruct (match sc_str (fscanf_d_s inp) with Some _ => _ | None => _ end) as [buf|]; [|by cbn]. rewrite option_bind_Some.
  destruct (zset cs i _) as [cs1|] eqn:E1; [|by cbn]. rewrite option_bind_Some.
  intros E [Hid Hids]%Forall_app Hcs. eapply IH; [exact E|exact Hids|].
  unfold zset in E1. case_decide; [|done]. injection E1 as <-. apply Forall_insert; [done|]. cbn [cl_id].
  destruct (sc_id (fscanf_d_s inp)) as [x|]; [by apply Forall_cons in Hid as [? _]|]. cbn [default].
  unfold zget in El. case_decide; [|done]. rewrite Forall_lookup in Hcs. eauto.
Qed.

(** [parse_chunk] keeps a list in order. *)
Lemma parse_chunk_ok cl fopen :
  list_ok cl -> (forall file, fopen = Some file -> file_fits file) ->
  exists r cl', parse_chunk cl fopen = Some (r, cl') /\ list_ok cl' /\
    (r < 0 <-> fopen = None) /\ (fopen = None -> cl' = cl).
Proof.
  intros [Hwf Hpl] Hf. destruct (parse_chunk_wf cl fopen Hwf) as (r & cl' & E & Hwf' & H1 & H2).
  { intros file Ef. by apply Hf. }
  exists r, cl'. split; [exact E|]. split; [|done]. split; [exact Hwf'|]. clear Hwf Hwf' H1 H2.
  unfold parse_chunk in E. destruct fopen as [file|]; [|by injection E as _ <-].
  destruct (Hf file eq_refl) as [_ Hids]. unfold places_int in *. revert E Hids. generalize (Z.to_nat MAX_CHUNK_NUM). intros n E Hids.
  destruct (parse_loop n file 0 (chunks cl)) as [[k cs]|] eqn:El; [|done]. rewrite option_bind_Some in E.
  injection E as _ <-. by eapply parse_loop_places.
Qed.

(** A printed list is read into the first lines, whatever the array held. *)
Lemma parse_printed cl hashes :
  Forall good_hash hashes -> zlen hashes <= MAX_CHUNK_NUM -> zlen (chunks cl) = MAX_CHUNK_NUM ->
  Forall (fun c => zlen (sha1_buf c) = SHA1_BUF_SIZE) (chunks cl) ->
  parse_chunk cl (Some (make_chunks_output hashes)) =
    Some (0, {| cl_count := zlen hashes;
                chunks := imap (fun i h => read_line (Z.of_nat i) h) hashes ++ drop (length hashes) (chunks cl) |}).
Proof.
  intros Hg Hlen HM HF. unfold parse_chunk, make_chunks_output. revert HM HF. generalize (chunks cl). intros cs HM HF.
  pose proof (parse_loop_print hashes (Z.to_nat MAX_CHUNK_NUM) 0 0 [] cs Hg) as H.
  change (zlen (@nil ChunkLine)) with 0 in H. cbn [app Nat.add] in H. by rewrite H by (done || lia).
Qed.

(** A blank separates words. *)
Lemma words_fit_blank a c b : words_fit a -> isspace c = true -> words_fit b -> words_fit (a ++ c :: b).
Proof.
  intros Ha Hc Hb x w y E Hw. apply app_eq_inv in E as [(k & Ea & Eb)|(k & Ea & Eb)].
  - destruct k as [|d k].
    + rewrite app_nil_r in Ea. subst x. destruct w as [|d w]; [done|]. injection Eb as <- _.
      apply Forall_cons in Hw as [Hd _]. congruence.
    + apply app_eq_inv in Eb as [(k' & Ew & Ey)|(k' & Ew & Ey)].
      * destruct k' as [|e k'].
        -- rewrite app_nil_r in Ew. subst. by apply (Ha x (d :: k) []); [rewrite app_nil_r|].
        -- injection Ey as <- ->. rewrite Ew in Hw. apply Forall_app in Hw as [_ [He _]%Forall_cons]. congruence.
      * subst. apply (Ha x w k'); [|done]. by rewrite Ew.
  - destruct k as [|d k]; [|injection Eb as <- ->; by apply (Hb k w y)].
    simpl in Eb. destruct w as [|d w]; [done|]. injection Eb as <- _. apply Forall_cons in Hw as [Hd _]. congruence.
Qed.
Lemma words_fit_word w : zlen w < SHA1_BUF_SIZE -> words_fit w.
Proof. intros Hl a x b -> _. rewrite !length_app in Hl. lia. Qed.

Lemma dec_digits_length fuel n : (length (dec_digits fuel n) <= fuel)%nat.
Proof.
  revert n. induction fuel as [|fuel IH]; intros n; simpl; [lia|]. destruct (n <? 10); [simpl; lia|].
  rewrite length_app. specialize (IH (n / 10)). simpl. lia.
Qed.

Lemma print_line_fits id h rest : zlen h = SHA1_HASH_SIZE -> words_fit rest -> words_fit (print_line id h ++ rest).
Proof.
  intros Hh Hr. unfold print_line. rewrite <- !app_assoc. cbn [app].
  apply words_fit_blank; [|done|apply words_fit_blank; [|done|exact Hr]]; apply words_fit_word.
  - unfold printf_d. pose proof (dec_digits_length 10 id). change SHA1_BUF_SIZE with 41. lia.
  - rewrite hexstring_length, Hh. done.
Qed.

(** The words of a printed list fit. *)
Lemma make_chunks_output_fits hashes : Forall good_hash hashes -> words_fit (make_chunks_output hashes).
Proof.
  intros Hg. unfold make_chunks_output. assert (forall f, words_fit (mjoin (imap (fun i h => print_line (f i) h) hashes))) as Hall;
    [|apply (Hall Z.of_nat)].
  induction Hg as [|h hashes [Hh _] _ IH]; intros f; [by apply words_fit_word|].
  rewrite imap_cons. apply print_line_fits; [done|]. apply (IH (f ∘ S)).
Qed.

(** The numbers of a printed list are those of its lines. *)
Lemma read_ids_print hs : forall n k, Forall good_hash hs -> (n + k <= 4096)%nat ->
  Forall is_place (read_ids n (mjoin (imap (fun j h => print_line (Z.of_nat (k + j)) h) hs))).
Proof.
  induction hs as [|h hs IH]; intros n k Hg Hn; (destruct n as [|n]; [constructor|]); [done|].
  apply Forall_cons in Hg as [[Hh1 Hh2] Hg]. rewrite imap_cons. change (mjoin (?a :: ?b)) with (a ++ mjoin b).
  cbn [read_ids]. rewrite fscanf_print_line; [|lia|done|by intros ->]. cbn [sc_ret sc_id sc_rest].
  change (2 =? EOF) with false. cbv iota. cbn [option_list app]. constructor; [unfold is_place; lia|].
  assert (forall l, read_ids n (10 :: l) = read_ids n l) as Hnl by (intros l; destruct n; [done|]; cbn [read_ids]; by rewrite fscanf_nl).
  rewrite Hnl. erewrite imap_ext; [apply (IH n (S k)); [done|lia]|]. intros j x _. simpl. f_equal. lia.
Qed.

Lemma make_chunks_file_fits hashes : Forall good_hash hashes -> file_fits (make_chunks_output hashes).
Proof.
  intros Hg. split; [by apply make_chunks_output_fits|].
  assert (Z.to_nat MAX_CHUNK_NUM + 0 <= 4096)%nat as Hn by (apply Nat2Z.inj_le; rewrite Nat.add_0_r, Z2Nat.id; done).
  revert Hn. generalize (Z.to_nat MAX_CHUNK_NUM). intros n Hn. exact (read_ids_print hashes n 0 Hg Hn).
Qed.

(** A file whose first word is no number gives no number. *)
Lemma file_fits_word w : zlen w < SHA1_BUF_SIZE -> Forall (fun c => isdigit c = false /\ c <> 45 /\ c <> 43) w -> file_fits w.
Proof.
  intros Hl Hw. split; [by apply words_fit_word|]. generalize (Z.to_nat MAX_CHUNK_NUM). intros n. revert w Hw Hl.
  induction n as [|n IH]; intros w Hw Hl; cbn [read_ids]; [constructor|].
  assert (exists r, skip_space w = r /\ Forall (fun c => isdigit c = false /\ c <> 45 /\ c <> 43) r /\ (length r <= length w)%nat) as (r & Er & Hr & Hlr).
  { clear -Hw. induction Hw as [|c w Hc Hw IH]; [by exists []|]. simpl. destruct (isspace c).
    - destruct IH as (r & -> & ? & ?). exists r. split_and!; [done|done|lia].
    - exists (c :: w). split; [done|]. split; [by constructor|done]. }
  unfold fscanf_d_s. rewrite Er. destruct Hr as [|c r (Hd & H45 & H43) Hr]; [constructor|].
  destruct (Z.eqb_spec c 45), (Z.eqb_spec c 43); try done. simpl. rewrite Hd. cbn [sc_ret sc_id sc_rest option_list app].
  change (0 =? EOF) with false. cbv iota. apply IH; [by repeat constructor|simpl in *; lia].
Qed.

(** *** Files with no number *)

(** A character that is no blank, no digit and no sign. *)
Definition plain_char (c : Z) : Prop := isspace c = false /\ isdigit c = false /\ c <> 45 /\ c <> 43.
(** A call of [fscanf] that converts nothing and leaves [rest]. *)
Definition no_conversion (rest : list Z) : scanned :=
  {| sc_ret := 0; sc_id := None; sc_str := None; sc_rest := rest |}.
Definition unfetch (l : ChunkLine) : ChunkLine := l .{ state := unfetched }.

Lemma fscanf_no_number blank sign c file :
  Forall (fun x => isspace x = true) blank -> sign ∈ [[]; [43]; [45]] -> plain_char c ->
  fscanf_d_s (blank ++ sign ++ c :: file) = no_conversion (c :: file).
Proof.
  intros Hblank Hsign (Hsp & Hd & H45 & H43). unfold fscanf_d_s.
  assert (skip_space (blank ++ sign ++ c :: file) = sign ++ c :: file) as ->.
  { induction Hblank as [|x l Hx _ IH]; [|simpl; by rewrite Hx].
    repeat (apply elem_of_cons in Hsign as [->|Hsign]); [simpl; by rewrite Hsp|done|done|by apply elem_of_nil in Hsign]. }
  repeat (apply elem_of_cons in Hsign as [->|Hsign]); [..|by apply elem_of_nil in Hsign]; cbn [app].
  - destruct (Z.eqb_spec c 45), (Z.eqb_spec c 43); try done. simpl. by rewrite Hd.
  - simpl. by rewrite Hd.
  - simpl. by rewrite Hd.
Qed.

Lemma parse_loop_stuck y : fscanf_d_s y = no_conversion y -> forall post x pre,
  fscanf_d_s x = no_conversion y ->
  parse_loop (length post) x (zlen pre) (pre ++ post) = Some (zlen pre + zlen post, pre ++ (unfetch <$> post)).
Proof.
  intros Hy. induction post as [|l post IH]; intros x pre Hx; cbn [length parse_loop].
  { by rewrite Z.add_0_r. }
  rewrite Hx. cbn [no_conversion sc_ret sc_str sc_id sc_rest]. change (0 =? EOF) with false. cbv iota.
  unfold zget. rewrite decide_True by lia. rewrite Nat2Z.id, list_lookup_middle, !option_bind_Some by done.
  unfold zset. rewrite decide_True by (rewrite length_app; simpl; lia). rewrite option_bind_Some, Nat2Z.id.
  rewrite (insert_app_r_alt pre) by lia. rewrite Nat.sub_diag. cbn [insert list_insert default].
  specialize (IH y (pre ++ [unfetch l]) Hy). rewrite length_app in IH. cbn [length] in IH.
  replace (Z.of_nat (length pre + 1)) with (zlen pre + 1) in IH by lia. rewrite <- !app_assoc in IH. cbn [app] in IH.
  rewrite fmap_cons. etransitivity; [exact IH|]. do 2 f_equal. lia.
Qed.

(** ** Properties *)

(** [hash2Index] finds the first line whose string equals the given hash, and
    -1 exactly when no line of the list holds it; it stays within the buffers. *)
Theorem hash2Index_spec (cl : ChunkList) (hash : list Z) :
  list_wf cl -> 0 ∈ hash ->
  exists r, hash2Index cl hash = Some r /\
    ((r = -1 /\ forall j, 0 <= j < cl_count cl -> ~ line_matches cl hash j) \/
     (0 <= r < cl_count cl /\ line_matches cl hash r /\
      forall j, 0 <= j < r -> ~ line_matches cl hash j)).
Proof.
  intros Hwf Hh. pose proof Hwf as (_ & Hc & _).
  destruct (hash2Index_loop_spec cl hash (Z.to_nat (cl_count cl)) 0 Hwf Hh) as (r & Hr & Hcase);
    [lia|lia|]. rewrite Z2Nat.id, Z.add_0_l in Hcase by lia. eauto.
Qed.

Lemma hash2Index_spec_witness :
  exists r, hash2Index zero_list [97; 0] = Some r /\ r = -1.
Proof.
  destruct (hash2Index_spec zero_list [97; 0]) as (r & Hr & [[-> _]|[H _]]).
  - split_and!; [done|done|done|]. apply Forall_replicate. split; [done|]. left.
  - right. left.
  - exists (-1). auto.
  - simpl in H. lia.
Defined.

(** [add_chunk] never changes the list: its search leaves [i] equal to the
    count, so the append guarded by [i < count] is dead code, whether the chunk is
    new or already there. *)
Theorem add_chunk_never_adds (cl : ChunkList) (c : ChunkLine) :
  list_wf cl -> line_wf c -> add_chunk cl c = Some cl.
Proof.
  intros Hwf Hc. pose proof Hwf as (_ & Hn & _). unfold add_chunk.
  destruct (add_chunk_find_total cl c (Z.to_nat (cl_count cl)) 0 Hwf Hc) as [[i|] Hr]; [lia|lia| |].
  - rewrite Hr, option_bind_Some. apply add_chunk_find_end in Hr.
    destruct (Z.ltb_spec i (cl_count cl)); [lia|done].
  - by rewrite Hr, option_bind_Some.
Qed.

Lemma add_chunk_never_adds_witness : add_chunk zero_list zero_line = Some zero_list.
Proof.
  apply add_chunk_never_adds.
  - split_and!; [done|done|done|]. apply Forall_replicate. split; [done|]. left.
  - split; [done|]. left.
Defined.

(** C39: a chunk file printed by make-chunks parses back: [parse_chunk] reads the
    number of hashes and, line by line, the index and the hexadecimal string of each
    hash, as unfetched chunks, for up to 4096 hashes. *)
Theorem chunk_file_roundtrip (hashes : list (list Z)) :
  Forall good_hash hashes -> zlen hashes <= MAX_CHUNK_NUM ->
  parse_chunk zero_list (Some (make_chunks_output hashes)) =
    Some (0, {| cl_count := zlen hashes;
                chunks := imap (fun i h => read_line (Z.of_nat i) h) hashes ++
                          drop (length hashes) (chunks zero_list) |}).
Proof.
  intros Hg Hlen. apply parse_printed; [done|done|done|]. by apply Forall_replicate.
Qed.

Lemma chunk_file_roundtrip_witness :
  exists cl, parse_chunk zero_list (Some (make_chunks_output [replicate 20 171])) = Some (0, cl) /\
    cl_count cl = 1 /\ zget (chunks cl) 0 = Some (read_line 0 (replicate 20 171)).
Proof.
  eexists. split.
  - apply (chunk_file_roundtrip [replicate 20 171]).
    + repeat constructor; done.
    + done.
  - split; reflexivity.
Defined.

(** C40: a file whose first word is no number (after blanks and a sign, neither digit
    nor sign) is not rejected: every [fscanf] converts nothing and, after the first,
    consumes nothing; the list gets 4096 entries with the identities and hashes the
    array held, all marked unfetched. *)
Theorem parse_chunk_malformed (cl : ChunkList) (blank sign : list Z) (c : Z) (file : list Z) :
  zlen (chunks cl) = MAX_CHUNK_NUM ->
  Forall (fun x => isspace x = true) blank -> sign ∈ [[]; [43]; [45]] -> plain_char c ->
  fscanf_d_s (blank ++ sign ++ c :: file) = no_conversion (c :: file) /\
  fscanf_d_s (c :: file) = no_conversion (c :: file) /\
  parse_chunk cl (Some (blank ++ sign ++ c :: file)) =
    Some (0, {| cl_count := MAX_CHUNK_NUM; chunks := unfetch <$> chunks cl |}).
Proof.
  intros Hlen Hblank Hsign Hc. pose proof (fscanf_no_number blank sign c file Hblank Hsign Hc) as H1.
  assert (fscanf_d_s (c :: file) = no_conversion (c :: file)) as H2.
  { apply (fscanf_no_number [] []); [constructor|left|exact Hc]. }
  split; [exact H1|]. split; [exact H2|]. unfold parse_chunk.
  assert (Z.to_nat MAX_CHUNK_NUM = length (chunks cl)) as -> by (rewrite <- Hlen; apply Nat2Z.id).
  pose proof (parse_loop_stuck (c :: file) H2 (chunks cl) _ [] H1) as E. cbn [app length] in E.
  change (Z.of_nat 0) with 0 in E. rewrite E, option_bind_Some. cbn [fst snd]. by rewrite Z.add_0_l, Hlen.
Qed.

Lemma parse_chunk_malformed_witness :
  exists cl', parse_chunk zero_list (Some [32; 45; 120; 32; 49]) = Some (0, cl') /\
    cl_count cl' = MAX_CHUNK_NUM /\ chunks cl' = unfetch <$> chunks zero_list.
Proof.
  destruct (parse_chunk_malformed zero_list [32] [45] 120 [32; 49]) as (_ & _ & H).
  - reflexivity.
  - repeat constructor.
  - do 2 right. left.
  - repeat constructor; discriminate.
  - eexists. split; [exact H|]. split; reflexivity.
Defined.
