(* ===== verification/Machine.v ===== *)
(** * Machine: the server's state, its environment and its effects

    The program works on one global structure, [PeerServer psvr]
    (include/peer_server.h), and calls the operating system. A [World] is that
    structure, a counter of the calls made to the environment, and the list of
    the externally visible events so far. Operations live in the monad [M]:
    state passing, with [None] for undefined behaviour (an access outside an
    array, a null or wild pointer). The environment's answers are the functions
    of the class [Env], indexed by the counter: nothing is assumed of them.

    [wp] is total correctness: the operation has a result and it satisfies the
    postcondition. [emits P] says that a piece of code left the server's
    structure alone and produced only events that satisfy [P]. *)

From S2P Require Import Prelude RecvWin LinkedList Sha Chunk ChunkList.

(** ** The data *)

Definition BT_FILENAME_LEN : Z := 255.
Definition BT_MAX_PEERS : Z := 1024.
Definition MAX_PEER_NUM : Z := BT_MAX_PEERS.
(** Data packets of 1024 bytes: a chunk has [CHUNK_PKTS] of them. *)
Definition PAYLOAD_SIZE : Z := 1024.
Definition CHUNK_PKTS : Z := BT_CHUNK_SIZE / PAYLOAD_SIZE.

Inductive ul_status :=
  | UL_STATUS_SLOW_START | UL_STATUS_CONGESTION_AVOIDANCE | UL_STATUS_FAST_RETRANSMIT
  | UL_STATUS_FAST_RETRANSMIT_SS | UL_STATUS_FAST_RETRANSMIT_CA | UL_STATUS_FAST_RECOVERY.
#[export] Instance ul_status_eq_dec : EqDecision ul_status.
Proof. solve_decision. Defined.

(** The pointer [data]: null, the bytes of a mapping, or a mapping since removed. *)
Inductive mapping := data_null | data_mapped (bytes : list Z) | data_unmapped.

(** The [int] flags of the structures only hold 0 and 1: they are [bool]. *)
Record upload_t := {
  has_index : Z; ul_p_index : Z;
  ack_cnt : list Z; seq_ts : list Z; seq_timeout : list Z;
  ss_threshold : Z; last_pkt_acked : Z; last_pkt_sent : Z; max_pkt_sent : Z;
  max_retransmit_seq : Z; ul_rtt : Z; ul_dev : Z; rto : Z; window_size : Z;
  ca_ts : Z; ul_timeout_cnt : Z; ul_data : mapping; status : ul_status; ul_finished : bool }.
#[export] Instance upload_settable : Settable upload_t := fun u => Build_upload_t
  (has_index u) (ul_p_index u) (ack_cnt u) (seq_ts u) (seq_timeout u) (ss_threshold u)
  (last_pkt_acked u) (last_pkt_sent u) (max_pkt_sent u) (max_retransmit_seq u) (ul_rtt u)
  (ul_dev u) (rto u) (window_size u) (ca_ts u) (ul_timeout_cnt u) (ul_data u) (status u)
  (ul_finished u).

Record download_t := {
  get_index : Z; dl_p_index : Z; dl_ts : Z; dl_timeout_cnt : Z;
  next_pkt_expected : Z; rwin : RecvWin; filename : list Z; dl_rtt : Z; dl_dev : Z;
  started : bool; block_update : bool; dl_finished : bool;
  buffer : list Z; data_length : Z }.
#[export] Instance download_settable : Settable download_t := fun d => Build_download_t
  (get_index d) (dl_p_index d) (dl_ts d) (dl_timeout_cnt d) (next_pkt_expected d) (rwin d)
  (filename d) (dl_rtt d) (dl_dev d) (started d) (block_update d) (dl_finished d) (buffer d)
  (data_length d).

(** What is compared and used of a [struct sockaddr_in]. *)
Record sockaddr_in := { sin_port : Z; s_addr : Z }.
#[export] Instance sockaddr_eq_dec : EqDecision sockaddr_in.
Proof. solve_decision. Defined.

Record Peer := {
  p_id : Z; addr : sockaddr_in; hasqueue : Linlist ChunkLine;
  is_alive : bool; is_downloading : bool; dl : download_t; is_uploading : bool; ul : upload_t }.
#[export] Instance Peer_settable : Settable Peer := fun p => Build_Peer
  (p_id p) (addr p) (hasqueue p) (is_alive p) (is_downloading p) (dl p) (is_uploading p) (ul p).

Record PeerList := { pl_count : Z; peers : list Peer }.
#[export] Instance PeerList_settable : Settable PeerList :=
  fun p => Build_PeerList (pl_count p) (peers p).

(** [no_output] is the field of the server's [config] that its operations read. *)
Record PeerServer := {
  sock : Z; no_output : bool; start_ts : Z; peerlist : PeerList;
  haschunks : ChunkList; getchunks : ChunkList; ihavechunks : ChunkList;
  max_conn : Z; dl_num : Z; ul_num : Z; dl_remain : Z;
  dl_filename : list Z; getchunk_file : list Z; last_whohas : Z }.
#[export] Instance PeerServer_settable : Settable PeerServer := fun s => Build_PeerServer
  (sock s) (no_output s) (start_ts s) (peerlist s) (haschunks s) (getchunks s)
  (ihavechunks s) (max_conn s) (dl_num s) (ul_num s) (dl_remain s) (dl_filename s)
  (getchunk_file s) (last_whohas s).

(** ** Zeroed memory *)

Definition zeros (n : Z) : list Z := replicate (Z.to_nat n) 0.

(** [memset(ul, 0, sizeof(upload_t))]. *)
Definition ul_zero : upload_t :=
  {| has_index := 0; ul_p_index := 0; ack_cnt := zeros (CHUNK_PKTS + 1);
     seq_ts := zeros (CHUNK_PKTS + 1); seq_timeout := zeros (CHUNK_PKTS + 1);
     ss_threshold := 0; last_pkt_acked := 0; last_pkt_sent := 0; max_pkt_sent := 0;
     max_retransmit_seq := 0; ul_rtt := 0; ul_dev := 0; rto := 0; window_size := 0;
     ca_ts := 0; ul_timeout_cnt := 0; ul_data := data_null;
     status := UL_STATUS_SLOW_START; ul_finished := false |}.

(** The bytes of a zeroed chunk, kept folded. *)
Definition zero_chunk : list Z := replicate (Z.to_nat BT_CHUNK_SIZE) 0.
Lemma zero_chunk_length : zlen zero_chunk = BT_CHUNK_SIZE.
Proof. unfold zero_chunk. rewrite length_replicate. by apply Z2Nat.id. Qed.
Lemma zero_chunk_Forall (P : Z -> Prop) : P 0 -> Forall P zero_chunk.
Proof. intros. by apply Forall_replicate. Qed.
#[global] Opaque zero_chunk.

(** [memset(dl, 0, sizeof(download_t))]. *)
Definition dl_zero : download_t :=
  {| get_index := 0; dl_p_index := 0; dl_ts := 0; dl_timeout_cnt := 0; next_pkt_expected := 0;
     rwin := {| bm := BM_CLR; front := 0; next_seq := 0 |};
     filename := replicate (Z.to_nat BT_FILENAME_LEN) 0; dl_rtt := 0; dl_dev := 0;
     started := false; block_update := false; dl_finished := false;
     buffer := zero_chunk; data_length := 0 |}.

(** ** The environment *)

(** The answer to the [n]-th call of the run, for each service the code uses.
    [gettimeofday] gives seconds and microseconds, or fails; [mmap] gives the
    bytes that can be read at an offset of the master chunk file; [write_file] is
    the number of bytes [write] takes; [stack] is the content of an uninitialised
    local buffer. *)
Class Env := {
  gettimeofday : nat -> option (Z * Z);
  mmap : nat -> Z -> option (list Z);
  munmap_ok : nat -> bool;
  open_ok : nat -> bool;
  lseek_ok : nat -> bool;
  write_file : nat -> Z;
  malloc_ok : nat -> bool;
  stack : nat -> list Z }.

(** What the outside sees: a datagram handed to [spiffy_sendto], a line of the
    window-size log, bytes written to a file at an offset, the message that all
    the chunks of a file were got. *)
Inductive event :=
  | EvSend (sk : Z) (to : sockaddr_in) (bytes : list Z)
  | EvWinsize (id ms win : Z)
  | EvWrite (file : list Z) (offset : Z) (bytes : list Z)
  | EvGot (file : list Z).

Record World := { psvr : PeerServer; tick : nat; out : list event }.
#[export] Instance World_settable : Settable World :=
  fun w => Build_World (psvr w) (tick w) (out w).

(** ** The monad *)

Definition M (A : Type) : Type := World -> option (A * World).
Definition ret {A} (a : A) : M A := fun w => Some (a, w).
Definition bind {A B} (m : M A) (k : A -> M B) : M B :=
  fun w => match m w with Some (a, w') => k a w' | None => None end.
Definition lift {A} (o : option A) : M A :=
  fun w => match o with Some a => Some (a, w) | None => None end.
Definition gets {A} (f : PeerServer -> A) : M A := fun w => Some (f (psvr w), w).
Definition modify (f : PeerServer -> PeerServer) : M unit :=
  fun w => Some (tt, w .{ psvr := f (psvr w) }).
Definition emit (e : event) : M unit := fun w => Some (tt, w .{ out := out w ++ [e] }).
Definition ask {A} (f : nat -> A) : M A :=
  fun w => Some (f (tick w), w .{ tick := S (tick w) }).

Notation "x <- m ;; k" := (bind m (fun x => k))
  (at level 100, m at next level, right associativity) : c_scope.
Notation "m ;;; k" := (bind m (fun _ => k))
  (at level 100, right associativity) : c_scope.

(** ** Total correctness *)

Definition wp {A} (m : M A) (Q : A -> World -> Prop) (w : World) : Prop :=
  exists a w', m w = Some (a, w') /\ Q a w'.

Lemma wp_ret {A} (a : A) Q w : Q a w -> wp (ret a) Q w.
Proof. intros H. by exists a, w. Qed.
Lemma wp_bind {A B} (m : M A) (k : A -> M B) Q w :
  wp m (fun a w' => wp (k a) Q w') w -> wp (bind m k) Q w.
Proof. intros (a & w' & Hm & b & w'' & Hk & HQ). exists b, w''. unfold bind. by rewrite Hm. Qed.
Lemma wp_mono {A} (m : M A) (P Q : A -> World -> Prop) w :
  wp m P w -> (forall a w', P a w' -> Q a w') -> wp m Q w.
Proof. intros (a & w' & Hm & HP) H. exists a, w'. eauto. Qed.
Lemma wp_lift {A} (o : option A) a Q w : o = Some a -> Q a w -> wp (lift o) Q w.
Proof. intros -> HQ. by exists a, w. Qed.
Lemma wp_gets {A} (f : PeerServer -> A) Q w : Q (f (psvr w)) w -> wp (gets f) Q w.
Proof. intros H. by exists (f (psvr w)), w. Qed.
Lemma wp_modify f (Q : unit -> World -> Prop) w :
  Q tt (w .{ psvr := f (psvr w) }) -> wp (modify f) Q w.
Proof. intros H. by eexists _, _. Qed.
Lemma wp_emit e (Q : unit -> World -> Prop) w :
  Q tt (w .{ out := out w ++ [e] }) -> wp (emit e) Q w.
Proof. intros H. by eexists _, _. Qed.
Lemma wp_ask {A} (f : nat -> A) Q w :
  Q (f (tick w)) (w .{ tick := S (tick w) }) -> wp (ask f) Q w.
Proof. intros H. by eexists _, _. Qed.
(** When nothing is known of the environment, its answer is any answer. *)
Lemma wp_ask_any {A} (f : nat -> A) Q w :
  (forall a, Q a (w .{ tick := S (tick w) })) -> wp (ask f) Q w.
Proof. intros H. apply wp_ask, H. Qed.

(** A run that succeeded satisfies whatever [wp] promises. *)
Lemma wp_run {A} (m : M A) Q w a w' : wp m Q w -> m w = Some (a, w') -> Q a w'.
Proof. intros (a' & w'' & E & HQ) E'. congruence. Qed.

(** ** Code that only emits events *)

Definition emits (P : event -> Prop) (w w' : World) : Prop :=
  psvr w' = psvr w /\ exists evs, out w' = out w ++ evs /\ Forall P evs.

Lemma emits_refl P w : emits P w w.
Proof. split; [done|]. exists []. by rewrite app_nil_r. Qed.
Lemma emits_trans P w1 w2 w3 : emits P w1 w2 -> emits P w2 w3 -> emits P w1 w3.
Proof.
  intros [Hp (e1 & Ho & HF)] [Hp' (e2 & Ho' & HF')]. split; [congruence|].
  exists (e1 ++ e2). split; [by rewrite Ho', Ho, app_assoc|]. by apply Forall_app.
Qed.
Lemma emits_mono (P Q : event -> Prop) w w' :
  (forall e, P e -> Q e) -> emits P w w' -> emits Q w w'.
Proof.
  intros H [Hp (e & Ho & HF)]. split; [done|]. exists e. split; [done|].
  eapply Forall_impl; eauto.
Qed.
Lemma emits_tick P w n : emits P w (w .{ tick := n }).
Proof. split; [done|]. exists []. by rewrite app_nil_r. Qed.
Lemma emits_one P w e : P e -> emits P w (w .{ out := out w ++ [e] }).
Proof. intros H. split; [done|]. exists [e]. by rewrite Forall_singleton. Qed.
Lemma emits_psvr P w w' : emits P w w' -> psvr w' = psvr w.
Proof. by intros [? _]. Qed.

#[export] Hint Resolve emits_refl emits_tick emits_one : machine.
#[export] Hint Immediate emits_psvr : machine.

(** [wp_go] runs the straight-line part of a program. *)
Ltac wp_go :=
  repeat (cbn beta iota; lazymatch goal with
  | |- wp (bind _ _) _ _ => apply wp_bind
  | |- wp (ret _) _ _ => apply wp_ret
  | |- wp (gets _) _ _ => apply wp_gets
  | |- wp (modify _) _ _ => apply wp_modify
  | |- wp (emit _) _ _ => apply wp_emit
  end); cbn beta iota.

(** ** C strings *)

Definition strcpy (dst src : list Z) : option (list Z) :=
  if decide (0 ∈ src) then zwrite dst 0 (cstr src ++ [0]) else None.

(** ** A small server

    One peer, nothing running, a clock that advances by a second at each reading,
    for a million readings: the examples of the other files start from it. *)

Definition sample_env : Env :=
  {| gettimeofday n := Some (Z.of_nat n mod 1000000 + 1, 0); mmap _ _ := Some zero_chunk;
     munmap_ok _ := true; open_ok _ := true; lseek_ok _ := true; write_file _ := BT_CHUNK_SIZE;
     malloc_ok _ := true; stack _ := [] |}.
Definition sample_peer : Peer :=
  {| p_id := 7; addr := {| sin_port := 80; s_addr := 1 |}; hasqueue := empty_ll;
     is_alive := true; is_downloading := false; dl := dl_zero; is_uploading := false;
     ul := ul_zero |}.
Definition sample_server : PeerServer :=
  {| sock := 3; no_output := false; start_ts := 1;
     peerlist := {| pl_count := 1; peers := [sample_peer] |};
     haschunks := zero_list; getchunks := zero_list; ihavechunks := zero_list;
     max_conn := 2; dl_num := 0; ul_num := 0; dl_remain := 0;
     dl_filename := [111; 0]; getchunk_file := [103; 0]; last_whohas := 0 |}.
Definition sample_world : World := {| psvr := sample_server; tick := 0; out := [] |}.
