(* ===== verification/Util.v ===== *)
(** * Util: the clock and the round-trip estimate (util.c), the window log

    Timestamps are 32-bit milliseconds; 0 is the value of a failed reading. *)

From S2P Require Import Prelude Machine.

Definition DEFAULT_TIMEOUT : Z := 5 * 1000.
Definition GET_RTO (rtt : Z) : Z := u32 (2 * rtt).

Section Code.
Context `{Env}.

Definition timestamp_of (tv : option (Z * Z)) : Z :=
  match tv with
  | None => 0
  | Some (tv_sec, tv_usec) => u32 (tv_sec * 1000 + Z.quot tv_usec 1000)
  end.
Definition get_timestamp_now : M Z := tv <- ask gettimeofday ;; ret (timestamp_of tv).

(** The new estimate from a sample [s_rtt]; the test [s_rtt < 0] of the code is on
    an unsigned value and never holds. *)
Definition rtt_sample (rtt dev s_rtt : Z) : Z * Z :=
  let rtt' := if 0 =? rtt then s_rtt else u32 (u32 (rtt * 7) / 8 + s_rtt / 8) in
  let s_dev := if s_rtt >? rtt' then u32 (s_rtt - rtt') else u32 (rtt' - s_rtt) in
  let dev' := if 0 =? dev then s_dev else u32 (u32 (dev * 3) / 4 + s_dev / 4) in
  (rtt', dev').

(** Returns the new [rtt] and [dev]. *)
Definition update_rtt (rtt dev ts : Z) : M (Z * Z) :=
  if 0 =? ts then ret (rtt, dev) else
  now <- get_timestamp_now ;;
  let s_rtt := u32 (now - ts) in
  if s_rtt <? 0 then ret (rtt, dev) else ret (rtt_sample rtt dev s_rtt).

(** [write_winsize] of peer_server.c: one line of the log, and 0 or an error. *)
Definition write_winsize (p_index window : Z) : M Z :=
  no_out <- gets no_output ;;
  if no_out : bool then ret 0 else
  now <- get_timestamp_now ;;
  if 0 =? now then ret (-1) else
  ps <- gets (fun s => peers (peerlist s)) ;;
  p <- lift (zget ps p_index) ;;
  start <- gets start_ts ;;
  emit (EvWinsize (p_id p) (u32 (now - start)) window) ;;;
  ret 0.
End Code.

(** ** What they do *)

Section Specs.
Context `{Env}.

(** A peer index of the code. *)
Definition peer_ok (s : PeerServer) (i : Z) : Prop := 0 <= i < zlen (peers (peerlist s)).

(** The line logged for peer [p_index]: its id and the window. *)
Definition winsize_event (s : PeerServer) (i win : Z) (e : event) : Prop :=
  exists p ms, zget (peers (peerlist s)) i = Some p /\ e = EvWinsize (p_id p) ms win.

Lemma timestamp_of_range tv : 0 <= timestamp_of tv < 2 ^ 32.
Proof. destruct tv as [[? ?]|]; [apply u32_range|done]. Qed.

Lemma get_timestamp_now_spec P w (Q : Z -> World -> Prop) :
  (forall now w', 0 <= now < 2 ^ 32 -> emits P w w' -> Q now w') ->
  wp get_timestamp_now Q w.
Proof.
  intros HQ. unfold get_timestamp_now. wp_go. apply wp_ask. wp_go.
  apply HQ; [apply timestamp_of_range|auto with machine].
Qed.

(** The same, keeping what was read: 0 is a failed reading. *)
Lemma get_timestamp_now_read P w (Q : Z -> World -> Prop) :
  (forall w', emits P w w' -> Q (timestamp_of (gettimeofday (tick w))) w') ->
  wp get_timestamp_now Q w.
Proof.
  intros HQ. unfold get_timestamp_now. wp_go. apply wp_ask. wp_go. apply HQ. auto with machine.
Qed.

(** The clock never fails. *)
Definition clock_ok : Prop := forall n, timestamp_of (gettimeofday n) <> 0.

Lemma rtt_sample_range rtt dev s :
  0 <= s < 2 ^ 32 -> 0 <= (rtt_sample rtt dev s).1 < 2 ^ 32 /\ 0 <= (rtt_sample rtt dev s).2 < 2 ^ 32.
Proof.
  intros Hs. unfold rtt_sample. simpl.
  split; repeat case_match; auto using u32_range.
Qed.

Lemma update_rtt_spec P rtt dev ts w (Q : Z * Z -> World -> Prop) :
  0 <= rtt < 2 ^ 32 -> 0 <= dev < 2 ^ 32 ->
  (forall rtt' dev' w', 0 <= rtt' < 2 ^ 32 -> 0 <= dev' < 2 ^ 32 ->
     emits P w w' -> Q (rtt', dev') w') ->
  wp (update_rtt rtt dev ts) Q w.
Proof.
  intros Hr Hd HQ. unfold update_rtt. case_match; [wp_go; auto with machine|].
  wp_go. apply (get_timestamp_now_spec P). intros now w' Hnow Hem.
  case_match; [wp_go; auto|]. wp_go.
  destruct (rtt_sample_range rtt dev (u32 (now - ts)) (u32_range _)).
  destruct (rtt_sample _ _ _) as [r d]. auto.
Qed.

Lemma write_winsize_spec i win w (Q : Z -> World -> Prop) :
  peer_ok (psvr w) i ->
  (forall r w', emits (winsize_event (psvr w) i win) w w' -> Q r w') ->
  wp (write_winsize i win) Q w.
Proof.
  intros Hi HQ. unfold write_winsize. wp_go. case_match; [wp_go; auto with machine|].
  wp_go. apply (get_timestamp_now_spec (winsize_event (psvr w) i win)). intros now w1 _ Hem.
  case_match; [wp_go; auto|]. wp_go. rewrite (emits_psvr _ _ _ Hem).
  destruct (zget_is_Some _ _ Hi) as [p Hp]. eapply wp_lift; [exact Hp|]. wp_go.
  apply HQ. eapply emits_trans; [done|]. apply emits_one. exists p. eauto.
Qed.
End Specs.
