(* ===== verification/Packet.v ===== *)
(** * Packet: the wire format and the sending of packets (packet.c, include/packet.h)

    A [packet_t] in memory is its bytes, multi-byte fields little-endian; packets
    travel with those fields swapped by [htons]/[htonl]. *)

From S2P Require Import Prelude Sha Chunk ChunkList Machine Util.

(** ** Constants and types *)

Definition MAGIC : Z := 15441.
Definition VERSION : Z := 1.
Definition HEADER_SIZE : Z := 16.
Definition PACKET_SIZE : Z := 1500.
Definition MAX_PAYLOAD_SIZE : Z := PACKET_SIZE - HEADER_SIZE.
Definition HASH_NUM_PKT : Z := Z.quot (MAX_PAYLOAD_SIZE - 4) SHA1_HASH_SIZE.

Definition PACKET_TYPE_WHOHAS : Z := 0.
Definition PACKET_TYPE_IHAVE : Z := 1.
Definition PACKET_TYPE_GET : Z := 2.
Definition PACKET_TYPE_DATA : Z := 3.
Definition PACKET_TYPE_ACK : Z := 4.
Definition PACKET_TYPE_DENIED : Z := 5.

Record packet_t := {
  magic : Z; version : Z; type : Z; hdr_len : Z; pkt_len : Z; seq : Z; ack : Z;
  payload : list Z }.
#[export] Instance packet_settable : Settable packet_t := fun p => Build_packet_t
  (magic p) (version p) (type p) (hdr_len p) (pkt_len p) (seq p) (ack p) (payload p).

(** A pointer to data is null or the bytes it can reach; [pp_c] is null or the list. *)
Record pkt_param_t := {
  pp_socket : Z; pp_p_index : Z; pp_p_count : Z; pp_c : option ChunkList;
  pp_c_index : Z; pp_c_count : Z; pp_type : Z; pp_seq : Z; pp_ack : Z;
  pp_payload : option (list Z); pp_payload_size : Z }.
#[export] Instance pkt_param_settable : Settable pkt_param_t := fun p => Build_pkt_param_t
  (pp_socket p) (pp_p_index p) (pp_p_count p) (pp_c p) (pp_c_index p) (pp_c_count p)
  (pp_type p) (pp_seq p) (pp_ack p) (pp_payload p) (pp_payload_size p).
Definition PKT_PARAM_CLEAR : pkt_param_t :=
  {| pp_socket := 0; pp_p_index := 0; pp_p_count := 0; pp_c := None; pp_c_index := 0;
     pp_c_count := 0; pp_type := 0; pp_seq := 0; pp_ack := 0; pp_payload := None;
     pp_payload_size := 0 |}.

(** ** Memory image and byte order *)

Definition ntohs (x : Z) : Z := load_le (reverse (store_le 2 x)).
Definition ntohl (x : Z) : Z := load_le (reverse (store_le 4 x)).
Definition htons := ntohs.
Definition htonl := ntohl.

(** The bytes of the structure, and the structure at some bytes. *)
Definition image (p : packet_t) : list Z :=
  store_le 2 (magic p) ++ [version p; type p] ++ store_le 2 (hdr_len p) ++
  store_le 2 (pkt_len p) ++ store_le 4 (seq p) ++ store_le 4 (ack p) ++ payload p.
Definition of_image (b : list Z) : packet_t :=
  let field off n := load_le (take n (drop off b)) in
  {| magic := field 0%nat 2%nat; version := field 2%nat 1%nat; type := field 3%nat 1%nat;
     hdr_len := field 4%nat 2%nat; pkt_len := field 6%nat 2%nat; seq := field 8%nat 4%nat;
     ack := field 12%nat 4%nat; payload := drop 16 b |}.

Definition swap_fields (p : packet_t) : packet_t :=
  p .{ magic := htons (magic p) } .{ hdr_len := htons (hdr_len p) }
    .{ pkt_len := htons (pkt_len p) } .{ seq := htonl (seq p) } .{ ack := htonl (ack p) }.

(** [memcpy((pkt), (buf), (size))], then [ntohs]/[ntohl] on the fields: the bytes
    beyond [size] keep what the structure held. [size] is converted to [size_t]. *)
Definition DECODE_PKT (buf : list Z) (pkt : packet_t) (size : Z) : option packet_t :=
  d ← zread buf 0 (u64 size);
  img ← zwrite (image pkt) 0 d;
  Some (swap_fields (of_image img)).

(** The datagram: the first [pkt_len] bytes of the swapped structure. *)
Definition ENCODE_PKT (pkt : packet_t) : option (list Z) :=
  let pkt' := swap_fields pkt in
  zread (image pkt') 0 (ntohs (pkt_len pkt')).

(** ** Accessors; the fields hold the widths of [packet_t] *)

Definition GET_DATA_LEN (p : packet_t) : Z := pkt_len p - hdr_len p.
Definition EXT_HEADER_SIZE (p : packet_t) : Z := hdr_len p - HEADER_SIZE.
Definition MAX_OFFSET (p : packet_t) : Z := C_MAX (GET_DATA_LEN p - SHA1_HASH_SIZE) 0.
Definition DATA_OFFSET (p : packet_t) : Z := C_MIN (MAX_OFFSET p) (EXT_HEADER_SIZE p).
(** [GET_DATA] as used by its callers: [n] bytes read there. *)
Definition GET_DATA (p : packet_t) (n : Z) : option (list Z) := zread (payload p) (DATA_OFFSET p) n.
Definition GET_CHUNK_CNT (p : packet_t) : option Z := zget (payload p) (DATA_OFFSET p).
Definition SET_CHUNK_CNT (p : packet_t) (cnt : Z) : option packet_t :=
  b ← zset (payload p) (0 + EXT_HEADER_SIZE p) (u8 cnt); Some (p .{ payload := b }).
Definition HASH_OFFSET (p : packet_t) (n : Z) : Z :=
  C_MIN (MAX_OFFSET p)
    (EXT_HEADER_SIZE p + (if type p =? PACKET_TYPE_GET then 0 else 4) + n * SHA1_HASH_SIZE).
Definition GET_HASH (p : packet_t) (n : Z) (hexbuf : list Z) : option (list Z) :=
  src ← zread (payload p) (HASH_OFFSET p n) SHA1_HASH_SIZE;
  binary2hex src SHA1_HASH_SIZE hexbuf.
Definition SET_HASH (p : packet_t) (n : Z) (hash : list Z) : option packet_t :=
  hash_bin_buf ← hex2binary hash SHA1_HASH_STR_SIZE (replicate (Z.to_nat SHA1_HASH_SIZE) 0);
  b ← zwrite (payload p)
        (EXT_HEADER_SIZE p + (if type p =? PACKET_TYPE_GET then 0 else 4) + n * SHA1_HASH_SIZE)
        hash_bin_buf;
  Some (p .{ payload := b }).

Definition valid_packet (p : packet_t) : option bool :=
  if negb (magic p =? MAGIC) then Some false else
  if negb (version p =? VERSION) then Some false else
  if (pkt_len p <? hdr_len p) || (hdr_len p <? HEADER_SIZE) then Some false else
  if pkt_len p >? PACKET_SIZE then Some false else
  if (type p =? PACKET_TYPE_WHOHAS) || (type p =? PACKET_TYPE_IHAVE) then
    if GET_DATA_LEN p <? 4 then Some false else
    cnt ← GET_CHUNK_CNT p;
    Some (negb ((cnt <=? 0) || (cnt >? Z.quot (GET_DATA_LEN p - 4) SHA1_HASH_SIZE)))
  else if type p =? PACKET_TYPE_GET then Some (negb (GET_DATA_LEN p <? SHA1_HASH_SIZE))
  else Some true.

(** ** Sending *)

Section Code.
Context `{Env}.

(** A packet on the stack that was never written. *)
Definition stack_packet : M packet_t :=
  b <- ask stack ;;
  ret (of_image (u8 <$> resize (Z.to_nat PACKET_SIZE) 0 b)).

(** [n] is the number of turns left of [i < p_count]. *)
Fixpoint send_udp_loop (n : nat) (i socket : Z) (p_index : Z) (buf : list Z) : M unit :=
  match n with
  | O => ret tt
  | S n' =>
    ps <- gets (fun s => peers (peerlist s)) ;;
    p <- lift (zget ps (p_index + i)) ;;
    emit (EvSend socket (addr p) buf) ;;;
    send_udp_loop n' (i + 1) socket p_index buf
  end.
Definition send_udp (socket p_index p_count : Z) (buf : list Z) : M unit :=
  send_udp_loop (Z.to_nat p_count) 0 socket p_index buf.

(** The inner loop of [send_packet] over the chunks: [n] turns are left; returns
    [j], [cnt] and the packet. *)
Fixpoint hash_loop (n : nat) (ptype c_index j cnt : Z) (c : ChunkList) (pkt : packet_t)
    : M (Z * Z * packet_t) :=
  match n with
  | O => ret (j, cnt, pkt)
  | S n' =>
    if PACKET_TYPE_WHOHAS =? ptype then
      gc <- gets (fun s => chunks (getchunks s)) ;;
      g <- lift (zget gc (c_index + j)) ;;
      if decide (unfetched = state g) then
        line <- lift (zget (chunks c) (c_index + j)) ;;
        pkt' <- lift (SET_HASH pkt cnt (sha1_buf line)) ;;
        hash_loop n' ptype c_index (j + 1) (cnt + 1) c pkt'
      else hash_loop n' ptype c_index (j + 1) cnt c pkt
    else if (PACKET_TYPE_IHAVE =? ptype) || (PACKET_TYPE_GET =? ptype) then
      line <- lift (zget (chunks c) (c_index + j)) ;;
      pkt' <- lift (SET_HASH pkt cnt (sha1_buf line)) ;;
      hash_loop n' ptype c_index (j + 1) (cnt + 1) c pkt'
    else hash_loop n' ptype c_index (j + 1) cnt c pkt
  end.

Definition nondata (ptype : Z) : bool :=
  (PACKET_TYPE_WHOHAS =? ptype) || (PACKET_TYPE_IHAVE =? ptype)
  || (PACKET_TYPE_GET =? ptype) || (PACKET_TYPE_DENIED =? ptype).

(** The header fields set at the top of the loop of [send_packet]. *)
Definition set_header (ptype sq ak : Z) (pkt : packet_t) : packet_t :=
  let pkt := pkt .{ magic := MAGIC } .{ version := VERSION } .{ type := ptype }
                 .{ hdr_len := HEADER_SIZE } .{ seq := 0 } .{ ack := 0 }
                 .{ pkt_len := HEADER_SIZE } in
  let pkt := if PACKET_TYPE_DATA =? ptype then pkt .{ seq := sq } else pkt in
  if PACKET_TYPE_ACK =? ptype then pkt .{ ack := ak } else pkt.

(** The body of the packet: hashes, or data; [None] for the [return] on a payload
    that is too large. *)
Definition fill_packet (pp : pkt_param_t) (c_count i j : Z) (pkt : packet_t)
    : M (option (Z * packet_t)) :=
  let ptype := pp_type pp in
  match pp_c pp, nondata ptype with
  | Some c, true =>
    let pkt := if PACKET_TYPE_GET =? ptype then pkt .{ pkt_len := pkt_len pkt }
               else pkt .{ pkt_len := u16 (pkt_len pkt + 4) } in
    r <- hash_loop (Z.to_nat (C_MIN c_count (HASH_NUM_PKT * (i + 1)) - j))
           ptype (pp_c_index pp) j 0 c pkt ;;
    let '(j', cnt, pkt) := r in
    let pkt := pkt .{ pkt_len := u16 (pkt_len pkt + SHA1_HASH_SIZE * cnt) } in
    if negb (PACKET_TYPE_GET =? ptype) then
      pkt <- lift (SET_CHUNK_CNT pkt cnt) ;; ret (Some (j', pkt))
    else ret (Some (j', pkt))
  | _, _ =>
    match PACKET_TYPE_DATA =? ptype, pp_payload pp with
    | true, Some bytes =>
      if pp_payload_size pp >? MAX_PAYLOAD_SIZE then ret None else
      d <- lift (zread bytes 0 (pp_payload_size pp)) ;;
      b <- lift (zwrite (payload pkt) 0 d) ;;
      ret (Some (j, pkt .{ payload := b }
                        .{ pkt_len := u16 (HEADER_SIZE + pp_payload_size pp) }))
    | _, _ => ret (Some (j, pkt))
    end
  end.

(** The loop over the packets: [n] is [pkt_num - i]. *)
Fixpoint send_packet_loop (n : nat) (pp : pkt_param_t) (p_count c_count i j : Z) (pkt : packet_t)
    : M unit :=
  match n with
  | O => ret tt
  | S n' =>
    r <- fill_packet pp c_count i j (set_header (pp_type pp) (pp_seq pp) (pp_ack pp) pkt) ;;
    match r with
    | None => ret tt
    | Some (j', pkt') =>
      buf <- lift (ENCODE_PKT pkt') ;;
      send_udp (pp_socket pp) (pp_p_index pp) p_count buf ;;;
      send_packet_loop n' pp p_count c_count (i + 1) j' (swap_fields pkt')
    end
  end.

Definition send_packet (pp : pkt_param_t) : M unit :=
  pl_cnt <- gets (fun s => pl_count (peerlist s)) ;;
  let p_count := if pp_p_count pp <? 0 then pl_cnt else pp_p_count pp in
  c_count <- lift (if pp_c_count pp <? 0 then c ← pp_c pp; Some (cl_count c)
                   else Some (pp_c_count pp)) ;;
  if (pp_p_index pp <? 0) || (pp_c_index pp <? 0) then ret tt else
  let pkt_num :=
    match pp_c pp with
    | Some _ => if nondata (pp_type pp)
                then Z.quot (c_count * SHA1_HASH_SIZE + MAX_PAYLOAD_SIZE - 1) MAX_PAYLOAD_SIZE
                else 1
    | None => 1
    end in
  pkt <- stack_packet ;;
  send_packet_loop (Z.to_nat pkt_num) pp p_count c_count 0 0 pkt.
End Code.

(** ** Byte order *)

(** [ntohs] and [ntohl] are [swap_bytes] of 2 and 4 bytes: in memory, they reverse. *)
Definition swap_bytes (n : nat) (x : Z) : Z := load_le (reverse (store_le n x)).

Lemma swap_store n x : store_le n (swap_bytes n x) = store_be n x.
Proof.
  unfold swap_bytes, store_be.
  rewrite <- (store_le_length n x) at 1. rewrite <- length_reverse.
  apply store_load. apply Forall_reverse, store_le_bytes.
Qed.

Lemma swap_range n x : 0 <= swap_bytes n x < 2 ^ (8 * Z.of_nat n).
Proof.
  unfold swap_bytes. rewrite <- (store_le_length n x) at 3. rewrite <- length_reverse.
  apply load_le_range, Forall_reverse, store_le_bytes.
Qed.

Lemma swap_swap n x : 0 <= x < 2 ^ (8 * Z.of_nat n) -> swap_bytes n (swap_bytes n x) = x.
Proof.
  intros Hx. unfold swap_bytes at 1. rewrite swap_store. unfold store_be.
  rewrite reverse_involutive. by apply load_store_small.
Qed.

(** Reading big-endian bytes from the wire, then swapping, gives the number. *)
Lemma swap_load_be n x : 0 <= x < 2 ^ (8 * Z.of_nat n) -> swap_bytes n (load_le (store_be n x)) = x.
Proof. apply swap_swap. Qed.

(** ** The wire format *)

(** The widths of the fields, and the size of the payload. *)
Definition header_wf (p : packet_t) : Prop :=
  0 <= magic p < 2 ^ 16 /\ 0 <= version p < 2 ^ 8 /\ 0 <= type p < 2 ^ 8 /\
  0 <= hdr_len p < 2 ^ 16 /\ 0 <= pkt_len p < 2 ^ 16 /\ 0 <= seq p < 2 ^ 32 /\
  0 <= ack p < 2 ^ 32.
Definition packet_wf (p : packet_t) : Prop :=
  header_wf p /\ zlen (payload p) = MAX_PAYLOAD_SIZE.

(** A datagram: the header in network order and the body. *)
Definition wire (p : packet_t) (body : list Z) : list Z :=
  store_be 2 (magic p) ++ [version p; type p] ++ store_be 2 (hdr_len p) ++
  store_be 2 (pkt_len p) ++ store_be 4 (seq p) ++ store_be 4 (ack p) ++ body.

Lemma store_be_length n z : length (store_be n z) = n.
Proof. unfold store_be. by rewrite length_reverse, store_le_length. Qed.

Lemma wire_length p body : zlen (wire p body) = HEADER_SIZE + zlen body.
Proof.
  unfold wire. rewrite !length_app, !store_be_length. unfold HEADER_SIZE. simpl length. lia.
Qed.

Lemma image_swap p : image (swap_fields p) = wire p (payload p).
Proof.
  unfold image, wire.
  change (magic (swap_fields p)) with (swap_bytes 2 (magic p)).
  change (version (swap_fields p)) with (version p). change (type (swap_fields p)) with (type p).
  change (hdr_len (swap_fields p)) with (swap_bytes 2 (hdr_len p)).
  change (pkt_len (swap_fields p)) with (swap_bytes 2 (pkt_len p)).
  change (seq (swap_fields p)) with (swap_bytes 4 (seq p)).
  change (ack (swap_fields p)) with (swap_bytes 4 (ack p)).
  change (payload (swap_fields p)) with (payload p).
  by rewrite !swap_store.
Qed.

Lemma wire_app p b1 b2 : wire p (b1 ++ b2) = wire p b1 ++ b2.
Proof. unfold wire. by rewrite !app_assoc. Qed.

Lemma take_app_zlen {A} (l1 l2 : list A) n : zlen l1 = n -> take (Z.to_nat n) (l1 ++ l2) = l1.
Proof. intros <-. rewrite Nat2Z.id. apply take_app_length. Qed.

(** [ENCODE_PKT] sends the header in network order and [pkt_len - 16] bytes of the
    payload. *)
Lemma ENCODE_PKT_wire p :
  packet_wf p -> HEADER_SIZE <= pkt_len p <= PACKET_SIZE ->
  ENCODE_PKT p = Some (wire p (take (Z.to_nat (pkt_len p - HEADER_SIZE)) (payload p))).
Proof.
  intros [(_ & _ & _ & _ & Hl & _ & _) Hp] Hlen. unfold ENCODE_PKT.
  change (pkt_len (swap_fields p)) with (swap_bytes 2 (pkt_len p)).
  change (ntohs ?x) with (swap_bytes 2 x). rewrite swap_swap by done. rewrite image_swap.
  unfold MAX_PAYLOAD_SIZE, HEADER_SIZE, PACKET_SIZE in *.
  unfold zread. rewrite decide_True by (rewrite wire_length; unfold HEADER_SIZE; lia).
  f_equal. rewrite Z2Nat.inj_0, drop_0.
  rewrite <- (take_drop (Z.to_nat (pkt_len p - 16)) (payload p)) at 1.
  rewrite wire_app. apply take_app_zlen. rewrite wire_length, length_take.
  unfold HEADER_SIZE. lia.
Qed.

(** The fields of the structure at the bytes of a datagram. *)
Lemma of_image_wire p body :
  header_wf p -> swap_fields (of_image (wire p body)) = p .{ payload := body }.
Proof.
  intros (Hm & Hv & Ht & Hh & Hl & Hs & Ha).
  assert (forall n x l, (n <= 4)%nat -> take n (store_be n x ++ l) = store_be n x) as Htk.
  { intros. rewrite <- (store_be_length n x) at 1. apply take_app_length. }
  assert (forall n x l, drop n (store_be n x ++ l) = l) as Hdr.
  { intros. rewrite <- (store_be_length n x) at 1. apply drop_app_length. }
  unfold wire.
  set (l7 := body). set (l6 := store_be 4 (ack p) ++ l7). set (l5 := store_be 4 (seq p) ++ l6).
  set (l4 := store_be 2 (pkt_len p) ++ l5). set (l3 := store_be 2 (hdr_len p) ++ l4).
  set (l0 := store_be 2 (magic p) ++ [version p; type p] ++ l3).
  assert (drop 2 l0 = [version p; type p] ++ l3) as H2 by apply Hdr.
  assert (drop 3 l0 = [type p] ++ l3) as H3.
  { change 3%nat with (2 + 1)%nat. by rewrite <- drop_drop, H2. }
  assert (drop 4 l0 = l3) as H4.
  { change 4%nat with (2 + 2)%nat. by rewrite <- drop_drop, H2. }
  assert (drop 6 l0 = l4) as H6.
  { change 6%nat with (4 + 2)%nat. rewrite <- drop_drop, H4. apply Hdr. }
  assert (drop 8 l0 = l5) as H8.
  { change 8%nat with (6 + 2)%nat. rewrite <- drop_drop, H6. apply Hdr. }
  assert (drop 12 l0 = l6) as H12.
  { change 12%nat with (8 + 4)%nat. rewrite <- drop_drop, H8. apply Hdr. }
  assert (drop 16 l0 = l7) as H16.
  { change 16%nat with (12 + 4)%nat. rewrite <- drop_drop, H12. apply Hdr. }
  unfold of_image. rewrite H2, H3, H4, H6, H8, H12, H16, drop_0.
  unfold l0, l3, l4, l5, l6. rewrite !Htk by lia.
  unfold swap_fields, htons, htonl, ntohs, ntohl.
  destruct p as [pm pv pt ph pl psq pa pp]. unfold upd, setter_of.
  cbn [magic version type hdr_len pkt_len seq ack payload] in *.
  change (load_le (reverse (store_le ?n ?x))) with (swap_bytes n x).
  rewrite !swap_load_be by done. f_equal; unfold load_le; simpl; lia.
Qed.

Lemma image_length p : zlen (image p) = HEADER_SIZE + zlen (payload p).
Proof. unfold image. rewrite !length_app, !store_le_length. unfold HEADER_SIZE. simpl length. lia. Qed.

Lemma drop_image p n : drop (16 + n) (image p) = drop n (payload p).
Proof. rewrite <- drop_drop. f_equal. Qed.

(** Decoding a datagram gives the sender's fields; the payload beyond the body keeps
    what the structure held. *)
Lemma DECODE_PKT_wire p body rest pkt :
  header_wf p -> zlen body <= MAX_PAYLOAD_SIZE -> zlen (payload pkt) = MAX_PAYLOAD_SIZE ->
  DECODE_PKT (wire p body ++ rest) pkt (HEADER_SIZE + zlen body) =
    Some (p .{ payload := body ++ drop (length body) (payload pkt) }).
Proof.
  intros Hp Hb Hpkt. unfold DECODE_PKT. pose proof (wire_length p body) as Hw.
  pose proof (image_length pkt) as Hi. unfold MAX_PAYLOAD_SIZE, PACKET_SIZE, HEADER_SIZE in *.
  rewrite u64_small by lia. unfold zread. rewrite decide_True by (rewrite length_app; lia).
  rewrite option_bind_Some, Z2Nat.inj_0, drop_0, take_app_zlen by lia.
  unfold zwrite. rewrite decide_True by lia.
  rewrite option_bind_Some, Z2Nat.inj_0, take_0. cbn [app].
  replace (0 + length (wire p body))%nat with (16 + length body)%nat by lia.
  rewrite drop_image, <- wire_app. by rewrite of_image_wire.
Qed.

(** The structure at any bytes is well-formed. *)
Lemma image_of_image b : Forall is_byte b -> 16 <= zlen b -> image (of_image b) = b.
Proof.
  intros Hb Hlen. unfold image, of_image.
  cbn [magic version type hdr_len pkt_len seq ack payload].
  assert (forall off n, (off + n <= 16)%nat ->
    store_le n (load_le (take n (drop off b))) = take n (drop off b)) as Hs.
  { intros off n Hn. assert (length (take n (drop off b)) = n) as Hl.
    { rewrite length_take, length_drop. lia. }
    rewrite <- Hl at 1. apply store_load. by apply Forall_take, Forall_drop. }
  rewrite !Hs by lia.
  assert (forall off, (off < 16)%nat -> [load_le (take 1 (drop off b))] = take 1 (drop off b)) as H1.
  { intros off Hoff. destruct (drop off b) as [|x l] eqn:E.
    - apply (f_equal length) in E. rewrite length_drop in E. simpl in E. lia.
    - cbn [take load_le]. by rewrite Z.mul_0_r, Z.add_0_r, take_0. }
  change [load_le (take 1 (drop 2 b)); load_le (take 1 (drop 3 b))]
    with ([load_le (take 1 (drop 2 b))] ++ [load_le (take 1 (drop 3 b))]).
  rewrite !H1, <- app_assoc by lia.
  assert (forall off n, take n (drop off b) ++ drop (off + n) b = drop off b) as Hcat.
  { intros. rewrite <- drop_drop. apply take_drop. }
  rewrite (Hcat 12%nat 4%nat : _ ++ drop 16 b = _), (Hcat 8%nat 4%nat : _ ++ drop 12 b = _),
    (Hcat 6%nat 2%nat : _ ++ drop 8 b = _), (Hcat 4%nat 2%nat : _ ++ drop 6 b = _),
    (Hcat 3%nat 1%nat : _ ++ drop 4 b = _), (Hcat 2%nat 1%nat : _ ++ drop 3 b = _),
    (Hcat 0%nat 2%nat : _ ++ drop 2 b = _). apply drop_0.
Qed.

Definition payload_bytes (p : packet_t) : Prop := Forall is_byte (payload p).

Lemma swap_of_image_wf b :
  Forall is_byte b -> zlen b = PACKET_SIZE ->
  packet_wf (swap_fields (of_image b)) /\ payload_bytes (swap_fields (of_image b)).
Proof.
  intros Hb Hlen. unfold PACKET_SIZE in Hlen.
  assert (forall off n, (off + n <= 16)%nat ->
    0 <= load_le (take n (drop off b)) < 2 ^ (8 * Z.of_nat n)) as Hr.
  { intros off n Hn.
    replace (Z.of_nat n) with (zlen (take n (drop off b)))
      by (rewrite length_take, length_drop; lia).
    apply load_le_range. by apply Forall_take, Forall_drop. }
  unfold packet_wf, header_wf, payload_bytes.
  split; [split_and!|].
  - apply (swap_range 2).
  - apply (swap_range 2).
  - apply (Hr 2%nat 1%nat). lia.
  - apply (Hr 2%nat 1%nat). lia.
  - apply (Hr 3%nat 1%nat). lia.
  - apply (Hr 3%nat 1%nat). lia.
  - apply (swap_range 2).
  - apply (swap_range 2).
  - apply (swap_range 2).
  - apply (swap_range 2).
  - apply (swap_range 4).
  - apply (swap_range 4).
  - apply (swap_range 4).
  - apply (swap_range 4).
  - change (payload (swap_fields (of_image b))) with (drop 16 b). rewrite length_drop.
    unfold MAX_PAYLOAD_SIZE, PACKET_SIZE, HEADER_SIZE. lia.
  - change (payload (swap_fields (of_image b))) with (drop 16 b). by apply Forall_drop.
Qed.

(** A structure as [stack_packet] gives it. *)
Definition raw_packet (p : packet_t) : Prop :=
  exists b, p = of_image b /\ Forall is_byte b /\ zlen b = PACKET_SIZE.

Lemma raw_packet_payload p : raw_packet p -> zlen (payload p) = MAX_PAYLOAD_SIZE.
Proof.
  intros (b & -> & _ & Hlen). change (payload (of_image b)) with (drop 16 b).
  rewrite length_drop. unfold MAX_PAYLOAD_SIZE, PACKET_SIZE, HEADER_SIZE in *. lia.
Qed.

(** Any datagram, complete or not, decodes to a well-formed packet. *)
Lemma DECODE_PKT_wf buf pkt size :
  Forall is_byte buf -> raw_packet pkt -> 0 <= size <= zlen buf -> size <= PACKET_SIZE ->
  exists p, DECODE_PKT buf pkt size = Some p /\ packet_wf p /\ payload_bytes p.
Proof.
  intros Hbuf (b & -> & Hb & Hlen) Hsz Hmax. unfold PACKET_SIZE in *.
  unfold DECODE_PKT. rewrite u64_small by lia.
  destruct (zread_is_Some buf 0 size) as [d Hd]; [lia..|]. rewrite Hd, option_bind_Some.
  pose proof (zread_length _ _ _ _ Hd) as Hdl.
  rewrite image_of_image by (done || lia).
  destruct (zwrite_is_Some b 0 d) as [img Himg]; [lia..|]. rewrite Himg, option_bind_Some.
  eexists. split; [done|]. apply swap_of_image_wf.
  - eauto using zwrite_Forall, zread_Forall.
  - rewrite (zwrite_length _ _ _ _ Himg). unfold PACKET_SIZE. lia.
Qed.

(** ** Validity *)

(** What a packet accepted by [valid_packet] satisfies: its lengths are consistent,
    and its announced hashes fit. *)
Definition packet_valid (p : packet_t) : Prop :=
  packet_wf p /\ magic p = MAGIC /\ version p = VERSION /\
  HEADER_SIZE <= hdr_len p <= pkt_len p /\ pkt_len p <= PACKET_SIZE /\
  (type p = PACKET_TYPE_WHOHAS \/ type p = PACKET_TYPE_IHAVE ->
     exists cnt, GET_CHUNK_CNT p = Some cnt /\ 1 <= cnt /\
       4 + SHA1_HASH_SIZE * cnt <= GET_DATA_LEN p) /\
  (type p = PACKET_TYPE_GET -> SHA1_HASH_SIZE <= GET_DATA_LEN p).

Lemma DATA_OFFSET_range p :
  HEADER_SIZE <= hdr_len p -> 0 <= DATA_OFFSET p <= EXT_HEADER_SIZE p.
Proof.
  intros. unfold DATA_OFFSET, MAX_OFFSET, EXT_HEADER_SIZE. rewrite C_MIN_min, C_MAX_max. lia.
Qed.

(** [valid_packet] reads inside the payload, and accepts exactly such packets. *)
Lemma valid_packet_spec p :
  packet_wf p -> exists b, valid_packet p = Some b /\ (b = true <-> packet_valid p).
Proof.
  intros Hwf. unfold valid_packet, packet_valid.
  destruct (Z.eqb_spec (magic p) MAGIC) as [Hm|]; [|exists false; split; [done|split; [done|tauto]]].
  destruct (Z.eqb_spec (version p) VERSION) as [Hv|]; [|exists false; split; [done|split; [done|tauto]]].
  cbn [negb].
  destruct ((pkt_len p <? hdr_len p) || (hdr_len p <? HEADER_SIZE)) eqn:Hh.
  { exists false. split; [done|]. split; [done|]. intros (_ & _ & _ & ? & _). lia. }
  apply orb_false_iff in Hh as [Hh1 Hh2].
  rewrite Z.gtb_ltb. destruct (Z.ltb_spec PACKET_SIZE (pkt_len p)) as [Hl|Hl].
  { exists false. split; [done|]. split; [done|]. intros (_ & _ & _ & _ & ? & _). lia. }
  assert (forall P Q : Prop, packet_wf p /\ magic p = MAGIC /\ version p = VERSION /\
    HEADER_SIZE <= hdr_len p <= pkt_len p /\ pkt_len p <= PACKET_SIZE /\ P /\ Q <-> P /\ Q) as Hred.
  { intros. split; [tauto|]. intros. split_and!; tauto || lia. }
  setoid_rewrite Hred. clear Hred.
  pose proof Hwf as [_ Hpay].
  unfold MAX_PAYLOAD_SIZE, HEADER_SIZE, PACKET_SIZE in *.
  destruct (DATA_OFFSET_range p) as [Ho1 Ho2]; [unfold HEADER_SIZE; lia|].
  destruct ((type p =? PACKET_TYPE_WHOHAS) || (type p =? PACKET_TYPE_IHAVE)) eqn:Ht.
  - assert (type p = PACKET_TYPE_GET -> False) as Hng.
    { unfold PACKET_TYPE_GET, PACKET_TYPE_WHOHAS, PACKET_TYPE_IHAVE in *. lia. }
    destruct (Z.ltb_spec (GET_DATA_LEN p) 4) as [Hd|Hd].
    { exists false. split; [done|]. split; [done|]. intros [H _].
      destruct H as (cnt & _ & ? & ?); [lia|]. unfold SHA1_HASH_SIZE in *. lia. }
    destruct (zget_is_Some (payload p) (DATA_OFFSET p)) as [cnt Hcnt].
    { unfold EXT_HEADER_SIZE, GET_DATA_LEN, HEADER_SIZE in *. lia. }
    unfold GET_CHUNK_CNT. rewrite Hcnt, option_bind_Some. eexists. split; [done|].
    rewrite negb_true_iff, orb_false_iff.
    rewrite Z.quot_div_nonneg by (unfold SHA1_HASH_SIZE; lia). unfold SHA1_HASH_SIZE.
    assert (cnt <= (GET_DATA_LEN p - 4) / 20 <-> 4 + 20 * cnt <= GET_DATA_LEN p) as Hdiv.
    { split; intros; Z.div_mod_to_equations; lia. }
    split.
    + intros [H1 H2]. split; [|done]. intros _. exists cnt. split; [done|]. lia.
    + intros [H _]. destruct H as (c & [= <-] & ? & ?); lia.
  - assert (type p = PACKET_TYPE_WHOHAS \/ type p = PACKET_TYPE_IHAVE -> False) as Hnw by lia.
    destruct (Z.eqb_spec (type p) PACKET_TYPE_GET) as [Hg|Hg].
    + eexists. split; [done|]. rewrite negb_true_iff. split.
      * intros ?. split; [done|]. intros. lia.
      * intros [_ H]. specialize (H Hg). lia.
    + exists true. split; [done|]. done.
Qed.

(** ** Hashes in packets *)

Lemma HASH_OFFSET_range p n :
  HEADER_SIZE <= hdr_len p -> SHA1_HASH_SIZE <= GET_DATA_LEN p -> 0 <= n ->
  0 <= HASH_OFFSET p n <= GET_DATA_LEN p - SHA1_HASH_SIZE.
Proof.
  intros. unfold HASH_OFFSET, MAX_OFFSET, EXT_HEADER_SIZE. rewrite C_MIN_min, C_MAX_max.
  unfold SHA1_HASH_SIZE in *. destruct (type p =? PACKET_TYPE_GET); lia.
Qed.

(** [GET_HASH] never leaves the payload, whatever hash is asked for. *)
Lemma GET_HASH_spec p n hexbuf :
  packet_valid p -> SHA1_HASH_SIZE <= GET_DATA_LEN p -> 0 <= n -> zlen hexbuf >= SHA1_BUF_SIZE ->
  exists src, zread (payload p) (HASH_OFFSET p n) SHA1_HASH_SIZE = Some src /\
    GET_HASH p n hexbuf = Some (hexstring src ++ 0 :: drop 41 hexbuf).
Proof.
  intros (Hwf & _ & _ & Hh & Hl & _) Hd Hn Hbuf.
  pose proof Hwf as [_ Hpay].
  destruct (HASH_OFFSET_range p n) as [? ?]; [lia|done|done|].
  unfold GET_DATA_LEN, MAX_PAYLOAD_SIZE, HEADER_SIZE, PACKET_SIZE, SHA1_HASH_SIZE in *.
  destruct (zread_is_Some (payload p) (HASH_OFFSET p n) 20) as [src Hsrc]; [lia..|].
  exists src. split; [done|]. unfold GET_HASH, SHA1_HASH_SIZE.
  rewrite Hsrc, option_bind_Some. pose proof (zread_length _ _ _ _ Hsrc) as Hs.
  change SHA1_BUF_SIZE with 41 in Hbuf. pose proof (binary2hex_spec src hexbuf) as Hhex.
  rewrite Hs in Hhex. apply Hhex. lia.
Qed.

(** [hex2binary] reads two digits a byte, whatever they are. *)
Lemma hex2binary_total n : forall i hex buf,
  0 <= i -> i mod 2 = 0 -> i + 2 * Z.of_nat n <= zlen hex -> i / 2 + Z.of_nat n <= zlen buf ->
  exists buf', hex2binary_loop n i hex buf = Some buf' /\ length buf' = length buf.
Proof.
  induction n as [|n IH]; intros i hex buf Hi Hm Hh Hb; cbn [hex2binary_loop]; [eauto|].
  destruct (zget_is_Some hex i) as [h Eh]; [lia|].
  destruct (zget_is_Some hex (i + 1)) as [l El]; [lia|].
  rewrite Eh, option_bind_Some, El, option_bind_Some.
  match goal with |- context [zset buf (i / 2) ?x] =>
    destruct (zset_is_Some buf (i / 2) x) as [b Eb] end; [Z.div_mod_to_equations; lia|].
  rewrite Eb, option_bind_Some. pose proof (zset_length _ _ _ _ Eb) as Hlb.
  destruct (IH (i + 2) hex b) as (buf' & -> & Hl); [Z.div_mod_to_equations; lia..|].
  exists buf'. split; [done|congruence].
Qed.

(** [SET_HASH] stays inside the payload for the hashes a packet can hold. *)
Lemma SET_HASH_total p n hash :
  zlen (payload p) = MAX_PAYLOAD_SIZE -> hdr_len p = HEADER_SIZE -> 0 <= n < HASH_NUM_PKT ->
  zlen hash >= SHA1_HASH_STR_SIZE ->
  exists b, SET_HASH p n hash = Some (p .{ payload := b }) /\ zlen b = MAX_PAYLOAD_SIZE.
Proof.
  intros Hpay Hh Hn Hhash. unfold SET_HASH, hex2binary. change HASH_NUM_PKT with 74 in Hn.
  change SHA1_HASH_STR_SIZE with 40 in *. change (Z.to_nat ((40 + 1) / 2)) with 20%nat.
  destruct (hex2binary_total 20 0 hash (replicate (Z.to_nat SHA1_HASH_SIZE) 0))
    as (bin & Hbin & Hbl); [done|done|lia|done|].
  rewrite Hbin, option_bind_Some. rewrite length_replicate in Hbl.
  change (Z.to_nat SHA1_HASH_SIZE) with 20%nat in Hbl.
  unfold EXT_HEADER_SIZE, SHA1_HASH_SIZE. rewrite Hh.
  change MAX_PAYLOAD_SIZE with 1484 in *. change (HEADER_SIZE - HEADER_SIZE) with 0.
  match goal with |- context [zwrite _ ?o _] =>
    destruct (zwrite_is_Some (payload p) o bin) as [b Hb] end;
    [destruct (type p =? PACKET_TYPE_GET); lia..|].
  rewrite Hb, option_bind_Some. exists b. split; [done|].
  rewrite (zwrite_length _ _ _ _ Hb). done.
Qed.

(** ** Properties *)

(** A packet survives the wire: [ENCODE_PKT] sends its header in network byte
    order and [pkt_len] bytes in all, and [DECODE_PKT] of them, whatever follows in
    the buffer and whatever the structure held, gives back every field and those
    bytes of the payload. *)
Theorem packet_wire_roundtrip (p stale : packet_t) (rest : list Z) :
  packet_wf p -> HEADER_SIZE <= pkt_len p <= PACKET_SIZE ->
  zlen (payload stale) = MAX_PAYLOAD_SIZE ->
  let body := take (Z.to_nat (pkt_len p - HEADER_SIZE)) (payload p) in
  exists dg, ENCODE_PKT p = Some dg /\ dg = wire p body /\ zlen dg = pkt_len p /\
    DECODE_PKT (dg ++ rest) stale (pkt_len p) =
      Some (p .{ payload := body ++ drop (length body) (payload stale) }).
Proof.
  intros Hwf Hlen Hst body. exists (wire p body).
  assert (zlen body = pkt_len p - HEADER_SIZE) as Hb.
  { destruct Hwf as [_ Hp]. unfold body. rewrite length_take.
    unfold MAX_PAYLOAD_SIZE in Hp. lia. }
  split_and!; [by apply ENCODE_PKT_wire|done|rewrite wire_length; lia|].
  replace (pkt_len p) with (HEADER_SIZE + zlen body) at 1 by lia.
  apply DECODE_PKT_wire; [apply Hwf| |done]. unfold MAX_PAYLOAD_SIZE. lia.
Qed.

(** A packet of the examples: a [GET] whose header has an extension of [ext] bytes. *)
Definition sample_get (ext : Z) : packet_t :=
  {| magic := MAGIC; version := VERSION; type := PACKET_TYPE_GET; hdr_len := 16 + ext;
     pkt_len := 36 + ext; seq := 0; ack := 0; payload := replicate 1484 171 |}.

Lemma packet_wire_roundtrip_witness :
  exists dg, ENCODE_PKT (sample_get 0) = Some dg /\ zlen dg = 36.
Proof.
  destruct (packet_wire_roundtrip (sample_get 0) (sample_get 4) []) as (dg & H1 & _ & H2 & _).
  - split; [|reflexivity]. unfold header_wf. simpl. unfold MAGIC, VERSION, PACKET_TYPE_GET. lia.
  - unfold HEADER_SIZE, PACKET_SIZE. simpl. lia.
  - reflexivity.
  - exists dg. split; [exact H1|exact H2].
Defined.

(** C33: [valid_packet] is total and decides exactly [packet_valid] on every decoded
    packet, extended headers included; and for a packet it accepts with a hash in it,
    reading any hash ([GET_HASH]) stays inside the payload. *)
Theorem valid_packet_decides (p : packet_t) :
  packet_wf p ->
  exists b, valid_packet p = Some b /\ (b = true <-> packet_valid p) /\
    (b = true -> SHA1_HASH_SIZE <= GET_DATA_LEN p -> forall n hexbuf, 0 <= n ->
       zlen hexbuf >= SHA1_BUF_SIZE -> exists hexbuf', GET_HASH p n hexbuf = Some hexbuf').
Proof.
  intros Hwf. destruct (valid_packet_spec p Hwf) as (b & Hb & Hiff).
  exists b. split_and!; [done|done|]. intros Ht Hd n hexbuf Hn Hbuf.
  destruct (GET_HASH_spec p n hexbuf) as (src & _ & E); [by apply Hiff|done..|]. eauto.
Qed.

Lemma sample_get_wf ext : 0 <= ext <= 1448 -> packet_wf (sample_get ext).
Proof.
  intros. split; [|reflexivity]. unfold header_wf. simpl.
  unfold MAGIC, VERSION, PACKET_TYPE_GET. lia.
Qed.

Lemma valid_packet_decides_witness : exists b, valid_packet (sample_get 0) = Some b /\ b = true.
Proof.
  destruct (valid_packet_decides (sample_get 0) (sample_get_wf 0 ltac:(lia))) as (b & Hb & _).
  exists b. split; [exact Hb|]. vm_compute in Hb. injection Hb as <-. reflexivity.
Defined.

(** An extended header is misread: of a valid [GET] with a header longer than 16
    bytes and exactly one hash, the code takes the first 20 bytes after the fixed
    header, the extension, in place of the hash that follows it. *)
Theorem get_hash_misreads_extension (p : packet_t) (hexbuf : list Z) :
  packet_valid p -> type p = PACKET_TYPE_GET -> HEADER_SIZE < hdr_len p ->
  GET_DATA_LEN p = SHA1_HASH_SIZE -> zlen hexbuf >= SHA1_BUF_SIZE ->
  GET_HASH p 0 hexbuf =
    Some (hexstring (take 20 (payload p)) ++ 0 :: drop 41 hexbuf) /\
  EXT_HEADER_SIZE p > 0.
Proof.
  intros Hv Ht Hh Hd Hbuf.
  assert (HASH_OFFSET p 0 = 0) as Ho.
  { unfold HASH_OFFSET, MAX_OFFSET, EXT_HEADER_SIZE. rewrite C_MIN_min, C_MAX_max, Ht, Hd.
    change (PACKET_TYPE_GET =? PACKET_TYPE_GET) with true. lia. }
  destruct (GET_HASH_spec p 0 hexbuf) as (src & Hsrc & E); [done|lia|lia|done|].
  rewrite E. split; [|unfold EXT_HEADER_SIZE; lia].
  rewrite Ho in Hsrc. unfold zread in Hsrc. case_decide; [|done].
  injection Hsrc as <-. by rewrite Z2Nat.inj_0, drop_0.
Qed.

Lemma get_hash_misreads_extension_witness :
  EXT_HEADER_SIZE (sample_get 4) > 0 /\
  GET_HASH (sample_get 4) 0 (replicate 41 0) = Some (hexstring (replicate 20 171) ++ [0]).
Proof.
  destruct (get_hash_misreads_extension (sample_get 4) (replicate 41 0)) as [H1 H2].
  - destruct (valid_packet_spec (sample_get 4) (sample_get_wf 4 ltac:(lia))) as (b & Hb & Hiff).
    apply Hiff. vm_compute in Hb. injection Hb as <-. reflexivity.
  - reflexivity.
  - reflexivity.
  - reflexivity.
  - done.
  - split; [exact H2|exact H1].
Defined.
