(* ===== verification/Sending.v ===== *)
(** * Sending: what [send_packet] puts on the wire

    For each kind of packet the server sends, the datagrams [send_packet] emits,
    exactly for those that carry data or an acknowledgement, and up to the
    garbage of the unused bytes for those that carry hashes. *)

From S2P Require Import Prelude Sha Chunk ChunkList Machine Util Packet.

(** The header of a packet of our own, and its datagram. *)
Definition mk_header (ty len sq ak : Z) : packet_t :=
  {| magic := MAGIC; version := VERSION; type := ty; hdr_len := HEADER_SIZE;
     pkt_len := len; seq := sq; ack := ak; payload := [] |}.
Definition datagram (ty sq ak : Z) (body : list Z) : list Z :=
  wire (mk_header ty (HEADER_SIZE + zlen body) sq ak) body.

Definition data_datagram (sq : Z) (d : list Z) : list Z := datagram PACKET_TYPE_DATA sq 0 d.
Definition ack_datagram (ak : Z) : list Z := datagram PACKET_TYPE_ACK 0 ak [].

(** A packet on its way to [ENCODE_PKT]. *)
Definition own_packet (ty len sq ak : Z) (p : packet_t) : Prop :=
  p = (mk_header ty len sq ak) .{ payload := payload p } /\ zlen (payload p) = MAX_PAYLOAD_SIZE.

Lemma mk_header_wf ty len sq ak :
  0 <= ty < 2 ^ 8 -> 0 <= len < 2 ^ 16 -> 0 <= sq < 2 ^ 32 -> 0 <= ak < 2 ^ 32 ->
  header_wf (mk_header ty len sq ak).
Proof. intros. unfold header_wf. simpl. unfold MAGIC, VERSION, HEADER_SIZE. lia. Qed.

Lemma wire_payload p b body : wire (p .{ payload := b }) body = wire p body.
Proof. done. Qed.

(** The datagram of a packet is its header and the bytes it announces. *)
Lemma ENCODE_own ty sq ak p body :
  0 <= ty < 2 ^ 8 -> 0 <= sq < 2 ^ 32 -> 0 <= ak < 2 ^ 32 ->
  zlen body <= MAX_PAYLOAD_SIZE ->
  own_packet ty (HEADER_SIZE + zlen body) sq ak p -> take (length body) (payload p) = body ->
  ENCODE_PKT p = Some (datagram ty sq ak body).
Proof.
  intros Ht Hs Ha Hb [Hp Hpl] Hbody. unfold MAX_PAYLOAD_SIZE, PACKET_SIZE, HEADER_SIZE in *.
  rewrite ENCODE_PKT_wire.
  - rewrite Hp at 2. change (pkt_len (_ .{ payload := _ })) with (16 + zlen body).
    replace (Z.to_nat (16 + zlen body - HEADER_SIZE)) with (length body)
      by (unfold HEADER_SIZE; lia).
    rewrite Hbody, Hp. by rewrite wire_payload.
  - split; [|done]. rewrite Hp.
    by apply (mk_header_wf ty (16 + zlen body) sq ak); try lia.
  - rewrite Hp. change (pkt_len (_ .{ payload := _ })) with (16 + zlen body).
    unfold HEADER_SIZE, PACKET_SIZE. lia.
Qed.

(** A receiver decodes such a datagram to the same header. *)
Lemma DECODE_datagram ty sq ak body rest pkt :
  0 <= ty < 2 ^ 8 -> 0 <= sq < 2 ^ 32 -> 0 <= ak < 2 ^ 32 -> zlen body <= MAX_PAYLOAD_SIZE ->
  zlen (payload pkt) = MAX_PAYLOAD_SIZE ->
  DECODE_PKT (datagram ty sq ak body ++ rest) pkt (zlen (datagram ty sq ak body)) =
    Some ((mk_header ty (HEADER_SIZE + zlen body) sq ak)
            .{ payload := body ++ drop (length body) (payload pkt) }).
Proof.
  intros Ht Hs Ha Hb Hp. unfold datagram. rewrite wire_length.
  rewrite DECODE_PKT_wire; [done| |done|done]. apply mk_header_wf; try lia.
  unfold MAX_PAYLOAD_SIZE, PACKET_SIZE, HEADER_SIZE in *. lia.
Qed.

(** A part of an array, and the [i]-th packet of a chunk: packets are numbered from 1. *)
Definition range {A} (l : list A) (i n : Z) : list A := take (Z.to_nat n) (drop (Z.to_nat i) l).
Definition pkt_slice (b : list Z) (i : Z) : list Z := range b ((i - 1) * PAYLOAD_SIZE) PAYLOAD_SIZE.

Lemma CHUNK_PKTS_eq : CHUNK_PKTS = 512.
Proof. done. Qed.

Lemma pkt_slice_read b i :
  zlen b = BT_CHUNK_SIZE -> 1 <= i <= CHUNK_PKTS ->
  zread (drop (Z.to_nat ((i - 1) * PAYLOAD_SIZE)) b) 0 PAYLOAD_SIZE = Some (pkt_slice b i).
Proof.
  intros Hb Hi. rewrite CHUNK_PKTS_eq in Hi. unfold pkt_slice, range, zread.
  change BT_CHUNK_SIZE with 524288 in Hb. unfold PAYLOAD_SIZE in *.
  rewrite decide_True by (rewrite length_drop; lia). by rewrite Z2Nat.inj_0, drop_0.
Qed.

Lemma pkt_slice_at b i :
  zlen b = BT_CHUNK_SIZE -> 1 <= i <= CHUNK_PKTS ->
  zread b ((i - 1) * PAYLOAD_SIZE) PAYLOAD_SIZE = Some (pkt_slice b i).
Proof.
  intros Hb Hi. rewrite CHUNK_PKTS_eq in Hi. unfold zread, pkt_slice, range.
  rewrite decide_True; [done|]. rewrite Hb. change BT_CHUNK_SIZE with 524288. unfold PAYLOAD_SIZE. lia.
Qed.

Lemma pkt_slice_length b i :
  zlen b = BT_CHUNK_SIZE -> 1 <= i <= CHUNK_PKTS -> zlen (pkt_slice b i) = PAYLOAD_SIZE.
Proof. intros Hb Hi. eapply zread_length, pkt_slice_read; eauto. Qed.

Section Specs.
Context `{Env}.

Lemma stack_packet_spec P w (Q : packet_t -> World -> Prop) :
  (forall p w', raw_packet p -> emits P w w' -> Q p w') -> wp stack_packet Q w.
Proof.
  intros HQ. unfold stack_packet. wp_go. apply wp_ask_any. intros b. wp_go.
  apply HQ; [|auto with machine].
  exists (u8 <$> resize (Z.to_nat PACKET_SIZE) 0 b). split_and!; [done| |].
  - apply Forall_fmap, Forall_true. intros x. apply u8_range.
  - rewrite length_fmap, length_resize. done.
Qed.

(** The datagrams sent to the peers [ps]. *)
Definition sends (sk : Z) (ps : list Peer) (buf : list Z) : list event :=
  (fun p => EvSend sk (addr p) buf) <$> ps.

(** The same server, [evs] emitted. *)
Definition emitted (evs : list event) (w w' : World) : Prop :=
  psvr w' = psvr w /\ out w' = out w ++ evs.

Lemma emitted_refl w : emitted [] w w.
Proof. split; [done|]. by rewrite app_nil_r. Qed.
Lemma emitted_trans e1 e2 w1 w2 w3 : emitted e1 w1 w2 -> emitted e2 w2 w3 -> emitted (e1 ++ e2) w1 w3.
Proof. intros [? Ho1] [? Ho2]. split; [congruence|]. by rewrite Ho2, Ho1, app_assoc. Qed.
Lemma emitted_emits P evs w w' : emitted evs w w' -> Forall P evs -> emits P w w'.
Proof. intros [? ?] ?. split; eauto. Qed.
(** Code that emits nothing. *)
Lemma emits_none w w' : emits (fun _ => False) w w' -> emitted [] w w'.
Proof.
  intros [? (evs & Ho & HF)]. split; [done|]. destruct evs as [|e evs]; [done|].
  by apply Forall_cons in HF as [? _].
Qed.

Lemma send_udp_loop_spec buf sk p_index n : forall i w (Q : unit -> World -> Prop),
  0 <= p_index -> 0 <= i -> p_index + i + Z.of_nat n <= zlen (peers (peerlist (psvr w))) ->
  (forall w', emitted (sends sk (range (peers (peerlist (psvr w))) (p_index + i) (Z.of_nat n)) buf) w w' ->
     Q tt w') ->
  wp (send_udp_loop n i sk p_index buf) Q w.
Proof.
  induction n as [|n IH]; intros i w Q Hp Hi Hn HQ; cbn [send_udp_loop].
  { wp_go. apply HQ. apply emitted_refl. }
  wp_go. destruct (zget_is_Some (peers (peerlist (psvr w))) (p_index + i)) as [p Hget]; [lia|].
  eapply wp_lift; [exact Hget|]. wp_go. apply IH; [done|lia|simpl; lia|].
  intros w' Hw'. apply HQ. unfold range in *.
  unfold zget in Hget. rewrite decide_True in Hget by lia.
  rewrite (drop_S _ _ _ Hget).
  replace (Z.to_nat (Z.of_nat (S n))) with (S (Z.to_nat (Z.of_nat n))) by lia.
  cbn [take]. unfold sends at 1. rewrite fmap_cons.
  replace (S (Z.to_nat (p_index + i))) with (Z.to_nat (p_index + (i + 1))) by lia.
  apply (emitted_trans [_] _ _ (w .{ out := out w ++ [EvSend sk (addr p) buf] }));
    [by split|exact Hw'].
Qed.

Lemma send_udp_spec sk i n buf w (Q : unit -> World -> Prop) :
  0 <= i -> 0 <= n -> i + n <= zlen (peers (peerlist (psvr w))) ->
  (forall w', emitted (sends sk (range (peers (peerlist (psvr w))) i n) buf) w w' -> Q tt w') ->
  wp (send_udp sk i n buf) Q w.
Proof.
  intros Hi Hn Hle HQ. apply send_udp_loop_spec; [done|done|lia|].
  rewrite Z.add_0_r, Z2Nat.id by done. done.
Qed.

Lemma range_one {A} (l : list A) i x : zget l i = Some x -> range l i 1 = [x].
Proof.
  intros Hx. unfold range. unfold zget in Hx. case_decide; [|done].
  by rewrite (drop_S _ _ _ Hx).
Qed.

(** *** Packets without hashes *)

Lemma set_header_own ty sq ak p :
  zlen (payload p) = MAX_PAYLOAD_SIZE ->
  own_packet ty HEADER_SIZE (if PACKET_TYPE_DATA =? ty then sq else 0)
    (if PACKET_TYPE_ACK =? ty then ak else 0) (set_header ty sq ak p).
Proof.
  intros Hp. unfold set_header, own_packet.
  by destruct (PACKET_TYPE_DATA =? ty), (PACKET_TYPE_ACK =? ty).
Qed.

(** Sending one packet to one peer. *)
Lemma send_one_spec pp buf pkt w (Q : unit -> World -> Prop) p j :
  fill_packet pp 0 0 0 (set_header (pp_type pp) (pp_seq pp) (pp_ack pp) pkt) w =
    Some (Some (j, p), w) ->
  ENCODE_PKT p = Some buf ->
  forall peer, zget (peers (peerlist (psvr w))) (pp_p_index pp) = Some peer ->
  (forall w', emitted [EvSend (pp_socket pp) (addr peer) buf] w w' -> Q tt w') ->
  wp (send_packet_loop 1 pp 1 0 0 0 pkt) Q w.
Proof.
  intros Hfill Henc peer Hpeer HQ. cbn [send_packet_loop]. apply wp_bind.
  eexists _, _. split; [exact Hfill|]. cbn beta iota. wp_go.
  eapply wp_lift; [exact Henc|]. wp_go.
  pose proof (zget_Some_range _ _ _ Hpeer).
  apply send_udp_spec; [lia|lia|lia|]. intros w' Hw'. wp_go. apply HQ.
  by rewrite (range_one _ _ _ Hpeer) in Hw'.
Qed.

(** The parameters of a packet to one peer, without a chunk list. *)
Definition plain_param (sk i ty sq ak : Z) (pl : option (list Z)) (n : Z) : pkt_param_t :=
  PKT_PARAM_CLEAR .{ pp_socket := sk } .{ pp_p_index := i } .{ pp_p_count := 1 }
    .{ pp_type := ty } .{ pp_seq := sq } .{ pp_ack := ak } .{ pp_payload := pl }
    .{ pp_payload_size := n }.

Lemma send_packet_plain sk i ty sq ak pl n (Q : unit -> World -> Prop) w :
  0 <= i ->
  (forall pkt w', raw_packet pkt -> emitted [] w w' ->
     wp (send_packet_loop 1 (plain_param sk i ty sq ak pl n) 1 0 0 0 pkt) Q w') ->
  wp (send_packet (plain_param sk i ty sq ak pl n)) Q w.
Proof.
  intros Hi HQ. unfold send_packet. set (pp := plain_param sk i ty sq ak pl n) in *.
  wp_go. change (pp_c_count pp <? 0) with false. eapply wp_lift; [reflexivity|].
  change (pp_p_index pp) with i. change (pp_c_index pp <? 0) with false.
  destruct (Z.ltb_spec i 0); [lia|]. cbn [orb]. wp_go.
  apply (stack_packet_spec (fun _ => False)). intros pkt w1 Hraw Hem%emits_none.
  change (pp_c pp) with (@None ChunkList). change (pp_p_count pp) with 1. change (pp_c_count pp) with 0.
  cbv iota. change (1 <? 0) with false. cbv iota. change (Z.to_nat 1) with 1%nat. by apply HQ.
Qed.

(** A data packet is one datagram to the peer, the [n] bytes of its payload. *)
Lemma send_packet_data sk i sq bytes n d peer w (Q : unit -> World -> Prop) :
  zget (peers (peerlist (psvr w))) i = Some peer -> 0 <= sq < 2 ^ 32 ->
  0 <= n <= MAX_PAYLOAD_SIZE -> zread bytes 0 n = Some d ->
  (forall w', emitted [EvSend sk (addr peer) (data_datagram sq d)] w w' -> Q tt w') ->
  wp (send_packet (plain_param sk i PACKET_TYPE_DATA sq 0 (Some bytes) n)) Q w.
Proof.
  intros Hpeer Hsq Hn Hd HQ. pose proof (zget_Some_range _ _ _ Hpeer) as Hi.
  apply send_packet_plain; [lia|]. intros pkt w1 Hraw Hem.
  pose proof (zread_length _ _ _ _ Hd) as Hdl. pose proof (raw_packet_payload _ Hraw) as Hpl.
  destruct (zwrite_is_Some (payload pkt) 0 d) as [b Hb]; [lia|lia|].
  eapply send_one_spec.
  - unfold fill_packet. simpl. change (PACKET_TYPE_DATA =? PACKET_TYPE_DATA) with true. cbv iota.
    rewrite Z.gtb_ltb. destruct (Z.ltb_spec MAX_PAYLOAD_SIZE n); [lia|].
    unfold bind, lift. rewrite Hd. cbn. rewrite Hb. reflexivity.
  - assert (zlen d <= MAX_PAYLOAD_SIZE) as Hdm by lia.
    unfold MAX_PAYLOAD_SIZE, PACKET_SIZE, HEADER_SIZE in Hn.
    rewrite (ENCODE_own PACKET_TYPE_DATA sq 0 _ d); [reflexivity|done|done|done|done| |].
    + split; simpl; [|by rewrite (zwrite_length _ _ _ _ Hb)].
      unfold mk_header. rewrite Hdl, u16_small by (unfold HEADER_SIZE; lia). done.
    + simpl. pose proof (take_zwrite _ _ _ _ (length d) Hb) as Ht.
      simpl in Ht. rewrite Ht by done. by rewrite firstn_all.
  - simpl. by rewrite (proj1 Hem).
  - intros w' Hw'. apply HQ. by apply (emitted_trans [] _ _ w1).
Qed.

(** A data packet with a null payload is an empty datagram. *)
Lemma send_packet_null sk i sq n peer w (Q : unit -> World -> Prop) :
  zget (peers (peerlist (psvr w))) i = Some peer -> 0 <= sq < 2 ^ 32 ->
  (forall w', emitted [EvSend sk (addr peer) (data_datagram sq [])] w w' -> Q tt w') ->
  wp (send_packet (plain_param sk i PACKET_TYPE_DATA sq 0 None n)) Q w.
Proof.
  intros Hpeer Hsq HQ. pose proof (zget_Some_range _ _ _ Hpeer) as Hi.
  apply send_packet_plain; [lia|]. intros pkt w1 Hraw Hem.
  pose proof (raw_packet_payload _ Hraw) as Hpl.
  eapply send_one_spec.
  - reflexivity.
  - by rewrite (ENCODE_own PACKET_TYPE_DATA sq 0 _ []).
  - simpl. by rewrite (proj1 Hem).
  - intros w' Hw'. apply HQ. by apply (emitted_trans [] _ _ w1).
Qed.

(** An acknowledgement is one datagram to the peer. *)
Lemma send_packet_ack sk i ak peer w (Q : unit -> World -> Prop) :
  zget (peers (peerlist (psvr w))) i = Some peer -> 0 <= ak < 2 ^ 32 ->
  (forall w', emitted [EvSend sk (addr peer) (ack_datagram ak)] w w' -> Q tt w') ->
  wp (send_packet (plain_param sk i PACKET_TYPE_ACK 0 ak None 0)) Q w.
Proof.
  intros Hpeer Hsq HQ. pose proof (zget_Some_range _ _ _ Hpeer) as Hi.
  apply send_packet_plain; [lia|]. intros pkt w1 Hraw Hem.
  pose proof (raw_packet_payload _ Hraw) as Hpl.
  eapply send_one_spec.
  - reflexivity.
  - by rewrite (ENCODE_own PACKET_TYPE_ACK 0 ak _ []).
  - simpl. by rewrite (proj1 Hem).
  - intros w' Hw'. apply HQ. by apply (emitted_trans [] _ _ w1).
Qed.
End Specs.
