(* ===== verification/Hashes.v ===== *)
(** * Hashes: packets that list chunks

    What [send_packet] puts on the wire for [WHOHAS], [IHAVE] and [GET]: the
    hashes of the lines, 74 to a packet, behind a count and three bytes that are
    never written, except in a [GET]; and what a receiver reads in them. *)

From S2P Require Import Prelude Sha Chunk ChunkList Machine Util Packet Sending.

(** ** The hashes of a list *)

(** The 20 bytes that the text in a line's buffer stands for. *)
Definition hash_bin (buf : list Z) : list Z :=
  default [] (hex2binary buf SHA1_HASH_STR_SIZE (replicate (Z.to_nat SHA1_HASH_SIZE) 0)).

Lemma hash_bin_spec buf :
  zlen buf >= SHA1_HASH_STR_SIZE ->
  hex2binary buf SHA1_HASH_STR_SIZE (replicate (Z.to_nat SHA1_HASH_SIZE) 0) = Some (hash_bin buf) /\
  length (hash_bin buf) = 20%nat.
Proof.
  intros Hb. unfold hash_bin, hex2binary. change SHA1_HASH_STR_SIZE with 40 in *.
  change (Z.to_nat ((40 + 1) / 2)) with 20%nat.
  destruct (hex2binary_total 20 0 buf (replicate (Z.to_nat SHA1_HASH_SIZE) 0))
    as (bin & Hbin & Hbl); [done|done|lia|done|].
  rewrite Hbin. split; [done|]. exact Hbl.
Qed.

(** The types of packets that list chunks, and where their hashes start. *)
Definition lists_chunks (ty : Z) : Prop :=
  ty = PACKET_TYPE_WHOHAS \/ ty = PACKET_TYPE_IHAVE \/ ty = PACKET_TYPE_GET.
Definition hash_start (ty : Z) : Z := if ty =? PACKET_TYPE_GET then 0 else 4.

Lemma hash_start_range ty : 0 <= hash_start ty <= 4.
Proof. unfold hash_start. destruct (ty =? PACKET_TYPE_GET); lia. Qed.

(** The lines a packet lists among [n] from [i]: a [WHOHAS] asks for unfetched ones. *)
Definition wanted (ty : Z) (l : ChunkLine) : Prop := ty = PACKET_TYPE_WHOHAS -> unfetched = state l.
#[export] Instance wanted_dec ty l : Decision (wanted ty l).
Proof. unfold wanted. apply _. Defined.
Definition listed (ty : Z) (c : ChunkList) (i n : Z) : list (list Z) :=
  (fun l => hash_bin (sha1_buf l)) <$> filter (wanted ty) (range (chunks c) i n).

Lemma range_cons {A} (l : list A) i n x :
  zget l i = Some x -> 0 < n -> range l i n = x :: range l (i + 1) (n - 1).
Proof.
  intros Hx Hn. pose proof (zget_Some_range _ _ _ Hx). unfold range, zget in *.
  rewrite decide_True in Hx by lia. rewrite (drop_S _ _ _ Hx).
  replace (Z.to_nat n) with (S (Z.to_nat (n - 1))) by lia.
  replace (Z.to_nat (i + 1)) with (S (Z.to_nat i)) by lia. done.
Qed.

Lemma listed_cons ty c i n x :
  zget (chunks c) i = Some x -> 0 < n ->
  listed ty c i n =
    (if decide (wanted ty x) then [hash_bin (sha1_buf x)] else []) ++ listed ty c (i + 1) (n - 1).
Proof.
  intros Hx Hn. unfold listed. rewrite (range_cons _ _ _ _ Hx Hn), filter_cons.
  by case_decide; rewrite ?fmap_cons.
Qed.

Lemma listed_length ty c i n : 0 <= n -> zlen (listed ty c i n) <= n.
Proof.
  intros Hn. unfold listed. rewrite length_fmap.
  pose proof (length_filter (wanted ty) (range (chunks c) i n)) as H.
  unfold range in *. rewrite length_take in H. lia.
Qed.

Lemma mjoin_hashes_length ty c i n :
  Forall (fun l => zlen (sha1_buf l) >= SHA1_HASH_STR_SIZE) (chunks c) ->
  zlen (mjoin (listed ty c i n)) = 20 * zlen (listed ty c i n).
Proof.
  intros Hc.
  assert (Forall (fun h => length h = 20%nat) (listed ty c i n)) as Hall.
  { assert (Forall (fun l => zlen (sha1_buf l) >= SHA1_HASH_STR_SIZE) (range (chunks c) i n)) as Hr
      by (by apply Forall_take, Forall_drop).
    rewrite Forall_forall in Hr. apply Forall_forall. unfold listed.
    intros h (l & -> & [_ Hl]%list_elem_of_filter)%list_elem_of_fmap. by apply hash_bin_spec, Hr. }
  induction Hall as [|h hs Hh _ IH]; [done|].
  change (mjoin (h :: hs)) with (h ++ mjoin hs). change (length (h :: hs)) with (S (length hs)).
  rewrite length_app. lia.
Qed.

(** ** Building the packet *)

(** [SET_HASH] writes the hash in its place. *)
Lemma SET_HASH_spec p n hash :
  zlen (payload p) = MAX_PAYLOAD_SIZE -> hdr_len p = HEADER_SIZE -> 0 <= n < HASH_NUM_PKT ->
  zlen hash >= SHA1_HASH_STR_SIZE ->
  exists b, SET_HASH p n hash = Some (p .{ payload := b }) /\
    zwrite (payload p) (hash_start (type p) + n * 20) (hash_bin hash) = Some b /\
    zlen b = MAX_PAYLOAD_SIZE.
Proof.
  intros Hpay Hh Hn Hhash. destruct (hash_bin_spec hash Hhash) as [E Hl]. unfold SET_HASH.
  rewrite E, option_bind_Some. change HASH_NUM_PKT with 74 in Hn.
  assert (EXT_HEADER_SIZE p + (if type p =? PACKET_TYPE_GET then 0 else 4) + n * SHA1_HASH_SIZE
    = hash_start (type p) + n * 20) as ->.
  { unfold EXT_HEADER_SIZE, hash_start. change SHA1_HASH_SIZE with 20. rewrite Hh. lia. }
  pose proof (hash_start_range (type p)) as Hs.
  change MAX_PAYLOAD_SIZE with 1484 in *.
  destruct (zwrite_is_Some (payload p) (hash_start (type p) + n * 20) (hash_bin hash))
    as [b Hb]; [lia|lia|].
  rewrite Hb, option_bind_Some. exists b. split_and!; [done..|].
  by rewrite (zwrite_length _ _ _ _ Hb).
Qed.

Lemma take_zwrite_snoc {A} (l : list A) (off : Z) pre s l' :
  zwrite l off s = Some l' -> 0 <= off -> take (Z.to_nat off) l = pre ->
  take (Z.to_nat (off + zlen s)) l' = pre ++ s.
Proof.
  intros Hw Ho Hp. pose proof (take_zwrite _ _ _ _ (length s) Hw (Nat.le_refl _)) as Ht.
  rewrite Hp, firstn_all in Ht. rewrite <- Ht. f_equal. lia.
Qed.

Section Specs.
Context `{Env}.

(** The loop over the chunks: the bytes before those already written stay, the
    hashes follow. *)
Lemma hash_loop_spec ty ci c n : forall j cnt pkt w (Q : Z * Z * packet_t -> World -> Prop),
  lists_chunks ty -> (ty = PACKET_TYPE_WHOHAS -> chunks (getchunks (psvr w)) = chunks c) ->
  Forall (fun l => zlen (sha1_buf l) >= SHA1_HASH_STR_SIZE) (chunks c) ->
  0 <= ci + j -> ci + j + Z.of_nat n <= zlen (chunks c) ->
  0 <= cnt -> cnt + Z.of_nat n <= HASH_NUM_PKT ->
  zlen (payload pkt) = MAX_PAYLOAD_SIZE -> hdr_len pkt = HEADER_SIZE -> type pkt = ty ->
  (forall b, zlen b = MAX_PAYLOAD_SIZE ->
     take (Z.to_nat (hash_start ty + 20 * (cnt + zlen (listed ty c (ci + j) (Z.of_nat n))))) b =
       take (Z.to_nat (hash_start ty + 20 * cnt)) (payload pkt) ++
       mjoin (listed ty c (ci + j) (Z.of_nat n)) ->
     Q (j + Z.of_nat n, cnt + zlen (listed ty c (ci + j) (Z.of_nat n)), pkt .{ payload := b }) w) ->
  wp (hash_loop n ty ci j cnt c pkt) Q w.
Proof.
  induction n as [|n IH]; intros j cnt pkt w Q Hty Hgc Hc Hj Hn Hcnt Hcn Hpay Hh Ht HQ;
    cbn [hash_loop].
  { wp_go. assert (listed ty c (ci + j) (Z.of_nat 0) = []) as E by done.
    rewrite E in HQ. change (Z.of_nat 0) with 0 in HQ. rewrite ?Z.add_0_r in HQ.
    change (zlen (@nil (list Z))) with 0 in HQ. rewrite ?Z.add_0_r in HQ.
    specialize (HQ (payload pkt) Hpay). rewrite app_nil_r in HQ.
    replace pkt with (pkt .{ payload := payload pkt }) by (by destruct pkt). by apply HQ. }
  destruct (zget_is_Some (chunks c) (ci + j)) as [x Hx]; [lia|].
  assert (zlen (sha1_buf x) >= SHA1_HASH_STR_SIZE) as Hxl.
  { rewrite Forall_lookup in Hc. unfold zget in Hx. case_decide; [|done]. eauto. }
  pose proof (listed_cons ty c (ci + j) (Z.of_nat (S n)) x Hx ltac:(lia)) as El.
  replace (Z.of_nat (S n) - 1) with (Z.of_nat n) in El by lia.
  replace (ci + j + 1) with (ci + (j + 1)) in El by lia. rewrite El in HQ.
  pose proof (hash_start_range ty) as Hhs.
  (* the two ways to go on *)
  assert (forall (Hw : wanted ty x), wp (pkt' <- lift (SET_HASH pkt cnt (sha1_buf x)) ;;
    hash_loop n ty ci (j + 1) (cnt + 1) c pkt') Q w) as Hset.
  { intros Hw. rewrite decide_True in HQ by done.
    destruct (SET_HASH_spec pkt cnt (sha1_buf x)) as (b & Eb & Hwr & Hbl); [done|done|lia|done|].
    wp_go. eapply wp_lift; [exact Eb|].
    apply IH; [done|done|done|lia|lia|lia|lia|done|done|done|].
    intros b' Hb' Htake. cbn [app length] in HQ.
    replace (j + 1 + Z.of_nat n) with (j + Z.of_nat (S n)) by lia.
    replace (cnt + 1 + zlen (listed ty c (ci + (j + 1)) (Z.of_nat n)))
      with (cnt + Z.of_nat (S (length (listed ty c (ci + (j + 1)) (Z.of_nat n))))) in * by lia.
    change ((pkt .{ payload := b }) .{ payload := b' }) with (pkt .{ payload := b' }).
    apply HQ; [done|]. rewrite Htake. change (payload (pkt .{ payload := b })) with b.
    rewrite Ht in Hwr. destruct (hash_bin_spec _ Hxl) as [_ Hl20].
    pose proof (take_zwrite_snoc _ _ _ _ _ Hwr ltac:(lia) eq_refl) as Hts.
    replace (hash_start ty + cnt * 20 + zlen (hash_bin (sha1_buf x)))
      with (hash_start ty + 20 * (cnt + 1)) in Hts by lia.
    rewrite Hts. replace (hash_start ty + cnt * 20) with (hash_start ty + 20 * cnt) by lia.
    by rewrite <- app_assoc. }
  assert (forall (Hw : ~ wanted ty x), wp (hash_loop n ty ci (j + 1) cnt c pkt) Q w) as Hskip.
  { intros Hw. rewrite decide_False in HQ by done. cbn [app] in HQ.
    apply IH; [done|done|done|lia|lia|lia|lia|done|done|done|].
    intros b Hb Htake. replace (j + 1 + Z.of_nat n) with (j + Z.of_nat (S n)) by lia. by apply HQ. }
  destruct (Z.eqb_spec PACKET_TYPE_WHOHAS ty) as [Ew|Nw].
  - wp_go. rewrite (Hgc (eq_sym Ew)). eapply wp_lift; [exact Hx|].
    destruct (decide (unfetched = state x)) as [Hd|Hd].
    + wp_go. eapply wp_lift; [exact Hx|]. apply Hset. by intros _.
    + apply Hskip. intros Hw. apply Hd, Hw. done.
  - assert (wanted ty x) as Hw by (by intros ->).
    assert ((PACKET_TYPE_IHAVE =? ty) || (PACKET_TYPE_GET =? ty) = true) as ->.
    { by destruct Hty as [->|[->| ->]]. }
    wp_go. eapply wp_lift; [exact Hx|]. by apply Hset.
Qed.

(** A packet of hashes, without its header: the count and three bytes of whatever the
    buffer held, unless it is a [GET], and the hashes. *)
Definition hash_body (ty : Z) (junk : list Z) (hs : list (list Z)) : list Z :=
  (if ty =? PACKET_TYPE_GET then [] else u8 (zlen hs) :: junk) ++ mjoin hs.
Definition hash_datagram (ty : Z) (hs : list (list Z)) (dg : list Z) : Prop :=
  exists junk, length junk = 3%nat /\ dg = datagram ty 0 0 (hash_body ty junk hs).

Lemma hash_body_length ty junk hs :
  length junk = 3%nat -> zlen (hash_body ty junk hs) = hash_start ty + zlen (mjoin hs).
Proof.
  intros Hj. unfold hash_body, hash_start. rewrite length_app.
  destruct (ty =? PACKET_TYPE_GET); cbn [length]; lia.
Qed.

(** Storing the count over the first byte. *)
Lemma take_count (b pay : list Z) (hs : list Z) x k :
  zlen b = MAX_PAYLOAD_SIZE -> zlen pay = MAX_PAYLOAD_SIZE ->
  take (4 + k) b = take 4 pay ++ hs -> length hs = k ->
  exists b', zset b 0 x = Some b' /\ zlen b' = MAX_PAYLOAD_SIZE /\
    take (4 + k) b' = x :: drop 1 (take 4 pay) ++ hs.
Proof.
  intros Hb Hp Htake Hk. change MAX_PAYLOAD_SIZE with 1484 in *.
  destruct (zset_is_Some b 0 x) as [b' Eb]; [lia|]. exists b'. split; [done|].
  split; [by rewrite (zset_length _ _ _ _ Eb)|].
  unfold zset in Eb. rewrite decide_True in Eb by lia. injection Eb as <-.
  destruct b as [|b0 b]; [simpl in Hb; lia|]. destruct pay as [|p0 pay]; [simpl in Hp; lia|].
  change (take (4 + k) (b0 :: b)) with (b0 :: take (3 + k) b) in Htake.
  change (take 4 (p0 :: pay)) with (p0 :: take 3 pay) in *.
  injection Htake as _ Ht. exact (f_equal (cons x) Ht).
Qed.

(** The packet numbered [i] of a list: its hashes are those of the next 74 lines. *)
Lemma fill_hashes_spec pp c c_count i j pkt w (Q : option (Z * packet_t) -> World -> Prop) :
  let ty := pp_type pp in
  let n := C_MIN c_count (HASH_NUM_PKT * (i + 1)) - j in
  pp_c pp = Some c -> lists_chunks ty ->
  (ty = PACKET_TYPE_WHOHAS -> chunks (getchunks (psvr w)) = chunks c) ->
  Forall (fun l => zlen (sha1_buf l) >= SHA1_HASH_STR_SIZE) (chunks c) ->
  0 <= pp_c_index pp -> 0 <= j -> 0 <= n <= HASH_NUM_PKT -> pp_c_index pp + j + n <= zlen (chunks c) ->
  zlen (payload pkt) = MAX_PAYLOAD_SIZE ->
  (forall p dg, hash_datagram ty (listed ty c (pp_c_index pp + j) n) dg -> ENCODE_PKT p = Some dg ->
     zlen (payload p) = MAX_PAYLOAD_SIZE -> Q (Some (j + n, p)) w) ->
  wp (fill_packet pp c_count i j (set_header ty (pp_seq pp) (pp_ack pp) pkt)) Q w.
Proof.
  intros ty n Hpc Hty Hgc Hc Hci Hj Hn Hfit Hpay HQ. unfold fill_packet. fold ty n. rewrite Hpc.
  assert (nondata ty = true) as -> by (by destruct Hty as [->|[->| ->]]).
  assert (own_packet ty HEADER_SIZE 0 0 (set_header ty (pp_seq pp) (pp_ack pp) pkt)) as [Eo Hpo].
  { pose proof (set_header_own ty (pp_seq pp) (pp_ack pp) pkt Hpay) as Ho.
    by destruct Hty as [->|[->| ->]]. }
  assert (payload (set_header ty (pp_seq pp) (pp_ack pp) pkt) = payload pkt) as Ep
    by (by destruct Hty as [->|[->| ->]]).
  rewrite Eo, Ep. set (p0 := if PACKET_TYPE_GET =? ty then _ else _).
  assert (p0 = (mk_header ty (HEADER_SIZE + hash_start ty) 0 0) .{ payload := payload pkt }) as Ep0.
  { unfold p0, hash_start. by destruct Hty as [->|[->| ->]]. }
  rewrite Ep0. clear p0 Ep0. wp_go.
  apply hash_loop_spec; [exact Hty|exact Hgc|exact Hc|lia|lia|lia|lia|exact Hpay|reflexivity|reflexivity|].
  rewrite Z2Nat.id by lia. set (hs := listed ty c (pp_c_index pp + j) n) in *.
  rewrite Z.add_0_l. intros b Hb Htake. wp_go.
  pose proof (listed_length ty c (pp_c_index pp + j) n ltac:(lia)) as Hcnt. fold hs in Hcnt.
  pose proof (mjoin_hashes_length ty c (pp_c_index pp + j) n Hc) as Hjl. fold hs in Hjl.
  change HASH_NUM_PKT with 74 in *. pose proof (hash_start_range ty) as Hs.
  change (payload (_ .{ payload := payload pkt })) with (payload pkt) in Htake.
  rewrite Z.mul_0_r, Z.add_0_r in Htake.
  set (p1 := (_ .{ payload := b }) .{ pkt_len := _ }).
  assert (p1 = (mk_header ty (HEADER_SIZE + (hash_start ty + zlen (mjoin hs))) 0 0) .{ payload := b }) as E1.
  { unfold p1. change (pkt_len (_ .{ payload := b })) with (HEADER_SIZE + hash_start ty).
    change SHA1_HASH_SIZE with 20. change HEADER_SIZE with 16. rewrite u16_small by lia.
    rewrite Hjl, <- Z.add_assoc. reflexivity. }
  rewrite E1. clear p1 E1.
  assert (forall junk b', length junk = 3%nat -> zlen b' = MAX_PAYLOAD_SIZE ->
    take (length (hash_body ty junk hs)) b' = hash_body ty junk hs ->
    Q (Some (j + n, (mk_header ty (HEADER_SIZE + (hash_start ty + zlen (mjoin hs))) 0 0)
                      .{ payload := b' })) w) as Hfin.
  { intros junk b' Hjunk Hb' Ht'. pose proof (hash_body_length ty junk hs Hjunk) as Hbl.
    apply (HQ _ (datagram ty 0 0 (hash_body ty junk hs))); [by exists junk| |done].
    apply ENCODE_own; [by destruct Hty as [->|[->| ->]]|done|done| | |done].
    - rewrite Hbl. change MAX_PAYLOAD_SIZE with 1484. lia.
    - rewrite Hbl. by split. }
  destruct (Z.eqb_spec PACKET_TYPE_GET ty) as [Eg|Ng]; cbn [negb].
  - wp_go. apply (Hfin [0; 0; 0]); [done|done|].
    unfold hash_body. rewrite <- Eg. change (PACKET_TYPE_GET =? PACKET_TYPE_GET) with true.
    cbn [app]. replace (hash_start ty) with 0 in Htake by (by rewrite <- Eg).
    cbn [Z.to_nat take app] in Htake. rewrite <- Htake at 2. f_equal. lia.
  - assert (hash_start ty = 4) as E4.
    { unfold hash_start. destruct (Z.eqb_spec ty PACKET_TYPE_GET); congruence. }
    rewrite E4 in *. change (Z.to_nat 4) with 4%nat in Htake.
    destruct (take_count b (payload pkt) (mjoin hs) (u8 (zlen hs)) (length (mjoin hs)))
      as (b' & Eb' & Hb' & Ht'); [done|done| |done|].
    { rewrite <- Htake. f_equal. lia. }
    wp_go. unfold SET_CHUNK_CNT. eapply wp_lift.
    { change (0 + EXT_HEADER_SIZE _) with 0. change (payload (_ .{ payload := b })) with b.
      rewrite Eb', option_bind_Some. reflexivity. }
    wp_go. apply (Hfin (drop 1 (take 4 (payload pkt)))); [|done|].
    + rewrite length_drop, length_take. change MAX_PAYLOAD_SIZE with 1484 in Hpay. lia.
    + rewrite <- (Nat2Z.id (length _)), hash_body_length, E4.
      2: { rewrite length_drop, length_take. change MAX_PAYLOAD_SIZE with 1484 in Hpay. lia. }
      unfold hash_body. destruct (Z.eqb_spec ty PACKET_TYPE_GET); [congruence|].
      etransitivity; [|exact Ht']. f_equal. lia.
Qed.

(** The hashes of the [k]-th packet for [cnt] lines from [ci]. *)
Definition page (ty : Z) (c : ChunkList) (ci cnt k : Z) : list (list Z) :=
  listed ty c (ci + C_MIN cnt (HASH_NUM_PKT * k))
    (C_MIN cnt (HASH_NUM_PKT * (k + 1)) - C_MIN cnt (HASH_NUM_PKT * k)).

(** The number of packets the code takes for [cnt] hashes. *)
Definition pkt_num (cnt : Z) : Z :=
  Z.quot (cnt * SHA1_HASH_SIZE + MAX_PAYLOAD_SIZE - 1) MAX_PAYLOAD_SIZE.

Definition pages_sent (pp : pkt_param_t) (c : ChunkList) (cnt : Z) (ks : list Z) (dgs : list (list Z)) : Prop :=
  Forall2 (fun k dg => hash_datagram (pp_type pp) (page (pp_type pp) c (pp_c_index pp) cnt k) dg) ks dgs.

(** Each datagram goes to all the targets before the next is built. *)
Definition sends_all (sk : Z) (ps : list Peer) (dgs : list (list Z)) : list event :=
  mjoin (sends sk ps <$> dgs).

Section Loop.
Context (pp : pkt_param_t) (c : ChunkList) (p_count cnt : Z).
Let ty := pp_type pp.
Context (Hpc : pp_c pp = Some c) (Hty : lists_chunks ty).
Context (Hc : Forall (fun l => zlen (sha1_buf l) >= SHA1_HASH_STR_SIZE) (chunks c)).
Context (Hci : 0 <= pp_c_index pp) (Hcnt : 0 <= cnt) (Hfit : pp_c_index pp + cnt <= zlen (chunks c)).
Context (Hpi : 0 <= pp_p_index pp) (Hpn : 0 <= p_count).

Lemma send_hashes_loop n : forall i pkt w (Q : unit -> World -> Prop),
  (ty = PACKET_TYPE_WHOHAS -> chunks (getchunks (psvr w)) = chunks c) ->
  pp_p_index pp + p_count <= zlen (peers (peerlist (psvr w))) ->
  0 <= i -> zlen (payload pkt) = MAX_PAYLOAD_SIZE ->
  (forall dgs w', pages_sent pp c cnt (seqZ i (Z.of_nat n)) dgs ->
     emitted (sends_all (pp_socket pp) (range (peers (peerlist (psvr w))) (pp_p_index pp) p_count) dgs) w w' ->
     Q tt w') ->
  wp (send_packet_loop n pp p_count cnt i (C_MIN cnt (HASH_NUM_PKT * i)) pkt) Q w.
Proof.
  induction n as [|n IH]; intros i pkt w Q Hgc Hps Hi Hpay HQ; cbn [send_packet_loop].
  { wp_go. apply (HQ []); [constructor|apply emitted_refl]. }
  apply wp_bind. fold ty. rewrite !C_MIN_min. change HASH_NUM_PKT with 74 in *.
  apply (fill_hashes_spec pp c cnt i (Z.min cnt (74 * i)) pkt);
    [done|done|done|done|done|lia|rewrite C_MIN_min; change HASH_NUM_PKT with 74; lia
    |rewrite C_MIN_min; change HASH_NUM_PKT with 74; lia|done|].
  intros p dg Hdg Henc Hp. wp_go. eapply wp_lift; [exact Henc|]. wp_go.
  apply send_udp_spec; [done|done|done|]. intros w1 Hem1. wp_go.
  replace (Z.min cnt (74 * i) + (C_MIN cnt (HASH_NUM_PKT * (i + 1)) - Z.min cnt (74 * i)))
    with (C_MIN cnt (HASH_NUM_PKT * (i + 1))) by lia.
  apply IH; [by rewrite (proj1 Hem1)|by rewrite (proj1 Hem1)|lia|exact Hp|].
  intros dgs w2 Hpages Hem2. rewrite (proj1 Hem1) in Hem2. apply (HQ (dg :: dgs)).
  - rewrite seqZ_cons by lia. constructor; [|by replace (Z.pred (Z.of_nat (S n))) with (Z.of_nat n) by lia].
    unfold page. rewrite <- C_MIN_min in Hdg. exact Hdg.
  - eapply emitted_trans; [exact Hem1|exact Hem2].
Qed.
End Loop.

(** [send_packet] of a list of chunks: [pkt_num] packets, to every target. *)
Lemma send_hashes_spec pp c w (Q : unit -> World -> Prop) :
  let cnt := if pp_c_count pp <? 0 then cl_count c else pp_c_count pp in
  let p_count := if pp_p_count pp <? 0 then pl_count (peerlist (psvr w)) else pp_p_count pp in
  pp_c pp = Some c -> lists_chunks (pp_type pp) ->
  (pp_type pp = PACKET_TYPE_WHOHAS -> chunks (getchunks (psvr w)) = chunks c) ->
  Forall (fun l => zlen (sha1_buf l) >= SHA1_HASH_STR_SIZE) (chunks c) ->
  0 <= pp_c_index pp -> 0 <= cnt -> pp_c_index pp + cnt <= zlen (chunks c) ->
  0 <= pp_p_index pp -> 0 <= p_count -> pp_p_index pp + p_count <= zlen (peers (peerlist (psvr w))) ->
  (forall dgs w', pages_sent pp c cnt (seqZ 0 (pkt_num cnt)) dgs ->
     emitted (sends_all (pp_socket pp) (range (peers (peerlist (psvr w))) (pp_p_index pp) p_count) dgs) w w' ->
     Q tt w') ->
  wp (send_packet pp) Q w.
Proof.
  intros cnt p_count Hpc Hty Hgc Hc Hci Hcnt Hfit Hpi Hpn Hps HQ. unfold send_packet. wp_go.
  fold p_count. rewrite Hpc, option_bind_Some.
  apply (wp_lift _ cnt); [unfold cnt; by destruct (pp_c_count pp <? 0)|].
  destruct (Z.ltb_spec (pp_p_index pp) 0); [lia|]. destruct (Z.ltb_spec (pp_c_index pp) 0); [lia|].
  cbn [orb]. assert (nondata (pp_type pp) = true) as -> by (by destruct Hty as [->|[->| ->]]).
  fold (pkt_num cnt). wp_go. apply (stack_packet_spec (fun _ => False)).
  intros pkt w1 Hraw Hem1%emits_none.
  assert (0 <= pkt_num cnt) as Hnum.
  { unfold pkt_num. change SHA1_HASH_SIZE with 20. change MAX_PAYLOAD_SIZE with 1484.
    rewrite Z.quot_div_nonneg by lia. apply Z.div_pos; lia. }
  replace 0 with (C_MIN cnt (HASH_NUM_PKT * 0)) at 2 by (rewrite C_MIN_min; lia).
  apply (send_hashes_loop pp c p_count cnt); try done.
  - by rewrite (proj1 Hem1).
  - by rewrite (proj1 Hem1).
  - by apply raw_packet_payload.
  - intros dgs w2 Hpages Hem2. rewrite Z2Nat.id in Hpages by done. rewrite (proj1 Hem1) in Hem2.
    eapply HQ; [done|]. by eapply (emitted_trans [] _ _ w1).
Qed.
End Specs.

(** ** How much of a list is sent *)

Lemma range_app {A} (l : list A) i n m :
  0 <= i -> 0 <= n -> 0 <= m -> range l i (n + m) = range l i n ++ range l (i + n) m.
Proof.
  intros Hi Hn Hm. unfold range.
  replace (Z.to_nat (n + m)) with (Z.to_nat n + Z.to_nat m)%nat by lia.
  replace (Z.to_nat (i + n)) with (Z.to_nat i + Z.to_nat n)%nat by lia.
  rewrite <- drop_drop.
  generalize (drop (Z.to_nat i) l). intros k.
  rewrite <- (take_drop (Z.to_nat n) k) at 1.
  destruct (decide (Z.to_nat n <= length k)%nat).
  - rewrite take_app_ge by (rewrite length_take; lia). f_equal.
    rewrite length_take. f_equal. lia.
  - rewrite (drop_ge k) by lia. rewrite app_nil_r, take_nil, app_nil_r.
    rewrite !take_ge; [done|lia..|rewrite take_ge; lia].
Qed.

Lemma listed_app ty c i n m :
  0 <= i -> 0 <= n -> 0 <= m -> listed ty c i (n + m) = listed ty c i n ++ listed ty c (i + n) m.
Proof. intros. unfold listed. by rewrite range_app, filter_app, fmap_app by done. Qed.

Lemma pages_join ty c ci cnt (n : nat) :
  0 <= ci -> 0 <= cnt ->
  mjoin (page ty c ci cnt <$> seqZ 0 (Z.of_nat n)) =
    listed ty c ci (Z.min cnt (HASH_NUM_PKT * Z.of_nat n)).
Proof.
  intros Hci Hcnt. change HASH_NUM_PKT with 74. induction n as [|n IH].
  { change (Z.of_nat 0) with 0. by rewrite Z.mul_0_r, Z.min_r by lia. }
  replace (Z.of_nat (S n)) with (Z.of_nat n + 1) by lia.
  rewrite seqZ_app, fmap_app, join_app, IH by lia. cbn [fmap list_fmap seqZ].
  assert (seqZ (0 + Z.of_nat n) 1 = [Z.of_nat n]) as -> by (by rewrite seqZ_cons by lia).
  cbn [fmap list_fmap mjoin list_join]. rewrite app_nil_r. unfold page.
  rewrite !C_MIN_min. change HASH_NUM_PKT with 74.
  rewrite <- listed_app by lia. f_equal. lia.
Qed.

Lemma pkt_num_enough cnt : 0 <= cnt <= 370 -> cnt <= HASH_NUM_PKT * pkt_num cnt.
Proof.
  intros H. unfold pkt_num. change HASH_NUM_PKT with 74. change SHA1_HASH_SIZE with 20.
  change MAX_PAYLOAD_SIZE with 1484. rewrite Z.quot_div_nonneg by lia.
  Z.div_mod_to_equations. lia.
Qed.

(** ** What a receiver reads *)

(** A packet of hashes as it arrives. *)
Definition hash_packet (ty : Z) (junk : list Z) (hs : list (list Z)) (rest : list Z) : packet_t :=
  (mk_header ty (HEADER_SIZE + zlen (hash_body ty junk hs)) 0 0)
    .{ payload := hash_body ty junk hs ++ rest }.

Lemma take_mjoin (hs : list (list Z)) (i : nat) h r :
  Forall (fun h => length h = 20%nat) hs -> hs !! i = Some h ->
  take 20 (drop (20 * i) (mjoin hs ++ r)) = h.
Proof.
  intros Hall. revert i. induction Hall as [|x hs Hx _ IH]; intros i Hi; [done|].
  change (mjoin (x :: hs)) with (x ++ mjoin hs). rewrite <- app_assoc.
  destruct i as [|i].
  - injection Hi as ->. rewrite Nat.mul_0_r, drop_0, take_app_le by lia. by rewrite take_ge by lia.
  - rewrite drop_app_ge by lia. replace (20 * S i - length x)%nat with (20 * i)%nat by lia. by apply IH.
Qed.

Lemma mjoin_length (hs : list (list Z)) :
  Forall (fun h => length h = 20%nat) hs -> zlen (mjoin hs) = 20 * zlen hs.
Proof.
  induction 1 as [|h hs Hh _ IH]; [done|].
  change (mjoin (h :: hs)) with (h ++ mjoin hs). change (length (h :: hs)) with (S (length hs)).
  rewrite length_app. lia.
Qed.

Section Receiver.
Context (ty : Z) (junk : list Z) (hs : list (list Z)) (rest : list Z).
Context (Hty : lists_chunks ty) (Hjunk : length junk = 3%nat).
Context (Hhs : Forall (fun h => length h = 20%nat) hs) (Hcnt : 1 <= zlen hs <= HASH_NUM_PKT).
Context (Hrest : zlen (hash_body ty junk hs ++ rest) = MAX_PAYLOAD_SIZE).
Let pkt := hash_packet ty junk hs rest.

Lemma hash_packet_len : GET_DATA_LEN pkt = hash_start ty + 20 * zlen hs.
Proof.
  change (GET_DATA_LEN pkt) with (HEADER_SIZE + zlen (hash_body ty junk hs) - HEADER_SIZE).
  rewrite hash_body_length, mjoin_length by done. lia.
Qed.

Lemma hash_packet_offset : DATA_OFFSET pkt = 0.
Proof.
  unfold DATA_OFFSET, MAX_OFFSET. change (EXT_HEADER_SIZE pkt) with 0.
  rewrite C_MIN_min, C_MAX_max. lia.
Qed.

Lemma hash_packet_cnt : ty <> PACKET_TYPE_GET -> GET_CHUNK_CNT pkt = Some (zlen hs).
Proof.
  intros Hng. unfold GET_CHUNK_CNT. rewrite hash_packet_offset.
  change (payload pkt) with (hash_body ty junk hs ++ rest). unfold hash_body.
  destruct (Z.eqb_spec ty PACKET_TYPE_GET); [done|]. unfold zget. rewrite decide_True by lia.
  change HASH_NUM_PKT with 74 in Hcnt. rewrite u8_small by lia. done.
Qed.

Lemma hash_packet_valid : packet_valid pkt.
Proof.
  pose proof hash_packet_len as Hl. pose proof (hash_start_range ty) as Hs.
  change HASH_NUM_PKT with 74 in *.
  assert (GET_DATA_LEN pkt = pkt_len pkt - 16) as Hg by reflexivity.
  assert (hash_start ty + 20 * zlen hs <= 1484) as Hmax by lia.
  split; [split; [|exact Hrest]|].
  { apply (mk_header_wf ty); [by destruct Hty as [->|[->| ->]]| |done|done].
    change (0 <= pkt_len pkt < 2 ^ 16). lia. }
  split; [done|]. split; [done|]. change (hdr_len pkt) with 16. change HEADER_SIZE with 16.
  change PACKET_SIZE with 1500. change SHA1_HASH_SIZE with 20. change (type pkt) with ty.
  split_and!; [lia|lia|lia| |lia].
  intros Hw. assert (ty <> PACKET_TYPE_GET) as Hng by (by destruct Hw as [->| ->]).
  exists (zlen hs). split; [by apply hash_packet_cnt|].
  assert (hash_start ty = 4) as E4.
  { unfold hash_start. by destruct (Z.eqb_spec ty PACKET_TYPE_GET). }
  lia.
Qed.

Lemma hash_packet_hash (i : nat) h hexbuf :
  hs !! i = Some h -> zlen hexbuf >= SHA1_BUF_SIZE ->
  GET_HASH pkt (Z.of_nat i) hexbuf = Some (hexstring h ++ 0 :: drop 41 hexbuf).
Proof.
  intros Hi Hbuf. pose proof (lookup_lt_Some _ _ _ Hi) as Hlt. pose proof hash_packet_len as Hl.
  assert (HASH_OFFSET pkt (Z.of_nat i) = hash_start ty + 20 * Z.of_nat i) as Ho.
  { unfold HASH_OFFSET, MAX_OFFSET. rewrite Hl. change (EXT_HEADER_SIZE pkt) with 0.
    change (type pkt) with ty. fold (hash_start ty). change SHA1_HASH_SIZE with 20.
    rewrite C_MIN_min, C_MAX_max. lia. }
  assert (zread (payload pkt) (HASH_OFFSET pkt (Z.of_nat i)) SHA1_HASH_SIZE = Some h) as Hr.
  { rewrite Ho. change (payload pkt) with (hash_body ty junk hs ++ rest).
    change SHA1_HASH_SIZE with 20. pose proof (hash_start_range ty).
    pose proof (hash_body_length ty junk hs Hjunk) as Hbl. rewrite mjoin_length in Hbl by done.
    unfold zread. rewrite decide_True by (rewrite length_app; lia). f_equal.
    rewrite <- (take_mjoin hs i h rest Hhs Hi). change (Z.to_nat 20) with 20%nat. f_equal.
    unfold hash_body, hash_start. destruct (ty =? PACKET_TYPE_GET).
    - cbn [app]. f_equal. lia.
    - rewrite <- app_assoc, (drop_app_ge (u8 _ :: junk)) by (cbn [length]; lia).
      cbn [length]. f_equal. lia. }
  unfold GET_HASH. rewrite Hr, option_bind_Some.
  assert (length h = 20%nat) as Hh by (by eapply Forall_lookup_1 in Hi; [|exact Hhs]).
  pose proof (binary2hex_spec h hexbuf) as Hhex. rewrite Hh in Hhex.
  change SHA1_BUF_SIZE with 41 in Hbuf. apply Hhex. lia.
Qed.
End Receiver.

(** ** Properties *)

(** C25: a list of up to 370 chunks is announced completely: [send_packet] sends to
    every target packets of at most 74 hashes which together list exactly the wanted
    lines in order (all of them, or for [WHOHAS] the unfetched ones); a longer list is
    cut after 74 hashes for each packet counted. *)
Theorem send_packet_lists_chunks `{Env} (pp : pkt_param_t) (c : ChunkList) (cnt : Z) (w : World) :
  pp_c pp = Some c -> lists_chunks (pp_type pp) -> 0 <= pp_c_count pp -> cnt = pp_c_count pp ->
  (pp_type pp = PACKET_TYPE_WHOHAS -> chunks (getchunks (psvr w)) = chunks c) -> list_wf c ->
  0 <= pp_c_index pp -> pp_c_index pp + cnt <= MAX_CHUNK_NUM ->
  0 <= pp_p_index pp -> 0 <= pp_p_count pp ->
  pp_p_index pp + pp_p_count pp <= zlen (peers (peerlist (psvr w))) ->
  exists w' hss dgs, send_packet pp w = Some (tt, w') /\
    emitted (sends_all (pp_socket pp)
      (range (peers (peerlist (psvr w))) (pp_p_index pp) (pp_p_count pp)) dgs) w w' /\
    Forall2 (hash_datagram (pp_type pp)) hss dgs /\ Forall (fun hs => zlen hs <= HASH_NUM_PKT) hss /\
    mjoin hss = listed (pp_type pp) c (pp_c_index pp) (Z.min cnt (HASH_NUM_PKT * pkt_num cnt)) /\
    (cnt <= 370 -> mjoin hss = listed (pp_type pp) c (pp_c_index pp) cnt).
Proof.
  intros Hpc Hty Hcc -> Hgc (Hlen & _ & Hwf) Hci Hfit Hpi Hpn Hps.
  assert (Forall (fun l => zlen (sha1_buf l) >= SHA1_HASH_STR_SIZE) (chunks c)) as Hc.
  { eapply Forall_impl; [exact Hwf|]. intros l [-> _]. done. }
  set (cnt := pp_c_count pp) in *.
  assert (wp (send_packet pp) (fun _ w' => exists dgs, pages_sent pp c cnt (seqZ 0 (pkt_num cnt)) dgs /\
    emitted (sends_all (pp_socket pp)
      (range (peers (peerlist (psvr w))) (pp_p_index pp) (pp_p_count pp)) dgs) w w') w)
    as ([] & w' & Hrun & dgs & Hpages & Hem).
  { pose proof (send_hashes_spec pp c w) as Hspec. fold cnt in Hspec. cbv zeta in Hspec.
    destruct (Z.ltb_spec cnt 0); [lia|]. destruct (Z.ltb_spec (pp_p_count pp) 0); [lia|].
    apply Hspec; try done; [lia|]. eauto. }
  assert (pkt_num cnt = Z.of_nat (Z.to_nat (pkt_num cnt))) as En.
  { rewrite Z2Nat.id; [done|]. unfold pkt_num. change SHA1_HASH_SIZE with 20.
    change MAX_PAYLOAD_SIZE with 1484. rewrite Z.quot_div_nonneg by lia. apply Z.div_pos; lia. }
  assert (mjoin (page (pp_type pp) c (pp_c_index pp) cnt <$> seqZ 0 (pkt_num cnt)) =
    listed (pp_type pp) c (pp_c_index pp) (Z.min cnt (HASH_NUM_PKT * pkt_num cnt))) as Ej.
  { rewrite En. by apply pages_join. }
  exists w', (page (pp_type pp) c (pp_c_index pp) cnt <$> seqZ 0 (pkt_num cnt)), dgs.
  split_and!; [done|done| | |done|].
  - apply Forall2_fmap_l. exact Hpages.
  - apply Forall_fmap, Forall_true. intros k. unfold page. cbn [compose]. change HASH_NUM_PKT with 74.
    rewrite !C_MIN_min.
    pose proof (listed_length (pp_type pp) c (pp_c_index pp + Z.min cnt (74 * k))
      (Z.min cnt (74 * (k + 1)) - Z.min cnt (74 * k)) ltac:(lia)). lia.
  - intros H370. rewrite Ej. f_equal. pose proof (pkt_num_enough cnt). lia.
Qed.

Lemma zero_list_wf : list_wf zero_list.
Proof.
  split; [by vm_compute|]. split; [done|]. apply Forall_replicate. split; [by vm_compute|]. left.
Qed.
Lemma zero_list_ok : list_ok zero_list.
Proof. split; [exact zero_list_wf|]. apply Forall_replicate. split; done. Qed.

(** The parameters of an [IHAVE] of [n] chunks to the only peer of the sample server. *)
Definition sample_ihave (n : Z) : pkt_param_t :=
  PKT_PARAM_CLEAR .{ pp_c := Some zero_list } .{ pp_c_count := n } .{ pp_p_count := 1 }
    .{ pp_type := PACKET_TYPE_IHAVE }.

Lemma send_packet_lists_chunks_witness :
  exists w' hss, @send_packet sample_env (sample_ihave 100) sample_world = Some (tt, w') /\
    mjoin hss = listed PACKET_TYPE_IHAVE zero_list 0 100.
Proof.
  destruct (@send_packet_lists_chunks sample_env (sample_ihave 100) zero_list 100 sample_world)
    as (w' & hss & dgs & Hrun & _ & _ & _ & _ & Hall).
  - reflexivity.
  - right. left. reflexivity.
  - done.
  - reflexivity.
  - discriminate.
  - exact zero_list_wf.
  - done.
  - done.
  - done.
  - done.
  - done.
  - exists w', hss. split; [exact Hrun|]. apply Hall. done.
Defined.

(** Of 371 chunks the last is never announced: five packets are sent, which hold
    370 hashes, although a sixth is needed. *)
Theorem last_of_371_not_announced `{Env} (pp : pkt_param_t) (c : ChunkList) (w : World) :
  pp_c pp = Some c -> lists_chunks (pp_type pp) -> pp_c_count pp = 371 ->
  (pp_type pp = PACKET_TYPE_WHOHAS -> chunks (getchunks (psvr w)) = chunks c) -> list_wf c ->
  pp_c_index pp = 0 -> 0 <= pp_p_index pp -> 0 <= pp_p_count pp ->
  pp_p_index pp + pp_p_count pp <= zlen (peers (peerlist (psvr w))) ->
  exists w' hss dgs, send_packet pp w = Some (tt, w') /\ length dgs = 5%nat /\
    emitted (sends_all (pp_socket pp)
      (range (peers (peerlist (psvr w))) (pp_p_index pp) (pp_p_count pp)) dgs) w w' /\
    Forall2 (hash_datagram (pp_type pp)) hss dgs /\ mjoin hss = listed (pp_type pp) c 0 370.
Proof.
  intros Hpc Hty Hcc Hgc (Hlen & _ & Hwf) Hci Hpi Hpn Hps.
  assert (Forall (fun l => zlen (sha1_buf l) >= SHA1_HASH_STR_SIZE) (chunks c)) as Hc.
  { eapply Forall_impl; [exact Hwf|]. intros l [-> _]. done. }
  change MAX_CHUNK_NUM with 4096 in Hlen.
  assert (wp (send_packet pp) (fun _ w' => exists dgs, pages_sent pp c 371 (seqZ 0 5) dgs /\
    emitted (sends_all (pp_socket pp)
      (range (peers (peerlist (psvr w))) (pp_p_index pp) (pp_p_count pp)) dgs) w w') w)
    as ([] & w' & Hrun & dgs & Hpages & Hem).
  { pose proof (send_hashes_spec pp c w) as Hspec. rewrite Hcc in Hspec. cbv zeta in Hspec.
    destruct (Z.ltb_spec 371 0); [lia|]. destruct (Z.ltb_spec (pp_p_count pp) 0); [lia|].
    apply Hspec; try done; [lia|lia|]. eauto. }
  exists w', (page (pp_type pp) c 0 371 <$> seqZ 0 5), dgs. unfold pages_sent in Hpages. rewrite Hci in Hpages.
  split_and!; [done| |done|by apply Forall2_fmap_l|].
  - rewrite <- (Forall2_length _ _ _ Hpages). apply length_seqZ.
  - change 5 with (Z.of_nat 5). by rewrite pages_join by done.
Qed.

Lemma last_of_371_not_announced_witness :
  exists w' hss, @send_packet sample_env (sample_ihave 371) sample_world = Some (tt, w') /\
    mjoin hss = listed PACKET_TYPE_IHAVE zero_list 0 370.
Proof.
  destruct (@last_of_371_not_announced sample_env (sample_ihave 371) zero_list sample_world)
    as (w' & hss & dgs & Hrun & _ & _ & _ & Hall).
  - reflexivity.
  - right. left. reflexivity.
  - reflexivity.
  - discriminate.
  - exact zero_list_wf.
  - reflexivity.
  - done.
  - done.
  - done.
  - exists w', hss. split; [exact Hrun|exact Hall].
Defined.

(** C29: what one peer announces the other reads: a packet of 1 to 74 hashes
    decoded from its datagram is valid, has that count, and [GET_HASH] gives
    the text of each hash in its place. *)
Theorem hashes_roundtrip (ty : Z) (hs : list (list Z)) (dg rest : list Z) (stale : packet_t) :
  lists_chunks ty -> 1 <= zlen hs <= HASH_NUM_PKT ->
  Forall (fun h => length h = 20%nat) hs -> hash_datagram ty hs dg ->
  zlen (payload stale) = MAX_PAYLOAD_SIZE ->
  exists pkt, DECODE_PKT (dg ++ rest) stale (zlen dg) = Some pkt /\ valid_packet pkt = Some true /\
    type pkt = ty /\ (ty <> PACKET_TYPE_GET -> GET_CHUNK_CNT pkt = Some (zlen hs)) /\
    forall (i : nat) h hexbuf, hs !! i = Some h -> zlen hexbuf >= SHA1_BUF_SIZE ->
      GET_HASH pkt (Z.of_nat i) hexbuf = Some (hexstring h ++ 0 :: drop 41 hexbuf).
Proof.
  intros Hty Hcnt Hhs (junk & Hjunk & ->) Hst.
  pose proof (hash_body_length ty junk hs Hjunk) as Hbl. rewrite mjoin_length in Hbl by done.
  pose proof (hash_start_range ty). change HASH_NUM_PKT with 74 in Hcnt.
  set (r := drop (length (hash_body ty junk hs)) (payload stale)).
  assert (zlen (hash_body ty junk hs ++ r) = MAX_PAYLOAD_SIZE) as Hr.
  { change MAX_PAYLOAD_SIZE with 1484 in *. unfold r. rewrite length_app, length_drop. lia. }
  pose proof (hash_packet_valid ty junk hs r Hty Hjunk Hhs Hcnt Hr) as Hv.
  exists (hash_packet ty junk hs r). split_and!; [| |done| |].
  - apply DECODE_datagram; [by destruct Hty as [->|[->| ->]]|done|done| |done].
    change MAX_PAYLOAD_SIZE with 1484 in *. lia.
  - destruct (valid_packet_spec _ (proj1 Hv)) as (v & -> & Hiff). f_equal. by apply Hiff.
  - by apply hash_packet_cnt.
  - intros i h hexbuf Hi Hb. by apply hash_packet_hash.
Qed.

Lemma hashes_roundtrip_witness :
  exists pkt, DECODE_PKT (datagram PACKET_TYPE_IHAVE 0 0
      (hash_body PACKET_TYPE_IHAVE [1; 2; 3] [replicate 20 171; replicate 20 16]) ++ [9]) (sample_get 0)
      60 = Some pkt /\
    GET_HASH pkt 1 (replicate 41 0) = Some (hexstring (replicate 20 16) ++ [0]).
Proof.
  destruct (hashes_roundtrip PACKET_TYPE_IHAVE [replicate 20 171; replicate 20 16]
    (datagram PACKET_TYPE_IHAVE 0 0 (hash_body PACKET_TYPE_IHAVE [1; 2; 3] [replicate 20 171; replicate 20 16]))
    [9] (sample_get 0)) as (pkt & Hd & _ & _ & _ & Hh).
  - right. left. reflexivity.
  - done.
  - repeat constructor.
  - exists [1; 2; 3]. split; reflexivity.
  - reflexivity.
  - exists pkt. split; [|exact (Hh 1%nat (replicate 20 16) (replicate 41 0) eq_refl ltac:(done))].
    rewrite <- Hd. reflexivity.
Defined.
