(* ===== verification/Upload.v ===== *)
(** * Upload: the sender of a chunk (upload.c, include/upload.h)

    A sliding window over the 512 packets of a chunk with slow start, congestion
    avoidance and fast retransmit. [upload_t *ul] always points into the peer's
    structure and nothing called here reads it there, so the operations take its
    value and return the new one. *)

From S2P Require Import Prelude Sha Chunk ChunkList Machine Util Packet Sending.

Definition SS_THRESH : Z := 64.
Definition MAX_DUP_ACK : Z := 3.
(** The macro [MAX_DUP_SEQ], on [int]. *)
Definition MAX_DUP_SEQ (u : upload_t) (ack : Z) : Z :=
  C_MIN 0 (s32 (0 - s32 (s32 ack - s32 (s32 (last_pkt_acked u) + 1)))).
(** The product is computed on [int]. *)
Definition GET_CHUNK_OFFSET (line : ChunkLine) : option Z := int_mul (cl_id line) BT_CHUNK_SIZE.

(** [ul->data + off], as what it can reach: from a null pointer only the null
    pointer can be tested, anything else is wild. *)
Definition data_at (d : mapping) (off : Z) : option (list Z) :=
  match d with
  | data_null => if off =? 0 then None else Some []
  | data_mapped b => Some (drop (Z.to_nat off) b)
  | data_unmapped => Some []
  end.

(** Tests on [ul->status]. *)
Definition in_SS_or_CA (u : upload_t) : bool :=
  bool_decide (status u = UL_STATUS_SLOW_START)
  || bool_decide (status u = UL_STATUS_CONGESTION_AVOIDANCE).
Definition in_FR_SS_or_CA (u : upload_t) : bool :=
  bool_decide (status u = UL_STATUS_FAST_RETRANSMIT_SS)
  || bool_decide (status u = UL_STATUS_FAST_RETRANSMIT_CA).
Definition in_CA (u : upload_t) : bool :=
  bool_decide (status u = UL_STATUS_CONGESTION_AVOIDANCE)
  || bool_decide (status u = UL_STATUS_FAST_RETRANSMIT_CA).

Section Code.
Context `{Env}.

Definition load_data (u : upload_t) : M (Z * upload_t) :=
  hc <- gets (fun s => chunks (haschunks s)) ;;
  line <- lift (zget hc (has_index u)) ;;
  off <- lift (GET_CHUNK_OFFSET line) ;;
  r <- ask (fun n => mmap n off) ;;
  match r with
  | None => ret (-1, u)
  | Some bytes => ret (0, u .{ ul_data := data_mapped bytes })
  end.

(** Unmapping twice could remove a mapping made since: it is undefined here. *)
Definition unload_data (u : upload_t) : M (Z * upload_t) :=
  ok <- ask munmap_ok ;;
  match ul_data u with
  | data_unmapped => lift None
  | data_null => ret (if ok : bool then 0 else -1, u)
  | data_mapped _ => if ok : bool then ret (0, u .{ ul_data := data_unmapped }) else ret (-1, u)
  end.

(** The [for] loop of [ul_send]; [false] is its [return -1]. Each turn sends one of
    the 512 packets. *)
Fixpoint ul_send_loop (fuel : nat) (param : pkt_param_t) (u : upload_t) : M (bool * upload_t) :=
  if negb (last_pkt_sent u <? u32 (last_pkt_acked u + window_size u)) then ret (true, u) else
  match fuel with
  | O => lift None
  | S fuel' =>
    let sq := u32 (last_pkt_sent u + 1) in
    if sq >? CHUNK_PKTS then ret (true, u) else
    let param := param .{ pp_seq := sq }
                       .{ pp_payload := data_at (ul_data u) (u32 (u32 (sq - 1) * PAYLOAD_SIZE)) }
                       .{ pp_payload_size := PAYLOAD_SIZE } in
    send_packet param ;;;
    let u := u .{ rto := GET_RTO (ul_rtt u) } in
    let u := if 0 =? rto u then u .{ rto := DEFAULT_TIMEOUT } else u in
    now <- get_timestamp_now ;;
    ts <- lift (zset (seq_ts u) sq now) ;;
    let u := u .{ seq_ts := ts } in
    if now =? 0 then ret (false, u) else
    timeouts <- lift (zset (seq_timeout u) sq (u32 (now + rto u))) ;;
    let u := u .{ seq_timeout := timeouts } in
    ul_send_loop fuel' param (u .{ last_pkt_sent := u32 (last_pkt_sent u + 1) })
  end.

Definition ul_send (u : upload_t) : M (Z * upload_t) :=
  sk <- gets sock ;;
  let param := PKT_PARAM_CLEAR .{ pp_socket := sk } .{ pp_p_index := ul_p_index u }
                 .{ pp_p_count := 1 } .{ pp_type := PACKET_TYPE_DATA } in
  r <- ul_send_loop (Z.to_nat (CHUNK_PKTS + 1)) param u ;;
  let '(ok, u) := r in
  if ok : bool then ret (0, u .{ max_pkt_sent := C_MAX (max_pkt_sent u) (last_pkt_sent u) })
  else ret (-1, u).

Definition ul_init (p_index has_idx : Z) : M (Z * upload_t) :=
  let u := ul_zero .{ window_size := 1 } .{ ul_p_index := p_index } .{ has_index := has_idx }
                   .{ ss_threshold := SS_THRESH } .{ ul_rtt := DEFAULT_TIMEOUT / 2 }
                   .{ rto := DEFAULT_TIMEOUT } in
  write_winsize (ul_p_index u) (window_size u) ;;;
  load_data u.

Definition ul_deinit (u : upload_t) : M (Z * upload_t) := unload_data u.

Definition ul_loss (u : upload_t) : M upload_t :=
  let u := u .{ ss_threshold := C_MAX (window_size u / 2) 2 } .{ window_size := 1 }
             .{ last_pkt_sent := last_pkt_acked u } .{ status := UL_STATUS_FAST_RETRANSMIT }
             .{ max_retransmit_seq := max_pkt_sent u } in
  write_winsize (ul_p_index u) (window_size u) ;;;
  ret u.

(** The [switch] of [ul_handle_ack] on the acknowledgement of new data. *)
Definition ul_grow (u : upload_t) (ack : Z) : M upload_t :=
  match status u with
  | UL_STATUS_SLOW_START =>
    let u := u .{ window_size := u32 (window_size u + u32 (ack - last_pkt_acked u)) } in
    let u := if window_size u >? ss_threshold u
             then u .{ status := UL_STATUS_CONGESTION_AVOIDANCE } else u in
    write_winsize (ul_p_index u) (window_size u) ;;; ret u
  | UL_STATUS_CONGESTION_AVOIDANCE => ret u
  | UL_STATUS_FAST_RETRANSMIT =>
    if ack >=? last_pkt_sent u then
      let u := u .{ status := UL_STATUS_FAST_RETRANSMIT_SS }
                 .{ window_size := u32 (window_size u + 1) } in
      write_winsize (ul_p_index u) (window_size u) ;;; ret u
    else ret u
  | UL_STATUS_FAST_RETRANSMIT_SS =>
    let u := u .{ window_size := u32 (window_size u + 1) } in
    write_winsize (ul_p_index u) (window_size u) ;;;
    if ack >=? max_retransmit_seq u then ret (u .{ status := UL_STATUS_SLOW_START }) else
    if window_size u >? ss_threshold u
    then ret (u .{ status := UL_STATUS_FAST_RETRANSMIT_CA }) else ret u
  | UL_STATUS_FAST_RETRANSMIT_CA =>
    if ack >=? max_retransmit_seq u
    then ret (u .{ status := UL_STATUS_CONGESTION_AVOIDANCE }) else ret u
  | UL_STATUS_FAST_RECOVERY => ret u
  end.

(** What [ul_handle_ack] does of an acceptable [ack] before it looks for
    duplicates: the round-trip estimate and the counter of this number. *)
Definition ul_note_ack (u : upload_t) (ack : Z) : M upload_t :=
  u <- (if in_SS_or_CA u then
          ts <- lift (zget (seq_ts u) ack) ;;
          r <- update_rtt (ul_rtt u) (ul_dev u) ts ;;
          ret (u .{ ul_rtt := fst r } .{ ul_dev := snd r })
        else ret u) ;;
  if in_FR_SS_or_CA u then
    c <- lift (zset (ack_cnt u) ack (MAX_DUP_SEQ u ack)) ;;
    ret (u .{ ack_cnt := c })
  else ret u.

(** [++ul->ack_cnt[ack] > MAX_DUP_ACK], outside [UL_STATUS_FAST_RETRANSMIT]. *)
Definition ul_count_ack (u : upload_t) (ack : Z) : M (bool * upload_t) :=
  if decide (UL_STATUS_FAST_RETRANSMIT = status u) then ret (false, u) else
  n <- lift (zget (ack_cnt u) ack) ;;
  let n := s32 (n + 1) in
  c <- lift (zset (ack_cnt u) ack n) ;;
  ret (n >? MAX_DUP_ACK, u .{ ack_cnt := c }).

(** The end of [ul_handle_ack], for [ack > ul->last_pkt_acked]. *)
Definition ul_new_ack (u : upload_t) (ack : Z) : M upload_t :=
  u <- ul_grow u ack ;;
  let u := if last_pkt_sent u <? ack then u .{ last_pkt_sent := ack } else u in
  let u := u .{ ul_timeout_cnt := 0 } .{ last_pkt_acked := ack } in
  ret (if last_pkt_acked u >=? CHUNK_PKTS then u .{ ul_finished := true } else u).

Definition ul_handle_ack (u : upload_t) (ack : Z) : M upload_t :=
  if ul_finished u then ret u else
  if ack <=? 0 then ret (u .{ ul_timeout_cnt := 0 }) else
  if (ack >? max_pkt_sent u) || (ack <? last_pkt_acked u) then ret u else
  u <- ul_note_ack u ack ;;
  r <- ul_count_ack u ack ;;
  let '(dup, u) := r in
  if dup : bool then
    c <- lift (zset (ack_cnt u) ack 0) ;;
    ul_loss (u .{ ack_cnt := c })
  else if ack >? last_pkt_acked u then ul_new_ack u ack
  else ret u.

(** The window's growth in congestion avoidance, once per round trip. *)
Definition ul_ca_grow (u : upload_t) (now : Z) : M upload_t :=
  let u := if (0 =? ca_ts u) && in_CA u then u .{ ca_ts := u32 (now + ul_rtt u) } else u in
  if in_CA u && (now >? ca_ts u) then
    let u := u .{ window_size := u32 (window_size u + 1) } in
    write_winsize (ul_p_index u) (window_size u) ;;;
    ret (u .{ ca_ts := u32 (now + ul_rtt u) })
  else ret u.

Definition ul_check_timeout (u : upload_t) : M (Z * upload_t) :=
  if ul_finished u then ret (-1, u) else
  now <- get_timestamp_now ;;
  u <- ul_ca_grow u now ;;
  t <- lift (zget (seq_timeout u) (u32 (last_pkt_acked u + 1))) ;;
  if (0 =? t) || (now <? t) then ret (ul_timeout_cnt u, u) else
  let u := u .{ ul_rtt := C_MIN (u32 (ul_rtt u * 2)) (DEFAULT_TIMEOUT / 4) }
             .{ ul_timeout_cnt := s32 (ul_timeout_cnt u + 1) } in
  u <- ul_loss u ;;
  r <- ul_send u ;;
  let u := snd r in
  ret (ul_timeout_cnt u, u).
End Code.

(** ** The sender's invariant *)

Record ul_wf (u : upload_t) : Prop := {
  wf_cnt : zlen (ack_cnt u) = CHUNK_PKTS + 1;
  wf_ts : zlen (seq_ts u) = CHUNK_PKTS + 1;
  wf_timeout : zlen (seq_timeout u) = CHUNK_PKTS + 1;
  wf_acked : 0 <= last_pkt_acked u;
  wf_sent : last_pkt_acked u <= last_pkt_sent u <= CHUNK_PKTS;
  wf_max : last_pkt_acked u <= max_pkt_sent u <= CHUNK_PKTS;
  wf_finished : ul_finished u = true <-> last_pkt_acked u = CHUNK_PKTS;
  wf_rtt : 0 <= ul_rtt u < 2 ^ 32;
  wf_dev : 0 <= ul_dev u < 2 ^ 32 }.

(** The data a sender reads: the whole chunk. *)
Definition ul_has_data (u : upload_t) (b : list Z) : Prop :=
  ul_data u = data_mapped b /\ zlen b = BT_CHUNK_SIZE.

(** The datagrams of [n] packets of a chunk from number [from]. *)
Definition data_events (sk : Z) (to : sockaddr_in) (b : list Z) (from n : Z) : list event :=
  (fun i => EvSend sk to (data_datagram i (pkt_slice b i))) <$> seqZ from n.

Lemma data_events_cons sk to b from n :
  0 < n -> data_events sk to b from n =
    EvSend sk to (data_datagram from (pkt_slice b from)) :: data_events sk to b (from + 1) (n - 1).
Proof. intros. unfold data_events. by rewrite seqZ_cons, fmap_cons by lia. Qed.

(** How far [ul_send] means to go. *)
Definition sent_target (u : upload_t) : Z :=
  Z.max (last_pkt_sent u) (Z.min (u32 (last_pkt_acked u + window_size u)) CHUNK_PKTS).

(** [ul_send] only moves [last_pkt_sent] and the timers. *)
Definition sender_moved (u u' : upload_t) : Prop :=
  exists ts timeouts r,
    zlen ts = zlen (seq_ts u) /\ zlen timeouts = zlen (seq_timeout u) /\
    u' = u .{ seq_ts := ts } .{ seq_timeout := timeouts } .{ rto := r }
           .{ last_pkt_sent := last_pkt_sent u' }.

Lemma sender_moved_refl u : sender_moved u u.
Proof. exists (seq_ts u), (seq_timeout u), (rto u). split_and!; [done|done|]. by destruct u. Qed.
Lemma sender_moved_trans u1 u2 u3 : sender_moved u1 u2 -> sender_moved u2 u3 -> sender_moved u1 u3.
Proof.
  intros (ts & to & r & Hts & Hto & E) (ts' & to' & r' & Hts' & Hto' & E').
  exists ts', to', r'. split_and!.
  - rewrite Hts', E. done.
  - rewrite Hto', E. done.
  - rewrite E', E. done.
Qed.

(** *** The reaction to an acknowledgement *)

(** The window and the state after the acknowledgement of new data. *)
Definition grow_window (u : upload_t) (ack : Z) : Z :=
  match status u with
  | UL_STATUS_SLOW_START => u32 (window_size u + u32 (ack - last_pkt_acked u))
  | UL_STATUS_FAST_RETRANSMIT =>
    if ack >=? last_pkt_sent u then u32 (window_size u + 1) else window_size u
  | UL_STATUS_FAST_RETRANSMIT_SS => u32 (window_size u + 1)
  | _ => window_size u
  end.
Definition grow_status (u : upload_t) (ack : Z) : ul_status :=
  match status u with
  | UL_STATUS_SLOW_START =>
    if grow_window u ack >? ss_threshold u then UL_STATUS_CONGESTION_AVOIDANCE
    else UL_STATUS_SLOW_START
  | UL_STATUS_FAST_RETRANSMIT =>
    if ack >=? last_pkt_sent u then UL_STATUS_FAST_RETRANSMIT_SS else UL_STATUS_FAST_RETRANSMIT
  | UL_STATUS_FAST_RETRANSMIT_SS =>
    if ack >=? max_retransmit_seq u then UL_STATUS_SLOW_START
    else if grow_window u ack >? ss_threshold u then UL_STATUS_FAST_RETRANSMIT_CA
    else UL_STATUS_FAST_RETRANSMIT_SS
  | UL_STATUS_FAST_RETRANSMIT_CA =>
    if ack >=? max_retransmit_seq u then UL_STATUS_CONGESTION_AVOIDANCE
    else UL_STATUS_FAST_RETRANSMIT_CA
  | s => s
  end.

(** What a loss, found by duplicates or by a timeout, does to the sender. *)
Definition loss_of (u : upload_t) : upload_t :=
  u .{ ss_threshold := Z.max (window_size u / 2) 2 } .{ window_size := 1 }
    .{ last_pkt_sent := last_pkt_acked u } .{ status := UL_STATUS_FAST_RETRANSMIT }
    .{ max_retransmit_seq := max_pkt_sent u }.

(** Bookkeeping: the estimates and the counters of duplicates may change. *)
Definition noted (u u' : upload_t) : Prop :=
  exists r d c, 0 <= r < 2 ^ 32 /\ 0 <= d < 2 ^ 32 /\ zlen c = zlen (ack_cnt u) /\
    u' = u .{ ul_rtt := r } .{ ul_dev := d } .{ ack_cnt := c }.

(** The four outcomes of [ul_handle_ack u ack]. Of the ignored acknowledgements only
    the number 0 (or less) to a sender that is not finished has an effect: it clears the
    counter of timeouts. A loss is only found in slow start and congestion avoidance, on
    the fourth acknowledgement of one number; in the retransmission variants the
    counter of a repeated number is set back to [MAX_DUP_SEQ] first, and in fast
    retransmit it is not touched. *)
Inductive ack_outcome (u : upload_t) (ack : Z) (u' : upload_t) : Prop :=
  | ack_ignored :
      ul_finished u = true \/ ack <= 0 \/ max_pkt_sent u < ack \/ ack < last_pkt_acked u ->
      u' = (if negb (ul_finished u) && (ack <=? 0) then u .{ ul_timeout_cnt := 0 } else u) ->
      ack_outcome u ack u'
  | ack_lost n u1 :
      0 < ack -> last_pkt_acked u <= ack <= max_pkt_sent u -> in_SS_or_CA u = true ->
      zget (ack_cnt u) ack = Some n -> MAX_DUP_ACK < s32 (n + 1) ->
      noted u u1 -> zget (ack_cnt u1) ack = Some 0 -> u' = loss_of u1 -> ack_outcome u ack u'
  | ack_dup n n' :
      0 < ack -> ack = last_pkt_acked u -> last_pkt_acked u <= max_pkt_sent u ->
      zget (ack_cnt u) ack = Some n -> zget (ack_cnt u') ack = Some n' ->
      (in_SS_or_CA u = true -> n' = s32 (n + 1) /\ n' <= MAX_DUP_ACK) ->
      (in_FR_SS_or_CA u = true -> n' = s32 (MAX_DUP_SEQ u ack + 1)) ->
      (status u = UL_STATUS_FAST_RETRANSMIT -> n' = n) ->
      noted u u' -> ack_outcome u ack u'
  | ack_new u1 :
      last_pkt_acked u < ack <= max_pkt_sent u -> noted u u1 ->
      u' = u1 .{ window_size := grow_window u ack } .{ status := grow_status u ack }
              .{ last_pkt_sent := Z.max (last_pkt_sent u) ack } .{ ul_timeout_cnt := 0 }
              .{ last_pkt_acked := ack } .{ ul_finished := bool_decide (ack = CHUNK_PKTS) } ->
      ack_outcome u ack u'.

Section Specs.
Context `{Env}.

(** The loop sends the packets from [last_pkt_sent + 1] to the target, each once and
    in order, and stops; when the clock fails it stops earlier, having sent one
    packet more than it recorded. *)
Lemma ul_send_loop_spec sk peer b fuel : forall param u w (Q : bool * upload_t -> World -> Prop),
  zget (peers (peerlist (psvr w))) (ul_p_index u) = Some peer ->
  (forall x y z, param .{ pp_seq := x } .{ pp_payload := y } .{ pp_payload_size := z } =
     plain_param sk (ul_p_index u) PACKET_TYPE_DATA x 0 y z) ->
  ul_has_data u b ->
  zlen (seq_ts u) = CHUNK_PKTS + 1 -> zlen (seq_timeout u) = CHUNK_PKTS + 1 ->
  0 <= last_pkt_sent u <= CHUNK_PKTS -> CHUNK_PKTS - last_pkt_sent u < Z.of_nat fuel ->
  (forall (ok : bool) u' w',
     sender_moved u u' -> last_pkt_sent u <= last_pkt_sent u' <= sent_target u ->
     (ok = true -> last_pkt_sent u' = sent_target u) ->
     (ok = false -> last_pkt_sent u' < sent_target u /\ ~ clock_ok) ->
     emitted (data_events sk (addr peer) b (last_pkt_sent u + 1)
       (last_pkt_sent u' - last_pkt_sent u + (if ok then 0 else 1))) w w' ->
     Q (ok, u') w') ->
  wp (ul_send_loop fuel param u) Q w.
Proof.
  induction fuel as [|fuel IH]; intros param u w Q Hpeer Hparam Hdata Hts Hto Hsent Hfuel HQ;
    [lia|]. cbn [ul_send_loop]. rewrite CHUNK_PKTS_eq in *.
  assert (forall a, sent_target u = a -> a <= last_pkt_sent u -> wp (ret (true, u)) Q w) as Hstop.
  { intros a Ha Hle. wp_go. apply HQ; [apply sender_moved_refl|unfold sent_target in *; lia|
      intros _; unfold sent_target in *; lia|done|].
    rewrite Z.sub_diag. apply emitted_refl. }
  unfold sent_target in Hstop. rewrite CHUNK_PKTS_eq in Hstop.
  destruct (Z.ltb_spec (last_pkt_sent u) (u32 (last_pkt_acked u + window_size u))) as [Hlt|Hge];
    cbn [negb]; [|eapply Hstop; [reflexivity|lia]].
  rewrite u32_small by lia. rewrite Z.gtb_ltb.
  destruct (Z.ltb_spec 512 (last_pkt_sent u + 1)) as [Hend|Hin]; [eapply Hstop; [reflexivity|lia]|].
  rewrite (u32_small (last_pkt_sent u + 1 - 1)) by lia.
  rewrite (u32_small ((last_pkt_sent u + 1 - 1) * PAYLOAD_SIZE)) by (unfold PAYLOAD_SIZE; lia).
  wp_go. rewrite Hparam. destruct Hdata as [Hd Hb]. rewrite Hd. cbn [data_at].
  eapply send_packet_data; [done|lia|done|apply pkt_slice_read; [done|rewrite CHUNK_PKTS_eq; lia]|].
  intros w1 Hw1. cbn beta.
  set (u1 := if 0 =? rto _ then _ else _).
  assert (exists r, u1 = u .{ rto := r }) as [r Hu1].
  { unfold u1. destruct (0 =? _); eauto. }
  rewrite Hu1. clear u1 Hu1. wp_go.
  apply (get_timestamp_now_read (fun _ => False)). intros w2 Hw2%emits_none. wp_go.
  set (now := timestamp_of (gettimeofday (tick w1))).
  assert (emitted [EvSend sk (addr peer) (data_datagram (last_pkt_sent u + 1)
            (pkt_slice b (last_pkt_sent u + 1)))] w w2) as Hem.
  { rewrite <- (app_nil_r [_]). by eapply emitted_trans. }
  change (seq_ts (u .{ rto := r })) with (seq_ts u).
  destruct (zset_is_Some (seq_ts u) (last_pkt_sent u + 1) now) as [ts' Ets]; [lia|].
  pose proof (zset_length _ _ _ _ Ets) as Hlts.
  eapply wp_lift; [exact Ets|]. destruct (Z.eqb_spec now 0) as [Hnow|_].
  { wp_go. apply HQ; [|simpl; unfold sent_target; lia|done| |].
    2: { intros _. split; [simpl; unfold sent_target; rewrite CHUNK_PKTS_eq; lia|].
      intros Hck. by apply (Hck (tick w1)). }
    - exists ts', (seq_timeout u), r. split_and!; [lia|done|by destruct u].
    - simpl. rewrite Z.sub_diag, data_events_cons by lia. exact Hem. }
  wp_go. change (seq_timeout (_ .{ seq_ts := _ })) with (seq_timeout u).
  match goal with |- context [zset (seq_timeout u) ?i ?x] =>
    destruct (zset_is_Some (seq_timeout u) i x) as [to' Eto] end; [lia|].
  pose proof (zset_length _ _ _ _ Eto) as Hlto.
  eapply wp_lift; [exact Eto|].
  set (u2 := _ .{ last_pkt_sent := _ }).
  assert (last_pkt_sent u2 = last_pkt_sent u + 1) as Hs2.
  { unfold u2. simpl. rewrite u32_small; lia. }
  assert (sent_target u2 = sent_target u) as Ht2.
  { unfold sent_target. rewrite Hs2, CHUNK_PKTS_eq.
    change (last_pkt_acked u2) with (last_pkt_acked u). change (window_size u2) with (window_size u).
    lia. }
  assert (sender_moved u u2) as Hm2.
  { exists ts', to', r. split_and!; [lia|lia|by destruct u]. }
  apply IH.
  - by rewrite (proj1 Hem).
  - done.
  - by split.
  - change (seq_ts u2) with ts'. lia.
  - change (seq_timeout u2) with to'. lia.
  - lia.
  - lia.
  - intros ok u' w' Hm Hr Hok Hno Hem'. rewrite Hs2, Ht2 in *. apply HQ; [|lia|done|done|].
    + by eapply sender_moved_trans.
    + rewrite data_events_cons by (destruct ok; lia).
      replace (last_pkt_sent u' - last_pkt_sent u + (if ok then 0 else 1) - 1)
        with (last_pkt_sent u' - (last_pkt_sent u + 1) + (if ok then 0 else 1)) by lia.
      eapply (emitted_trans [_]); [exact Hem|exact Hem'].
Qed.

(** [ul_send]: the sender stays well-formed, its window is exactly the packets sent. *)
Lemma ul_send_spec b u w (Q : Z * upload_t -> World -> Prop) peer :
  ul_wf u -> ul_has_data u b ->
  zget (peers (peerlist (psvr w))) (ul_p_index u) = Some peer ->
  (forall (ok : bool) u' w',
     ul_wf u' -> last_pkt_sent u <= last_pkt_sent u' <= sent_target u ->
     (if ok then last_pkt_sent u' = sent_target u
      else last_pkt_sent u' < sent_target u /\ ~ clock_ok) ->
     sender_moved (u .{ max_pkt_sent := if ok then Z.max (max_pkt_sent u) (last_pkt_sent u')
                                        else max_pkt_sent u }) u' ->
     emitted (data_events (sock (psvr w)) (addr peer) b (last_pkt_sent u + 1)
       (last_pkt_sent u' - last_pkt_sent u + (if ok then 0 else 1))) w w' ->
     Q (if ok then 0 else -1, u') w') ->
  wp (ul_send u) Q w.
Proof.
  intros Hwf Hdata Hpeer HQ. destruct (Hwf) as [Hc Ht Hto Ha Hs Hm Hf Hr Hd].
  unfold ul_send. wp_go. eapply (ul_send_loop_spec (sock (psvr w)) peer b); try done.
  - lia.
  - change (Z.to_nat (CHUNK_PKTS + 1)) with 513%nat. rewrite CHUNK_PKTS_eq. lia.
  - intros ok u' w' Hmv Hrange Hok Hno Hem.
    destruct Hmv as (ts & to & r & Hlts & Hlto & E).
    assert (sent_target u <= CHUNK_PKTS) as Htgt by (unfold sent_target; lia).
    rewrite C_MAX_max. cbv iota beta.
    assert (max_pkt_sent u' = max_pkt_sent u) as Emax by (rewrite E; done).
    assert (forall mx, (last_pkt_acked u <= mx <= CHUNK_PKTS) -> ul_wf (u' .{ max_pkt_sent := mx })) as Hwf'.
    { intros mx Hmx. rewrite E. split; simpl; try done; try lia. }
    destruct ok; wp_go.
    + apply (HQ true); [apply Hwf'; lia|done|by apply Hok| |done].
      exists ts, to, r. split_and!; [done|done|]. rewrite E. by destruct u.
    + apply (HQ false); [|done|by apply Hno| |done].
      * replace u' with (u' .{ max_pkt_sent := max_pkt_sent u' }) by (by destruct u').
        apply Hwf'. lia.
      * exists ts, to, r. split_and!; [done|done|]. rewrite E at 1. by destruct u.
Qed.

Definition winsize_any (s : PeerServer) (i : Z) (e : event) : Prop :=
  exists win, winsize_event s i win e.

Lemma write_winsize_any i win w (Q : Z -> World -> Prop) :
  peer_ok (psvr w) i -> (forall r w', emits (winsize_any (psvr w) i) w w' -> Q r w') ->
  wp (write_winsize i win) Q w.
Proof.
  intros Hi HQ. apply write_winsize_spec; [done|]. intros r w' Hem. apply (HQ r).
  eapply emits_mono; [|exact Hem]. intros e He. by exists win.
Qed.

Lemma ul_loss_spec u w (Q : upload_t -> World -> Prop) :
  peer_ok (psvr w) (ul_p_index u) ->
  (forall w', emits (winsize_any (psvr w) (ul_p_index u)) w w' -> Q (loss_of u) w') ->
  wp (ul_loss u) Q w.
Proof.
  intros Hp HQ. unfold ul_loss. wp_go. apply write_winsize_any; [done|].
  intros _ w' Hem. wp_go. rewrite C_MAX_max. by apply HQ.
Qed.

Lemma winsize_then {A} i win (m : M A) w (Q : A -> World -> Prop) :
  peer_ok (psvr w) i -> (forall w', emits (winsize_any (psvr w) i) w w' -> wp m Q w') ->
  wp (write_winsize i win ;;; m) Q w.
Proof. intros Hp HQ. wp_go. apply write_winsize_any; [done|]. intros _. apply HQ. Qed.

Lemma ul_grow_spec u ack w (Q : upload_t -> World -> Prop) :
  peer_ok (psvr w) (ul_p_index u) ->
  (forall w', emits (winsize_any (psvr w) (ul_p_index u)) w w' ->
     Q (u .{ window_size := grow_window u ack } .{ status := grow_status u ack }) w') ->
  wp (ul_grow u ack) Q w.
Proof.
  intros Hp HQ. unfold ul_grow, grow_window, grow_status, grow_window in *.
  pose proof (HQ w (emits_refl _ _)) as HQ0.
  destruct u as [hi pi cnt ts to ss la ls mx mr rt dv ro win ca tc dt st fi]; destruct st;
    cbn [upd setter_of status window_size ss_threshold ul_p_index last_pkt_acked last_pkt_sent
         max_retransmit_seq] in *.
  - destruct (_ >? _); apply winsize_then; try done; intros w' Hem; wp_go; by apply HQ.
  - wp_go. exact HQ0.
  - destruct (_ >=? _); [|wp_go; exact HQ0].
    apply winsize_then; [done|]. intros w' Hem. wp_go. by apply HQ.
  - apply winsize_then; [done|]. intros w' Hem. specialize (HQ w' Hem).
    destruct (_ >=? _); [wp_go; exact HQ|]. destruct (_ >? _); wp_go; exact HQ.
  - destruct (_ >=? _); wp_go; exact HQ0.
  - wp_go. exact HQ0.
Qed.

Lemma noted_wf u u' : noted u u' -> ul_wf u -> ul_wf u'.
Proof. intros (r & d & c & Hr & Hd & Hc & ->) []. split; simpl; try done; lia. Qed.
Lemma noted_refl u : ul_wf u -> noted u u.
Proof. intros []. exists (ul_rtt u), (ul_dev u), (ack_cnt u). split_and!; try lia. by destruct u. Qed.
Lemma noted_trans u1 u2 u3 : noted u1 u2 -> noted u2 u3 -> noted u1 u3.
Proof.
  intros (r & d & c & Hr & Hd & Hc & ->) (r' & d' & c' & Hr' & Hd' & Hc' & ->).
  exists r', d', c'. split_and!; try done; try lia. simpl in Hc'. by rewrite Hc'.
Qed.
(** What the bookkeeping leaves alone. *)
Lemma noted_frame u u' : noted u u' ->
  u' = u .{ ul_rtt := ul_rtt u' } .{ ul_dev := ul_dev u' } .{ ack_cnt := ack_cnt u' }.
Proof. by intros (r & d & c & _ & _ & _ & ->). Qed.

Lemma not_both_states u : in_SS_or_CA u = true -> in_FR_SS_or_CA u = true -> False.
Proof.
  unfold in_SS_or_CA, in_FR_SS_or_CA. destruct (status u); simpl; discriminate.
Qed.

Lemma MAX_DUP_SEQ_bound u ack : MAX_DUP_SEQ u ack <= 0 /\ - 2 ^ 31 <= MAX_DUP_SEQ u ack.
Proof.
  unfold MAX_DUP_SEQ. rewrite C_MIN_min.
  pose proof (s32_range (0 - s32 (s32 ack - s32 (s32 (last_pkt_acked u) + 1)))). lia.
Qed.

Lemma ul_note_ack_spec u ack w (Q : upload_t -> World -> Prop) :
  ul_wf u -> 0 <= ack <= CHUNK_PKTS ->
  (forall u1 w', noted u u1 -> emits (fun _ => False) w w' ->
     (in_FR_SS_or_CA u = false -> ack_cnt u1 = ack_cnt u) ->
     (in_FR_SS_or_CA u = true -> zget (ack_cnt u1) ack = Some (MAX_DUP_SEQ u ack)) -> Q u1 w') ->
  wp (ul_note_ack u ack) Q w.
Proof.
  intros Hwf Hack HQ. pose proof (noted_refl u Hwf) as Hrefl.
  destruct (Hwf) as [Hc Ht Hto Ha Hs Hm Hf Hr Hd].
  unfold ul_note_ack. wp_go. destruct (in_SS_or_CA u) eqn:E1.
  - assert (in_FR_SS_or_CA u = false) as E2.
    { destruct (in_FR_SS_or_CA u) eqn:E2; [|done]. by destruct (not_both_states u). }
    destruct (zget_is_Some (seq_ts u) ack) as [ts Hts]; [lia|].
    wp_go. eapply wp_lift; [exact Hts|]. wp_go.
    apply (update_rtt_spec (fun _ => False)); [done..|]. intros r d w' Hr' Hd' Hem. wp_go.
    change (in_FR_SS_or_CA (_ .{ ul_dev := _ })) with (in_FR_SS_or_CA u). rewrite E2. wp_go.
    apply HQ; [|done|done|congruence]. exists r, d, (ack_cnt u). split_and!; try done; lia.
  - wp_go. destruct (in_FR_SS_or_CA u) eqn:E2; [|wp_go; apply HQ; try done; auto with machine].
    wp_go. destruct (zset_is_Some (ack_cnt u) ack (MAX_DUP_SEQ u ack)) as [c Ec]; [lia|].
    eapply wp_lift; [exact Ec|]. wp_go. apply HQ; [|auto with machine|done|].
    + exists (ul_rtt u), (ul_dev u), c. pose proof (zset_length _ _ _ _ Ec).
      split_and!; try done; try lia; try congruence; by destruct u.
    + intros _. by apply zget_zset_eq in Ec.
Qed.

Lemma ul_count_ack_spec u ack w (Q : bool * upload_t -> World -> Prop) :
  ul_wf u -> 0 <= ack <= CHUNK_PKTS ->
  (forall n n' dup u1, noted u u1 -> zget (ack_cnt u) ack = Some n ->
     zget (ack_cnt u1) ack = Some n' ->
     (status u = UL_STATUS_FAST_RETRANSMIT -> dup = false /\ n' = n) ->
     (status u <> UL_STATUS_FAST_RETRANSMIT -> n' = s32 (n + 1) /\ dup = (n' >? MAX_DUP_ACK)) ->
     Q (dup, u1) w) ->
  wp (ul_count_ack u ack) Q w.
Proof.
  intros Hwf Hack HQ. destruct (Hwf) as [Hc Ht Hto Ha Hs Hm Hf Hr Hd].
  destruct (zget_is_Some (ack_cnt u) ack) as [n Hn]; [lia|].
  unfold ul_count_ack. case_decide as Est.
  - wp_go. apply (HQ n n); try done. by apply noted_refl.
  - wp_go. eapply wp_lift; [exact Hn|]. wp_go.
    destruct (zset_is_Some (ack_cnt u) ack (s32 (n + 1))) as [c Ec]; [lia|].
    eapply wp_lift; [exact Ec|]. wp_go.
    apply (HQ n (s32 (n + 1))); [|done|by apply zget_zset_eq in Ec|congruence|done].
    exists (ul_rtt u), (ul_dev u), c. pose proof (zset_length _ _ _ _ Ec).
    split_and!; try done; try lia; try congruence; by destruct u.
Qed.

Lemma in_SS_or_CA_not_FR u : in_SS_or_CA u = true -> status u <> UL_STATUS_FAST_RETRANSMIT.
Proof. unfold in_SS_or_CA. by destruct (status u). Qed.

Lemma states_of u :
  status u <> UL_STATUS_FAST_RETRANSMIT -> status u <> UL_STATUS_FAST_RECOVERY ->
  in_SS_or_CA u = true \/ in_FR_SS_or_CA u = true.
Proof. unfold in_SS_or_CA, in_FR_SS_or_CA. destruct (status u); naive_solver. Qed.

(** [ul_handle_ack] never leaves its arrays, and ends in one of the four outcomes.
    The state FAST_RECOVERY is never entered. *)
Lemma ul_handle_ack_spec u ack w (Q : upload_t -> World -> Prop) :
  ul_wf u -> status u <> UL_STATUS_FAST_RECOVERY -> peer_ok (psvr w) (ul_p_index u) ->
  (forall u' w', ack_outcome u ack u' ->
     emits (winsize_any (psvr w) (ul_p_index u)) w w' -> Q u' w') ->
  wp (ul_handle_ack u ack) Q w.
Proof.
  intros Hwf Hnr Hp HQ. destruct (Hwf) as [Hc Ht Hto Ha Hs Hm Hf Hr Hd].
  unfold ul_handle_ack. destruct (ul_finished u) eqn:Efin.
  { wp_go. apply HQ; [|auto with machine]. apply ack_ignored; [auto|by rewrite Efin]. }
  destruct (Z.leb_spec ack 0) as [H0|H0].
  { wp_go. apply HQ; [|auto with machine]. apply ack_ignored; [auto|].
    apply Z.leb_le in H0. by rewrite Efin, H0. }
  destruct ((ack >? max_pkt_sent u) || (ack <? last_pkt_acked u)) eqn:Ebad.
  { wp_go. apply HQ; [|auto with machine]. apply ack_ignored; [lia|].
    apply Z.leb_gt in H0. by rewrite H0, andb_false_r. }
  apply orb_false_iff in Ebad as [Eb1 Eb2]. wp_go.
  assert (0 <= ack <= CHUNK_PKTS) as Hack by lia.
  apply ul_note_ack_spec; [done|done|]. intros u1 w1 Hn1 Hem1 Hkeep Hreset.
  pose proof (noted_wf _ _ Hn1 Hwf) as Hwf1. pose proof (noted_frame _ _ Hn1) as Hf1.
  assert (status u1 = status u) as Est by (by rewrite Hf1).
  wp_go. apply ul_count_ack_spec; [done|done|].
  intros n n' dup u2 Hn2 Hget Hget' Hfr Hnfr. rewrite Est in Hfr, Hnfr.
  pose proof (noted_trans _ _ _ Hn1 Hn2) as Hn12. pose proof (noted_frame _ _ Hn12) as Hf2.
  assert (psvr w1 = psvr w /\ ul_p_index u2 = ul_p_index u) as [Ew1 Ep2]
    by (split; [by eauto with machine|by rewrite Hf2]).
  assert (emits (winsize_any (psvr w) (ul_p_index u)) w w1) as Hem1'.
  { eapply emits_mono; [|exact Hem1]. done. }
  destruct dup.
  - (* a loss *)
    destruct (decide (status u = UL_STATUS_FAST_RETRANSMIT)) as [E|E];
      [by destruct (Hfr E)|]. destruct (Hnfr E) as [-> Hd3].
    destruct (states_of u E Hnr) as [E1|E1]; last first.
    { (* the counter was just reset *)
      specialize (Hreset E1). rewrite Hget in Hreset. injection Hreset as ->.
      destruct (MAX_DUP_SEQ_bound u ack). rewrite s32_small in Hd3 by lia.
      unfold MAX_DUP_ACK in Hd3. lia. }
    assert (in_FR_SS_or_CA u = false) as E2.
    { destruct (in_FR_SS_or_CA u) eqn:E2; [|done]. by destruct (not_both_states u). }
    wp_go. pose proof (noted_wf _ _ Hn12 Hwf) as Hwf2.
    destruct (zset_is_Some (ack_cnt u2) ack 0) as [c Ec]; [pose proof (wf_cnt _ Hwf2); lia|].
    eapply wp_lift; [exact Ec|]. wp_go.
    assert (noted u (u2 .{ ack_cnt := c })) as Hn3.
    { eapply noted_trans; [exact Hn12|]. pose proof (zset_length _ _ _ _ Ec).
      exists (ul_rtt u2), (ul_dev u2), c. destruct Hwf2. split_and!; try done; try lia; try congruence;
      by destruct u2. }
    apply ul_loss_spec; [simpl; congruence|]. intros w' Hem. apply HQ.
    + apply (ack_lost _ _ _ n (u2 .{ ack_cnt := c })); [lia|lia|done| |lia|done| |done].
      * rewrite <- (Hkeep E2). exact Hget.
      * by apply zget_zset_eq in Ec.
    + eapply emits_trans; [exact Hem1'|]. rewrite <- Ew1, <- Ep2. exact Hem.
  - destruct (Z.gtb_spec ack (last_pkt_acked u2)) as [Hnew|Hold].
    + (* new data *)
      assert (last_pkt_acked u2 = last_pkt_acked u) as El by (by rewrite Hf2).
      unfold ul_new_ack. wp_go. apply ul_grow_spec; [congruence|]. intros w' Hem. wp_go.
      apply HQ; [|eapply emits_trans; [exact Hem1'|]; rewrite <- Ew1, <- Ep2; exact Hem].
      apply (ack_new _ _ _ u2); [lia|done|].
      assert (grow_window u2 ack = grow_window u ack /\ grow_status u2 ack = grow_status u ack)
        as [Hg1 Hg2] by (rewrite Hf2; done).
      assert (last_pkt_sent u2 = last_pkt_sent u) as Els by (by rewrite Hf2).
      assert (ul_finished u2 = false) as Ef2 by (by rewrite Hf2).
      rewrite CHUNK_PKTS_eq in *.
      assert (bool_decide (ack = 512) = (ack >=? 512)) as Hb.
      { case_bool_decide; destruct (Z.geb_spec ack 512); lia. }
      assert (Z.max (last_pkt_sent u2) ack =
        if last_pkt_sent u2 <? ack then ack else last_pkt_sent u2) as Hmax.
      { destruct (Z.ltb_spec (last_pkt_sent u2) ack); lia. }
      rewrite Hb, <- Hg1, <- Hg2, <- Els, Hmax.
      destruct u2; simpl in *; subst. by repeat case_match.
    + wp_go. apply HQ; [|done]. assert (last_pkt_acked u2 = last_pkt_acked u) as El by (by rewrite Hf2).
      destruct (zget_is_Some (ack_cnt u) ack) as [n0 Hn0]; [lia|].
      eapply (ack_dup _ _ _ n0 n'); [lia|lia|lia|done|done| | | |done].
      * intros E1. assert (in_FR_SS_or_CA u = false) as E2.
        { destruct (in_FR_SS_or_CA u) eqn:E2; [|done]. by destruct (not_both_states u). }
        rewrite <- (Hkeep E2), Hget in Hn0. injection Hn0 as ->.
        destruct (Hnfr (in_SS_or_CA_not_FR u E1)) as [-> Hd3]. split; [done|]. lia.
      * intros E1. assert (status u <> UL_STATUS_FAST_RETRANSMIT) as E2.
        { intros E2. unfold in_FR_SS_or_CA in E1. by rewrite E2 in E1. }
        specialize (Hreset E1). rewrite Hget in Hreset. injection Hreset as ->.
        by destruct (Hnfr E2) as [-> _].
      * intros E1. assert (in_FR_SS_or_CA u = false) as E2
          by (unfold in_FR_SS_or_CA; by rewrite E1).
        rewrite <- (Hkeep E2), Hget in Hn0. injection Hn0 as ->. by destruct (Hfr E1).
Qed.

(** The invariant after each outcome. *)
Lemma ack_outcome_wf u ack u' : ack_outcome u ack u' -> ul_wf u -> ul_wf u'.
Proof.
  intros Hout Hwf. destruct Hout as [_ ->|n u1 H1 H2 H3 H4 H5 H6 H7 ->|n n' H1 H2 H3 H4 H5 H6 _ _ H7|u1 H1 H2 ->].
  - case_match; [by destruct Hwf|done].
  - apply (noted_wf _ _ H6) in Hwf. destruct Hwf. split; simpl; try done; lia.
  - by apply (noted_wf _ _ H7).
  - pose proof (noted_frame _ _ H2) as Hf. pose proof (noted_wf _ _ H2 Hwf) as Hwf1.
    destruct Hwf, Hwf1.
    assert (max_pkt_sent u1 = max_pkt_sent u) as Em by (by rewrite Hf).
    split; simpl; try done; try lia. by rewrite bool_decide_eq_true.
Qed.

(** *** Timeouts *)

(** Growth in congestion avoidance: at most one, and only of the window and its timer. *)
Definition ca_grown (u u1 : upload_t) : Prop :=
  exists win ts, (win = window_size u \/ in_CA u = true /\ win = u32 (window_size u + 1)) /\
    u1 = u .{ window_size := win } .{ ca_ts := ts }.

Lemma ca_grown_wf u u1 : ca_grown u u1 -> ul_wf u -> ul_wf u1.
Proof. intros (win & ts & _ & ->) []. by split. Qed.

Lemma ul_ca_grow_spec u now w (Q : upload_t -> World -> Prop) :
  peer_ok (psvr w) (ul_p_index u) ->
  (forall u1 w', ca_grown u u1 -> emits (winsize_any (psvr w) (ul_p_index u)) w w' -> Q u1 w') ->
  wp (ul_ca_grow u now) Q w.
Proof.
  intros Hp HQ. unfold ul_ca_grow.
  set (u0 := if (0 =? ca_ts u) && in_CA u then _ else _).
  assert (exists ts, u0 = u .{ ca_ts := ts }) as [ts Eu0].
  { unfold u0. case_match; [eauto|]. exists (ca_ts u). by destruct u. }
  rewrite Eu0. clear u0 Eu0. change (in_CA (u .{ ca_ts := ts })) with (in_CA u).
  destruct (in_CA u && _) eqn:Eca.
  - apply winsize_then; [done|]. intros w' Hem. wp_go. apply HQ; [|done].
    apply andb_true_iff in Eca as [Eca _]. eexists _, _. split; [right; by split|done].
  - wp_go. apply HQ; [|auto with machine]. exists (window_size u), ts. split; [by left|].
    by destruct u.
Qed.

(** A sender that has lost everything it sent beyond [last_pkt_acked]. *)
Definition backed_off (u : upload_t) : upload_t :=
  loss_of (u .{ ul_rtt := C_MIN (u32 (ul_rtt u * 2)) (DEFAULT_TIMEOUT / 4) }
             .{ ul_timeout_cnt := s32 (ul_timeout_cnt u + 1) }).

(** Whether the timer of the first unacknowledged packet, if one is set, has run out. *)
Definition timer_expired (u : upload_t) (now : Z) : bool :=
  match zget (seq_timeout u) (last_pkt_acked u + 1) with
  | Some t => negb ((0 =? t) || (now <? t))
  | None => false
  end.

Inductive timeout_outcome (u : upload_t) (now : Z) : Z -> upload_t -> option Z -> Prop :=
  | timeout_finished : ul_finished u = true -> timeout_outcome u now (-1) u None
  | timeout_quiet u1 :
      ul_finished u = false -> timer_expired u now = false -> ca_grown u u1 ->
      timeout_outcome u now (ul_timeout_cnt u) u1 None
  | timeout_fired u1 u' :
      ul_finished u = false -> timer_expired u now = true -> ca_grown u u1 ->
      last_pkt_acked u <= last_pkt_sent u' <= last_pkt_acked u + 1 ->
      sender_moved ((backed_off u1) .{ max_pkt_sent := max_pkt_sent u' }) u' ->
      (max_pkt_sent u' = max_pkt_sent u \/ max_pkt_sent u' = Z.max (max_pkt_sent u) (last_pkt_acked u + 1)) ->
      timeout_outcome u now (s32 (ul_timeout_cnt u + 1)) u' (Some (last_pkt_acked u + 1)).

(** [ul_check_timeout]: when the timer of the first unacknowledged packet has run
    out, that packet, and only it, is sent again. *)
Lemma ul_check_timeout_spec b u w (Q : Z * upload_t -> World -> Prop) peer :
  ul_wf u -> ul_has_data u b ->
  zget (peers (peerlist (psvr w))) (ul_p_index u) = Some peer ->
  (forall r u' resent w1 w',
     timeout_outcome u (timestamp_of (gettimeofday (tick w))) r u' resent -> ul_wf u' ->
     emits (winsize_any (psvr w) (ul_p_index u)) w w1 ->
     emitted match resent with
             | Some i => data_events (sock (psvr w)) (addr peer) b i 1
             | None => []
             end w1 w' ->
     Q (r, u') w') ->
  wp (ul_check_timeout u) Q w.
Proof.
  intros Hwf Hdata Hpeer HQ.
  assert (peer_ok (psvr w) (ul_p_index u)) as Hp by (by eapply zget_Some_range).
  unfold ul_check_timeout. destruct (ul_finished u) eqn:Ef.
  { wp_go. eapply (HQ _ _ None); [by apply timeout_finished|done|apply emits_refl|apply emitted_refl]. }
  wp_go. apply (get_timestamp_now_read (winsize_any (psvr w) (ul_p_index u))).
  intros w1 Hem1. set (now := timestamp_of _). pose proof (emits_psvr _ _ _ Hem1) as Ew1.
  wp_go. apply ul_ca_grow_spec; [congruence|]. rewrite Ew1. intros u1 w2 Hca Hem2.
  pose proof (emits_trans _ _ _ _ Hem1 Hem2) as Hem12.
  pose proof (ca_grown_wf _ _ Hca Hwf) as Hwf1.
  assert (last_pkt_acked u1 = last_pkt_acked u /\ ul_timeout_cnt u1 = ul_timeout_cnt u /\
    ul_p_index u1 = ul_p_index u /\ ul_data u1 = ul_data u /\ max_pkt_sent u1 = max_pkt_sent u)
    as (El & Et & Ep & Ed & Em) by (by destruct Hca as (? & ? & _ & ->)).
  assert (last_pkt_acked u < CHUNK_PKTS) as Hlt.
  { destruct Hwf. destruct (decide (last_pkt_acked u = CHUNK_PKTS)) as [E|E]; [|lia].
    apply wf_finished0 in E. congruence. }
  rewrite CHUNK_PKTS_eq in *. pose proof (wf_acked _ Hwf) as Hac.
  rewrite El, u32_small by lia. wp_go.
  destruct (zget_is_Some (seq_timeout u1) (last_pkt_acked u + 1)) as [t Ht].
  { pose proof (wf_timeout _ Hwf1). rewrite CHUNK_PKTS_eq in *. lia. }
  assert (timer_expired u now = negb ((0 =? t) || (now <? t))) as Hexp.
  { unfold timer_expired. destruct Hca as (? & ? & _ & ->). simpl in Ht. by rewrite Ht. }
  eapply wp_lift; [exact Ht|]. case_match.
  { wp_go. rewrite Et. eapply (HQ _ _ None); [by apply timeout_quiet|done|exact Hem12|apply emitted_refl]. }
  wp_go. apply ul_loss_spec; [simpl; unfold peer_ok in *; rewrite (emits_psvr _ _ _ Hem12); congruence|].
  intros w3 Hem3. fold (backed_off u1).
  rewrite (emits_psvr _ _ _ Hem12) in Hem3. simpl in Hem3. rewrite Ep in Hem3.
  pose proof (emits_trans _ _ _ _ Hem12 Hem3) as Hem13. pose proof (emits_psvr _ _ _ Hem13) as Ew3.
  assert (ul_wf (backed_off u1)) as Hwfb.
  { destruct Hwf1. split; simpl; try done; try lia.
    rewrite C_MIN_min. pose proof (u32_range (ul_rtt u1 * 2)). unfold DEFAULT_TIMEOUT.
    change (5 * 1000 / 4) with 1250. lia. }
  wp_go. apply (ul_send_spec b _ _ _ peer); [done| | |].
  { destruct Hdata. split; simpl; congruence. }
  { simpl. by rewrite Ew3, Ep. }
  intros ok u' w4 Hwf' Hr Hok Hm Hem4. wp_go.
  assert (last_pkt_sent (backed_off u1) = last_pkt_acked u) as Es by exact El.
  assert (sent_target (backed_off u1) = last_pkt_acked u + 1) as Etgt.
  { unfold sent_target. rewrite Es, CHUNK_PKTS_eq.
    change (last_pkt_acked (backed_off u1)) with (last_pkt_acked u1).
    change (window_size (backed_off u1)) with 1. rewrite El, u32_small by lia. lia. }
  rewrite Etgt, Es in *.
  assert (ul_timeout_cnt u' = s32 (ul_timeout_cnt u + 1)) as Etc.
  { destruct Hm as (? & ? & ? & _ & _ & ->). simpl. congruence. }
  assert (max_pkt_sent u' = if ok then Z.max (max_pkt_sent u) (last_pkt_sent u') else max_pkt_sent u) as Emx.
  { destruct Hm as (? & ? & ? & _ & _ & E). rewrite E. simpl. by rewrite Em. }
  cbn [snd]. rewrite Etc. eapply (HQ _ _ (Some (last_pkt_acked u + 1))); [|done|exact Hem13|].
  - apply (timeout_fired _ _ u1); [done|done|done|lia| |].
    + rewrite Emx. rewrite <- Em. exact Hm.
    + rewrite Emx. destruct ok; [right; lia|by left].
  - rewrite Ew3 in Hem4. replace (last_pkt_sent u' - last_pkt_acked u + (if ok then 0 else 1)) with 1
      in Hem4 by (destruct ok; lia). exact Hem4.
Qed.

(** *** Starting and ending *)

Definition ul_start (p_index has_idx : Z) : upload_t :=
  ul_zero .{ window_size := 1 } .{ ul_p_index := p_index } .{ has_index := has_idx }
          .{ ss_threshold := SS_THRESH } .{ ul_rtt := DEFAULT_TIMEOUT / 2 }
          .{ rto := DEFAULT_TIMEOUT }.

Lemma ul_start_wf p h d : ul_wf ((ul_start p h) .{ ul_data := d }).
Proof.
  assert (forall n, 0 <= n -> zlen (zeros n) = n) as Hz.
  { intros n Hn. unfold zeros. rewrite length_replicate. lia. }
  split; simpl; try (apply Hz; done); try done; try (rewrite CHUNK_PKTS_eq; lia).
Qed.

Lemma ul_init_spec p_index has_idx w (Q : Z * upload_t -> World -> Prop) line :
  peer_ok (psvr w) p_index -> zget (chunks (haschunks (psvr w))) has_idx = Some line -> is_place (cl_id line) ->
  (forall n w', emits (winsize_any (psvr w) p_index) w w' ->
     match mmap n (place_of line) with
     | None => Q (-1, ul_start p_index has_idx) w'
     | Some bytes => Q (0, (ul_start p_index has_idx) .{ ul_data := data_mapped bytes }) w'
     end) ->
  wp (ul_init p_index has_idx) Q w.
Proof.
  intros Hp Hline Hpl HQ. unfold ul_init. fold (ul_start p_index has_idx).
  apply winsize_then; [done|]. intros w1 Hem. unfold load_data. wp_go.
  rewrite (emits_psvr _ _ _ Hem). eapply wp_lift; [exact Hline|]. wp_go.
  eapply wp_lift; [by apply int_mul_place|]. fold (place_of line). wp_go. apply wp_ask.
  assert (emits (winsize_any (psvr w) p_index) w (w1 .{ tick := S (tick w1) })) as Hem2
    by (eapply emits_trans; [exact Hem|apply emits_tick]).
  specialize (HQ (tick w1) _ Hem2). cbn beta. by case_match; wp_go.
Qed.

(** [finish_upload] and [kill_upload] unmap the data, unless that was done. *)
Lemma ul_deinit_spec u w (Q : Z * upload_t -> World -> Prop) :
  ul_data u <> data_unmapped ->
  (forall r d w', emitted [] w w' -> Q (r, u .{ ul_data := d }) w') ->
  wp (ul_deinit u) Q w.
Proof.
  intros Hd HQ. unfold ul_deinit, unload_data. wp_go. apply wp_ask_any. intros ok.
  assert (emitted [] w (w .{ tick := S (tick w) })) as Hem by (split; [done|by rewrite app_nil_r]).
  assert (u = u .{ ul_data := ul_data u }) as Eu by (by destruct u).
  destruct (ul_data u) eqn:E; [|destruct ok|done]; wp_go.
  - rewrite Eu. by apply HQ.
  - by apply HQ.
  - rewrite Eu. by apply HQ.
Qed.
End Specs.

(** ** What the steps leave alone *)

Lemma ack_outcome_frame u ack u' :
  ack_outcome u ack u' -> status u <> UL_STATUS_FAST_RECOVERY ->
  ul_data u' = ul_data u /\ ul_p_index u' = ul_p_index u /\ has_index u' = has_index u /\
  status u' <> UL_STATUS_FAST_RECOVERY /\ last_pkt_acked u <= last_pkt_acked u' /\
  (last_pkt_acked u' = last_pkt_acked u \/ last_pkt_acked u' = ack).
Proof.
  intros Hout Hs.
  destruct Hout as [_ ->|n u1 _ _ _ _ _ H6 _ ->|n n' _ _ _ _ _ _ _ _ H7|u1 H1 H2 ->].
  - case_match; simpl; split_and!; auto; lia.
  - rewrite (noted_frame _ _ H6). simpl. split_and!; auto; lia.
  - rewrite (noted_frame _ _ H7). simpl. split_and!; auto; lia.
  - rewrite (noted_frame _ _ H2). simpl. split_and!; auto; [|lia].
    unfold grow_status. destruct (status u) eqn:E; try done; repeat case_match; congruence.
Qed.

Lemma sender_moved_frame u u' :
  sender_moved u u' ->
  ul_data u' = ul_data u /\ ul_p_index u' = ul_p_index u /\ has_index u' = has_index u /\
  status u' = status u /\ last_pkt_acked u' = last_pkt_acked u.
Proof. by intros (ts & to & r & _ & _ & ->). Qed.

Lemma timeout_outcome_frame u now r u' resent :
  timeout_outcome u now r u' resent ->
  ul_data u' = ul_data u /\ ul_p_index u' = ul_p_index u /\ has_index u' = has_index u /\
  (status u <> UL_STATUS_FAST_RECOVERY -> status u' <> UL_STATUS_FAST_RECOVERY) /\
  last_pkt_acked u' = last_pkt_acked u /\
  (forall i, resent = Some i -> ul_wf u -> 1 <= i <= CHUNK_PKTS).
Proof.
  intros [Hf|u1 Hf _ (win & ts & _ & ->)|u1 u2 Hf _ (win & ts & _ & ->) Hr Hm Hmax].
  - done.
  - done.
  - destruct (sender_moved_frame _ _ Hm) as (-> & -> & -> & -> & ->). simpl. split_and!; try done.
    intros i [= <-] Hwf. pose proof (wf_acked _ Hwf). pose proof (wf_sent _ Hwf).
    destruct (decide (last_pkt_acked u = CHUNK_PKTS)) as [E|E]; [|lia].
    apply (wf_finished _ Hwf) in E. congruence.
Qed.

(** ** Properties *)

(** The sender of the examples, at the start of a chunk of zeros. *)
Definition sample_ul : upload_t := (ul_start 0 0) .{ ul_data := data_mapped zero_chunk }.
Lemma sample_ul_wf : ul_wf sample_ul.
Proof. apply ul_start_wf. Qed.
Lemma sample_ul_data : ul_has_data sample_ul zero_chunk.
Proof. split; [reflexivity|apply zero_chunk_length]. Qed.
Lemma sample_clock : @clock_ok sample_env.
Proof. intros n. simpl. rewrite Z.quot_0_l, Z.add_0_r by done. rewrite u32_small; mod_lia. Qed.
Lemma sample_peer_get : zget (peers (peerlist sample_server)) 0 = Some sample_peer.
Proof. reflexivity. Qed.

(** C18: with a working clock [ul_send] returns 0 and sends the packets from
    [last_pkt_sent + 1] to the end of the window, min([last_pkt_acked] + window, 512),
    each once, in order, as one datagram to the peer with the right slice of the
    chunk; nothing else of the server changes. *)
Theorem ul_send_window `{Env} (b : list Z) (u : upload_t) (w : World) (peer : Peer) :
  clock_ok -> ul_wf u -> ul_has_data u b ->
  zget (peers (peerlist (psvr w))) (ul_p_index u) = Some peer ->
  exists u' w', ul_send u w = Some ((0, u'), w') /\ ul_wf u' /\
    last_pkt_sent u' = sent_target u /\ last_pkt_acked u' = last_pkt_acked u /\
    max_pkt_sent u' = Z.max (max_pkt_sent u) (sent_target u) /\
    psvr w' = psvr w /\
    out w' = out w ++ data_events (sock (psvr w)) (addr peer) b (last_pkt_sent u + 1)
               (sent_target u - last_pkt_sent u).
Proof.
  intros Hck Hwf Hdata Hpeer.
  assert (wp (ul_send u) (fun ru w' => fst ru = 0 /\ ul_wf (snd ru) /\
    last_pkt_sent (snd ru) = sent_target u /\ last_pkt_acked (snd ru) = last_pkt_acked u /\
    max_pkt_sent (snd ru) = Z.max (max_pkt_sent u) (sent_target u) /\
    emitted (data_events (sock (psvr w)) (addr peer) b (last_pkt_sent u + 1)
               (sent_target u - last_pkt_sent u)) w w') w)
    as ([r u'] & w' & Hrun & Hr & ? & ? & ? & ? & Hp & Ho).
  { eapply ul_send_spec; [done|done|done|]. intros ok u' w' Hwf' Hrange Hok Hmv Hem.
    destruct ok; [|by destruct Hok]. rewrite Hok, Z.add_0_r in Hem.
    destruct (sender_moved_frame _ _ Hmv) as (_ & _ & _ & _ & El). cbn [fst snd].
    split_and!; try done. destruct Hmv as (? & ? & ? & _ & _ & E). rewrite E. simpl.
    by rewrite Hok. }
  cbn [fst snd] in *. subst r. exists u', w'. by split_and!.
Qed.

Lemma ul_send_window_witness :
  exists u' w', @ul_send sample_env sample_ul sample_world = Some ((0, u'), w') /\
    last_pkt_sent u' = 1.
Proof.
  destruct (@ul_send_window sample_env zero_chunk sample_ul sample_world sample_peer
    sample_clock sample_ul_wf sample_ul_data sample_peer_get) as (u' & w' & H1 & _ & H2 & _).
  exists u', w'. split; [exact H1|exact H2].
Defined.

(** C22: [ul_handle_ack] is safe for any number, sends nothing, and does one of four
    things, as the table [ack_outcome] says: ignore it (0 to an unfinished sender
    clears the timeouts), count a duplicate, find a loss on the fourth, or take new
    data, by whose packets the window grows in slow start. *)
Theorem ul_handle_ack_outcome `{Env} (u : upload_t) (ack : Z) (w : World) :
  ul_wf u -> status u <> UL_STATUS_FAST_RECOVERY -> peer_ok (psvr w) (ul_p_index u) ->
  exists u' w', ul_handle_ack u ack w = Some (u', w') /\ ack_outcome u ack u' /\ ul_wf u' /\
    last_pkt_acked u <= last_pkt_acked u' <= max_pkt_sent u /\
    emits (winsize_any (psvr w) (ul_p_index u)) w w'.
Proof.
  intros Hwf Hst Hp.
  assert (wp (ul_handle_ack u ack) (fun u' w' => ack_outcome u ack u' /\
    emits (winsize_any (psvr w) (ul_p_index u)) w w') w) as (u' & w' & Hrun & Hout & Hem).
  { apply ul_handle_ack_spec; auto. }
  exists u', w'. split_and!; try done; [by eapply ack_outcome_wf|..].
  - by apply (ack_outcome_frame _ _ _ Hout Hst).
  - destruct Hwf. destruct Hout as [_ ->|n u1 _ _ _ _ _ H6 _ ->|n n' _ _ _ _ _ _ _ _ H7|u1 H1 H2 ->];
      simpl; [case_match; simpl; lia|rewrite (noted_frame _ _ H6); simpl; lia|
      rewrite (noted_frame _ _ H7); simpl; lia|lia].
Qed.

(** The diagram of the congestion control states, on acknowledgements. *)
Inductive cc_edge : ul_status -> ul_status -> Prop :=
  | edge_stay s : cc_edge s s
  | edge_threshold : cc_edge UL_STATUS_SLOW_START UL_STATUS_CONGESTION_AVOIDANCE
  | edge_loss_SS : cc_edge UL_STATUS_SLOW_START UL_STATUS_FAST_RETRANSMIT
  | edge_loss_CA : cc_edge UL_STATUS_CONGESTION_AVOIDANCE UL_STATUS_FAST_RETRANSMIT
  | edge_resent : cc_edge UL_STATUS_FAST_RETRANSMIT UL_STATUS_FAST_RETRANSMIT_SS
  | edge_FR_threshold : cc_edge UL_STATUS_FAST_RETRANSMIT_SS UL_STATUS_FAST_RETRANSMIT_CA
  | edge_exit_SS : cc_edge UL_STATUS_FAST_RETRANSMIT_SS UL_STATUS_SLOW_START
  | edge_exit_CA : cc_edge UL_STATUS_FAST_RETRANSMIT_CA UL_STATUS_CONGESTION_AVOIDANCE.

(** On an acknowledgement the congestion control state follows the edges of the
    diagram; in particular the retransmission variants of slow start and congestion
    avoidance ignore duplicates: no loss is found there, unlike in the states they
    imitate. *)
Theorem ul_handle_ack_edges `{Env} (u u' : upload_t) (ack : Z) (w w' : World) :
  ul_wf u -> status u <> UL_STATUS_FAST_RECOVERY -> peer_ok (psvr w) (ul_p_index u) ->
  ul_handle_ack u ack w = Some (u', w') -> cc_edge (status u) (status u').
Proof.
  intros Hwf Hst Hp Hrun.
  refine (wp_run _ (fun u' _ => cc_edge (status u) (status u')) _ _ _ _ Hrun).
  apply ul_handle_ack_spec; [done|done|done|]. intros u1 w1 Hout _.
  destruct Hout as [_ ->|n u2 _ _ Hcc _ _ H6 _ ->|n n' _ _ _ _ _ _ _ _ H7|u2 H1 H2 ->].
  - case_match; constructor.
  - unfold in_SS_or_CA in Hcc. simpl. destruct (status u); try discriminate; constructor.
  - rewrite (noted_frame _ _ H7). constructor.
  - simpl. unfold grow_status. destruct (status u); repeat case_match; constructor.
Qed.

Lemma ul_handle_ack_edges_witness :
  exists u' w', @ul_handle_ack sample_env sample_ul 0 sample_world = Some (u', w') /\
    cc_edge UL_STATUS_SLOW_START (status u').
Proof.
  eexists _, _. split.
  - reflexivity.
  - apply (@ul_handle_ack_edges sample_env sample_ul _ 0 sample_world sample_world sample_ul_wf).
    + discriminate.
    + unfold peer_ok. simpl. lia.
    + reflexivity.
Defined.

(** A duplicate in slow start or congestion avoidance is counted, the fourth is a loss. *)
Lemma dup_ack_step `{Env} u a n w (Q : upload_t -> World -> Prop) :
  ul_wf u -> in_SS_or_CA u = true -> ul_finished u = false -> peer_ok (psvr w) (ul_p_index u) ->
  0 < a -> a = last_pkt_acked u -> zget (ack_cnt u) a = Some n -> 0 <= n <= 3 ->
  (forall u' w', psvr w' = psvr w -> (n < 3 -> noted u u' /\ zget (ack_cnt u') a = Some (n + 1)) ->
     (n = 3 -> exists u1, noted u u1 /\ u' = loss_of u1) -> Q u' w') ->
  wp (ul_handle_ack u a) Q w.
Proof.
  intros Hwf Hcc Hfin Hp Ha -> Hn Hr HQ.
  assert (status u <> UL_STATUS_FAST_RECOVERY) as Hst.
  { intros E. unfold in_SS_or_CA in Hcc. by rewrite E in Hcc. }
  apply ul_handle_ack_spec; [done|done|done|]. intros u' w' Hout Hem.
  pose proof (wf_max _ Hwf). apply HQ; [by eauto with machine| |].
  - intros Hlt. destruct Hout as [Hbad _|n1 u1 _ _ _ Hn1 Hd _ _ _|n1 n' _ _ _ Hn1 Hn' Hd _ _ Hno|u1 ? _ _].
    + exfalso. destruct Hbad as [E|Hbad]; [congruence|lia].
    + exfalso. assert (n1 = n) as -> by congruence. rewrite s32_small in Hd by lia.
      unfold MAX_DUP_ACK in Hd. lia.
    + assert (n1 = n) as -> by congruence. split; [done|]. destruct (Hd Hcc) as [E _].
      rewrite s32_small in E by lia. congruence.
    + lia.
  - intros E. destruct Hout as [Hbad _|n1 u1 _ _ _ Hn1 Hd H6 _ ->|n1 n' _ _ _ Hn1 Hn' Hd _ _ Hno|u1 ? _ _].
    + exfalso. destruct Hbad as [E'|Hbad]; [congruence|lia].
    + eauto.
    + exfalso. assert (n1 = n) as -> by congruence. destruct (Hd Hcc) as [E' Hle].
      rewrite s32_small in E' by lia. unfold MAX_DUP_ACK in Hle. lia.
    + lia.
Qed.

(** C27: in slow start or congestion avoidance, after the first acknowledgement of a
    number, two repetitions change neither window nor state, and the third starts a
    fast retransmit: threshold half the window, at least 2, window 1, and sending
    restarts after the acknowledged packet. *)
Theorem fast_retransmit_on_third_duplicate `{Env} (u : upload_t) (a : Z) (w : World) :
  ul_wf u -> in_SS_or_CA u = true -> ul_finished u = false -> peer_ok (psvr w) (ul_p_index u) ->
  0 < a -> a = last_pkt_acked u -> zget (ack_cnt u) a = Some 1 ->
  exists u1 w1 u2 w2 u3 w3,
    ul_handle_ack u a w = Some (u1, w1) /\ ul_handle_ack u1 a w1 = Some (u2, w2) /\
    ul_handle_ack u2 a w2 = Some (u3, w3) /\
    status u1 = status u /\ status u2 = status u /\ window_size u2 = window_size u /\
    last_pkt_sent u2 = last_pkt_sent u /\
    status u3 = UL_STATUS_FAST_RETRANSMIT /\ window_size u3 = 1 /\
    ss_threshold u3 = Z.max (window_size u / 2) 2 /\ last_pkt_sent u3 = a.
Proof.
  intros Hwf Hcc Hfin Hp Ha Hl Hn.
  assert (forall v, noted u v -> ul_wf v /\ in_SS_or_CA v = true /\ ul_finished v = false /\
    ul_p_index v = ul_p_index u /\ last_pkt_acked v = last_pkt_acked u /\ status v = status u /\
    window_size v = window_size u /\ last_pkt_sent v = last_pkt_sent u) as Hv.
  { intros v Hv. split; [by eapply noted_wf|]. by rewrite (noted_frame _ _ Hv). }
  assert (wp (ul_handle_ack u a) (fun u1 w1 => psvr w1 = psvr w /\ noted u u1 /\
    zget (ack_cnt u1) a = Some 2) w) as (u1 & w1 & R1 & E1 & N1 & C1).
  { eapply dup_ack_step; [done..|lia|]. intros u' w' Ew H3 _. destruct H3; [lia|done]. }
  destruct (Hv u1 N1) as (Hwf1 & Hcc1 & Hf1 & Hp1 & Hl1 & Hs1 & _).
  assert (wp (ul_handle_ack u1 a) (fun u2 w2 => psvr w2 = psvr w /\ noted u1 u2 /\
    zget (ack_cnt u2) a = Some 3) w1) as (u2 & w2 & R2 & E2 & N2 & C2).
  { eapply dup_ack_step; [done|done|done|by rewrite E1, Hp1|done|congruence|done|lia|].
    intros u' w' Ew H3 _. destruct H3; [lia|]. split; [congruence|done]. }
  pose proof (noted_trans _ _ _ N1 N2) as N12.
  destruct (Hv u2 N12) as (Hwf2 & Hcc2 & Hf2 & Hp2 & Hl2 & Hs2 & Hw2 & Hls2).
  assert (wp (ul_handle_ack u2 a) (fun u3 w3 => exists v, noted u2 v /\ u3 = loss_of v) w2)
    as (u3 & w3 & R3 & v & N3 & ->).
  { eapply dup_ack_step; [done|done|done|by rewrite E2, Hp2|done|congruence|done|lia|].
    intros u' w' Ew _ H3. by apply H3. }
  destruct (Hv v (noted_trans _ _ _ N12 N3)) as (_ & _ & _ & _ & Hlv & _ & Hwv & _).
  exists u1, w1, u2, w2, (loss_of v), w3. simpl. split_and!; try done; congruence.
Qed.

(** A sender in the middle of a chunk, packet 1 acknowledged once. *)
Definition mid_chunk (d : mapping) : upload_t :=
  (ul_start 0 0) .{ ul_data := d } .{ last_pkt_acked := 1 } .{ last_pkt_sent := 9 }
    .{ max_pkt_sent := 9 } .{ window_size := 8 } .{ ack_cnt := 0 :: 1 :: zeros 511 }.
Lemma mid_chunk_wf d : ul_wf (mid_chunk d).
Proof.
  assert (zlen (0 :: 1 :: zeros 511) = CHUNK_PKTS + 1) as Hc by reflexivity.
  assert (zlen (zeros (CHUNK_PKTS + 1)) = CHUNK_PKTS + 1) as Hz by reflexivity.
  constructor; simpl; rewrite CHUNK_PKTS_eq in *; unfold DEFAULT_TIMEOUT; try done; try lia.
Qed.
Definition sample_mid : upload_t := mid_chunk (data_mapped zero_chunk).
Definition expired_mid (d : mapping) : upload_t := (mid_chunk d) .{ seq_timeout := replicate 513 1 }.
Lemma ul_wf_timers u ts : ul_wf u -> zlen ts = CHUNK_PKTS + 1 -> ul_wf (u .{ seq_timeout := ts }).
Proof. intros [] Hts. by split. Qed.
Lemma expired_mid_wf d : ul_wf (expired_mid d).
Proof. apply ul_wf_timers; [apply mid_chunk_wf|reflexivity]. Qed.
Definition sample_expired : upload_t := expired_mid (data_mapped zero_chunk).
Lemma sample_expired_wf : ul_wf sample_expired.
Proof. apply expired_mid_wf. Qed.
Lemma sample_mid_data : ul_has_data sample_mid zero_chunk.
Proof. split; [reflexivity|apply zero_chunk_length]. Qed.
Lemma sample_expired_data : ul_has_data sample_expired zero_chunk.
Proof. split; [reflexivity|apply zero_chunk_length]. Qed.
Lemma sample_mid_wf : ul_wf sample_mid.
Proof. apply mid_chunk_wf. Qed.

(** Packets 2 to 5 acknowledged at once in slow start: the window of 8 grows by the
    distance, to 12. *)
Lemma ul_handle_ack_outcome_witness :
  exists u' w', @ul_handle_ack sample_env sample_mid 5 sample_world = Some (u', w') /\
    last_pkt_acked u' = 5 /\ window_size u' = 12.
Proof.
  destruct (@ul_handle_ack_outcome sample_env sample_mid 5 sample_world sample_mid_wf)
    as (u' & w' & H1 & Hout & _).
  - discriminate.
  - unfold peer_ok. simpl. lia.
  - exists u', w'. split; [exact H1|].
    destruct Hout as [Hig _|n u1 _ _ _ Hn Hd _ _ _|n n' _ Hd _ _ _ _ _ _ _|u1 _ Hno ->].
    + exfalso. destruct Hig as [Hf|Hig]; [discriminate Hf|simpl in Hig; lia].
    + exfalso. injection Hn as <-. vm_compute in Hd. discriminate Hd.
    + exfalso. simpl in Hd. lia.
    + split; reflexivity.
Defined.

Lemma fast_retransmit_on_third_duplicate_witness :
  exists u1 w1 u2 w2 u3 w3,
    @ul_handle_ack sample_env sample_mid 1 sample_world = Some (u1, w1) /\
    @ul_handle_ack sample_env u1 1 w1 = Some (u2, w2) /\
    @ul_handle_ack sample_env u2 1 w2 = Some (u3, w3) /\
    ss_threshold u3 = 4.
Proof.
  destruct (@fast_retransmit_on_third_duplicate sample_env sample_mid 1 sample_world sample_mid_wf)
    as (u1 & w1 & u2 & w2 & u3 & w3 & R1 & R2 & R3 & _ & _ & _ & _ & _ & _ & E & _).
  - reflexivity.
  - reflexivity.
  - unfold peer_ok. simpl. lia.
  - lia.
  - reflexivity.
  - reflexivity.
  - exists u1, w1, u2, w2, u3, w3. split; [exact R1|]. split; [exact R2|]. split; [exact R3|exact E].
Defined.

(** C34: [ul_check_timeout] is safe and, exactly when the timer of the first
    unacknowledged packet has run out, falls back to a window of 1 and sends again that
    packet, and no other; before that it sends nothing. It logs window sizes and changes
    nothing else of the server. *)
Theorem ul_timeout_retransmits `{Env} (b : list Z) (u : upload_t) (w : World) (peer : Peer) :
  ul_wf u -> ul_has_data u b ->
  zget (peers (peerlist (psvr w))) (ul_p_index u) = Some peer ->
  exists r u' resent w1 w', ul_check_timeout u w = Some ((r, u'), w') /\
    timeout_outcome u (timestamp_of (gettimeofday (tick w))) r u' resent /\ ul_wf u' /\
    emits (winsize_any (psvr w) (ul_p_index u)) w w1 /\
    emitted match resent with
            | Some i => data_events (sock (psvr w)) (addr peer) b i 1
            | None => []
            end w1 w'.
Proof.
  intros Hwf Hdata Hpeer.
  assert (wp (ul_check_timeout u) (fun ru w' => exists resent w1,
    timeout_outcome u (timestamp_of (gettimeofday (tick w))) (fst ru) (snd ru) resent /\
    ul_wf (snd ru) /\
    emits (winsize_any (psvr w) (ul_p_index u)) w w1 /\
    emitted match resent with
            | Some i => data_events (sock (psvr w)) (addr peer) b i 1
            | None => []
            end w1 w') w) as ([r u'] & w' & Hrun & resent & w1 & ? & ? & ? & ?).
  { eapply ul_check_timeout_spec; [done|done|done|]. intros. eauto 10. }
  exists r, u', resent, w1, w'. auto.
Qed.

Lemma ul_timeout_retransmits_witness :
  exists r u' w', @ul_check_timeout sample_env sample_mid sample_world = Some ((r, u'), w').
Proof.
  destruct (@ul_timeout_retransmits sample_env zero_chunk sample_mid sample_world sample_peer
    sample_mid_wf sample_mid_data sample_peer_get) as (r & u' & resent & w1 & w' & H1 & _).
  exists r, u', w'. exact H1.
Defined.

(** The timeout does not back off: whenever a timer runs out, [ul_check_timeout]
    counts it and the round-trip estimate, whose double is the next timeout, becomes
    at most 1250 ms, so that an estimate above that (the initial one is 2500) shrinks
    to it. *)
Theorem timeout_shrinks_rtt `{Env} (b : list Z) (u : upload_t) (w : World) (peer : Peer) :
  ul_wf u -> ul_has_data u b ->
  zget (peers (peerlist (psvr w))) (ul_p_index u) = Some peer ->
  ul_finished u = false -> timer_expired u (timestamp_of (gettimeofday (tick w))) = true ->
  exists r u' w', ul_check_timeout u w = Some ((r, u'), w') /\
    r = s32 (ul_timeout_cnt u + 1) /\ ul_timeout_cnt u' = r /\
    ul_rtt u' <= 1250 /\ (1250 < ul_rtt u < 2 ^ 31 -> ul_rtt u' = 1250).
Proof.
  intros Hwf Hdata Hpeer Hfin Hexp.
  assert (wp (ul_check_timeout u) (fun ru w' => exists resent,
    timeout_outcome u (timestamp_of (gettimeofday (tick w))) (fst ru) (snd ru) resent) w)
    as ([r u'] & w' & Hrun & resent & Hout).
  { eapply ul_check_timeout_spec; [done|done|done|]. eauto. }
  exists r, u', w'. split; [done|]. cbn [fst snd] in Hout.
  destruct Hout as [Hf|u1 _ Hno _|u1 u2 _ _ (win & ts & _ & ->) _ Hm _]; [congruence..|].
  destruct Hm as (? & ? & ? & _ & _ & ->). simpl. rewrite C_MIN_min.
  unfold DEFAULT_TIMEOUT. change (5 * 1000 / 4) with 1250.
  split_and!; [done|done|lia|]. intros Hr. rewrite u32_small by lia. lia.
Qed.

Lemma timeout_shrinks_rtt_witness :
  exists r u' w', @ul_check_timeout sample_env sample_expired sample_world = Some ((r, u'), w') /\
    ul_rtt u' = 1250.
Proof.
  destruct (@timeout_shrinks_rtt sample_env zero_chunk sample_expired sample_world sample_peer
    sample_expired_wf sample_expired_data sample_peer_get) as (r & u' & w' & H1 & _ & _ & _ & H2).
  - reflexivity.
  - vm_compute. reflexivity.
  - exists r, u', w'. split; [exact H1|]. apply H2. split; reflexivity.
Defined.
