(* ===== verification/Download.v ===== *)
(** * Download: the receiver of a chunk (download.c, include/download.h)

    Packets that fall in the receive window are stored at the offset given by
    their number and the length of the first packet, and acknowledged
    cumulatively. As for uploads, the operations take the structure's value and
    return the new one. *)

From S2P Require Import Prelude RecvWin Sha Chunk ChunkList Machine Util Packet Sending.

Definition LOSS_ACK_NUM : Z := 3.

Section Code.
Context `{Env}.

Definition dl_init (p_index get_idx : Z) (fname : list Z) : M (Z * download_t) :=
  let d := dl_zero .{ next_pkt_expected := 1 } .{ dl_p_index := p_index }
                   .{ get_index := get_idx } in
  now <- get_timestamp_now ;;
  f <- lift (strcpy (filename d) fname) ;;
  ret (0, d .{ dl_ts := now } .{ filename := f } .{ rwin := init_recvwin }).

(** Returns the acknowledgement and the structure with its window moved. *)
Definition get_ack (d : download_t) : option (Z * download_t) :=
  r ← recvwin_slideack (rwin d);
  let d := d .{ rwin := r } .{ next_pkt_expected := next_seq r } in
  Some (u32 (next_pkt_expected d - 1), d).

(** [ack] is an [int]. *)
Definition send_ack (p_index ack : Z) : M Z :=
  sk <- gets sock ;;
  send_packet (PKT_PARAM_CLEAR .{ pp_socket := sk } .{ pp_p_index := p_index }
    .{ pp_p_count := 1 } .{ pp_ack := u32 (s32 ack) } .{ pp_type := PACKET_TYPE_ACK }) ;;;
  ret 0.

(** [size_t] arithmetic; [MAX_OFFSET] and the lengths are [int]. *)
Definition pkt_offset (d : download_t) (sq : Z) : Z := u64 (u32 (sq - 1) * data_length d).

(** The round-trip estimate, or for the first packet the length of all. *)
Definition dl_note_pkt (d : download_t) (pkt : packet_t) : M download_t :=
  if started d && negb (block_update d) then
    r <- update_rtt (dl_rtt d) (dl_dev d) (dl_ts d) ;;
    ret (d .{ dl_rtt := fst r } .{ dl_dev := snd r })
  else ret (d .{ data_length := u64 (GET_DATA_LEN pkt) } .{ started := true }
              .{ block_update := false }).

(** Storing a packet that is not there yet. *)
Definition dl_store (d : download_t) (pkt : packet_t) : option download_t :=
  ex ← seq_exist_in (rwin d) (seq pkt);
  if ex : bool then Some d else
  data ← GET_DATA pkt (GET_DATA_LEN pkt);
  b ← zwrite (buffer d) (pkt_offset d (seq pkt)) data;
  r ← recvwin_mark (rwin d) (seq pkt);
  Some (d .{ buffer := b } .{ rwin := r }).

Definition dl_recv (d : download_t) (pkt : packet_t) : M (Z * download_t) :=
  if dl_finished d then ret (0, d) else
  d <- dl_note_pkt d pkt ;;
  let offset := pkt_offset d (seq pkt) in
  if negb (seq_fit_in (rwin d) (seq pkt)) || (u64 (offset + u64 (GET_DATA_LEN pkt)) >? BT_CHUNK_SIZE)
  then ret (-1, d) else
  d <- lift (dl_store d pkt) ;;
  a <- lift (get_ack d) ;;
  let '(ack, d) := a in
  send_ack (dl_p_index d) ack ;;;
  now <- get_timestamp_now ;;
  let d := d .{ dl_ts := now } .{ dl_timeout_cnt := 0 } in
  ret (0, if pkt_offset d (next_pkt_expected d) >=? BT_CHUNK_SIZE
          then d .{ dl_finished := true } else d).

(** [n] acknowledgements are left to send. *)
Fixpoint dl_loss_loop (n : nat) (d : download_t) : M download_t :=
  match n with
  | O => ret d
  | S n' =>
    a <- lift (get_ack d) ;;
    let '(ack, d) := a in
    send_ack (dl_p_index d) ack ;;;
    dl_loss_loop n' d
  end.
Definition dl_loss (d : download_t) : M download_t :=
  d <- dl_loss_loop (Z.to_nat LOSS_ACK_NUM) d ;;
  now <- get_timestamp_now ;;
  ret (d .{ dl_ts := now } .{ block_update := true }).

Definition dl_check_timeout (d : download_t) : M (Z * download_t) :=
  if dl_finished d then ret (-1, d) else
  now <- get_timestamp_now ;;
  if (0 =? dl_rtt d) && (u32 (now - dl_ts d) <? DEFAULT_TIMEOUT) then ret (dl_timeout_cnt d, d) else
  if u32 (now - dl_ts d) <? DEFAULT_TIMEOUT / 2 then ret (dl_timeout_cnt d, d) else
  let d := d .{ dl_timeout_cnt := s32 (dl_timeout_cnt d + 1) } in
  d <- dl_loss d ;;
  ret (dl_timeout_cnt d, d).

(** Marks a chunk of [psvr.getchunks]. *)
Definition set_get_state (s : PeerServer) (i : Z) (st : ChunkState) : option PeerServer :=
  c ← zget (chunks (getchunks s)) i;
  cs ← zset (chunks (getchunks s)) i (c .{ state := st });
  Some (s .{ getchunks := (getchunks s) .{ chunks := cs } }).

(** A new file is at position 0, where a failed [lseek] leaves it. *)
Definition dl_save_buffer (d : download_t) : M Z :=
  ok <- ask open_ok ;;
  if negb ok then ret (-1) else
  gc <- gets (fun s => chunks (getchunks s)) ;;
  line <- lift (zget gc (get_index d)) ;;
  place <- lift (int_mul (cl_id line) BT_CHUNK_SIZE) ;;
  sought <- ask lseek_ok ;;
  let pos := if sought : bool then place else 0 in
  n <- ask write_file ;;
  (if n >? 0 then emit (EvWrite (cstr (filename d)) pos (take (Z.to_nat n) (buffer d)))
   else ret tt) ;;;
  if n =? BT_CHUNK_SIZE then
    s <- gets id ;;
    s' <- lift (set_get_state s (get_index d) fetched) ;;
    modify (fun _ => s' .{ dl_remain := s32 (dl_remain s' - 1) }) ;;;
    s <- gets id ;;
    (if dl_remain s =? 0 then emit (EvGot (cstr (getchunk_file s))) else ret tt) ;;;
    ret 0
  else ret (-1).
End Code.

(** ** Memory safety against any packet *)

Record dl_safe (d : download_t) : Prop := {
  safe_bm : bm_wf (bm (rwin d));
  safe_buffer : zlen (buffer d) = BT_CHUNK_SIZE;
  safe_rtt : 0 <= dl_rtt d < 2 ^ 32;
  safe_dev : 0 <= dl_dev d < 2 ^ 32;
  safe_len : 0 <= data_length d <= MAX_PAYLOAD_SIZE }.

(** The product does not wrap. *)
Lemma pkt_offset_range d sq :
  0 <= data_length d <= MAX_PAYLOAD_SIZE -> 0 <= pkt_offset d sq < 2 ^ 43.
Proof.
  intros Hl. unfold pkt_offset. pose proof (u32_range (sq - 1)).
  unfold MAX_PAYLOAD_SIZE, PACKET_SIZE, HEADER_SIZE in Hl. rewrite u64_small; nia.
Qed.

(** What receiving never changes. *)
Definition dl_frame (d d' : download_t) : Prop :=
  get_index d' = get_index d /\ dl_p_index d' = dl_p_index d /\ filename d' = filename d.

Lemma dl_frame_refl d : dl_frame d d.
Proof. done. Qed.
Lemma dl_frame_trans d1 d2 d3 : dl_frame d1 d2 -> dl_frame d2 d3 -> dl_frame d1 d3.
Proof. intros (? & ? & ?) (? & ? & ?). split_and!; congruence. Qed.

Section Specs.
Context `{Env}.

(** An acknowledgement sent to peer [i]. *)
Definition ack_event (s : PeerServer) (i : Z) (e : event) : Prop :=
  exists peer a, zget (peers (peerlist s)) i = Some peer /\ 0 <= a < 2 ^ 32 /\
    e = EvSend (sock s) (addr peer) (ack_datagram a).

Lemma send_ack_spec i ack peer w (Q : Z -> World -> Prop) :
  zget (peers (peerlist (psvr w))) i = Some peer -> 0 <= ack < 2 ^ 32 ->
  (forall w', emitted [EvSend (sock (psvr w)) (addr peer) (ack_datagram ack)] w w' -> Q 0 w') ->
  wp (send_ack i ack) Q w.
Proof.
  intros Hpeer Hack HQ. unfold send_ack. wp_go.
  assert (u32 (s32 ack) = ack) as -> by mod_lia.
  eapply (send_packet_ack (sock (psvr w)) i ack); [done|done|].
  intros w' Hem. wp_go. by apply HQ.
Qed.

Lemma send_ack_any i ack w (Q : Z -> World -> Prop) :
  peer_ok (psvr w) i -> 0 <= ack < 2 ^ 32 ->
  (forall w', emits (ack_event (psvr w) i) w w' -> Q 0 w') ->
  wp (send_ack i ack) Q w.
Proof.
  intros Hp Hack HQ. destruct (zget_is_Some _ _ Hp) as [peer Hpeer].
  eapply send_ack_spec; [done|done|]. intros w' Hem. apply HQ.
  eapply emitted_emits; [exact Hem|]. apply Forall_singleton. by exists peer, ack.
Qed.

Lemma get_ack_total d :
  bm_wf (bm (rwin d)) -> exists ack r, get_ack d =
    Some (ack, d .{ rwin := r } .{ next_pkt_expected := next_seq r }) /\
    0 <= ack < 2 ^ 32 /\ bm_wf (bm r).
Proof.
  intros Hb. destruct (recvwin_slideack_total (rwin d) Hb) as (r & E & Hb').
  eexists _, r. unfold get_ack. rewrite E, option_bind_Some. split_and!; try done; apply u32_range.
Qed.

Lemma dl_note_pkt_safe P d pkt w (Q : download_t -> World -> Prop) :
  dl_safe d -> packet_valid pkt ->
  (forall d' w', dl_safe d' -> dl_frame d d' -> emits P w w' -> Q d' w') ->
  wp (dl_note_pkt d pkt) Q w.
Proof.
  intros [Hbm Hbuf Hrtt Hdev Hlen] Hpkt HQ. unfold dl_note_pkt. destruct (_ && _); wp_go.
  - apply (update_rtt_spec P); [done|done|]. intros r v w1 Hr Hv Hem. wp_go.
    apply HQ; [by split|done|done].
  - apply HQ; [|done|apply emits_refl]. split; try done. simpl.
    destruct Hpkt as (_ & _ & _ & ? & ? & _).
    unfold GET_DATA_LEN, MAX_PAYLOAD_SIZE, PACKET_SIZE, HEADER_SIZE in *.
    rewrite u64_small by lia. lia.
Qed.

Lemma dl_store_safe d pkt :
  dl_safe d -> packet_valid pkt ->
  u64 (pkt_offset d (seq pkt) + u64 (GET_DATA_LEN pkt)) <= BT_CHUNK_SIZE ->
  exists d', dl_store d pkt = Some d' /\ dl_safe d' /\ dl_frame d d'.
Proof.
  intros [Hbm Hbuf Hrtt Hdev Hlen] (Hwf & _ & _ & Hh & Hl & _) Hfit.
  pose proof Hwf as [_ Hpay]. destruct (DATA_OFFSET_range pkt) as [Ho1 Ho2]; [lia|].
  destruct (pkt_offset_range d (seq pkt) Hlen) as [Hoff1 Hoff2].
  unfold dl_store. destruct (seq_exist_in_total (rwin d) (seq pkt) Hbm) as [ex ->].
  rewrite option_bind_Some. destruct ex; [by exists d|].
  unfold GET_DATA_LEN, EXT_HEADER_SIZE, MAX_PAYLOAD_SIZE, PACKET_SIZE, HEADER_SIZE in *.
  destruct (zread_is_Some (payload pkt) (DATA_OFFSET pkt) (pkt_len pkt - hdr_len pkt))
    as [data Edata]; [lia..|]. pose proof (zread_length _ _ _ _ Edata) as Hdl.
  unfold GET_DATA. rewrite Edata, option_bind_Some.
  rewrite !u64_small in Hfit by (rewrite ?u64_small; lia).
  destruct (zwrite_is_Some (buffer d) (pkt_offset d (seq pkt)) data) as [b Eb]; [lia..|].
  destruct (recvwin_mark_total (rwin d) (seq pkt) Hbm) as (bm' & Er & Hbm').
  rewrite Eb, option_bind_Some, Er, option_bind_Some. eexists. split; [done|]. split; [|done].
  split; simpl; try done. by rewrite (zwrite_length _ _ _ _ Eb).
Qed.

Lemma dl_recv_safe d pkt w (Q : Z * download_t -> World -> Prop) :
  dl_safe d -> packet_valid pkt -> peer_ok (psvr w) (dl_p_index d) ->
  (forall r d' w', dl_safe d' -> dl_frame d d' ->
     emits (ack_event (psvr w) (dl_p_index d)) w w' -> Q (r, d') w') ->
  wp (dl_recv d pkt) Q w.
Proof.
  intros Hd Hpkt Hp HQ. unfold dl_recv. set (P := ack_event (psvr w) (dl_p_index d)) in *.
  destruct (dl_finished d).
  { wp_go. apply HQ; [done|apply dl_frame_refl|apply emits_refl]. }
  apply wp_bind, (dl_note_pkt_safe P); [done|done|]. intros d1 w1 Hd1 Hf1 Hem1.
  destruct (_ || _) eqn:Eout; [wp_go; by apply HQ|].
  apply orb_false_iff in Eout as [_ Esz]. wp_go.
  destruct (dl_store_safe d1 pkt Hd1 Hpkt) as (d2 & E2 & Hd2 & Hf2); [lia|].
  eapply wp_lift; [exact E2|]. wp_go.
  destruct (get_ack_total d2) as (ack & r & Er & Hack & Hbm'); [apply Hd2|].
  eapply wp_lift; [exact Er|]. wp_go.
  pose proof (dl_frame_trans _ _ _ Hf1 Hf2) as Hf.
  assert (psvr w1 = psvr w) as Ew by (by eauto with machine).
  change (dl_p_index (_ .{ next_pkt_expected := _ })) with (dl_p_index d2).
  assert (dl_p_index d2 = dl_p_index d) as Ep by apply Hf.
  apply send_ack_any; [rewrite Ew, Ep; done|done|]. rewrite Ew, Ep. fold P.
  intros w2 Hem2. wp_go. apply (get_timestamp_now_spec P). intros now w3 _ Hem3. wp_go.
  match goal with |- Q (_, ?x) _ => set (d3 := x) end.
  assert (dl_safe d3 /\ dl_frame d d3) as [? ?].
  { unfold d3. destruct Hd2. destruct (_ >=? _); (split; [by split|done]). }
  apply HQ; [done|done|]. eapply emits_trans; [exact Hem1|]. by eapply emits_trans.
Qed.

Lemma dl_loss_loop_safe n : forall d w (Q : download_t -> World -> Prop),
  dl_safe d -> peer_ok (psvr w) (dl_p_index d) ->
  (forall d' w', dl_safe d' -> dl_frame d d' ->
     emits (ack_event (psvr w) (dl_p_index d)) w w' -> Q d' w') ->
  wp (dl_loss_loop n d) Q w.
Proof.
  induction n as [|n IH]; intros d w Q Hd Hp HQ; cbn [dl_loss_loop].
  { wp_go. apply HQ; [done|done|apply emits_refl]. }
  wp_go. destruct (get_ack_total d) as (ack & r & Er & Hack & Hbm'); [apply Hd|].
  eapply wp_lift; [exact Er|]. wp_go.
  change (dl_p_index (_ .{ next_pkt_expected := _ })) with (dl_p_index d).
  apply send_ack_any; [done|done|]. intros w1 Hem1. wp_go.
  pose proof (emits_psvr _ _ _ Hem1) as Ew.
  apply IH; [by destruct Hd|by rewrite Ew|]. rewrite Ew. intros d' w' Hd' Hf' Hem'.
  apply HQ; [done|done|]. by eapply emits_trans.
Qed.

Lemma dl_check_timeout_safe d w (Q : Z * download_t -> World -> Prop) :
  dl_safe d -> peer_ok (psvr w) (dl_p_index d) ->
  (forall r d' w', dl_safe d' -> dl_frame d d' ->
     emits (ack_event (psvr w) (dl_p_index d)) w w' -> Q (r, d') w') ->
  wp (dl_check_timeout d) Q w.
Proof.
  intros Hd Hp HQ. unfold dl_check_timeout. set (P := ack_event (psvr w) (dl_p_index d)) in *.
  destruct (dl_finished d).
  { wp_go. apply HQ; [done|apply dl_frame_refl|apply emits_refl]. }
  wp_go. apply (get_timestamp_now_spec P). intros now w1 _ Hem1.
  pose proof (emits_psvr _ _ _ Hem1) as Ew.
  destruct (_ && _); [wp_go; by apply HQ|]. destruct (_ <? _); [wp_go; by apply HQ|].
  unfold dl_loss. wp_go. apply dl_loss_loop_safe; [by destruct Hd|simpl; by rewrite Ew|].
  simpl. rewrite Ew. intros d2 w2 Hd2 Hf2 Hem2. wp_go.
  apply (get_timestamp_now_spec P). intros now' w3 _ Hem3. wp_go.
  apply HQ; [by destruct Hd2|done|]. eapply emits_trans; [exact Hem1|]. by eapply emits_trans.
Qed.
End Specs.

(** ** What a receiver of well-formed data packets holds *)

(** The packets received, in order or ahead. *)
Definition received (win : WinSpec) (t : Z) : Prop := 1 <= t /\ (t < w_next win \/ t ∈ w_got win).

(** A packet that carries [data] as number [s]. *)
Definition carries (pkt : packet_t) (s : Z) (data : list Z) : Prop :=
  packet_valid pkt /\ hdr_len pkt = HEADER_SIZE /\ seq pkt = s /\
  pkt_len pkt = HEADER_SIZE + zlen data /\ take (length data) (payload pkt) = data.

(** The receiver's window stands for [win], and its buffer agrees with the chunk [b]
    on every packet received. *)
Record receiver_ok (d : download_t) (b : list Z) (win : WinSpec) : Prop := {
  ro_safe : dl_safe d;
  ro_rep : rwin_rep (rwin d) win;
  ro_next : w_next win <= CHUNK_PKTS + 1;
  ro_got : forall t, t ∈ w_got win -> t <= CHUNK_PKTS;
  ro_len : started d = true -> data_length d = PAYLOAD_SIZE;
  ro_data : forall t, received win t ->
    zread (buffer d) ((t - 1) * PAYLOAD_SIZE) PAYLOAD_SIZE = Some (pkt_slice b t) }.

(** Between two packets, moreover, the window has slid as far as it can, and the
    receiver is finished exactly when it has the whole chunk. *)
Definition receiver_inv (d : download_t) (b : list Z) (win : WinSpec) : Prop :=
  receiver_ok d b win /\ next_pkt_expected d = w_next win /\ (w_next win ∉ w_got win) /\
  (dl_finished d = true <-> w_next win = CHUNK_PKTS + 1).

Lemma received_slide r win t :
  rwin_rep r win -> received (spec_slide win) t <-> received win t.
Proof.
  intros Hrep. destruct (next_missing_spec _ _ Hrep) as (Hr & Hall & _).
  unfold received, spec_slide. simpl. rewrite elem_of_filter. split.
  - intros [Ht [Hlt|[_ Hin]]]; [|tauto]. split; [done|].
    destruct (decide (t < w_next win)); [by left|]. right. apply Hall. lia.
  - intros [Ht [Hlt|Hin]]; (split; [done|]); [left; lia|].
    destruct (decide (t < next_missing win)); [by left|]. right. split; [lia|done].
Qed.

Lemma received_mark win s t : received (spec_mark win s) t <-> received win t \/ (t = s /\ 1 <= s).
Proof.
  unfold received, spec_mark. simpl. rewrite elem_of_union, elem_of_singleton.
  split; [intros [? [?|[->|?]]]; tauto|]. intros [[? [?|?]]|[-> ?]]; tauto.
Qed.

Lemma get_ack_ok d b win :
  receiver_ok d b win ->
  exists r, get_ack d = Some (w_next (spec_slide win) - 1,
      d .{ rwin := r } .{ next_pkt_expected := next_seq r }) /\
    next_seq r = w_next (spec_slide win) /\
    receiver_ok (d .{ rwin := r } .{ next_pkt_expected := next_seq r }) b (spec_slide win) /\
    w_next win <= w_next (spec_slide win) /\ w_next (spec_slide win) ∉ w_got (spec_slide win).
Proof.
  intros [Hsafe Hrep Hnext Hgot Hlen Hdata].
  destruct (recvwin_slideack_rep _ _ Hrep) as (r & Er & Hrep').
  { unfold W_LIMIT, RECV_WINDOW_SIZE. rewrite CHUNK_PKTS_eq in Hnext. lia. }
  destruct (next_missing_spec _ _ Hrep) as (Hr & Hall & Hnot).
  assert (next_seq r = w_next (spec_slide win)) as Enx by apply Hrep'.
  assert (w_next (spec_slide win) <= CHUNK_PKTS + 1) as Hle.
  { simpl. destruct (decide (next_missing win <= w_next win)); [lia|].
    assert (next_missing win - 1 ∈ w_got win) as Hin by (apply Hall; lia).
    apply Hgot in Hin. lia. }
  assert (1 <= w_next (spec_slide win)) as Hge by apply Hrep'.
  exists r. unfold get_ack. rewrite Er, option_bind_Some, <- Enx. split_and!; try done; try lia.
  - simpl. rewrite u32_small; [done|]. rewrite CHUNK_PKTS_eq in Hle. lia.
  - split; simpl; try done.
    + destruct Hsafe. split; try done. apply Hrep'.
    + intros t. rewrite elem_of_filter. intros [_ Ht]. by apply Hgot.
    + intros t Ht. apply Hdata. by eapply received_slide.
  - rewrite Enx. simpl. lia.
  - rewrite Enx. simpl. rewrite elem_of_filter. tauto.
Qed.

Lemma carries_data pkt s data :
  carries pkt s data -> GET_DATA_LEN pkt = zlen data /\ GET_DATA pkt (GET_DATA_LEN pkt) = Some data.
Proof.
  intros (Hv & Hh & _ & Hl & Ht). destruct Hv as ([_ Hpay] & _ & _ & _ & Hmax & _).
  assert (GET_DATA_LEN pkt = zlen data) as E by (unfold GET_DATA_LEN; lia).
  split; [done|]. unfold GET_DATA, zread. rewrite E.
  assert (DATA_OFFSET pkt = 0) as ->.
  { unfold DATA_OFFSET, MAX_OFFSET, EXT_HEADER_SIZE. rewrite C_MIN_min, C_MAX_max, Hh. lia. }
  unfold MAX_PAYLOAD_SIZE, PACKET_SIZE, HEADER_SIZE in *.
  rewrite decide_True by lia. by rewrite Z2Nat.inj_0, drop_0, Nat2Z.id, Ht.
Qed.

Section Contract.
Context `{Env}.

Lemma dl_note_pkt_ok d b win pkt s w (Q : download_t -> World -> Prop) :
  receiver_ok d b win -> carries pkt s (pkt_slice b s) -> 1 <= s <= CHUNK_PKTS -> zlen b = BT_CHUNK_SIZE ->
  (forall d' w', receiver_ok d' b win -> dl_frame d d' -> data_length d' = PAYLOAD_SIZE ->
     next_pkt_expected d' = next_pkt_expected d -> dl_finished d' = dl_finished d ->
     emitted [] w w' -> Q d' w') ->
  wp (dl_note_pkt d pkt) Q w.
Proof.
  intros [Hsafe Hrep Hnext Hgot Hlen Hdata] Hpkt Hs Hb HQ. pose proof Hsafe as [? ? ? ? ?].
  unfold dl_note_pkt. destruct (started d && negb (block_update d)) eqn:Est.
  - wp_go. apply (update_rtt_spec (fun _ => False)); [done|done|].
    intros r v w1 Hr Hv Hem%emits_none. wp_go.
    apply andb_true_iff in Est as [Est _]. apply HQ; [|done|by apply Hlen|done|done|done].
    split; try done.
  - wp_go. destruct (carries_data _ _ _ Hpkt) as [El _]. rewrite El, pkt_slice_length by done.
    apply HQ; [|done|done|done|done|apply emitted_refl]. split; try done.
Qed.

(** A new packet is stored at its place; the others stay. *)
Lemma dl_store_ok d b win pkt s :
  receiver_ok d b win -> carries pkt s (pkt_slice b s) -> 1 <= s <= CHUNK_PKTS ->
  zlen b = BT_CHUNK_SIZE -> data_length d = PAYLOAD_SIZE -> in_window (w_next win) s ->
  exists d' win', dl_store d pkt = Some d' /\ receiver_ok d' b win' /\ dl_frame d d' /\
    data_length d' = PAYLOAD_SIZE /\ dl_finished d' = dl_finished d /\ w_next win' = w_next win /\
    (forall t, received win' t <-> received win t \/ t = s).
Proof.
  intros Hok Hpkt Hs Hb Hdl Hin. pose proof Hok as [Hsafe Hrep Hnext Hgot Hlen Hdata].
  assert (seq pkt = s) as Es by apply Hpkt. unfold dl_store. rewrite Es.
  rewrite (seq_exist_in_rep _ _ _ Hrep Hin), option_bind_Some.
  case_bool_decide as Hex.
  { exists d, win. split_and!; try done. intros t. split; [by left|].
    intros [? | ->]; [done|]. split; [lia|by right]. }
  destruct (carries_data _ _ _ Hpkt) as [_ Ed]. rewrite Ed, option_bind_Some.
  pose proof (pkt_slice_length b s Hb Hs) as Hsl.
  assert (pkt_offset d s = (s - 1) * PAYLOAD_SIZE) as Eo.
  { unfold pkt_offset. rewrite Hdl. rewrite CHUNK_PKTS_eq in Hs. unfold PAYLOAD_SIZE.
    rewrite u32_small, u64_small by lia. done. }
  rewrite Eo. destruct (zwrite_is_Some (buffer d) ((s - 1) * PAYLOAD_SIZE) (pkt_slice b s)) as [bf Ebf].
  { unfold PAYLOAD_SIZE. lia. }
  { rewrite (safe_buffer _ Hsafe), Hsl. change BT_CHUNK_SIZE with 524288. rewrite CHUNK_PKTS_eq in Hs.
    unfold PAYLOAD_SIZE. lia. }
  rewrite Ebf, option_bind_Some.
  destruct (recvwin_mark_rep _ _ _ Hrep Hin) as (r & Er & Hrep'). rewrite Er, option_bind_Some.
  assert (forall t, received (spec_mark win s) t <-> received win t \/ t = s) as Hrec.
  { intros t. rewrite received_mark. split; [tauto|]. intros [? | ->]; [by left|right; lia]. }
  eexists _, (spec_mark win s). split_and!; [done| |done|done|done|done|done].
  split; simpl; try done.
  - destruct Hsafe. split; simpl; try done; [by destruct Hrep'|].
    by rewrite (zwrite_length _ _ _ _ Ebf).
  - intros t. rewrite elem_of_union, elem_of_singleton. intros [->|Ht]; [lia|by apply Hgot].
  - intros t Ht. apply Hrec in Ht. destruct (decide (t = s)) as [->|Hne].
    + pose proof (zread_zwrite_eq _ _ _ _ Ebf) as Hrd. by rewrite Hsl in Hrd.
    + destruct Ht as [Ht|]; [|done]. rewrite (zread_zwrite_ne _ _ _ _ _ _ Ebf); [by apply Hdata|].
      rewrite Hsl. unfold PAYLOAD_SIZE. lia.
Qed.

(** [dl_recv] of a data packet: it is stored unless it was received before, the rest
    of the buffer stays, and the new cumulative acknowledgement is sent -- except that
    a packet from before the window, or for a finished receiver, is ignored silently. *)
Lemma dl_recv_ok d b win pkt s w peer (Q : Z * download_t -> World -> Prop) :
  receiver_inv d b win -> carries pkt s (pkt_slice b s) -> 1 <= s <= CHUNK_PKTS ->
  zlen b = BT_CHUNK_SIZE -> zget (peers (peerlist (psvr w))) (dl_p_index d) = Some peer ->
  (forall r d' w' win', receiver_inv d' b win' -> dl_frame d d' -> w_next win <= w_next win' ->
     (forall t, received win' t <-> received win t \/ t = s) ->
     emitted (if dl_finished d || (s <? w_next win) then []
              else [EvSend (sock (psvr w)) (addr peer) (ack_datagram (w_next win' - 1))]) w w' ->
     Q (r, d') w') ->
  wp (dl_recv d pkt) Q w.
Proof.
  intros (Hok & Hnx & Hnot & Hfin) Hpkt Hs Hb Hpeer HQ. unfold dl_recv.
  pose proof (ro_rep _ _ _ Hok) as Hrep.
  destruct (dl_finished d) eqn:Efin.
  { wp_go. apply (HQ _ _ _ win); [|done|done| |apply emitted_refl].
    { split_and!; [done|done|done|]. by rewrite Efin. }
    intros t. split; [by left|]. intros [? | ->]; [done|]. split; [lia|].
    left. destruct Hfin as [Hfin _]. specialize (Hfin eq_refl). lia. }
  apply wp_bind. eapply dl_note_pkt_ok; [done..|]. intros d1 w1 Hok1 Hf1 Hdl1 Hnx1 Hfin1 Hem1.
  assert (seq pkt = s) as Es by apply Hpkt. rewrite Es.
  destruct (carries_data _ _ _ Hpkt) as [El _]. rewrite El, pkt_slice_length by done.
  assert (pkt_offset d1 s = (s - 1) * PAYLOAD_SIZE) as Eo.
  { unfold pkt_offset. rewrite Hdl1. rewrite CHUNK_PKTS_eq in Hs. unfold PAYLOAD_SIZE.
    rewrite u32_small, u64_small by lia. done. }
  pose proof (ro_rep _ _ _ Hok1) as Hrep1.
  rewrite (seq_fit_in_rep _ _ _ Hrep1), Eo.
  assert ((u64 ((s - 1) * PAYLOAD_SIZE + u64 PAYLOAD_SIZE) >? BT_CHUNK_SIZE) = false) as ->.
  { rewrite CHUNK_PKTS_eq in Hs. unfold PAYLOAD_SIZE. change BT_CHUNK_SIZE with 524288.
    rewrite !u64_small by (rewrite ?u64_small; lia). lia. }
  rewrite orb_false_r. cbn [orb] in HQ.
  case_bool_decide as Hin; cbn [negb]; last first.
  { assert (s < w_next win) as Hlt.
    { unfold in_window, RECV_WINDOW_SIZE in Hin. rewrite CHUNK_PKTS_eq in Hs.
      destruct Hrep as (_ & _ & _ & ? & _). lia. }
    destruct (Z.ltb_spec s (w_next win)); [|lia]. wp_go. apply (HQ _ _ _ win); try done.
    - split_and!; [done|congruence|done|]. by rewrite Hfin1, Efin.
    - intros t. split; [by left|]. intros [? | ->]; [done|]. split; [lia|by left]. }
  destruct (Z.ltb_spec s (w_next win)); [unfold in_window in Hin; lia|].
  destruct (dl_store_ok d1 b win pkt s) as (d2 & win2 & E2 & Hok2 & Hf2 & Hdl2 & Hfin2 & Hn2 & Hrec2);
    [done..|]. wp_go. eapply wp_lift; [exact E2|]. wp_go.
  destruct (get_ack_ok d2 b win2 Hok2) as (r & Er & Hnr & Hok3 & Hmono & Hnot3).
  eapply wp_lift; [exact Er|]. wp_go.
  change (dl_p_index (_ .{ next_pkt_expected := _ })) with (dl_p_index d2).
  assert (dl_p_index d2 = dl_p_index d) as Ep.
  { destruct Hf1 as (_ & E1 & _), Hf2 as (_ & E3 & _). congruence. }
  pose proof (ro_next _ _ _ Hok3) as Hle. rewrite CHUNK_PKTS_eq in Hle.
  pose proof (ro_rep _ _ _ Hok3) as (_ & _ & _ & [Hge _] & _).
  eapply send_ack_spec; [by rewrite Ep, (proj1 Hem1)|lia|].
  intros w2 Hem2. wp_go. apply (get_timestamp_now_spec (fun _ => False)).
  intros now w3 _ Hem3%emits_none. wp_go.
  set (d3 := _ .{ dl_timeout_cnt := 0 }).
  assert ((pkt_offset d3 (next_pkt_expected d3) >=? BT_CHUNK_SIZE) =
    bool_decide (w_next (spec_slide win2) = CHUNK_PKTS + 1)) as ->.
  { unfold pkt_offset. change (next_pkt_expected d3) with (next_seq r).
    change (data_length d3) with (data_length d2). rewrite Hdl2, Hnr, CHUNK_PKTS_eq.
    change BT_CHUNK_SIZE with 524288. unfold PAYLOAD_SIZE.
    rewrite u32_small, u64_small by lia. case_bool_decide; lia. }
  rewrite CHUNK_PKTS_eq.
  apply (HQ _ _ _ (spec_slide win2)).
  - assert (receiver_ok (if bool_decide (w_next (spec_slide win2) = 512 + 1)
      then d3 .{ dl_finished := true } else d3) b (spec_slide win2)) as Hok4.
    { destruct Hok3 as [[] ? ? ? ? ?]. by case_bool_decide; split. }
    split; [exact Hok4|]. split; [by case_bool_decide|]. split; [exact Hnot3|].
    rewrite CHUNK_PKTS_eq. case_bool_decide; [done|].
    change (dl_finished d3) with (dl_finished d2). rewrite Hfin2, Hfin1, Efin. done.
  - case_bool_decide; by eapply (dl_frame_trans _ d2); [eapply dl_frame_trans|].
  - lia.
  - intros t. rewrite (received_slide _ _ _ (ro_rep _ _ _ Hok2)). rewrite Hrec2. done.
  - rewrite (proj1 Hem1) in Hem2. rewrite <- (app_nil_r [_]), <- (app_nil_l [_]).
    eapply emitted_trans; [eapply emitted_trans; [exact Hem1|exact Hem2]|exact Hem3].
Qed.

Lemma next_missing_slid r win :
  rwin_rep r win -> w_next win ∉ w_got win -> next_missing win = w_next win.
Proof.
  intros Hrep Hnot. destruct (next_missing_spec _ _ Hrep) as (? & Hall & _).
  destruct (decide (next_missing win = w_next win)); [done|].
  destruct Hnot. apply Hall. lia.
Qed.

(** Acknowledging again moves nothing. *)
Lemma dl_loss_loop_ok n b peer : forall d win w (Q : download_t -> World -> Prop),
  receiver_inv d b win -> zget (peers (peerlist (psvr w))) (dl_p_index d) = Some peer ->
  (forall d' win' w', receiver_inv d' b win' -> dl_frame d d' -> w_next win' = w_next win ->
     (forall t, received win' t <-> received win t) -> dl_timeout_cnt d' = dl_timeout_cnt d ->
     emitted (replicate n (EvSend (sock (psvr w)) (addr peer) (ack_datagram (w_next win - 1)))) w w' ->
     Q d' w') ->
  wp (dl_loss_loop n d) Q w.
Proof.
  induction n as [|n IH]; intros d win w Q Hinv Hpeer HQ; cbn [dl_loss_loop].
  { wp_go. eapply HQ; [done|done|done|done|done|apply emitted_refl]. }
  destruct Hinv as (Hok & Hnx & Hnot & Hfin).
  pose proof (next_missing_slid _ _ (ro_rep _ _ _ Hok) Hnot) as Enm.
  destruct (get_ack_ok d b win Hok) as (r & Er & Hnr & Hok' & _ & Hnot').
  assert (w_next (spec_slide win) = w_next win) as Ew by exact Enm.
  pose proof (ro_next _ _ _ Hok) as Hle. rewrite CHUNK_PKTS_eq in Hle.
  pose proof (ro_rep _ _ _ Hok) as (_ & _ & _ & [Hge _] & _).
  wp_go. eapply wp_lift; [exact Er|]. wp_go. rewrite Ew.
  change (dl_p_index (_ .{ next_pkt_expected := _ })) with (dl_p_index d).
  eapply send_ack_spec; [done|lia|]. intros w1 Hem1. wp_go.
  apply (IH _ (spec_slide win)).
  - split; [done|]. split; [exact Hnr|]. split; [done|]. by rewrite Ew.
  - simpl. by rewrite (proj1 Hem1).
  - intros d' win' w' Hinv' Hf' Hn' Hrec' Hcnt' Hem'. apply (HQ _ win'); [done|done|congruence| |done|].
    + intros t. rewrite Hrec'. apply (received_slide _ _ _ (ro_rep _ _ _ Hok)).
    + rewrite Ew, (proj1 Hem1) in Hem'. cbn [replicate]. by eapply (emitted_trans [_]).
Qed.

(** The timers are not part of it. *)
Lemma receiver_inv_timers d b win ts tc bu :
  receiver_inv d b win ->
  receiver_inv (d .{ dl_ts := ts } .{ dl_timeout_cnt := tc } .{ block_update := bu }) b win.
Proof.
  intros ([[] ? ? ? ? ?] & ? & ? & ?). split_and!; [split; try done; by split|done..].
Qed.

(** No data for long enough: 2.5 seconds, or 5 before the first estimate. *)
Definition dl_expired (d : download_t) (now : Z) : bool :=
  negb ((0 =? dl_rtt d) && (u32 (now - dl_ts d) <? DEFAULT_TIMEOUT)) &&
  negb (u32 (now - dl_ts d) <? DEFAULT_TIMEOUT / 2).
(** The acknowledgements repeated at a check, and what is reported. *)
Definition dl_repeats (d : download_t) (now : Z) : nat :=
  if negb (dl_finished d) && dl_expired d now then 3 else 0.
Definition dl_timeouts (d : download_t) (now : Z) : Z :=
  if dl_finished d then -1
  else if dl_expired d now then s32 (dl_timeout_cnt d + 1) else dl_timeout_cnt d.

(** [dl_check_timeout] keeps the contract; when the timer has run out, it repeats
    the cumulative acknowledgement three times. *)
Lemma dl_check_timeout_ok d b win w peer (Q : Z * download_t -> World -> Prop) :
  receiver_inv d b win -> zget (peers (peerlist (psvr w))) (dl_p_index d) = Some peer ->
  (forall d' win' w', receiver_inv d' b win' -> dl_frame d d' ->
     w_next win' = w_next win -> (forall t, received win' t <-> received win t) ->
     emitted (replicate (dl_repeats d (timestamp_of (gettimeofday (tick w))))
       (EvSend (sock (psvr w)) (addr peer) (ack_datagram (w_next win - 1)))) w w' ->
     Q (dl_timeouts d (timestamp_of (gettimeofday (tick w))), d') w') ->
  wp (dl_check_timeout d) Q w.
Proof.
  intros Hinv Hpeer HQ. unfold dl_check_timeout, dl_repeats, dl_timeouts in *.
  destruct (dl_finished d).
  { wp_go. eapply (HQ _ win); try done. apply emitted_refl. }
  wp_go. apply (get_timestamp_now_read (fun _ => False)). intros w1 Hem1%emits_none.
  set (now := timestamp_of _) in *. unfold dl_expired in HQ.
  destruct ((0 =? dl_rtt d) && _); [wp_go; by eapply (HQ _ win)|].
  destruct (u32 _ <? _); [wp_go; by eapply (HQ _ win)|]. cbn [negb andb] in HQ.
  unfold dl_loss. wp_go. change (Z.to_nat LOSS_ACK_NUM) with 3%nat.
  apply (dl_loss_loop_ok 3 b peer _ win).
  - exact (receiver_inv_timers _ _ _ (dl_ts d) _ (block_update d) Hinv).
  - simpl. by rewrite (proj1 Hem1).
  - intros d2 win2 w2 Hinv2 Hf2 Hn2 Hrec2 Hcnt Hem2. wp_go.
    apply (get_timestamp_now_spec (fun _ => False)). intros now' w3 _ Hem3%emits_none. wp_go.
    cbn [dl_timeout_cnt upd]. simpl in Hcnt. rewrite Hcnt.
    apply (HQ _ win2); try done.
    + exact (receiver_inv_timers _ _ _ _ _ _ Hinv2).
    + rewrite (proj1 Hem1) in Hem2. rewrite <- (app_nil_l (replicate _ _)), <- (app_nil_r (replicate _ _)).
      eapply emitted_trans; [exact Hem1|]. by eapply emitted_trans.
Qed.

Lemma receiver_inv_init d b :
  rwin d = init_recvwin -> zlen (buffer d) = BT_CHUNK_SIZE -> dl_rtt d = 0 -> dl_dev d = 0 ->
  data_length d = 0 -> started d = false -> next_pkt_expected d = 1 -> dl_finished d = false ->
  receiver_inv d b {| w_next := 1; w_got := ∅ |}.
Proof.
  intros Hw Hb Hr Hd Hl Hs Hn Hf.
  split; [split|split; [done|split; [apply not_elem_of_empty|]]].
  - split; rewrite ?Hw, ?Hr, ?Hd, ?Hl; try done. apply init_recvwin_rep.
  - rewrite Hw. apply init_recvwin_rep.
  - done.
  - intros t Ht. by apply elem_of_empty in Ht.
  - congruence.
  - intros t [Ht [Hlt|Hin]]; cbn [w_next w_got] in *; [lia|]. by apply elem_of_empty in Hin.
  - rewrite Hf, CHUNK_PKTS_eq. cbn [w_next]. split; [done|lia].
Qed.

(** A download that waits for the first packet, of whatever chunk. *)
Definition fresh (d : download_t) : Prop := forall b, receiver_inv d b {| w_next := 1; w_got := ∅ |}.

Lemma fresh_unfinished d : fresh d -> dl_finished d = false.
Proof.
  intros Hd. destruct (Hd []) as (_ & _ & _ & [Hf _]). destruct (dl_finished d); [|done].
  specialize (Hf eq_refl). rewrite CHUNK_PKTS_eq in Hf. cbn [w_next] in Hf. lia.
Qed.

(** A download starts empty. *)
Lemma dl_init_spec j k fname w (Q : Z * download_t -> World -> Prop) f :
  strcpy (filename dl_zero) fname = Some f ->
  (forall d w', fresh d -> dl_p_index d = j ->
     get_index d = k -> filename d = f -> emitted [] w w' -> Q (0, d) w') ->
  wp (dl_init j k fname) Q w.
Proof.
  intros Hf HQ. unfold dl_init. wp_go. apply (get_timestamp_now_spec (fun _ => False)).
  intros now w1 _ Hem%emits_none. wp_go. eapply wp_lift; [exact Hf|]. wp_go.
  apply HQ; [|reflexivity|reflexivity|reflexivity|exact Hem].
  intros b. apply receiver_inv_init; [reflexivity| |reflexivity..].
  exact zero_chunk_length.
Qed.
End Contract.

(** ** Properties *)

(** A receiver and the first data packet of a chunk, as the examples use them. *)
Definition sample_dl : download_t := dl_zero .{ rwin := init_recvwin } .{ next_pkt_expected := 1 }.
Lemma sample_dl_inv b : receiver_inv sample_dl b {| w_next := 1; w_got := ∅ |}.
Proof. apply receiver_inv_init; [reflexivity|exact zero_chunk_length|reflexivity..]. Qed.

Definition data_pkt (s : Z) (data rest : list Z) : packet_t :=
  (mk_header PACKET_TYPE_DATA (HEADER_SIZE + zlen data) s 0) .{ payload := data ++ rest }.

Lemma data_pkt_carries s data rest :
  0 <= s < 2 ^ 32 -> zlen (data ++ rest) = MAX_PAYLOAD_SIZE -> carries (data_pkt s data rest) s data.
Proof.
  intros Hs Hlen. split_and!; [|reflexivity|reflexivity|reflexivity|apply take_app_length].
  pose proof Hlen as Hl. rewrite length_app in Hl.
  unfold MAX_PAYLOAD_SIZE, PACKET_SIZE, HEADER_SIZE in Hl.
  split; [split; [apply mk_header_wf|exact Hlen]; try done; unfold HEADER_SIZE; lia|].
  change (pkt_len (data_pkt s data rest)) with (HEADER_SIZE + zlen data).
  change (hdr_len (data_pkt s data rest)) with HEADER_SIZE.
  change (type (data_pkt s data rest)) with PACKET_TYPE_DATA.
  split_and!; try done; unfold PACKET_SIZE, HEADER_SIZE, PACKET_TYPE_WHOHAS, PACKET_TYPE_IHAVE,
    PACKET_TYPE_GET, PACKET_TYPE_DATA, PACKET_TYPE_ACK; lia.
Qed.

(** [dl_recv] is memory safe for every packet [valid_packet] lets through, whatever
    its numbers and lengths, and whatever the state of a receiver whose buffer is a
    chunk: the copy stays in the buffer, the bitmap is never indexed out of range, and
    all it does outside is to acknowledge to its peer. *)
Theorem dl_recv_memory_safe `{Env} (d : download_t) (pkt : packet_t) (w : World) :
  dl_safe d -> packet_wf pkt -> valid_packet pkt = Some true -> peer_ok (psvr w) (dl_p_index d) ->
  exists r d' w', dl_recv d pkt w = Some ((r, d'), w') /\ dl_safe d' /\ dl_frame d d' /\
    emits (ack_event (psvr w) (dl_p_index d)) w w'.
Proof.
  intros Hd Hwf Hv Hp.
  assert (packet_valid pkt) as Hpkt.
  { destruct (valid_packet_spec pkt Hwf) as (v & E & Hb). rewrite E in Hv. by apply Hb; injection Hv. }
  assert (wp (dl_recv d pkt) (fun rd w' => dl_safe (snd rd) /\ dl_frame d (snd rd) /\
    emits (ack_event (psvr w) (dl_p_index d)) w w') w) as ([r d'] & w' & Hrun & Hs).
  { apply dl_recv_safe; auto. }
  by exists r, d', w'.
Qed.

(** The receiver takes a packet that lies far beyond its buffer. *)
Lemma dl_recv_memory_safe_witness :
  exists r d' w', @dl_recv sample_env sample_dl (data_pkt (2 ^ 32 - 1) [] (zeros 1484)) sample_world
    = Some ((r, d'), w').
Proof.
  destruct (@dl_recv_memory_safe sample_env sample_dl (data_pkt (2 ^ 32 - 1) [] (zeros 1484)) sample_world)
    as (r & d' & w' & E & _).
  - apply (ro_safe _ zero_chunk {| w_next := 1; w_got := ∅ |}), sample_dl_inv.
  - apply (data_pkt_carries (2 ^ 32 - 1) [] (zeros 1484)); [done|reflexivity].
  - reflexivity.
  - split; reflexivity || lia.
  - by exists r, d', w'.
Defined.

(** C15: [dl_recv] of packet [s] of a chunk, in whatever order packets come and however
    often: [s] is added to what was received and nothing else, the buffer agrees with
    the chunk on all of it, and the first number missing is acknowledged, unless [s] is
    below the window or the chunk complete. *)
Theorem dl_recv_contract `{Env} (d : download_t) (b : list Z) (win : WinSpec) (pkt : packet_t)
    (s : Z) (w : World) (peer : Peer) :
  receiver_inv d b win -> carries pkt s (pkt_slice b s) -> 1 <= s <= CHUNK_PKTS ->
  zlen b = BT_CHUNK_SIZE -> zget (peers (peerlist (psvr w))) (dl_p_index d) = Some peer ->
  exists r d' w' win', dl_recv d pkt w = Some ((r, d'), w') /\ receiver_inv d' b win' /\
    dl_frame d d' /\ w_next win <= w_next win' /\
    (forall t, received win' t <-> received win t \/ t = s) /\
    emitted (if dl_finished d || (s <? w_next win) then []
             else [EvSend (sock (psvr w)) (addr peer) (ack_datagram (w_next win' - 1))]) w w'.
Proof.
  intros Hinv Hpkt Hs Hb Hpeer.
  assert (wp (dl_recv d pkt) (fun rd w' => exists win', receiver_inv (snd rd) b win' /\
    dl_frame d (snd rd) /\ w_next win <= w_next win' /\
    (forall t, received win' t <-> received win t \/ t = s) /\
    emitted (if dl_finished d || (s <? w_next win) then []
             else [EvSend (sock (psvr w)) (addr peer) (ack_datagram (w_next win' - 1))]) w w') w)
    as ([r d'] & w' & Hrun & win' & Hpost).
  { eapply dl_recv_ok; [done..|]. intros r d' w' win' ? ? ? ? ?. exists win'. auto. }
  by exists r, d', w', win'.
Qed.

Lemma dl_recv_contract_witness :
  exists r d' w' win',
    @dl_recv sample_env sample_dl (data_pkt 2 (pkt_slice zero_chunk 2) (zeros 460)) sample_world
      = Some ((r, d'), w') /\ receiver_inv d' zero_chunk win' /\ received win' 2.
Proof.
  assert (1 <= 2 <= CHUNK_PKTS) as H2 by (rewrite CHUNK_PKTS_eq; lia).
  assert (zlen (pkt_slice zero_chunk 2 ++ zeros 460) = MAX_PAYLOAD_SIZE) as Hlen.
  { pose proof (pkt_slice_length zero_chunk 2 zero_chunk_length H2) as Hl.
    rewrite length_app. change (length (zeros 460)) with 460%nat.
    unfold PAYLOAD_SIZE, MAX_PAYLOAD_SIZE, PACKET_SIZE, HEADER_SIZE in *. lia. }
  destruct (@dl_recv_contract sample_env sample_dl zero_chunk {| w_next := 1; w_got := ∅ |}
    (data_pkt 2 (pkt_slice zero_chunk 2) (zeros 460)) 2 sample_world sample_peer)
    as (r & d' & w' & win' & E & Hinv & _ & _ & Hrec & _).
  - apply sample_dl_inv.
  - apply (data_pkt_carries 2 (pkt_slice zero_chunk 2) (zeros 460)); [split; reflexivity || lia|exact Hlen].
  - exact H2.
  - exact zero_chunk_length.
  - reflexivity.
  - exists r, d', w', win'. split; [exact E|]. split; [exact Hinv|]. apply Hrec. by right.
Defined.

(** C35: [dl_check_timeout] loses nothing received; exactly when no data came for 2.5
    seconds (5 before the first estimate) and the chunk is incomplete, it returns a
    count of timeouts that is one higher and sends three times the acknowledgement of
    the last packet before the first missing one. *)
Theorem dl_timeout_contract `{Env} (d : download_t) (b : list Z) (win : WinSpec) (w : World) (peer : Peer) :
  receiver_inv d b win -> zget (peers (peerlist (psvr w))) (dl_p_index d) = Some peer ->
  let now := timestamp_of (gettimeofday (tick w)) in
  exists d' w' win', dl_check_timeout d w = Some ((dl_timeouts d now, d'), w') /\
    receiver_inv d' b win' /\ w_next win' = w_next win /\
    (forall t, received win' t <-> received win t) /\
    emitted (replicate (dl_repeats d now)
      (EvSend (sock (psvr w)) (addr peer) (ack_datagram (w_next win - 1)))) w w'.
Proof.
  intros Hinv Hpeer now.
  assert (wp (dl_check_timeout d) (fun rd w' => fst rd = dl_timeouts d now /\ exists win',
    receiver_inv (snd rd) b win' /\ w_next win' = w_next win /\
    (forall t, received win' t <-> received win t) /\
    emitted (replicate (dl_repeats d now)
      (EvSend (sock (psvr w)) (addr peer) (ack_datagram (w_next win - 1)))) w w') w)
    as ([r d'] & w' & Hrun & Er & win' & Hpost).
  { eapply dl_check_timeout_ok; [done|done|]. intros d' win' w' ? _ ? ? ?.
    split; [done|]. exists win'. auto. }
  cbn [fst snd] in *. subst r. by exists d', w', win'.
Qed.

(** The first packet is awaited for nine seconds. *)
Lemma dl_timeout_contract_witness :
  exists d' w', @dl_check_timeout sample_env sample_dl (sample_world .{ tick := 9%nat }) = Some ((1, d'), w') /\
    out w' = replicate 3 (EvSend 3 (addr sample_peer) (ack_datagram 0)).
Proof.
  destruct (@dl_timeout_contract sample_env sample_dl zero_chunk {| w_next := 1; w_got := ∅ |}
    (sample_world .{ tick := 9%nat }) sample_peer) as (d' & w' & win' & E & _ & _ & _ & _ & Hout).
  - apply sample_dl_inv.
  - reflexivity.
  - exists d', w'. split; [exact E|exact Hout].
Defined.
