(* ===== verification/SendHelper.v ===== *)
(** * SendHelper: requests, answers and the bookkeeping of transfers (send_helper.c)

    The operations that announce and ask for chunks, and those that start, update
    and stop the transfers of the server, with its counters. *)

From S2P Require Import Prelude LinkedList Sha Chunk ChunkList Machine Util Packet Sending Upload Download.

Section Code.
Context `{Env}.

(** [psvr.peerlist.peers[i]], read and written. *)
Definition get_peer (i : Z) : M Peer :=
  ps <- gets (fun s => peers (peerlist s)) ;; lift (zget ps i).
Definition set_peer (i : Z) (p : Peer) : M unit :=
  ps <- gets (fun s => peers (peerlist s)) ;;
  ps' <- lift (zset ps i p) ;;
  modify (fun s => s .{ peerlist := (peerlist s) .{ peers := ps' } }).

(** [psvr.getchunks.chunks[i].state = st]. *)
Definition mark_chunk (i : Z) (st : ChunkState) : M unit :=
  s <- gets id ;; s' <- lift (set_get_state s i st) ;; modify (fun _ => s').

Definition send_whohas : M unit :=
  sk <- gets sock ;;
  gc <- gets getchunks ;;
  send_packet (PKT_PARAM_CLEAR .{ pp_socket := sk } .{ pp_p_count := -1 } .{ pp_c := Some gc }
    .{ pp_c_count := -1 } .{ pp_type := PACKET_TYPE_WHOHAS }).

(** The inner loop of [send_ihave]: is the hash among [psvr.haschunks]? *)
Fixpoint has_loop (n : nat) (j : Z) (hexbuf : list Z) (has : ChunkList) : option bool :=
  match n with
  | O => Some false
  | S n' =>
    c ← zget (chunks has) j;
    d ← strcmp hexbuf (sha1_buf c);
    if d =? 0 then Some true else has_loop n' (j + 1) hexbuf has
  end.

(** The outer loop: the [i]-th hash is read into the [k]-th line of
    [psvr.ihavechunks], which is kept if the server has the chunk. Returns [k]. *)
Fixpoint ihave_loop (n : nat) (i k : Z) (pkt : packet_t) : M Z :=
  match n with
  | O => ret k
  | S n' =>
    ih <- gets ihavechunks ;;
    line <- lift (zget (chunks ih) k) ;;
    hexbuf <- lift (GET_HASH pkt i (sha1_buf line)) ;;
    cs <- lift (zset (chunks ih) k (line .{ sha1_buf := hexbuf })) ;;
    modify (fun s => s .{ ihavechunks := ih .{ chunks := cs } }) ;;;
    has <- gets haschunks ;;
    found <- lift (has_loop (Z.to_nat (cl_count has)) 0 hexbuf has) ;;
    ihave_loop n' (i + 1) (if found : bool then k + 1 else k) pkt
  end.

Definition send_ihave (pkt : packet_t) (p_index : Z) : M unit :=
  count <- lift (GET_CHUNK_CNT pkt) ;;
  k <- ihave_loop (Z.to_nat count) 0 0 pkt ;;
  if k =? 0 then ret tt else
  modify (fun s => s .{ ihavechunks := (ihavechunks s) .{ cl_count := k } }) ;;;
  sk <- gets sock ;;
  ih <- gets ihavechunks ;;
  send_packet (PKT_PARAM_CLEAR .{ pp_socket := sk } .{ pp_c := Some ih } .{ pp_c_count := -1 }
    .{ pp_p_index := p_index } .{ pp_p_count := if p_index =? -1 then -1 else 1 }
    .{ pp_type := PACKET_TYPE_IHAVE }).

(** chunklist.c: a fresh chunk line is shown as zeros; only its hash, which is written
    before the line can be found, is ever read. [delete_chunkline] frees the line: it is
    the item that [ll_delete_allnodes] drops with its node. *)
Definition new_chunkline : M (option ChunkLine) :=
  cl_ok <- ask malloc_ok ;;
  ret (if cl_ok : bool then Some zero_line else None).

(** The loop of [parse_download] on the peer's queue, which nothing else reads
    meanwhile; [true] for the [break] on a failed allocation. *)
Fixpoint parse_download_loop (n : nat) (i : Z) (pkt : packet_t) (dq : Linlist ChunkLine)
    : M (bool * Linlist ChunkLine) :=
  match n with
  | O => ret (false, dq)
  | S n' =>
    cl <- new_chunkline ;;
    match cl with
    | None => ret (true, dq)
    | Some cl =>
      node_ok <- ask malloc_ok ;;
      if negb node_ok then ret (true, dq) else
      let '(dq, node) := new_ll_Node dq cl in
      dq <- lift (ll_insert_last dq node) ;;
      hexbuf <- lift (GET_HASH pkt i (sha1_buf cl)) ;;
      dq <- lift (ll_update_item dq node (cl .{ sha1_buf := hexbuf })) ;;
      parse_download_loop n' (i + 1) pkt dq
    end
  end.

(** [if(ll_count(dq) != 0) { ll_delete_allnodes(...); init_linkedlist(dq); }] *)
Definition clear_queue (dq : Linlist ChunkLine) : option (Linlist ChunkLine) :=
  if negb (ll_count dq =? 0) then dq' ← ll_delete_allnodes dq; Some (init_linkedlist dq')
  else Some dq.

Definition parse_download (pkt : packet_t) (p_index : Z) : M Z :=
  p <- get_peer p_index ;;
  dq <- lift (clear_queue (hasqueue p)) ;;
  count <- lift (GET_CHUNK_CNT pkt) ;;
  r <- parse_download_loop (Z.to_nat count) 0 pkt dq ;;
  let '(fail_flag, dq) := r in
  dq <- lift (if fail_flag : bool then clear_queue dq else Some dq) ;;
  set_peer p_index (p .{ hasqueue := dq }) ;;;
  ret (if fail_flag then -1 else 0).

Definition send_get (p_index getIndex : Z) : M Z :=
  mark_chunk getIndex fetching ;;;
  sk <- gets sock ;;
  gc <- gets getchunks ;;
  send_packet (PKT_PARAM_CLEAR .{ pp_socket := sk } .{ pp_c := Some gc }
    .{ pp_c_index := getIndex } .{ pp_c_count := 1 } .{ pp_p_index := p_index }
    .{ pp_p_count := 1 } .{ pp_type := PACKET_TYPE_GET }) ;;;
  ret 0.

(** The new value of the peer's download is returned. *)
Definition start_download (p_index get_idx : Z) (fname : list Z) : M (Z * download_t) :=
  r <- dl_init p_index get_idx fname ;;
  if fst r <? 0 then ret (-1, snd r) else
  modify (fun s => s .{ dl_num := s32 (dl_num s + 1) }) ;;;
  ret (0, snd r).

Definition update_download (d : download_t) (pkt : packet_t) : M (Z * download_t) := dl_recv d pkt.

Definition kill_download (d : download_t) : M Z :=
  mark_chunk (get_index d) unfetched ;;;
  modify (fun s => s .{ dl_num := s32 (dl_num s - 1) }) ;;;
  ret 0.

Definition is_download_finished (d : download_t) : bool := dl_finished d.

(** The context, the hash and its text are on the stack. *)
Definition check_hash_succeed (d : download_t) : M bool :=
  b <- ask stack ;;
  let junk n := u8 <$> resize n 0 b in
  sc <- lift (SHA1Update (SHA1Init (junk 64%nat)) (buffer d) BT_CHUNK_SIZE) ;;
  hash <- lift (SHA1Final sc) ;;
  hash_str <- lift (binary2hex hash SHA1_HASH_SIZE (junk 41%nat)) ;;
  gc <- gets (fun s => chunks (getchunks s)) ;;
  line <- lift (zget gc (get_index d)) ;;
  c <- lift (strncmp hash_str (sha1_buf line) (Z.to_nat SHA1_HASH_STR_SIZE)) ;;
  ret (c =? 0).

Definition write_to_file (d : download_t) : M Z := dl_save_buffer d.

Definition start_upload (p_index has_idx : Z) : M (Z * upload_t) :=
  r <- ul_init p_index has_idx ;;
  if fst r <? 0 then ret (-1, snd r) else
  r <- ul_send (snd r) ;;
  if fst r <? 0 then ret (-1, snd r) else
  modify (fun s => s .{ ul_num := s32 (ul_num s + 1) }) ;;;
  ret (0, snd r).

Definition update_upload (u : upload_t) (pkt : packet_t) : M (Z * upload_t) :=
  u <- ul_handle_ack u (ack pkt) ;; ul_send u.

Definition is_upload_finished (u : upload_t) : bool := ul_finished u.

(** Also [kill_upload]. *)
Definition finish_upload (u : upload_t) : M (Z * upload_t) :=
  modify (fun s => s .{ ul_num := s32 (ul_num s - 1) }) ;;;
  ul_deinit u.

(** The percentage printed; dividing by zero is undefined. *)
Definition print_download_progress (p : Peer) : M (option Z) :=
  let d := dl p in
  if 0 =? data_length d then ret None else
  gc <- gets (fun s => chunks (getchunks s)) ;;
  _ <- lift (zget gc (get_index d)) ;;
  let pkts := Z.quot BT_CHUNK_SIZE (data_length d) in
  if pkts =? 0 then lift None else
  ret (Some (s32 (u32 (next_pkt_expected d * 100) / pkts))).
End Code.
