(* ===== verification/PeerServer.v ===== *)
(** * PeerServer: choosing chunks, timeouts and look-ups (peer_server.c, peerlist.c)

    The operations on the whole server that its event loop runs besides the
    handling of packets. *)

From S2P Require Import Prelude LinkedList Sha Chunk ChunkList Machine Util Packet Sending.
From S2P Require Import Upload Download SendHelper.

Definition MAX_TIMEOUT_CNT : Z := 5.

(** ** peerlist.c *)

(** A node of the configuration's list of peers. *)
Record bt_peer_t := { bp_id : Z; bp_addr : sockaddr_in }.

Definition init_peer (p : Peer) : Peer :=
  p .{ is_alive := false } .{ is_downloading := false } .{ is_uploading := false }
    .{ hasqueue := init_linkedlist (hasqueue p) }.

Definition die (p : Peer) : Peer :=
  p .{ is_alive := false } .{ is_downloading := false } .{ is_uploading := false }.

(** The loop of [init_peerlist]: nothing bounds [i] by the size of the array. *)
Fixpoint init_peerlist_loop (ps : list bt_peer_t) (selfid i : Z) (arr : list Peer)
    : option (Z * list Peer) :=
  match ps with
  | [] => Some (i, arr)
  | p :: ps' =>
    if bp_id p =? selfid then init_peerlist_loop ps' selfid i arr else
    slot ← zget arr i;
    arr' ← zset arr i (init_peer (slot .{ p_id := bp_id p } .{ addr := bp_addr p }));
    init_peerlist_loop ps' selfid (i + 1) arr'
  end.
Definition init_peerlist (pl : PeerList) (ps : list bt_peer_t) (selfid : Z) : option PeerList :=
  r ← init_peerlist_loop ps selfid 0 (peers pl);
  Some {| pl_count := fst r; peers := snd r |}.

Section Code.
Context `{Env}.

(** The [for] loop of [find_unfetched_chunk]: the first unfetched chunk with this
    hash, if any. *)
Fixpoint find_get_loop (n : nat) (i : Z) (gc : ChunkList) (sha : list Z) : option (option Z) :=
  match n with
  | O => Some None
  | S n' =>
    c ← zget (chunks gc) i;
    if decide (state c = unfetched) then
      d ← strcmp (sha1_buf c) sha;
      if d =? 0 then Some (Some i) else find_get_loop n' (i + 1) gc sha
    else find_get_loop n' (i + 1) gc sha
  end.

(** Its [while] loop, over the nodes of the peer's queue; the fuel is their number. *)
Fixpoint find_loop (fuel : nat) (gc : ChunkList) (dq : Linlist ChunkLine) (iter : Z)
    : option (option (Z * Z)) :=
  if iter =? ll_end then Some None else
  match fuel with
  | O => None
  | S fuel' =>
    cl ← ll_item dq iter;
    r ← find_get_loop (Z.to_nat (cl_count gc)) 0 gc (sha1_buf cl);
    match r with
    | Some i => Some (Some (iter, i))
    | None => iter' ← ll_next dq iter; find_loop fuel' gc dq iter'
    end
  end.

Definition find_unfetched_chunk (p_index : Z) : M Z :=
  if p_index <? 0 then ret (-1) else
  p <- get_peer p_index ;;
  gc <- gets getchunks ;;
  let dq := hasqueue p in
  iter <- lift (ll_start dq) ;;
  r <- lift (find_loop (size (ll_heap dq)) gc dq iter) ;;
  match r with
  | None => ret (-1)
  | Some (node, i) =>
    dq' <- lift (ll_remove dq node) ;;
    set_peer p_index (p .{ hasqueue := dq' } .{ dl := (dl p) .{ get_index := i } }) ;;;
    ret i
  end.

Definition try_send_get (p_index : Z) : M unit :=
  getIndex <- find_unfetched_chunk p_index ;;
  if getIndex >=? 0 then
    send_get p_index getIndex ;;;
    p <- get_peer p_index ;;
    set_peer p_index (p .{ is_downloading := true }) ;;;
    fname <- gets dl_filename ;;
    r <- start_download p_index getIndex fname ;;
    p <- get_peer p_index ;;
    set_peer p_index (p .{ dl := snd r })
  else ret tt.

(** The loop over the peers from [i]: [n] turns are left. *)
Fixpoint refresh_loop (n : nat) (i : Z) : M unit :=
  match n with
  | O => ret tt
  | S n' =>
    num <- gets dl_num ;;
    mx <- gets max_conn ;;
    if num >=? mx then ret tt else
    p <- get_peer i ;;
    if negb (is_alive p) || is_downloading p then refresh_loop n' (i + 1) else
    try_send_get i ;;;
    refresh_loop n' (i + 1)
  end.

Definition refresh_chunk_download : M unit :=
  cnt <- gets (fun s => pl_count (peerlist s)) ;;
  refresh_loop (Z.to_nat cnt) 0 ;;;
  num <- gets dl_num ;;
  remain <- gets dl_remain ;;
  if (num =? 0) && (remain >? 0) then
    now <- get_timestamp_now ;;
    last <- gets last_whohas ;;
    if u32 (now - last) >? DEFAULT_TIMEOUT then
      send_whohas ;;;
      now <- get_timestamp_now ;;
      modify (fun s => s .{ last_whohas := now })
    else ret tt
  else ret tt.

(** [kill_upload(&peer_p->ul)]. *)
Definition kill_upload_of (i : Z) : M unit :=
  p <- get_peer i ;;
  r <- finish_upload (ul p) ;;
  p <- get_peer i ;;
  set_peer i (p .{ ul := snd r }).

(** The two tests of the body of [check_all_timeout]'s loop, on peer [i]. *)
Definition check_dl_timeout (i : Z) : M unit :=
  p <- get_peer i ;;
  if is_downloading p then
    r <- dl_check_timeout (dl p) ;;
    p <- get_peer i ;;
    set_peer i (p .{ dl := snd r }) ;;;
    if fst r >? MAX_TIMEOUT_CNT then
      p <- get_peer i ;;
      kill_download (dl p) ;;;
      (if is_uploading p then kill_upload_of i else ret tt) ;;;
      p <- get_peer i ;;
      set_peer i (die p)
    else ret tt
  else ret tt.

Definition check_ul_timeout (i : Z) : M unit :=
  p <- get_peer i ;;
  if is_uploading p then
    r <- ul_check_timeout (ul p) ;;
    p <- get_peer i ;;
    set_peer i (p .{ ul := snd r }) ;;;
    if fst r >? MAX_TIMEOUT_CNT then
      kill_upload_of i ;;;
      p <- get_peer i ;;
      (if is_downloading p then kill_download (dl p) ;;; ret tt else ret tt) ;;;
      p <- get_peer i ;;
      set_peer i (die p)
    else ret tt
  else ret tt.

Fixpoint timeout_loop (n : nat) (i : Z) : M unit :=
  match n with
  | O => ret tt
  | S n' =>
    p <- get_peer i ;;
    (if is_alive p then check_dl_timeout i ;;; check_ul_timeout i else ret tt) ;;;
    timeout_loop n' (i + 1)
  end.

Definition check_all_timeout : M Z :=
  cnt <- gets (fun s => pl_count (peerlist s)) ;;
  timeout_loop (Z.to_nat cnt) 0 ;;;
  remain <- gets dl_remain ;;
  (if remain >? 0 then refresh_chunk_download else ret tt) ;;;
  ret 0.

Fixpoint addr2Index_loop (n : nat) (i : Z) (ps : list Peer) (a : sockaddr_in) : option Z :=
  match n with
  | O => Some (-1)
  | S n' =>
    p ← zget ps i;
    if (sin_port (addr p) =? sin_port a) && (s_addr (addr p) =? s_addr a) then Some i
    else addr2Index_loop n' (i + 1) ps a
  end.
Definition addr2Index (a : sockaddr_in) : M Z :=
  cnt <- gets (fun s => pl_count (peerlist s)) ;;
  ps <- gets (fun s => peers (peerlist s)) ;;
  lift (addr2Index_loop (Z.to_nat cnt) 0 ps a).
End Code.
