(* ===== verification/ParsePacket.v ===== *)
(** * ParsePacket: the handling of datagrams and commands (parse_packet.c, peer.c)

    [parse_packet] dispatches on the type of a valid packet; [process_inbound_udp]
    decodes a datagram and hands it on; [process_get] starts the download of the
    chunks named by a file. *)

From S2P Require Import Prelude LinkedList Sha Chunk ChunkList Machine Util Packet Sending.
From S2P Require Import Upload Download SendHelper PeerServer.

Section Code.
Context `{Env}.

Definition set_alive (i : Z) : M unit :=
  p <- get_peer i ;; if is_alive p then ret tt else set_peer i (p .{ is_alive := true }).

Definition handle_WHOHAS (pkt : packet_t) (i : Z) : M Z :=
  num <- gets ul_num ;;
  mx <- gets max_conn ;;
  if num >=? mx then ret 0 else
  set_alive i ;;;
  p <- get_peer i ;;
  if is_uploading p then ret 0 else
  send_ihave pkt i ;;; ret 0.

Definition handle_IHAVE (pkt : packet_t) (i : Z) : M Z :=
  set_alive i ;;;
  p <- get_peer i ;;
  if is_downloading p then ret 0 else
  r <- parse_download pkt i ;;
  if r <? 0 then ret (-1) else
  num <- gets dl_num ;;
  mx <- gets max_conn ;;
  if num >=? mx then ret 0 else
  try_send_get i ;;; ret 0.

(** [hash_buf] is a local buffer, entirely written by [GET_HASH]. *)
Definition handle_GET (pkt : packet_t) (i : Z) : M Z :=
  p <- get_peer i ;;
  if negb (is_alive p) then ret 0 else
  num <- gets ul_num ;;
  mx <- gets max_conn ;;
  if num >=? mx then ret 0 else
  hash_buf <- lift (GET_HASH pkt 0 (replicate (Z.to_nat SHA1_BUF_SIZE) 0)) ;;
  has <- gets haschunks ;;
  hasIndex <- lift (hash2Index has hash_buf) ;;
  if hasIndex <? 0 then ret 0 else
  (if is_uploading p then kill_upload_of i else ret tt) ;;;
  r <- start_upload i hasIndex ;;
  p <- get_peer i ;;
  set_peer i (p .{ ul := snd r } .{ is_uploading := true }) ;;;
  ret 0.

(** The end of a download, in the [PACKET_TYPE_DATA] case. *)
Definition end_download (i : Z) : M unit :=
  modify (fun s => s .{ dl_num := s32 (dl_num s - 1) }) ;;;
  p <- get_peer i ;;
  set_peer i (p .{ is_downloading := false }) ;;;
  ok <- check_hash_succeed (dl p) ;;
  (if ok : bool then write_to_file (dl p) ;;; ret tt else ret tt) ;;;
  gc <- gets (fun s => chunks (getchunks s)) ;;
  line <- lift (zget gc (get_index (dl p))) ;;
  (if decide (state line = fetched) then ret tt else mark_chunk (get_index (dl p)) unfetched) ;;;
  remain <- gets dl_remain ;;
  if remain >? 0 then refresh_chunk_download else ret tt.

Definition handle_DATA (pkt : packet_t) (i : Z) : M Z :=
  p <- get_peer i ;;
  if negb (is_alive p) || negb (is_downloading p) then ret 0 else
  print_download_progress p ;;;
  r <- update_download (dl p) pkt ;;
  p <- get_peer i ;;
  set_peer i (p .{ dl := snd r }) ;;;
  (if is_download_finished (snd r) then end_download i else ret tt) ;;;
  ret 0.

Definition handle_ACK (pkt : packet_t) (i : Z) : M Z :=
  p <- get_peer i ;;
  if negb (is_alive p) || negb (is_uploading p) then ret 0 else
  r <- update_upload (ul p) pkt ;;
  p <- get_peer i ;;
  set_peer i (p .{ ul := snd r }) ;;;
  (if is_upload_finished (snd r) then
     kill_upload_of i ;;;
     p <- get_peer i ;;
     set_peer i (p .{ is_uploading := false })
   else ret tt) ;;;
  ret 0.

Definition parse_packet (pkt : packet_t) (peer_addr : sockaddr_in) : M Z :=
  p_index <- addr2Index peer_addr ;;
  if p_index <? 0 then ret (-1) else
  if type pkt =? PACKET_TYPE_WHOHAS then handle_WHOHAS pkt p_index
  else if type pkt =? PACKET_TYPE_IHAVE then handle_IHAVE pkt p_index
  else if type pkt =? PACKET_TYPE_GET then handle_GET pkt p_index
  else if type pkt =? PACKET_TYPE_DATA then handle_DATA pkt p_index
  else if type pkt =? PACKET_TYPE_ACK then handle_ACK pkt p_index
  else ret 0.

(** [spiffy_recvfrom] fills the buffer with at most [BUFLEN] bytes of the datagram
    and returns their number, or -1 ([None]). The buffer and the packet are
    uninitialised; a negative [ret] is passed on to [memcpy]. *)
Definition BUFLEN : Z := 1500.
Definition receive_datagram (dg : option (list Z)) : M packet_t :=
  b <- ask stack ;;
  let buf := u8 <$> resize (Z.to_nat BUFLEN) 0 b in
  let bytes := take (Z.to_nat BUFLEN) (default [] dg) in
  let r := match dg with Some _ => zlen bytes | None => -1 end in
  buf <- lift (zwrite buf 0 bytes) ;;
  pkt <- stack_packet ;;
  lift (DECODE_PKT buf pkt r).
Definition process_inbound_udp (dg : option (list Z)) (from : sockaddr_in) : M unit :=
  pkt <- receive_datagram dg ;;
  v <- lift (valid_packet pkt) ;;
  if v : bool then parse_packet pkt from ;;; ret tt else ret tt.

(** [file] is what [fopen] of the chunk file gives; the names are C strings. *)
Definition process_get (chunkfile outputfile : list Z) (file : option (list Z)) : M unit :=
  if zlen (cstr outputfile) >=? BT_FILENAME_LEN then ret tt else
  if zlen (cstr chunkfile) >=? BT_FILENAME_LEN then ret tt else
  s <- gets id ;;
  df <- lift (strcpy (dl_filename s) outputfile) ;;
  gf <- lift (strcpy (getchunk_file s) chunkfile) ;;
  modify (fun s => s .{ dl_filename := df } .{ getchunk_file := gf }) ;;;
  r <- lift (parse_chunk (getchunks s) file) ;;
  modify (fun s => s .{ getchunks := snd r }) ;;;
  if fst r <? 0 then ret tt else
  modify (fun s => s .{ dl_remain := cl_count (getchunks s) }) ;;;
  send_whohas ;;;
  now <- get_timestamp_now ;;
  modify (fun s => s .{ last_whohas := now }).
End Code.
