(* ===== verification/Transfer.v ===== *)
(** * Transfer: a chunk from one peer to another over a lossy network

    The sender of Upload.v and the receiver of Download.v, each on its own host
    with its own environment, exchange the datagrams their code emits. The
    network may lose, repeat and reorder them: a step delivers any datagram ever
    sent, or lets a timer be checked. *)

From S2P Require Import Prelude RecvWin Sha Chunk ChunkList Machine Util Packet Sending.
From S2P Require Import Upload Download SendHelper ParsePacket.

(** ** Arrival of a datagram of our own *)

Section Arrival.
Context `{Env}.

Lemma zwrite_0 {A} (l src : list A) :
  zlen src <= zlen l -> zwrite l 0 src = Some (src ++ drop (length src) l).
Proof. intros Hlen. unfold zwrite. rewrite decide_True by lia. by rewrite Z2Nat.inj_0, take_0. Qed.

(** The receiving host decodes the header and body that were sent. *)
Lemma receive_own ty sq ak body w (Q : packet_t -> World -> Prop) :
  0 <= ty < 2 ^ 8 -> 0 <= sq < 2 ^ 32 -> 0 <= ak < 2 ^ 32 -> zlen body <= MAX_PAYLOAD_SIZE ->
  (forall rest w', zlen (body ++ rest) = MAX_PAYLOAD_SIZE -> emitted [] w w' ->
     Q ((mk_header ty (HEADER_SIZE + zlen body) sq ak) .{ payload := body ++ rest }) w') ->
  wp (receive_datagram (Some (datagram ty sq ak body))) Q w.
Proof.
  intros Ht Hs Ha Hb HQ. unfold receive_datagram. wp_go. apply wp_ask_any. intros bytes. wp_go.
  set (buf := u8 <$> resize (Z.to_nat BUFLEN) 0 bytes).
  assert (zlen buf = BUFLEN) as Hbuf.
  { unfold buf. by rewrite length_fmap, length_resize. }
  pose proof (wire_length (mk_header ty (HEADER_SIZE + zlen body) sq ak) body) as Hlen.
  fold (datagram ty sq ak body) in Hlen. cbn [default].
  unfold BUFLEN, MAX_PAYLOAD_SIZE, PACKET_SIZE, HEADER_SIZE in *.
  rewrite (take_ge (datagram ty sq ak body)) by lia.
  eapply wp_lift; [apply zwrite_0; lia|]. wp_go.
  apply (stack_packet_spec (fun _ => False)). intros pkt w1 Hraw Hem%emits_none.
  pose proof (raw_packet_payload _ Hraw) as Hpl.
  eapply wp_lift; [apply DECODE_datagram; done|].
  apply HQ.
  - rewrite length_app, length_drop. unfold MAX_PAYLOAD_SIZE, PACKET_SIZE, HEADER_SIZE in *. lia.
  - by destruct Hem.
Qed.

(** Data packets and acknowledgements are valid. *)
Lemma own_valid ty sq ak body rest :
  ty = PACKET_TYPE_DATA \/ ty = PACKET_TYPE_ACK -> 0 <= sq < 2 ^ 32 -> 0 <= ak < 2 ^ 32 ->
  zlen (body ++ rest) = MAX_PAYLOAD_SIZE ->
  let pkt := (mk_header ty (HEADER_SIZE + zlen body) sq ak) .{ payload := body ++ rest } in
  packet_valid pkt /\ valid_packet pkt = Some true.
Proof.
  intros Hty Hs Ha Hlen pkt.
  assert (0 <= ty < 2 ^ 8) by (destruct Hty as [-> | ->]; done).
  assert (packet_wf pkt) as Hwf.
  { split; [|exact Hlen]. rewrite length_app in Hlen.
    apply (mk_header_wf ty (HEADER_SIZE + zlen body) sq ak); try lia.
    unfold MAX_PAYLOAD_SIZE, PACKET_SIZE, HEADER_SIZE in *. lia. }
  assert (packet_valid pkt) as Hv.
  { split_and!; try done.
    - change (hdr_len pkt) with HEADER_SIZE. change (pkt_len pkt) with (HEADER_SIZE + zlen body). lia.
    - change (pkt_len pkt) with (HEADER_SIZE + zlen body). rewrite length_app in Hlen.
      unfold MAX_PAYLOAD_SIZE in Hlen. lia.
    - change (type pkt) with ty. unfold PACKET_TYPE_WHOHAS, PACKET_TYPE_IHAVE, PACKET_TYPE_DATA, PACKET_TYPE_ACK in *. lia.
    - change (type pkt) with ty. unfold PACKET_TYPE_GET, PACKET_TYPE_DATA, PACKET_TYPE_ACK in *. lia. }
  split; [done|]. destruct (valid_packet_spec pkt Hwf) as (b & -> & Hb). f_equal. by apply Hb.
Qed.

(** What the two hosts do with a datagram: the [PACKET_TYPE_ACK] and
    [PACKET_TYPE_DATA] cases for a peer with a running transfer. *)
Definition sender_input (dg : list Z) (u : upload_t) : M upload_t :=
  pkt <- receive_datagram (Some dg) ;;
  v <- lift (valid_packet pkt) ;;
  if v && (type pkt =? PACKET_TYPE_ACK) then r <- update_upload u pkt ;; ret (snd r) else ret u.
Definition receiver_input (dg : list Z) (d : download_t) : M download_t :=
  pkt <- receive_datagram (Some dg) ;;
  v <- lift (valid_packet pkt) ;;
  if v && (type pkt =? PACKET_TYPE_DATA) then r <- update_download d pkt ;; ret (snd r) else ret d.
(** *** One host at a time *)

(** An acknowledgement updates the sender, which then sends packets of its chunk. *)
Lemma sender_input_ack b a u w peer (Q : upload_t -> World -> Prop) :
  ul_wf u -> ul_has_data u b -> status u <> UL_STATUS_FAST_RECOVERY ->
  zget (peers (peerlist (psvr w))) (ul_p_index u) = Some peer -> 0 <= a < 2 ^ 32 ->
  (forall u' w1 w' from n, ul_wf u' -> ul_has_data u' b -> ul_p_index u' = ul_p_index u ->
     status u' <> UL_STATUS_FAST_RECOVERY ->
     (last_pkt_acked u' = last_pkt_acked u \/ last_pkt_acked u' = a) ->
     last_pkt_acked u <= last_pkt_acked u' ->
     emits (winsize_any (psvr w) (ul_p_index u)) w w1 ->
     1 <= from -> from + n <= CHUNK_PKTS + 1 ->
     emitted (data_events (sock (psvr w)) (addr peer) b from n) w1 w' -> Q u' w') ->
  wp (sender_input (ack_datagram a) u) Q w.
Proof.
  intros Hwf Hdata Hst Hpeer Ha HQ. unfold sender_input. wp_go.
  unfold ack_datagram. apply receive_own; [done|done|done|done|]. intros rest w0 Hlen Hem0.
  destruct (own_valid PACKET_TYPE_ACK 0 a [] rest) as [_ Hval]; [by right|done|done|done|].
  wp_go. eapply wp_lift; [exact Hval|]. cbn [andb].
  change (type _ =? PACKET_TYPE_ACK) with true. cbv iota.
  pose proof (proj1 Hem0) as Ew0. unfold update_upload. wp_go.
  apply ul_handle_ack_spec; [done|done|unfold peer_ok; rewrite Ew0; by eapply zget_Some_range|].
  intros u1 w1 Hout Hem1. rewrite Ew0 in Hem1. change (ack _) with a in Hout.
  destruct (ack_outcome_frame _ _ _ Hout Hst) as (Ed & Ep & _ & Hst1 & Hge & Hacked).
  pose proof (ack_outcome_wf _ _ _ Hout Hwf) as Hwf1.
  assert (psvr w1 = psvr w) as Ew1 by (rewrite (emits_psvr _ _ _ Hem1); exact Ew0).
  apply (ul_send_spec b _ _ _ peer); [done|by split; [rewrite Ed|]; apply Hdata|by rewrite Ew1, Ep|].
  intros ok u2 w2 Hwf2 Hrange Hok Hmv Hem2. wp_go.
  destruct (sender_moved_frame _ _ Hmv) as (Ed2 & Ep2 & _ & Es2 & El2). simpl in *.
  rewrite Ew1 in Hem2. pose proof (wf_acked _ Hwf1). pose proof (wf_sent _ Hwf1).
  assert (sent_target u1 <= CHUNK_PKTS) by (unfold sent_target; lia).
  eapply HQ; [done| |congruence|congruence| | | | | |exact Hem2].
  - split; [rewrite Ed2, Ed|]; apply Hdata.
  - rewrite El2. exact Hacked.
  - by rewrite El2.
  - eapply emits_trans; [eapply emitted_emits; [exact Hem0|constructor]|exact Hem1].
  - lia.
  - destruct ok; lia.
Qed.

(** A data packet of the chunk updates the receiver. *)
Lemma receiver_input_data b i d win w peer (Q : download_t -> World -> Prop) :
  receiver_inv d b win -> zlen b = BT_CHUNK_SIZE -> 1 <= i <= CHUNK_PKTS ->
  zget (peers (peerlist (psvr w))) (dl_p_index d) = Some peer ->
  (forall d' w' win' evs, receiver_inv d' b win' -> dl_p_index d' = dl_p_index d ->
     w_next win <= w_next win' -> (forall t, received win' t <-> received win t \/ t = i) ->
     emitted evs w w' ->
     (forall e, e ∈ evs -> exists sk to, e = EvSend sk to (ack_datagram (w_next win' - 1))) ->
     Q d' w') ->
  wp (receiver_input (data_datagram i (pkt_slice b i)) d) Q w.
Proof.
  intros Hinv Hb Hi Hpeer HQ. unfold receiver_input. wp_go.
  pose proof (pkt_slice_length b i Hb Hi) as Hsl. rewrite CHUNK_PKTS_eq in Hi.
  assert (zlen (pkt_slice b i) <= MAX_PAYLOAD_SIZE) as Hmax by (rewrite Hsl; done).
  unfold data_datagram. apply receive_own; [done|lia|done|done|]. intros rest w0 Hlen Hem0.
  destruct (own_valid PACKET_TYPE_DATA i 0 (pkt_slice b i) rest) as [Hpv Hval]; [by left|lia|done|done|].
  wp_go. eapply wp_lift; [exact Hval|]. cbn [andb].
  change (type _ =? PACKET_TYPE_DATA) with true. cbv iota. unfold update_download. wp_go.
  eapply (dl_recv_ok _ b win _ i); [done| |by rewrite CHUNK_PKTS_eq|done|by rewrite (proj1 Hem0)|].
  { split_and!; try done. apply take_app_length. }
  intros r d' w' win' Hinv' Hf' Hmono Hrec Hem'. wp_go.
  eapply HQ; [done|apply Hf'|done|done|eapply emitted_trans; [exact Hem0|exact Hem']|].
  intros e. destruct (_ || _); simpl; [by intros ?%elem_of_nil|].
  intros ->%list_elem_of_singleton. eauto.
Qed.
End Arrival.


(** ** The system *)

Record config := { s_host : World; s_ul : upload_t; r_host : World; r_dl : download_t }.

Section System.
Context (ES ER : Env) (s_addr r_addr : sockaddr_in) (b : list Z).

(** [dg] was sent by this host to that address. *)
Definition sent_to (w : World) (to : sockaddr_in) (dg : list Z) : Prop :=
  exists sk, EvSend sk to dg ∈ out w.

Inductive step (c : config) : config -> Prop :=
  | step_ack dg u' w' :
      sent_to (r_host c) s_addr dg ->
      @sender_input ES dg (s_ul c) (s_host c) = Some (u', w') ->
      step c {| s_host := w'; s_ul := u'; r_host := r_host c; r_dl := r_dl c |}
  | step_data dg d' w' :
      sent_to (s_host c) r_addr dg ->
      @receiver_input ER dg (r_dl c) (r_host c) = Some (d', w') ->
      step c {| s_host := s_host c; s_ul := s_ul c; r_host := w'; r_dl := d' |}
  | step_sender_timeout r u' w' :
      @ul_check_timeout ES (s_ul c) (s_host c) = Some ((r, u'), w') ->
      step c {| s_host := w'; s_ul := u'; r_host := r_host c; r_dl := r_dl c |}
  | step_receiver_timeout r d' w' :
      @dl_check_timeout ER (r_dl c) (r_host c) = Some ((r, d'), w') ->
      step c {| s_host := s_host c; s_ul := s_ul c; r_host := w'; r_dl := d' |}.

(** The transfer starts when the sender has answered the [GET]: the receiver's state
    is that of [dl_init], the sender's that of [start_upload]. *)
Inductive start : config -> Prop :=
  | start_intro ws wr w1 w2 i j h k u d r fname f :
      (exists p, zget (peers (peerlist (psvr ws))) i = Some p /\ addr p = r_addr) ->
      (exists p, zget (peers (peerlist (psvr wr))) j = Some p /\ addr p = s_addr) ->
      zlen b = BT_CHUNK_SIZE -> strcpy (filename dl_zero) fname = Some f -> out ws = [] -> out wr = [] ->
      @ul_send ES ((ul_start i h) .{ ul_data := data_mapped b }) ws = Some ((r, u), w1) ->
      @dl_init ER j k fname wr = Some ((0, d), w2) ->
      start {| s_host := w1; s_ul := u; r_host := w2; r_dl := d |}.

Inductive reachable : config -> Prop :=
  | reachable_start c : start c -> reachable c
  | reachable_step c c' : reachable c -> step c c' -> reachable c'.

(** ** The invariant *)

(** All that the sender ever sends is the chunk's packets; all that the receiver ever
    sends is acknowledgements of what it has. *)
Definition data_only (w : World) : Prop :=
  forall e, e ∈ out w -> match e with
    | EvSend _ _ dg => exists i, 1 <= i <= CHUNK_PKTS /\ dg = data_datagram i (pkt_slice b i)
    | _ => True
    end.
Definition acks_only (w : World) (win : WinSpec) : Prop :=
  forall e, e ∈ out w -> match e with
    | EvSend _ _ dg => exists a, 0 <= a < w_next win /\ dg = ack_datagram a
    | _ => True
    end.

Record inv (c : config) (win : WinSpec) : Prop := {
  inv_len : zlen b = BT_CHUNK_SIZE;
  inv_ul : ul_wf (s_ul c);
  inv_data : ul_has_data (s_ul c) b;
  inv_status : status (s_ul c) <> UL_STATUS_FAST_RECOVERY;
  inv_speer : exists p, zget (peers (peerlist (psvr (s_host c)))) (ul_p_index (s_ul c)) = Some p;
  inv_dl : receiver_inv (r_dl c) b win;
  inv_rpeer : exists p, zget (peers (peerlist (psvr (r_host c)))) (dl_p_index (r_dl c)) = Some p;
  inv_sent : data_only (s_host c);
  inv_acks : acks_only (r_host c) win;
  inv_acked : last_pkt_acked (s_ul c) < w_next win }.

Lemma data_only_emitted w w' evs :
  data_only w -> emitted evs w w' ->
  (forall e, e ∈ evs -> match e with
    | EvSend _ _ dg => exists i, 1 <= i <= CHUNK_PKTS /\ dg = data_datagram i (pkt_slice b i)
    | _ => True end) ->
  data_only w'.
Proof.
  intros Hd [_ Ho] Hev e. rewrite Ho, elem_of_app. intros [He|He]; [by apply Hd|by apply Hev].
Qed.

Lemma data_only_winsize w w' i :
  data_only w -> emits (winsize_any (psvr w) i) w w' -> data_only w'.
Proof.
  intros Hd [Hp (evs & Ho & HF)]. eapply data_only_emitted; [exact Hd|by split|].
  intros e He. rewrite Forall_forall in HF. destruct (HF e He) as (win & p & ms & _ & ->). done.
Qed.

Lemma data_events_only sk to from n e :
  1 <= from -> from + n <= CHUNK_PKTS + 1 -> e ∈ data_events sk to b from n ->
  match e with
  | EvSend _ _ dg => exists i, 1 <= i <= CHUNK_PKTS /\ dg = data_datagram i (pkt_slice b i)
  | _ => True
  end.
Proof.
  intros Hf Hn He. unfold data_events in He. apply list_elem_of_fmap in He as (i & -> & Hi).
  apply elem_of_seqZ in Hi. exists i. split; [lia|done].
Qed.

Lemma acks_only_emitted w w' win win' evs :
  acks_only w win -> w_next win <= w_next win' -> emitted evs w w' ->
  (forall e, e ∈ evs -> exists sk to, e = EvSend sk to (ack_datagram (w_next win' - 1))) ->
  1 <= w_next win' -> acks_only w' win'.
Proof.
  intros Ha Hle [_ Ho] Hev H1 e. rewrite Ho, elem_of_app. intros [He|He].
  - specialize (Ha e He). destruct e; try done. destruct Ha as (a & ? & ->). exists a. split; [lia|done].
  - destruct (Hev e He) as (sk & to & ->). exists (w_next win' - 1). split; [lia|done].
Qed.

(** ** Safety *)

Lemma start_inv c : start c -> exists win, inv c win.
Proof.
  intros [ws wr w1 w2 i j h k u d r fname f (pr & Hpr & Hra) (ps & Hps & Hsa) Hb Hfn Hows Howr Hsend Hinit].
  assert (receiver_inv d b {| w_next := 1; w_got := ∅ |} /\ dl_p_index d = j /\
    emitted [] wr w2) as (Hd & Edp & Hemr).
  { assert (wp (@dl_init ER j k fname) (fun rd w' =>
      receiver_inv (snd rd) b {| w_next := 1; w_got := ∅ |} /\ dl_p_index (snd rd) = j /\
      emitted [] wr w') wr) as Hr.
    { eapply dl_init_spec; [exact Hfn|]. intros d' w' Hinv Ej _ _ Hem. split_and!; [apply Hinv|done..]. }
    exact (wp_run _ _ _ _ _ Hr Hinit). }
  assert (wp (@ul_send ES ((ul_start i h) .{ ul_data := data_mapped b }))
    (fun ru w' => ul_wf (snd ru) /\ ul_has_data (snd ru) b /\ ul_p_index (snd ru) = i /\
       status (snd ru) = UL_STATUS_SLOW_START /\ last_pkt_acked (snd ru) = 0 /\
       psvr w' = psvr ws /\ data_only w') ws) as Hs.
  { pose proof (ul_start_wf i h (data_mapped b)) as Hwf.
    apply (ul_send_spec b _ _ _ pr); [done|by split|done|].
    intros ok u' w' Hwf' Hr Hok Hmv Hem. simpl in Hr.
    destruct (sender_moved_frame _ _ Hmv) as (Ed & Ep & _ & Es & El). cbn [snd].
    split_and!; [done|split; [by rewrite Ed|done]|by rewrite Ep|by rewrite Es|by rewrite El|apply Hem|].
    eapply data_only_emitted; [|exact Hem|].
    - intros e. rewrite Hows. by intros ?%elem_of_nil.
    - intros e. apply data_events_only; [simpl; lia|]. simpl.
      assert (sent_target ((ul_start i h) .{ ul_data := data_mapped b }) = 1) as Et by done.
      rewrite Et in *. rewrite CHUNK_PKTS_eq. destruct ok; lia. }
  destruct (wp_run _ _ _ _ _ Hs Hsend) as (Hwf & Hda & Ep & Es & El & Ew & Hdo). cbn [snd] in *.
  exists {| w_next := 1; w_got := ∅ |}. split; cbn [s_host s_ul r_host r_dl]; try done.
  - congruence.
  - exists pr. by rewrite Ew, Ep.
  - exists ps. destruct Hemr as [-> _]. by rewrite Edp.
  - intros e. destruct Hemr as [_ ->]. rewrite Howr. by intros ?%elem_of_nil.
  - simpl. lia.
Qed.

Lemma step_inv c c' win : inv c win -> step c c' -> exists win', inv c' win' /\
  w_next win <= w_next win' /\ (forall t, received win t -> received win' t).
Proof.
  intros [Hb Hwf Hda Hst (sp & Hsp) Hdl (rp & Hrp) Hsent Hacks Hlt] Hstep.
  pose proof Hdl as (Hok & _). pose proof (ro_next _ _ _ Hok) as Hnx.
  pose proof (ro_rep _ _ _ Hok) as (_ & _ & _ & [H1 _] & _). rewrite CHUNK_PKTS_eq in Hnx.
  destruct Hstep as [dg u' w' [sk Hin] Hrun|dg d' w' [sk Hin] Hrun|r u' w' Hrun|r d' w' Hrun].
  - (* an acknowledgement arrives *)
    destruct (Hacks _ Hin) as (a & Ha & ->). exists win. split; [|done].
    refine (wp_run _ (fun u' w' => inv {| s_host := w'; s_ul := u'; r_host := r_host c;
      r_dl := r_dl c |} win) _ _ _ _ Hrun).
    eapply sender_input_ack; [done|done|done|done|lia|].
    intros u1 w1 w2 from n Hwf1 Hda1 Ep Hst1 Hacked Hge Hem1 Hf1 Hf2 Hem2.
    split; cbn [s_host s_ul r_host r_dl]; try done; [|eauto| |lia].
    + exists sp. by rewrite (proj1 Hem2), (emits_psvr _ _ _ Hem1), Ep.
    + eapply data_only_emitted; [eapply data_only_winsize; [exact Hsent|exact Hem1]|exact Hem2|].
      intros e. by apply data_events_only.
  - (* a data packet arrives *)
    destruct (Hsent _ Hin) as (i & Hi & ->).
    refine (wp_run _ (fun d' w' => exists win', inv {| s_host := s_host c; s_ul := s_ul c;
      r_host := w'; r_dl := d' |} win' /\ w_next win <= w_next win' /\
      (forall t, received win t -> received win' t)) _ _ _ _ Hrun).
    eapply receiver_input_data; [done|done|done|done|].
    intros d1 w1 win1 evs Hinv1 Ep Hmono Hrec Hem Hevs. exists win1.
    split; [|split; [done|intros t Ht; apply Hrec; by left]].
    split; cbn [s_host s_ul r_host r_dl]; try done; [eauto| |by eapply acks_only_emitted; eauto; lia|lia].
    exists rp. by rewrite (proj1 Hem), Ep.
  - (* the sender's timer *)
    exists win. split; [|done].
    refine (wp_run _ (fun ru w' => inv {| s_host := w'; s_ul := snd ru; r_host := r_host c;
      r_dl := r_dl c |} win) _ _ _ _ Hrun).
    eapply ul_check_timeout_spec; [done|done|done|].
    intros r1 u1 resent w1 w2 Hout Hwf1 Hem1 Hem2. cbn [snd].
    pose proof (wf_acked _ Hwf) as Hac.
    destruct (timeout_outcome_frame _ _ _ _ _ Hout) as (Ed & Ep & _ & Es & El & Hre).
    split; cbn [s_host s_ul r_host r_dl]; try done; [|by apply Es| |eauto| |lia].
    + split; [rewrite Ed|]; apply Hda.
    + exists sp. by rewrite (proj1 Hem2), (emits_psvr _ _ _ Hem1), Ep.
    + eapply data_only_emitted; [eapply data_only_winsize; [exact Hsent|exact Hem1]|exact Hem2|].
      intros e. destruct resent as [i|]; [|by intros ?%elem_of_nil].
      apply data_events_only; specialize (Hre i eq_refl Hwf); lia.
  - (* the receiver's timer *)
    refine (wp_run _ (fun rd w' => exists win', inv {| s_host := s_host c; s_ul := s_ul c;
      r_host := w'; r_dl := snd rd |} win' /\ w_next win <= w_next win' /\
      (forall t, received win t -> received win' t)) _ _ _ _ Hrun).
    eapply (dl_check_timeout_ok _ b win); [done|done|].
    intros d1 win1 w1 Hinv1 Hf1 Hn1 Hrec Hem. exists win1. cbn [snd].
    split; [|split; [lia|intros t Ht; by apply Hrec]].
    split; cbn [s_host s_ul r_host r_dl]; try done; [eauto| | |lia].
    + exists rp. rewrite (proj1 Hem). by destruct Hf1 as (_ & -> & _).
    + eapply acks_only_emitted; [exact Hacks|lia|exact Hem| |lia].
      intros e [-> _]%elem_of_replicate. rewrite Hn1. eauto.
Qed.

Lemma reachable_inv c : reachable c -> exists win, inv c win.
Proof.
  induction 1 as [c Hs|c c' _ (win & Hinv) Hstep]; [by apply start_inv|].
  destruct (step_inv _ _ _ Hinv Hstep) as (win' & Hinv' & _). eauto.
Qed.

Lemma receiver_packet d win i :
  receiver_inv d b win -> 1 <= i < w_next win ->
  zread (buffer d) ((i - 1) * PAYLOAD_SIZE) PAYLOAD_SIZE = Some (pkt_slice b i).
Proof. intros (Hok & _) Hi. apply (ro_data _ _ _ Hok). split; [lia|left; lia]. Qed.

(** A finished receiver holds the chunk. *)
Lemma receiver_complete d win :
  receiver_inv d b win -> zlen b = BT_CHUNK_SIZE -> dl_finished d = true -> buffer d = b.
Proof.
  intros Hinv Hb Hfin. pose proof Hinv as (Hok & _ & _ & Hf). apply Hf in Hfin.
  pose proof (safe_buffer _ (ro_safe _ _ _ Hok)) as Hlen.
  apply zget_ext; [congruence|]. intros o Ho.
  assert (exists i r, 1 <= i <= CHUNK_PKTS /\ 0 <= r < PAYLOAD_SIZE /\
    o = (i - 1) * PAYLOAD_SIZE + r) as (i & r & Hi & Hr & ->).
  { exists (o / PAYLOAD_SIZE + 1), (o mod PAYLOAD_SIZE). rewrite Hlen in Ho.
    change BT_CHUNK_SIZE with 524288 in Ho. rewrite CHUNK_PKTS_eq. unfold PAYLOAD_SIZE.
    pose proof (Z.div_mod o 1024 ltac:(done)). pose proof (Z.mod_pos_bound o 1024 ltac:(done)). lia. }
  pose proof (receiver_packet d win i Hinv ltac:(lia)) as Hrd.
  rewrite <- (zread_lookup _ _ _ _ _ Hrd Hr).
  pose proof (pkt_slice_at b i Hb Hi) as Hrb. by rewrite (zread_lookup _ _ _ _ _ Hrb Hr).
Qed.

(** The sender is finished only when the receiver is. *)
Lemma inv_finished c win : inv c win -> ul_finished (s_ul c) = true -> dl_finished (r_dl c) = true.
Proof.
  intros Hinv Hf. pose proof (inv_acked _ _ Hinv). apply (wf_finished _ (inv_ul _ _ Hinv)) in Hf.
  destruct (inv_dl _ _ Hinv) as (Hok & _ & _ & Hfin). apply Hfin. pose proof (ro_next _ _ _ Hok). lia.
Qed.

(** Every enabled input and timer has a successor. *)
Definition never_stuck (c : config) : Prop :=
  (forall dg, sent_to (r_host c) s_addr dg -> exists x, @sender_input ES dg (s_ul c) (s_host c) = Some x) /\
  (forall dg, sent_to (s_host c) r_addr dg -> exists x, @receiver_input ER dg (r_dl c) (r_host c) = Some x) /\
  (exists x, @ul_check_timeout ES (s_ul c) (s_host c) = Some x) /\
  (exists x, @dl_check_timeout ER (r_dl c) (r_host c) = Some x).

Lemma wp_Some {A} (m : M A) Q w : wp m Q w -> exists x, m w = Some x.
Proof. intros (a & w' & E & _). eauto. Qed.

Lemma inv_never_stuck c win : inv c win -> never_stuck c.
Proof.
  intros [Hb Hwf Hda Hst (sp & Hsp) Hdl (rp & Hrp) Hsent Hacks Hlt].
  pose proof Hdl as (Hok & _). pose proof (ro_next _ _ _ Hok) as Hnx. rewrite CHUNK_PKTS_eq in Hnx.
  split_and!.
  - intros dg [sk Hin]. destruct (Hacks _ Hin) as (a & Ha & ->).
    apply (wp_Some _ (fun _ _ => True)). eapply sender_input_ack; [done|done|done|done|lia|done].
  - intros dg [sk Hin]. destruct (Hsent _ Hin) as (i & Hi & ->).
    apply (wp_Some _ (fun _ _ => True)). by eapply receiver_input_data.
  - apply (wp_Some _ (fun _ _ => True)). by eapply ul_check_timeout_spec.
  - apply (wp_Some _ (fun _ _ => True)). by eapply dl_check_timeout_ok.
Qed.

Lemma reachable_trans_inv c c' win :
  inv c win -> reachable c -> rtc step c c' -> exists win', inv c' win' /\ w_next win <= w_next win'.
Proof.
  intros Hinv _ Hrtc. revert win Hinv. induction Hrtc as [c|c c1 c2 Hstep _ IH]; intros win Hinv.
  { exists win. split; [done|lia]. }
  destruct (step_inv _ _ _ Hinv Hstep) as (win1 & Hinv1 & Hle & _).
  destruct (IH win1 Hinv1) as (win2 & Hinv2 & Hle2). exists win2. split; [done|lia].
Qed.

(** ** Properties *)

(** C1: however the network loses, repeats, delays and reorders datagrams and whenever
    the timers are checked: every packet the sender counts as acknowledged is in the
    receiver's buffer at its place; a finished receiver holds the chunk byte for byte;
    and the sender finishes only when the receiver has. *)
Theorem transfer_safety (c : config) :
  reachable c ->
  (forall i, 1 <= i <= last_pkt_acked (s_ul c) ->
     zread (buffer (r_dl c)) ((i - 1) * PAYLOAD_SIZE) PAYLOAD_SIZE = Some (pkt_slice b i)) /\
  (dl_finished (r_dl c) = true -> buffer (r_dl c) = b) /\
  (ul_finished (s_ul c) = true -> dl_finished (r_dl c) = true /\ buffer (r_dl c) = b).
Proof.
  intros (win & Hinv)%reachable_inv.
  pose proof (inv_dl _ _ Hinv) as Hdl. pose proof (inv_acked _ _ Hinv) as Hlt.
  split; [|split].
  - intros i Hi. apply (receiver_packet _ win); [done|lia].
  - apply (receiver_complete _ win); [done|apply Hinv].
  - intros Hf. assert (dl_finished (r_dl c) = true) as Hd by (by eapply inv_finished).
    split; [done|]. by apply (receiver_complete _ win); [|apply Hinv|].
Qed.

(** C12: no run of a transfer is ever stuck in undefined behaviour: in every reachable
    configuration both hosts process any datagram still in the network, and both
    timer checks return. *)
Theorem transfer_never_stuck (c : config) : reachable c -> never_stuck c.
Proof. intros (win & Hinv)%reachable_inv. by eapply inv_never_stuck. Qed.

(** Progress is never undone: along every run what the receiver expects next and
    what it has finished only grow, so no datagram, however old, takes a packet back. *)
Theorem transfer_monotone (c c' : config) :
  reachable c -> rtc step c c' ->
  next_pkt_expected (r_dl c) <= next_pkt_expected (r_dl c') /\
  (dl_finished (r_dl c) = true -> dl_finished (r_dl c') = true).
Proof.
  intros Hr Hrtc. destruct (reachable_inv _ Hr) as (win & Hinv).
  destruct (reachable_trans_inv _ _ _ Hinv Hr Hrtc) as (win' & Hinv' & Hle).
  destruct (inv_dl _ _ Hinv) as (Hok & Hn & _ & Hf).
  destruct (inv_dl _ _ Hinv') as (Hok' & Hn' & _ & Hf').
  rewrite Hn, Hn'. split; [done|]. intros Hd%Hf. apply Hf'.
  pose proof (ro_next _ _ _ Hok'). lia.
Qed.
End System.

(** A transfer of a chunk of zeros between two hosts of the sample environment. *)
Definition sample_start : Prop :=
  exists c, start sample_env sample_env (addr sample_peer) (addr sample_peer) zero_chunk c /\
    last_pkt_acked (s_ul c) = 0.

Lemma sample_start_exists : sample_start.
Proof.
  assert (wp (@ul_send sample_env sample_ul) (fun ru _ => last_pkt_acked (snd ru) = 0) sample_world)
    as ([r u] & w1 & Hs & Hl).
  { apply (ul_send_spec zero_chunk sample_ul sample_world _ sample_peer sample_ul_wf sample_ul_data sample_peer_get).
    intros ok u' w' _ _ _ Hmv _. cbn [snd]. by destruct (sender_moved_frame _ _ Hmv) as (_ & _ & _ & _ & ->). }
  destruct (strcpy (filename dl_zero) [111; 0]) as [f|] eqn:Ef; [|discriminate].
  assert (wp (@dl_init sample_env 0 0 [111; 0]) (fun rd _ => fst rd = 0) sample_world)
    as ([r' d] & w2 & Hi & Hr).
  { eapply dl_init_spec; [exact Ef|]. done. }
  cbn [fst snd] in *. subst r'. exists {| s_host := w1; s_ul := u; r_host := w2; r_dl := d |}. split; [|exact Hl].
  apply (start_intro _ _ _ _ _ sample_world sample_world w1 w2 0 0 0 0 u d r [111; 0] f);
    [exists sample_peer; split; reflexivity..|exact zero_chunk_length|exact Ef|reflexivity|reflexivity
    |exact Hs|exact Hi].
Qed.

Lemma transfer_safety_witness :
  exists c, reachable sample_env sample_env (addr sample_peer) (addr sample_peer) zero_chunk c /\
    (dl_finished (r_dl c) = true -> buffer (r_dl c) = zero_chunk).
Proof.
  destruct sample_start_exists as (c & Hc & _). exists c. pose proof (reachable_start _ _ _ _ _ _ Hc) as Hr.
  split; [exact Hr|]. exact (proj1 (proj2 (transfer_safety _ _ _ _ _ _ Hr))).
Defined.

Lemma transfer_never_stuck_witness :
  exists c, reachable sample_env sample_env (addr sample_peer) (addr sample_peer) zero_chunk c /\
    never_stuck sample_env sample_env (addr sample_peer) (addr sample_peer) c.
Proof.
  destruct sample_start_exists as (c & Hc & _). exists c. pose proof (reachable_start _ _ _ _ _ _ Hc) as Hr.
  split; [exact Hr|]. exact (transfer_never_stuck _ _ _ _ _ _ Hr).
Defined.

Lemma transfer_monotone_witness :
  exists c, reachable sample_env sample_env (addr sample_peer) (addr sample_peer) zero_chunk c /\
    (next_pkt_expected (r_dl c) <= next_pkt_expected (r_dl c)).
Proof.
  destruct sample_start_exists as (c & Hc & _). exists c. pose proof (reachable_start _ _ _ _ _ _ Hc) as Hr.
  split; [exact Hr|].
  exact (proj1 (transfer_monotone _ _ _ _ _ _ _ Hr (rtc_refl _ _))).
Defined.
