(* ===== verification/Liveness.v ===== *)
(** * Liveness: a transfer can always be completed (upload.c, download.c)

    With a working clock at the sender, no configuration of Transfer.v is a dead end:
    the packets and acknowledgements that are still needed have been sent, so that a
    run exists that delivers them and ends with both hosts finished. *)

From S2P Require Import Prelude RecvWin Sha Chunk ChunkList Machine Util Packet Sending Upload Download.
From S2P Require Import SendHelper ParsePacket Transfer.

(** ** One host at a time *)

Section Host.
Context `{Env}.

(** [sender_input_ack] with all that a working clock gives. *)
Lemma sender_input_full b a u w peer (Q : upload_t -> World -> Prop) :
  clock_ok -> ul_wf u -> ul_has_data u b -> status u <> UL_STATUS_FAST_RECOVERY ->
  zget (peers (peerlist (psvr w))) (ul_p_index u) = Some peer -> 0 <= a < 2 ^ 32 ->
  (forall u1 u' w1 w', ack_outcome u a u1 -> ul_wf u1 -> ul_wf u' ->
     last_pkt_sent u' = sent_target u1 ->
     sender_moved (u1 .{ max_pkt_sent := Z.max (max_pkt_sent u1) (last_pkt_sent u') }) u' ->
     emits (winsize_any (psvr w) (ul_p_index u)) w w1 ->
     emitted (data_events (sock (psvr w)) (addr peer) b (last_pkt_sent u1 + 1)
       (last_pkt_sent u' - last_pkt_sent u1)) w1 w' -> Q u' w') ->
  wp (sender_input (ack_datagram a) u) Q w.
Proof.
  intros Hck Hwf Hdata Hst Hpeer Ha HQ. unfold sender_input. wp_go.
  unfold ack_datagram. apply receive_own; [done|done|done|done|]. intros rest w0 Hlen Hem0.
  destruct (own_valid PACKET_TYPE_ACK 0 a [] rest) as [_ Hval]; [by right|done|done|done|].
  wp_go. eapply wp_lift; [exact Hval|]. cbn [andb].
  change (type _ =? PACKET_TYPE_ACK) with true. cbv iota.
  pose proof (proj1 Hem0) as Ew0. unfold update_upload. wp_go.
  apply ul_handle_ack_spec; [done|done|unfold peer_ok; rewrite Ew0; by eapply zget_Some_range|].
  intros u1 w1 Hout Hem1. rewrite Ew0 in Hem1. change (ack _) with a in Hout.
  destruct (ack_outcome_frame _ _ _ Hout Hst) as (Ed & Ep & _).
  pose proof (ack_outcome_wf _ _ _ Hout Hwf) as Hwf1.
  assert (psvr w1 = psvr w) as Ew1 by (rewrite (emits_psvr _ _ _ Hem1); exact Ew0).
  apply (ul_send_spec b _ _ _ peer); [done|by split; [rewrite Ed|]; apply Hdata|by rewrite Ew1, Ep|].
  intros ok u2 w2 Hwf2 Hrange Hok Hmv Hem2. wp_go. cbn [snd]. destruct ok; [|by destruct Hok as [_ ?]].
  rewrite Ew1, Z.add_0_r in Hem2. apply (HQ u1 u2 w1 w2); try done.
  eapply emits_trans; [eapply emitted_emits; [exact Hem0|constructor]|exact Hem1].
Qed.

(** What the receiver sends when it learns something. *)
Lemma receiver_input_full b i d win w peer (Q : download_t -> World -> Prop) :
  receiver_inv d b win -> zlen b = BT_CHUNK_SIZE -> 1 <= i <= CHUNK_PKTS ->
  zget (peers (peerlist (psvr w))) (dl_p_index d) = Some peer ->
  (forall d' w' win', receiver_inv d' b win' -> dl_p_index d' = dl_p_index d -> w_next win <= w_next win' ->
     (forall t, received win' t <-> received win t \/ t = i) ->
     emitted (if dl_finished d || (i <? w_next win) then []
              else [EvSend (sock (psvr w)) (addr peer) (ack_datagram (w_next win' - 1))]) w w' ->
     Q d' w') ->
  wp (receiver_input (data_datagram i (pkt_slice b i)) d) Q w.
Proof.
  intros Hinv Hb Hi Hpeer HQ. unfold receiver_input. wp_go.
  pose proof (pkt_slice_length b i Hb Hi) as Hsl. rewrite CHUNK_PKTS_eq in Hi.
  assert (zlen (pkt_slice b i) <= MAX_PAYLOAD_SIZE) as Hmax by (rewrite Hsl; done).
  unfold data_datagram. apply receive_own; [done|lia|done|done|]. intros rest w0 Hlen Hem0.
  destruct (own_valid PACKET_TYPE_DATA i 0 (pkt_slice b i) rest) as [Hpv Hval]; [by left|lia|done|done|].
  wp_go. eapply wp_lift; [exact Hval|]. cbn [andb].
  change (type _ =? PACKET_TYPE_DATA) with true. cbv iota. unfold update_download. wp_go.
  eapply (dl_recv_ok _ b win _ i); [done| |by rewrite CHUNK_PKTS_eq|done|by rewrite (proj1 Hem0)|].
  { split_and!; try done. apply take_app_length. }
  intros r d' w' win' Hinv' Hf' Hmono Hrec Hem'. wp_go. rewrite (proj1 Hem0) in Hem'.
  eapply HQ; [done|apply Hf'|done|done|]. exact (emitted_trans _ _ _ _ _ Hem0 Hem').
Qed.
End Host.

(** A receiver that did not wait for a packet does not advance; one that waits for it does. *)
Lemma receiver_stays d b win d' win' i :
  receiver_inv d b win -> receiver_inv d' b win' -> (forall t, received win' t <-> received win t \/ t = i) ->
  dl_finished d = true \/ i < w_next win -> 1 <= i -> w_next win <= w_next win' -> w_next win' = w_next win.
Proof.
  intros (Hok & _ & Hnot & Hfin) (Hok' & _ & _ & _) Hrec Hor Hi Hle.
  destruct Hor as [Hf%Hfin|Hlt]; [pose proof (ro_next _ _ _ Hok'); lia|].
  destruct (decide (w_next win' = w_next win)) as [|Hne]; [done|]. exfalso.
  pose proof (ro_rep _ _ _ Hok) as (_ & _ & _ & [H1 _] & _).
  assert (received win' (w_next win)) as Hr by (split; [lia|left; lia]).
  apply Hrec in Hr as [[_ [?|?]]|?]; [lia|done|lia].
Qed.

Lemma receiver_advances d' b win win' :
  receiver_inv d' b win' -> (forall t, received win' t <-> received win t \/ t = w_next win) ->
  w_next win <= w_next win' -> w_next win < w_next win'.
Proof.
  intros (Hok' & _ & Hnot' & _) Hrec Hle.
  destruct (decide (w_next win' = w_next win)) as [E|]; [|lia]. exfalso.
  assert (received win' (w_next win)) as [_ [?|?]] by (apply Hrec; by right); [lia|].
  apply Hnot'. by rewrite E.
Qed.

(** ** The system *)

Section System.
Context (ES ER : Env) (s_addr r_addr : sockaddr_in) (b : list Z).
Context (sender_clock : @clock_ok ES).

Abbreviation step := (step ES ER s_addr r_addr).
Abbreviation start := (start ES ER s_addr r_addr b).

(** All the packets up to [max_pkt_sent] are in the network, and no others. *)
Definition all_sent (w : World) (mx : Z) : Prop :=
  (forall i, 1 <= i <= mx -> sent_to w r_addr (data_datagram i (pkt_slice b i))) /\
  forall sk to dg, EvSend sk to dg ∈ out w -> exists i, 1 <= i <= mx /\ dg = data_datagram i (pkt_slice b i).

(** The invariant after [k] steps. *)
Record live_inv (c : config) (win : WinSpec) (k : Z) : Prop := {
  li_inv : inv b c win;
  li_speer : exists p, zget (peers (peerlist (psvr (s_host c)))) (ul_p_index (s_ul c)) = Some p /\ addr p = r_addr;
  li_rpeer : exists p, zget (peers (peerlist (psvr (r_host c)))) (dl_p_index (r_dl c)) = Some p /\ addr p = s_addr;
  li_sent : all_sent (s_host c) (max_pkt_sent (s_ul c));
  li_last : last_pkt_sent (s_ul c) <= max_pkt_sent (s_ul c);
  li_next : ul_finished (s_ul c) = false -> last_pkt_acked (s_ul c) + 1 <= max_pkt_sent (s_ul c);
  li_rcvd : forall t, received win t -> t <= max_pkt_sent (s_ul c);
  li_ack : 1 < w_next win -> sent_to (r_host c) s_addr (ack_datagram (w_next win - 1));
  li_win : 1 <= window_size (s_ul c) <= 1 + 512 * k }.

Lemma sent_to_more w w' to dg evs : out w' = out w ++ evs -> sent_to w to dg -> sent_to w' to dg.
Proof. intros E [sk Hin]. exists sk. rewrite E. apply elem_of_app. by left. Qed.

(** Sending the packets after [last] up to [last'], with [last <= mx]. *)
Lemma all_sent_more w w1 w' mx i sk last last' :
  all_sent w mx -> emits (winsize_any (psvr w) i) w w1 ->
  emitted (data_events sk r_addr b (last + 1) (last' - last)) w1 w' ->
  0 <= last <= mx -> last <= last' -> all_sent w' (Z.max mx last').
Proof.
  intros [Hall Honly] [_ (e1 & E1 & Hw)] [_ E2] Hl Hll. split.
  - intros j Hj. destruct (decide (j <= mx)).
    + eapply sent_to_more; [exact E2|]. eapply sent_to_more; [exact E1|]. apply Hall. lia.
    + exists sk. rewrite E2. apply elem_of_app. right. unfold data_events. apply list_elem_of_fmap.
      exists j. split; [done|]. apply elem_of_seqZ. lia.
  - intros sk' to dg. rewrite E2, E1, !elem_of_app. intros [[Hin|Hin]|Hin].
    + destruct (Honly _ _ _ Hin) as (j & ? & ->). exists j. split; [lia|done].
    + rewrite Forall_forall in Hw. by destruct (Hw _ Hin) as (? & ? & ? & _ & ?).
    + unfold data_events in Hin. apply list_elem_of_fmap in Hin as (j & [= -> -> ->] & Hj).
      apply elem_of_seqZ in Hj. exists j. split; [lia|done].
Qed.

Lemma all_sent_quiet w w1 w' mx i :
  all_sent w mx -> emits (winsize_any (psvr w) i) w w1 -> emitted [] w1 w' -> all_sent w' mx.
Proof.
  intros [Hall Honly] [_ (e1 & E1 & Hw)] [_ E2]. rewrite app_nil_r in E2. split.
  - intros j Hj. eapply sent_to_more; [rewrite E2; exact E1|]. by apply Hall.
  - intros sk to dg. rewrite E2, E1, elem_of_app. intros [Hin|Hin]; [by eapply Honly|].
    rewrite Forall_forall in Hw. by destruct (Hw _ Hin) as (? & ? & ? & _ & ?).
Qed.

(** How far the window and the numbers move. *)
Lemma ack_outcome_numbers u a u1 :
  ack_outcome u a u1 -> ul_wf u -> last_pkt_sent u <= max_pkt_sent u -> 1 <= window_size u -> window_size u + 512 < 2 ^ 32 ->
  max_pkt_sent u1 = max_pkt_sent u /\ 0 <= last_pkt_sent u1 <= max_pkt_sent u /\
  1 <= window_size u1 <= window_size u + 512.
Proof.
  intros Hout Hwf Hl H1 H2. pose proof (wf_acked _ Hwf). pose proof (wf_sent _ Hwf). pose proof (wf_max _ Hwf) as Hm.
  rewrite CHUNK_PKTS_eq in *.
  destruct Hout as [_ ->|n u2 _ Ha _ _ _ Hn _ ->|n n' _ _ _ _ _ _ _ _ Hn|u2 Ha Hn ->].
  - case_match; simpl; split_and!; lia.
  - rewrite (noted_frame _ _ Hn). simpl. split_and!; lia.
  - rewrite (noted_frame _ _ Hn). simpl. split_and!; lia.
  - rewrite (noted_frame _ _ Hn). simpl. split; [done|]. split; [lia|].
    unfold grow_window. destruct (status u); try lia.
    + rewrite u32_small, u32_small by (rewrite ?u32_small; lia). lia.
    + destruct (_ >=? _); [rewrite u32_small|]; lia.
    + rewrite u32_small; lia.
Qed.

Lemma sender_moved_rest u u' : sender_moved u u' ->
  ul_finished u' = ul_finished u /\ ack_cnt u' = ack_cnt u /\ window_size u' = window_size u /\
  max_pkt_sent u' = max_pkt_sent u.
Proof. by intros (ts & to & r & _ & _ & ->). Qed.

Lemma all_sent_data_only w mx : all_sent w mx -> mx <= CHUNK_PKTS -> data_only b w.
Proof.
  intros [_ Honly] Hm e He. destruct e; try done. destruct (Honly _ _ _ He) as (i & ? & ->). exists i. split; [lia|done].
Qed.

(** *** The sender moves *)

Definition with_sender (c : config) (u : upload_t) (w : World) : config :=
  {| s_host := w; s_ul := u; r_host := r_host c; r_dl := r_dl c |}.

Lemma live_inv_sender c win k k' u w :
  live_inv c win k -> ul_wf u -> ul_data u = ul_data (s_ul c) -> ul_p_index u = ul_p_index (s_ul c) ->
  status u <> UL_STATUS_FAST_RECOVERY -> psvr w = psvr (s_host c) -> all_sent w (max_pkt_sent u) ->
  max_pkt_sent (s_ul c) <= max_pkt_sent u -> last_pkt_sent u <= max_pkt_sent u -> last_pkt_acked u < w_next win ->
  (ul_finished u = false -> last_pkt_acked u + 1 <= max_pkt_sent u) -> 1 <= window_size u <= 1 + 512 * k' ->
  live_inv (with_sender c u w) win k'.
Proof.
  intros [[Hb _ Hda _ _ Hdl Hrp _ Hacks _] (sp & Hsp & Hsa) Hrp2 _ _ _ Hr2 Hack _] Hwf Ed Ep Hst Ew Hsent Hmx Hl Hac Hnx Hwin.
  split; cbn [s_host s_ul r_host r_dl with_sender]; try done.
  - split; cbn [s_host s_ul r_host r_dl with_sender]; try done.
    + split; [rewrite Ed|]; apply Hda.
    + exists sp. by rewrite Ew, Ep.
    + eapply all_sent_data_only; [exact Hsent|apply Hwf].
  - exists sp. by rewrite Ew, Ep.
  - intros t Ht. specialize (Hr2 t Ht). lia.
Qed.

(** An acknowledgement that was sent arrives. *)
Lemma live_ack c win k a :
  live_inv c win k -> 512 * (k + 3) < 2 ^ 32 -> 0 <= k -> sent_to (r_host c) s_addr (ack_datagram a) -> 0 <= a < w_next win ->
  @wp upload_t (@sender_input ES (ack_datagram a) (s_ul c)) (fun u' w' =>
    live_inv (with_sender c u' w') win (k + 1) /\ exists u1, ack_outcome (s_ul c) a u1 /\
      last_pkt_acked u' = last_pkt_acked u1 /\ ack_cnt u' = ack_cnt u1 /\ status u' = status u1) (s_host c).
Proof.
  intros Hli Hk Hk0 Hin Ha. pose proof Hli as [Hinv (sp & Hsp & Hsa) _ Hsent Hlast Hnext _ _ Hwin].
  pose proof Hinv as [Hb Hwf Hda Hst _ Hdl _ _ _ Hacked].
  pose proof (ro_next _ _ _ (proj1 Hdl)) as Hnx. rewrite CHUNK_PKTS_eq in Hnx.
  eapply (sender_input_full b); [done|done|done|done|exact Hsp|lia|].
  intros u1 u' w1 w' Hout Hwf1 Hwf' Htgt Hmv Hem1 Hem2.
  destruct (ack_outcome_numbers _ _ _ Hout Hwf Hlast) as (Em & Hl1 & Hw1); [lia|lia|].
  destruct (ack_outcome_frame _ _ _ Hout Hst) as (Ed1 & Ep1 & _ & Hst1 & Hge & Hor).
  destruct (sender_moved_frame _ _ Hmv) as (Ed & Ep & _ & Es & El).
  destruct (sender_moved_rest _ _ Hmv) as (Ef & Ec & Ew & Emx). simpl in Ed, Ep, Es, El, Ef, Ec, Ew, Emx.
  pose proof (wf_acked _ Hwf1). pose proof (wf_sent _ Hwf1) as Hs1. rewrite CHUNK_PKTS_eq in *.
  assert (last_pkt_sent u' = Z.max (last_pkt_sent u1) (Z.min (last_pkt_acked u1 + window_size u1) 512)) as Etgt.
  { rewrite Htgt. unfold sent_target. rewrite CHUNK_PKTS_eq, u32_small by lia. done. }
  split; [|by exists u1]. apply (live_inv_sender c win k); try done; try lia; try congruence.
  - rewrite (proj1 Hem2). by apply (emits_psvr _ _ _ Hem1).
  - rewrite Emx, Em. rewrite Hsa in Hem2. eapply all_sent_more; [exact Hsent|exact Hem1|exact Hem2|lia|lia].
  - rewrite Ef, El. intros Hf. rewrite Emx. destruct (decide (last_pkt_acked u1 = 512)) as [E|E]; [|lia].
    pose proof (wf_finished _ Hwf1) as Hfin. rewrite CHUNK_PKTS_eq in Hfin. apply Hfin in E. congruence.
Qed.

(** *** The receiver moves *)

Definition with_receiver (c : config) (d : download_t) (w : World) : config :=
  {| s_host := s_host c; s_ul := s_ul c; r_host := w; r_dl := d |}.

Lemma live_inv_receiver c win win' k k' d w evs :
  live_inv c win k -> receiver_inv d b win' -> dl_p_index d = dl_p_index (r_dl c) ->
  emitted evs (r_host c) w -> (forall e, e ∈ evs -> exists sk to, e = EvSend sk to (ack_datagram (w_next win' - 1))) ->
  w_next win <= w_next win' -> (w_next win' = w_next win \/ sent_to w s_addr (ack_datagram (w_next win' - 1))) ->
  (forall t, received win' t -> t <= max_pkt_sent (s_ul c)) -> k <= k' ->
  live_inv (with_receiver c d w) win' k'.
Proof.
  intros [[Hb Hwf Hda Hst Hsp Hdl _ Hdo Hacks Hlt] Hsp2 (rp & Hrp & Hra) Hsent Hl Hnx _ Hack Hwin] Hinv Ep Hem Hevs Hle Hor Hrc Hk.
  pose proof (ro_rep _ _ _ (proj1 Hinv)) as (_ & _ & _ & [H1 _] & _).
  split; cbn [s_host s_ul r_host r_dl with_receiver]; try done.
  - split; cbn [s_host s_ul r_host r_dl with_receiver]; try done; [|by eapply acks_only_emitted; eauto|lia].
    exists rp. by rewrite (proj1 Hem), Ep.
  - exists rp. by rewrite (proj1 Hem), Ep.
  - intros Hgt. destruct Hor as [E|?]; [|done]. rewrite E in *. eapply sent_to_more; [apply Hem|]. by apply Hack.
  - lia.
Qed.

(** A packet that was sent arrives. *)
Lemma live_data c win k i :
  live_inv c win k -> 0 <= k -> 1 <= i <= max_pkt_sent (s_ul c) ->
  @wp download_t (@receiver_input ER (data_datagram i (pkt_slice b i)) (r_dl c)) (fun d w => exists win',
    live_inv (with_receiver c d w) win' (k + 1) /\ w_next win <= w_next win' /\
    (i = w_next win -> w_next win < w_next win')) (r_host c).
Proof.
  intros Hli Hk0 Hi. pose proof Hli as [Hinv _ (rp & Hrp & Hra) _ _ _ Hrc _ _].
  pose proof Hinv as [Hb Hwf _ _ _ Hdl _ _ _ _]. pose proof (wf_max _ Hwf) as Hmx.
  eapply (receiver_input_full b i); [exact Hdl|done|lia|exact Hrp|].
  intros d w win' Hinv' Ep Hle Hrec Hem. exists win'. split; [|split; [done|]].
  - eapply live_inv_receiver; [exact Hli|exact Hinv'|done|exact Hem| |done| | |lia].
    + intros e. destruct (_ || _); [by intros ?%elem_of_nil|]. intros ->%list_elem_of_singleton. by eexists _, _.
    + destruct (dl_finished (r_dl c) || (i <? w_next win)) eqn:E.
      * left. apply orb_true_iff in E. eapply receiver_stays; [exact Hdl|exact Hinv'|exact Hrec| |lia|done].
        destruct E as [E|E%Z.ltb_lt]; [by left|by right].
      * right. exists (sock (psvr (r_host c))). destruct Hem as [_ ->]. rewrite Hra. apply elem_of_app. right. by left.
    + intros t [Ht| ->]%Hrec; [by apply Hrc|lia].
  - intros ->. by eapply receiver_advances.
Qed.

(** *** The timers *)

Lemma live_sender_timeout c win k :
  live_inv c win k -> 512 * (k + 3) < 2 ^ 32 -> 0 <= k ->
  @wp (Z * upload_t) (@ul_check_timeout ES (s_ul c)) (fun ru w => live_inv (with_sender c (snd ru) w) win (k + 1)) (s_host c).
Proof.
  intros Hli Hk Hk0. pose proof Hli as [Hinv (sp & Hsp & Hsa) _ Hsent Hlast Hnext _ _ Hwin].
  pose proof Hinv as [Hb Hwf Hda Hst _ _ _ _ _ Hacked].
  eapply (ul_check_timeout_spec b); [done|done|exact Hsp|].
  intros r u' resent w1 w' Hout Hwf' Hem1 Hem2. cbn [snd].
  destruct (timeout_outcome_frame _ _ _ _ _ Hout) as (Ed & Ep & _ & Es & El & _).
  pose proof (wf_acked _ Hwf). assert (psvr w' = psvr (s_host c)) as Ew by (rewrite (proj1 Hem2); by eapply emits_psvr).
  destruct Hout as [Hf|u1 Hf _ (win1 & ts & Hw & ->)|u1 u2 Hf _ (win1 & ts & Hw & ->) Hr Hm Hmax].
  - apply (live_inv_sender c win k); try done; try lia. by eapply all_sent_quiet.
  - apply (live_inv_sender c win k); try done; simpl; try lia; [by eapply all_sent_quiet|].
    destruct Hw as [->|[_ ->]]; [lia|]. rewrite u32_small; lia.
  - specialize (Hnext Hf). assert (max_pkt_sent u2 = max_pkt_sent (s_ul c)) as Emx by lia.
    destruct (sender_moved_rest _ _ Hm) as (Ef & _ & Ewn & _). simpl in Ef, Ewn.
    apply (live_inv_sender c win k); try done; try lia; [by apply Es|].
    rewrite Emx. replace (max_pkt_sent (s_ul c)) with (Z.max (max_pkt_sent (s_ul c)) (last_pkt_acked (s_ul c) + 1)) by lia.
    rewrite Hsa in Hem2.
    eapply (all_sent_more _ _ _ _ _ _ (last_pkt_acked (s_ul c))); [exact Hsent|exact Hem1| |lia|lia].
    replace (last_pkt_acked (s_ul c) + 1 - last_pkt_acked (s_ul c)) with 1 by lia. exact Hem2.
Qed.

Lemma live_receiver_timeout c win k :
  live_inv c win k -> 0 <= k ->
  @wp (Z * download_t) (@dl_check_timeout ER (r_dl c)) (fun rd w => exists win',
    live_inv (with_receiver c (snd rd) w) win' (k + 1)) (r_host c).
Proof.
  intros Hli Hk0. pose proof Hli as [Hinv _ (rp & Hrp & Hra) _ _ _ Hrc _ _].
  pose proof Hinv as [_ _ _ _ _ Hdl _ _ _ _].
  eapply (dl_check_timeout_ok _ b win); [done|exact Hrp|].
  intros d win' w Hinv' Hf Hn Hrec Hem. exists win'. cbn [snd].
  eapply live_inv_receiver; [exact Hli|exact Hinv'|apply Hf|exact Hem| |lia|by left| |lia].
  - intros e [-> _]%elem_of_replicate. rewrite Hn. by eexists _, _.
  - intros t Ht%Hrec. by apply Hrc.
Qed.

(** *** Every run keeps the invariant *)

Lemma start_live c : start c -> exists win, live_inv c win 0.
Proof.
  intros Hstart. destruct (start_inv _ _ _ _ _ _ Hstart) as (win & Hinv).
  destruct Hstart as [ws wr w1 w2 i j h k u d r fname f (pr & Hpr & Hra) (ps & Hps & Hsa) Hb Hfn Hows Howr Hsend Hinit].
  assert (receiver_inv d b {| w_next := 1; w_got := ∅ |} /\ dl_p_index d = j /\ emitted [] wr w2) as (Hd & Edp & Hemr).
  { assert (wp (@dl_init ER j k fname) (fun rd w' =>
      receiver_inv (snd rd) b {| w_next := 1; w_got := ∅ |} /\ dl_p_index (snd rd) = j /\
      emitted [] wr w') wr) as Hr.
    { eapply dl_init_spec; [exact Hfn|]. intros d' w' Hdinv Ej _ _ Hem. split_and!; [apply Hdinv|done..]. }
    exact (wp_run _ _ _ _ _ Hr Hinit). }
  set (u0 := (ul_start i h) .{ ul_data := data_mapped b }) in *.
  assert (wp (@ul_send ES u0) (fun ru w' => ul_wf (snd ru) /\ last_pkt_sent (snd ru) = 1 /\
      sender_moved (u0 .{ max_pkt_sent := 1 }) (snd ru) /\ emitted (data_events (sock (psvr ws)) (addr pr) b 1 1) ws w') ws) as Hs.
  { apply (ul_send_spec b u0 _ _ pr); [apply ul_start_wf|by split|exact Hpr|].
    intros ok u' w' Hwf' Hr Hok Hmv Hem. destruct ok; [|by destruct Hok as [_ ?]]. cbn [snd].
    assert (sent_target u0 = 1) as Et by reflexivity. rewrite Et in *. rewrite Hok in *.
    change (last_pkt_sent u0) with 0 in Hem. by split_and!. }
  destruct (wp_run _ _ _ _ _ Hs Hsend) as (Hwf & El & Hmv & Hem). cbn [snd] in *.
  destruct (sender_moved_frame _ _ Hmv) as (Ed & Ep & _ & Es & Ea).
  destruct (sender_moved_rest _ _ Hmv) as (Ef & _ & Ew & Emx). simpl in Ed, Ep, Es, Ea, Ef, Ew, Emx.
  exists {| w_next := 1; w_got := ∅ |}.
  assert (all_sent w1 1) as Hsent.
  { split.
    - intros n Hn. exists (sock (psvr ws)). destruct Hem as [_ ->]. rewrite Hows, Hra. replace n with 1 by lia. by left.
    - intros sk to dg. destruct Hem as [_ ->]. rewrite Hows. intros [= -> -> ->]%list_elem_of_singleton. exists 1. done. }
  split; cbn [s_host s_ul r_host r_dl].
  - split; cbn [s_host s_ul r_host r_dl]; try done.
    + by rewrite Es.
    + exists pr. rewrite (proj1 Hem), Ep. done.
    + exists ps. destruct Hemr as [-> _]. by rewrite Edp.
    + eapply all_sent_data_only; [exact Hsent|done].
    + intros e. destruct Hemr as [_ ->]. rewrite Howr. by intros ?%elem_of_nil.
    + rewrite Ea. done.
  - exists pr. by rewrite (proj1 Hem), Ep.
  - exists ps. destruct Hemr as [-> _]. by rewrite Edp.
  - by rewrite Emx.
  - lia.
  - intros _. rewrite Ea, Emx. done.
  - intros t [Ht [Hlt|Hin]]; cbn [w_next w_got] in *; [lia|by apply elem_of_empty in Hin].
  - intros Hgt. cbn [w_next] in Hgt. lia.
  - rewrite Ew. split; [done|]. simpl. done.
Qed.

Lemma step_live c c' win k :
  live_inv c win k -> 512 * (k + 3) < 2 ^ 32 -> 0 <= k -> step c c' -> exists win', live_inv c' win' (k + 1).
Proof.
  intros Hli Hk Hk0 Hstep. pose proof Hli as [Hinv _ _ [_ Hsent] _ _ _ _ _].
  destruct Hstep as [dg u' w' Hin Hrun|dg d' w' Hin Hrun|r u' w' Hrun|r d' w' Hrun].
  - destruct Hin as [sk Hin]. destruct (inv_acks _ _ _ Hinv _ Hin) as (a & Ha & ->).
    exists win. refine (proj1 (wp_run _ _ _ _ _ (live_ack c win k a Hli Hk Hk0 _ Ha) Hrun)). by exists sk.
  - destruct Hin as [sk Hin]. destruct (Hsent _ _ _ Hin) as (i & Hi & ->).
    destruct (wp_run _ _ _ _ _ (live_data c win k i Hli Hk0 Hi) Hrun) as (win' & Hli' & _). by exists win'.
  - exists win. exact (wp_run _ _ _ _ _ (live_sender_timeout c win k Hli Hk Hk0) Hrun).
  - destruct (wp_run _ _ _ _ _ (live_receiver_timeout c win k Hli Hk0) Hrun) as (win' & Hli'). by exists win'.
Qed.

Lemma nsteps_live n : forall c c' win k,
  live_inv c win k -> 0 <= k -> 512 * (k + Z.of_nat n + 3) < 2 ^ 32 -> nsteps step n c c' ->
  exists win', live_inv c' win' (k + Z.of_nat n).
Proof.
  induction n as [|n IH]; intros c c' win k Hli Hk0 Hk Hn; inversion Hn as [|? ? c1 ? Hst Hrest]; subst.
  - exists win. by rewrite Z.add_0_r.
  - destruct (step_live _ _ _ _ Hli ltac:(lia) Hk0 Hst) as (win1 & Hli1).
    destruct (IH _ _ _ _ Hli1 ltac:(lia) ltac:(lia) Hrest) as (win' & Hli'). exists win'.
    by replace (k + Z.of_nat (S n)) with (k + 1 + Z.of_nat n) by lia.
Qed.

(** *** Progress *)

(** The steps that deliver a datagram: the progress below needs no timer. *)
Inductive arrival (c : config) : config -> Prop :=
  | arrive_ack dg u' w' :
      sent_to (r_host c) s_addr dg -> @sender_input ES dg (s_ul c) (s_host c) = Some (u', w') -> arrival c (with_sender c u' w')
  | arrive_data dg d' w' :
      sent_to (s_host c) r_addr dg -> @receiver_input ER dg (r_dl c) (r_host c) = Some (d', w') -> arrival c (with_receiver c d' w').

Lemma arrival_step c c' : arrival c c' -> step c c'.
Proof. intros []; by econstructor. Qed.

Lemma ack_outcome_advances u a u1 :
  ack_outcome u a u1 -> ul_finished u = false -> 0 <= last_pkt_acked u -> last_pkt_acked u < a <= max_pkt_sent u ->
  last_pkt_acked u1 = a \/
  last_pkt_acked u1 = last_pkt_acked u /\ in_SS_or_CA u = true /\ status u1 = UL_STATUS_FAST_RETRANSMIT.
Proof.
  intros Hout Hf H0 Ha. destruct Hout as [Hig _|n u2 _ _ Hst _ _ Hn _ ->|n n' _ Hd _ _ _ _ _ _ _|u2 _ _ ->].
  - destruct Hig as [?|[?|[?|?]]]; [congruence|lia|lia|lia].
  - right. by rewrite (noted_frame _ _ Hn).
  - lia.
  - by left.
Qed.

Lemma unfinished u : ul_wf u -> ul_finished u = false -> last_pkt_acked u < 512.
Proof.
  intros Hwf Hf. pose proof (wf_finished _ Hwf) as Hfin. pose proof (wf_sent _ Hwf). rewrite CHUNK_PKTS_eq in *.
  destruct (decide (last_pkt_acked u = 512)) as [E%Hfin|]; [congruence|lia].
Qed.

(** One acknowledgement more, perhaps after a loss that the sender believes in. *)
Lemma ack_progress c win k :
  live_inv c win k -> 0 <= k -> 512 * (k + 4) < 2 ^ 32 -> ul_finished (s_ul c) = false ->
  last_pkt_acked (s_ul c) < w_next win - 1 ->
  exists c', rtc arrival c c' /\ live_inv c' win (k + 2) /\ last_pkt_acked (s_ul c) < last_pkt_acked (s_ul c').
Proof.
  intros Hli Hk0 Hk Hf Hlt. pose proof Hli as [Hinv _ _ _ _ _ Hrc Hack _]. pose proof (inv_ul _ _ _ Hinv) as Hwf.
  pose proof (wf_acked _ Hwf) as Hac.
  assert (received win (w_next win - 1)) as Hr by (split; [lia|left; lia]). apply Hrc in Hr.
  destruct (live_ack c win k (w_next win - 1) Hli ltac:(lia) Hk0 (Hack ltac:(lia)) ltac:(lia))
    as (u1 & w1 & E1 & Hli1 & v1 & Hout1 & Ea1 & _ & Es1).
  assert (arrival c (with_sender c u1 w1)) as Hst1 by (eapply arrive_ack; [apply (Hack ltac:(lia))|exact E1]).
  assert (forall k1 k2, k1 <= k2 -> forall c0, live_inv c0 win k1 -> live_inv c0 win k2) as Hmono.
  { intros k1 k2 Hle c0 []. split; try done. lia. }
  destruct (ack_outcome_advances _ _ _ Hout1 Hf Hac ltac:(lia)) as [Ev|(Ev & _ & Est)].
  { exists (with_sender c u1 w1). split; [by apply rtc_once|]. split; [by apply (Hmono (k + 1)); [lia|]|].
    cbn [s_ul with_sender]. lia. }
  pose proof (inv_ul _ _ _ (li_inv _ _ _ Hli1)) as Hwf1. cbn [s_ul with_sender] in Hwf1.
  assert (ul_finished u1 = false) as Hf1.
  { destruct (ul_finished u1) eqn:Ef; [|done]. apply (wf_finished _ Hwf1) in Ef. pose proof (unfinished _ Hwf Hf).
    rewrite CHUNK_PKTS_eq in Ef. lia. }
  pose proof Hli1 as [_ _ _ _ _ _ Hrc1 Hack1 _]. cbn [s_ul r_host with_sender] in Hrc1, Hack1.
  assert (received win (w_next win - 1)) as Hr1 by (split; [lia|left; lia]). apply Hrc1 in Hr1.
  destruct (live_ack (with_sender c u1 w1) win (k + 1) (w_next win - 1) Hli1 ltac:(lia) ltac:(lia) (Hack1 ltac:(lia)) ltac:(lia))
    as (u2 & w2 & E2 & Hli2 & v2 & Hout2 & Ea2 & _). cbn [s_ul with_sender] in Hout2.
  assert (arrival (with_sender c u1 w1) (with_sender (with_sender c u1 w1) u2 w2)) as Hst2
    by (eapply arrive_ack; [apply (Hack1 ltac:(lia))|exact E2]).
  exists (with_sender (with_sender c u1 w1) u2 w2). split; [by eapply rtc_l, rtc_once|].
  split; [by replace (k + 2) with (k + 1 + 1) by lia|]. cbn [s_ul with_sender].
  destruct (ack_outcome_advances _ _ _ Hout2 Hf1 ltac:(lia) ltac:(lia)) as [?|(_ & Hss & _)]; [lia|].
  unfold in_SS_or_CA in Hss. rewrite Es1, Est in Hss. discriminate.
Qed.

(** The packet that the receiver waits for. *)
Lemma data_progress c win k :
  live_inv c win k -> 0 <= k -> ul_finished (s_ul c) = false -> w_next win - 1 <= last_pkt_acked (s_ul c) ->
  exists c' win', rtc arrival c c' /\ live_inv c' win' (k + 2) /\ s_ul c' = s_ul c /\ w_next win < w_next win'.
Proof.
  intros Hli Hk0 Hf Hle. pose proof Hli as [Hinv _ _ [Hsent _] _ Hnext _ _ _]. pose proof (inv_acked _ _ _ Hinv) as Hlt.
  specialize (Hnext Hf). pose proof (ro_rep _ _ _ (proj1 (inv_dl _ _ _ Hinv))) as (_ & _ & _ & [H1 _] & _).
  destruct (live_data c win k (w_next win) Hli Hk0 ltac:(lia)) as (d & w & E & win' & Hli' & _ & Hadv).
  exists (with_receiver c d w), win'. split; [|split; [|split; [done|by apply Hadv]]].
  - apply rtc_once. eapply arrive_data; [apply (Hsent (w_next win)); lia|exact E].
  - destruct Hli'. split; try done. lia.
Qed.

Lemma completes n : forall c win k,
  live_inv c win k -> 0 <= k -> 512 * (k + 2 * Z.of_nat n + 4) < 2 ^ 32 ->
  (512 - last_pkt_acked (s_ul c)) + (513 - w_next win) <= Z.of_nat n ->
  exists c', rtc arrival c c' /\ ul_finished (s_ul c') = true.
Proof.
  induction n as [|n IH]; intros c win k Hli Hk0 Hk Hn; destruct (ul_finished (s_ul c)) eqn:Hf;
    try (by exists c; split; [apply rtc_refl|]); pose proof (li_inv _ _ _ Hli) as Hinv;
    pose proof (unfinished _ (inv_ul _ _ _ Hinv) Hf) as Hlt;
    pose proof (ro_next _ _ _ (proj1 (inv_dl _ _ _ Hinv))) as Hnx; rewrite CHUNK_PKTS_eq in Hnx; [lia|].
  destruct (decide (last_pkt_acked (s_ul c) < w_next win - 1)) as [Hmore|Hmore].
  - destruct (ack_progress _ _ _ Hli Hk0 ltac:(lia) Hf Hmore) as (c1 & Hr & Hli1 & Hadv).
    destruct (IH c1 win (k + 2) Hli1 ltac:(lia) ltac:(lia) ltac:(lia)) as (c' & Hr' & Hf'). exists c'.
    split; [by etransitivity|done].
  - destruct (data_progress _ _ _ Hli Hk0 Hf ltac:(lia)) as (c1 & win1 & Hr & Hli1 & Eu & Hadv).
    destruct (IH c1 win1 (k + 2) Hli1 ltac:(lia) ltac:(lia)) as (c' & Hr' & Hf'); [rewrite Eu; lia|]. exists c'.
    split; [by etransitivity|done].
Qed.

(** ** Properties *)

(** C4: with a working clock at the sender, a transfer never reaches a dead end: after
    any run of up to four million arrivals and timer checks, whatever was lost or
    reordered, some continuation ends with both hosts finished and the chunk received. *)
Theorem transfer_can_finish (n : nat) (c0 c : config) :
  start c0 -> nsteps step n c0 c -> Z.of_nat n <= 4000000 ->
  exists c', rtc step c c' /\ ul_finished (s_ul c') = true /\ dl_finished (r_dl c') = true /\ buffer (r_dl c') = b.
Proof.
  intros Hstart Hn Hmax. destruct (start_live _ Hstart) as (win0 & Hli0).
  destruct (nsteps_live n _ c _ _ Hli0 ltac:(lia) ltac:(lia) Hn) as (win & Hli).
  pose proof (li_inv _ _ _ Hli) as Hinv. pose proof (wf_acked _ (inv_ul _ _ _ Hinv)).
  pose proof (ro_rep _ _ _ (proj1 (inv_dl _ _ _ Hinv))) as (_ & _ & _ & [H1 _] & _).
  destruct (completes 1024 c win (Z.of_nat n)) as (c' & Hr & Hf); [done|lia|lia|lia|].
  apply (rtc_subrel arrival step) in Hr; [|exact arrival_step].
  exists c'. split; [done|]. split; [done|].
  destruct (reachable_trans_inv ES ER s_addr r_addr b c c' win Hinv) as (win' & Hinv' & _); [|done|].
  { clear -Hstart Hn. assert (rtc step c0 c) as Hrtc by (by eapply rtc_nsteps_2).
    assert (reachable ES ER s_addr r_addr b c0) as Hr0 by by apply reachable_start.
    clear Hstart Hn. induction Hrtc as [|x y z Hst _ IH]; [done|]. apply IH. by eapply reachable_step. }
  apply (wf_finished _ (inv_ul _ _ _ Hinv')) in Hf. rewrite CHUNK_PKTS_eq in Hf.
  pose proof (inv_acked _ _ _ Hinv') as Hlt. destruct (inv_dl _ _ _ Hinv') as (Hok & _ & _ & Hfin).
  pose proof (ro_next _ _ _ Hok) as Hnx. rewrite CHUNK_PKTS_eq in *.
  assert (dl_finished (r_dl c') = true) as Hd by (apply Hfin; lia).
  split; [done|]. by apply (receiver_complete b _ win'); [apply Hinv'|apply Hinv'|].
Qed.
End System.

Lemma transfer_can_finish_witness :
  exists c0, exists c', rtc (step sample_env sample_env (addr sample_peer) (addr sample_peer)) c0 c' /\
    ul_finished (s_ul c') = true /\ dl_finished (r_dl c') = true /\ buffer (r_dl c') = zero_chunk.
Proof.
  destruct sample_start_exists as (c0 & Hc & _). exists c0.
  apply (transfer_can_finish sample_env sample_env (addr sample_peer) (addr sample_peer) zero_chunk sample_clock 0 c0 c0).
  - exact Hc.
  - apply nsteps_O.
  - lia.
Defined.
