(* ===== verification/ServerInv.v ===== *)
(** * ServerInv: the invariant of the server's state

    What every operation of the server relies on and keeps: indices and buffers
    are in range, the queues are lists, every running transfer has the memory it
    works on, and the counters count the running transfers. *)

From S2P Require Import Prelude RecvWin LinkedList Sha Chunk ChunkList Machine Util Packet Sending.
From S2P Require Import Upload Download SendHelper PeerServer ParsePacket.

(** ** Updating a peer *)

Definition upd_peer (s : PeerServer) (i : Z) (p : Peer) : PeerServer :=
  s .{ peerlist := (peerlist s) .{ peers := <[Z.to_nat i := p]> (peers (peerlist s)) } }.
Definition peer_at (s : PeerServer) (i : Z) (p : Peer) : Prop :=
  zget (peers (peerlist s)) i = Some p /\ 0 <= i < pl_count (peerlist s).

Section Ops.
Context `{Env}.

Lemma wp_get_peer i p w (Q : Peer -> World -> Prop) :
  zget (peers (peerlist (psvr w))) i = Some p -> Q p w -> wp (get_peer i) Q w.
Proof. intros Hp HQ. unfold get_peer. wp_go. by eapply wp_lift. Qed.

Lemma wp_set_peer i p q w (Q : unit -> World -> Prop) :
  zget (peers (peerlist (psvr w))) i = Some q ->
  Q tt (w .{ psvr := upd_peer (psvr w) i p }) -> wp (set_peer i p) Q w.
Proof.
  intros Hq HQ. pose proof (zget_Some_range _ _ _ Hq) as Hi. unfold set_peer. wp_go.
  eapply wp_lift; [unfold zset; by rewrite decide_True by lia|]. by wp_go.
Qed.
End Ops.

Lemma upd_peer_get s i p q :
  zget (peers (peerlist s)) i = Some q -> zget (peers (peerlist (upd_peer s i p))) i = Some p.
Proof.
  intros Hq. pose proof (zget_Some_range _ _ _ Hq) as Hi.
  eapply (zget_zset_eq (peers (peerlist s))). unfold zset. by rewrite decide_True by lia.
Qed.

Lemma upd_peer_at s i p q : peer_at s i q -> peer_at (upd_peer s i p) i p.
Proof. intros [Hq Hi]. split; [by eapply upd_peer_get|exact Hi]. Qed.

Lemma upd_peer_get_ne s i j p : 0 <= i -> j <> i ->
  zget (peers (peerlist (upd_peer s i p))) j = zget (peers (peerlist s)) j.
Proof.
  intros Hi Hne. unfold zget. simpl. case_decide; [|done]. apply list_lookup_insert_ne. lia.
Qed.

(** Two updates of the same peer. *)
Lemma upd_peer_twice s i p p' : upd_peer (upd_peer s i p) i p' = upd_peer s i p'.
Proof. unfold upd_peer. simpl. by rewrite list_insert_insert_eq. Qed.

(** ** Counting the running transfers *)

Definition running (f : Peer -> bool) (s : PeerServer) : Z :=
  zlen (filter (fun p => f p = true) (take (Z.to_nat (pl_count (peerlist s))) (peers (peerlist s)))).

Lemma filter_insert_length {A} (f : A -> bool) (l : list A) (n : nat) p p' :
  l !! n = Some p ->
  zlen (filter (fun p => f p = true) (<[n := p']> l)) =
    zlen (filter (fun p => f p = true) l) - bool_int (f p) + bool_int (f p').
Proof.
  intros Hn. rewrite <- (take_drop_middle _ _ _ Hn) at 2.
  rewrite (insert_take_drop _ _ _ (lookup_lt_Some _ _ _ Hn)).
  rewrite !filter_app, !filter_cons, !length_app.
  destruct (f p), (f p'); repeat case_decide; try congruence; cbn [length bool_int]; lia.
Qed.

Lemma running_upd f s i p p' :
  peer_at s i p -> running f (upd_peer s i p') = running f s - bool_int (f p) + bool_int (f p').
Proof.
  intros [Hp Hi]. unfold running, upd_peer. simpl.
  rewrite take_insert_lt by lia. apply filter_insert_length.
  unfold zget in Hp. rewrite decide_True in Hp by lia. rewrite lookup_take_lt by lia. exact Hp.
Qed.

Lemma running_range f s : 0 <= pl_count (peerlist s) -> 0 <= running f s <= pl_count (peerlist s).
Proof.
  intros Hc. unfold running.
  pose proof (length_filter (fun p => f p = true)
    (take (Z.to_nat (pl_count (peerlist s))) (peers (peerlist s)))) as Hl.
  rewrite length_take in Hl. lia.
Qed.

(** A running transfer is counted. *)
Lemma running_pos f s i p : peer_at s i p -> f p = true -> 0 < running f s.
Proof.
  intros Hp Hf. pose proof (running_upd f s i p p Hp) as E.
  destruct Hp as [Hp Hi]. unfold running.
  assert (p ∈ filter (fun p => f p = true)
    (take (Z.to_nat (pl_count (peerlist s))) (peers (peerlist s)))) as Hin.
  { apply list_elem_of_filter. split; [done|]. apply list_elem_of_lookup. exists (Z.to_nat i).
    unfold zget in Hp. rewrite decide_True in Hp by lia. by rewrite lookup_take_lt by lia. }
  destruct (filter _ _); [by apply elem_of_nil in Hin|]. cbn [length]. lia.
Qed.

(** ** The invariant *)

Definition dl_run (i : Z) (d : download_t) : Prop :=
  dl_safe d /\ dl_p_index d = i /\ 0 <= get_index d < MAX_CHUNK_NUM.
Definition ul_run (i : Z) (u : upload_t) : Prop :=
  ul_wf u /\ ul_p_index u = i /\ status u <> UL_STATUS_FAST_RECOVERY /\ exists b, ul_has_data u b.
Definition queue_ok (dq : Linlist ChunkLine) : Prop :=
  exists xs, ll_rep dq xs /\ Forall (fun x => line_wf (snd x)) xs.

Record peer_safe (i : Z) (p : Peer) : Prop := {
  ps_queue : queue_ok (hasqueue p);
  ps_dl : is_downloading p = true -> dl_run i (dl p);
  ps_ul : is_uploading p = true -> ul_run i (ul p) }.

(** A file name buffer with a string in it. *)
Definition name_ok (f : list Z) : Prop := zlen f = BT_FILENAME_LEN /\ 0 ∈ f.

Record server_mem (s : PeerServer) : Prop := {
  sm_cnt : 0 <= pl_count (peerlist s) <= zlen (peers (peerlist s));
  sm_max : zlen (peers (peerlist s)) <= MAX_PEER_NUM;
  sm_peers : forall i p, peer_at s i p -> peer_safe i p;
  sm_has : list_ok (haschunks s);
  sm_get : list_ok (getchunks s);
  sm_ihave : list_wf (ihavechunks s);
  sm_name : name_ok (dl_filename s) /\ name_ok (getchunk_file s) }.

(** The counter of downloads is exact and within the limit; that of uploads is when
    the clock works: otherwise [start_upload] fails without a trace. *)
Definition counts_dl (s : PeerServer) : Prop :=
  dl_num s = running is_downloading s /\ dl_num s <= Z.max 0 (max_conn s).
Definition counts_ul (s : PeerServer) : Prop :=
  ul_num s = running is_uploading s /\ ul_num s <= Z.max 0 (max_conn s).

Section Inv.
Context `{Env}.

Record server_inv (s : PeerServer) : Prop := {
  si_mem : server_mem s;
  si_dl : counts_dl s;
  si_ul : clock_ok -> counts_ul s }.

(** The chunk file can be mapped. *)
Definition mmap_ok : Prop := forall n off, exists b, mmap n off = Some b /\ zlen b = BT_CHUNK_SIZE.

Lemma server_mem_at s i : server_mem s -> 0 <= i < pl_count (peerlist s) ->
  exists p, peer_at s i p /\ peer_safe i p.
Proof.
  intros Hm Hi. destruct (zget_is_Some (peers (peerlist s)) i) as [p Hp].
  { pose proof (sm_cnt _ Hm). lia. }
  exists p. assert (peer_at s i p) by done. split; [done|]. by apply (sm_peers _ Hm).
Qed.

Lemma server_inv_at s i : server_inv s -> 0 <= i < pl_count (peerlist s) ->
  exists p, peer_at s i p /\ peer_safe i p.
Proof. intros Hs. apply server_mem_at, Hs. Qed.

Lemma peer_at_ok s i p : peer_at s i p -> peer_ok s i.
Proof. intros [Hp _]. by eapply zget_Some_range. Qed.

Lemma server_mem_upd s i p p' :
  server_mem s -> peer_at s i p -> peer_safe i p' -> server_mem (upd_peer s i p').
Proof.
  intros [Hc Hx Hps ? ? ? ?] Hp Hsafe. split; try done.
  - simpl. rewrite length_insert. done.
  - simpl. by rewrite length_insert.
  - intros j q [Hq Hj]. destruct (decide (j = i)) as [->|Hne].
    + rewrite (upd_peer_get _ _ _ _ (proj1 Hp)) in Hq. by injection Hq as <-.
    + rewrite upd_peer_get_ne in Hq by (destruct Hp; lia || done). by apply Hps.
Qed.

(** Replacing a peer by one whose transfers run or not as before. *)
Lemma server_inv_upd s i p p' :
  server_inv s -> peer_at s i p -> peer_safe i p' ->
  is_downloading p' = is_downloading p -> is_uploading p' = is_uploading p ->
  server_inv (upd_peer s i p').
Proof.
  intros [Hm Hd Hu] Hp Hsafe Ed Eu. split; [by eapply server_mem_upd| |].
  - unfold counts_dl in *. rewrite (running_upd _ _ _ _ _ Hp), Ed. simpl. lia.
  - intros Hck. specialize (Hu Hck). unfold counts_ul in *.
    rewrite (running_upd _ _ _ _ _ Hp), Eu. simpl. lia.
Qed.

Lemma server_inv_dl_max s : server_inv s -> 0 <= dl_num s <= MAX_PEER_NUM.
Proof.
  intros [Hm [-> _] _]. pose proof (sm_cnt _ Hm). pose proof (sm_max _ Hm).
  pose proof (running_range is_downloading s). lia.
Qed.
End Inv.

(** What no operation changes. *)
Definition same_setup (s s' : PeerServer) : Prop :=
  pl_count (peerlist s') = pl_count (peerlist s) /\ max_conn s' = max_conn s /\ sock s' = sock s.
#[export] Instance same_setup_preorder : PreOrder same_setup.
Proof. split; [done|]. intros s1 s2 s3 (? & ? & ?) (? & ? & ?). split_and!; congruence. Qed.
