(* ===== verification/Congestion.v ===== *)
(** * Congestion: the law of the sender's window (upload.c)

    What the states of the congestion control mean for the window and the threshold,
    kept by any sequence of the sender's handlers in any order: acknowledgements
    (whatever their number), calls of [ul_send] and calls of [ul_check_timeout]. *)

From S2P Require Import Prelude Sha Chunk ChunkList Machine Util Packet Sending ServerInv Upload.

(** What each state says of the window [win] and the threshold [thr]. *)
Definition phase_window (st : ul_status) (win thr : Z) : Prop :=
  match st with
  | UL_STATUS_SLOW_START => win <= thr + 1
  | UL_STATUS_CONGESTION_AVOIDANCE | UL_STATUS_FAST_RETRANSMIT_CA => thr < win
  | UL_STATUS_FAST_RETRANSMIT => win = 1
  | UL_STATUS_FAST_RETRANSMIT_SS => 2 <= win <= thr
  | UL_STATUS_FAST_RECOVERY => False
  end.

(** The law after [n] calls of handlers: the threshold is at least 2; the window is at
    least 1 and at most one more than the packets acknowledged and the calls made, so
    that it never wraps; the packets in flight fit the window; and the window stands to
    the threshold as the state says: at most one above it in slow start, above it in
    congestion avoidance and its retransmission variant, 1 in fast retransmit, between 2
    and the threshold in the retransmission variant of slow start. *)
Record congestion_ok (n : Z) (u : upload_t) : Prop := {
  co_threshold : 2 <= ss_threshold u;
  co_window : 1 <= window_size u <= 1 + last_pkt_acked u + n;
  co_flight : 0 <= last_pkt_sent u - last_pkt_acked u <= window_size u;
  co_phase : phase_window (status u) (window_size u) (ss_threshold u) }.

(** More calls leave the law as it is. *)
Lemma congestion_more n n' u : n <= n' -> congestion_ok n u -> congestion_ok n' u.
Proof. intros Hn []. split; auto; lia. Qed.

Lemma congestion_live n u : congestion_ok n u -> status u <> UL_STATUS_FAST_RECOVERY.
Proof. intros [_ _ _ H] E. by rewrite E in H. Qed.

(** The law speaks of five fields only. *)
Lemma congestion_same n u u' :
  congestion_ok n u -> ss_threshold u' = ss_threshold u -> window_size u' = window_size u ->
  status u' = status u -> last_pkt_acked u' = last_pkt_acked u -> last_pkt_sent u' = last_pkt_sent u ->
  congestion_ok n u'.
Proof. intros [] E1 E2 E3 E4 E5. by split; rewrite ?E1, ?E2, ?E3, ?E4, ?E5. Qed.

Lemma congestion_noted n u u' : congestion_ok n u -> noted u u' -> congestion_ok n u'.
Proof. intros Hc Hn. eapply congestion_same; [exact Hc|..]; by rewrite (noted_frame _ _ Hn). Qed.

(** A loss restarts the window from one packet. *)
Lemma congestion_loss n u :
  0 <= n -> 0 <= last_pkt_acked u -> congestion_ok n (loss_of u).
Proof. intros Hn Ha. split; simpl; lia. Qed.

(** The acknowledgement of new data. *)
Lemma congestion_grow n u ack :
  congestion_ok n u -> 0 <= last_pkt_acked u < ack -> ack <= CHUNK_PKTS -> 0 <= n < 2 ^ 32 - 514 ->
  1 <= grow_window u ack <= 1 + ack + n /\ window_size u <= grow_window u ack /\
  phase_window (grow_status u ack) (grow_window u ack) (ss_threshold u).
Proof.
  intros [Ht Hw _ Hp] Ha Hack Hn. rewrite CHUNK_PKTS_eq in Hack. unfold grow_status, grow_window.
  destruct (status u); cbn [phase_window] in *.
  - rewrite (u32_small (ack - _)) by lia. rewrite u32_small by lia.
    destruct (Z.gtb_spec (window_size u + (ack - last_pkt_acked u)) (ss_threshold u));
      cbn [phase_window]; lia.
  - lia.
  - destruct (ack >=? last_pkt_sent u); cbn [phase_window]; [rewrite u32_small by lia|]; lia.
  - rewrite u32_small by lia. destruct (ack >=? max_retransmit_seq u); cbn [phase_window]; [lia|].
    destruct (Z.gtb_spec (window_size u + 1) (ss_threshold u)); cbn [phase_window]; lia.
  - destruct (ack >=? max_retransmit_seq u); cbn [phase_window]; lia.
  - done.
Qed.

Lemma congestion_ack n u ack u' :
  ul_wf u -> 0 <= n < 2 ^ 32 - 514 -> congestion_ok n u -> ack_outcome u ack u' -> congestion_ok (n + 1) u'.
Proof.
  intros Hwf Hn Hc Hout. pose proof (wf_acked _ Hwf). pose proof (wf_max _ Hwf).
  destruct Hout as [_ ->|k u1 _ _ _ _ _ H6 _ ->|k k' _ _ _ _ _ _ _ _ H7|u1 H1 H2 ->].
  - apply (congestion_more n); [lia|]. case_match; [by apply (congestion_same n u)|done].
  - apply congestion_loss; [lia|]. rewrite (noted_frame _ _ H6). simpl. lia.
  - apply (congestion_more n); [lia|]. by apply (congestion_noted n u).
  - destruct (congestion_grow n u ack Hc ltac:(lia) ltac:(lia) Hn) as (Hg1 & Hg2 & Hg3).
    destruct Hc as [Ht Hw Hf _]. rewrite (noted_frame _ _ H2). split; simpl; try done; lia.
Qed.

(** Sending fills the window and no more; only the timers change besides. *)
Lemma congestion_sent n u mx u' :
  congestion_ok n u -> 0 <= last_pkt_acked u -> last_pkt_sent u <= last_pkt_sent u' <= sent_target u ->
  sender_moved (u .{ max_pkt_sent := mx }) u' -> congestion_ok n u'.
Proof.
  intros [Ht Hw Hf Hp] Ha Hr (ts & to & r & _ & _ & E).
  assert (sent_target u <= last_pkt_acked u + window_size u) as Hle.
  { unfold sent_target, u32 in *. pose proof (Z.mod_le (last_pkt_acked u + window_size u) (2 ^ 32)). lia. }
  rewrite E. split; simpl; try done. lia.
Qed.

Lemma congestion_ca n u u1 :
  0 <= last_pkt_acked u <= CHUNK_PKTS -> 0 <= n < 2 ^ 32 - 514 -> congestion_ok n u -> ca_grown u u1 ->
  congestion_ok (n + 1) u1.
Proof.
  intros Ha Hn Hc (win & ts & Hwin & ->). rewrite CHUNK_PKTS_eq in Ha.
  destruct Hwin as [-> | [Hca ->]].
  - apply (congestion_more n); [lia|]. by apply (congestion_same n u).
  - destruct Hc as [Ht Hw Hf Hp]. unfold in_CA in Hca.
    split; cbn -[phase_window u32]; rewrite ?u32_small by lia; try lia.
    destruct (status u); cbn [phase_window] in *; try discriminate; lia.
Qed.

Lemma congestion_timeout n u now r u' resent :
  ul_wf u -> 0 <= n < 2 ^ 32 - 514 -> congestion_ok n u -> timeout_outcome u now r u' resent ->
  congestion_ok (n + 1) u'.
Proof.
  intros Hwf Hn Hc Hout. pose proof (wf_acked _ Hwf). pose proof (wf_sent _ Hwf).
  destruct Hout as [_|u1 _ _ Hca|u1 u2 _ _ Hca Hr Hm _].
  - apply (congestion_more n); [lia|done].
  - apply (congestion_ca n u); [lia|done..].
  - destruct Hca as (win & ts & _ & ->). destruct Hm as (ts' & to & rr & _ & _ & ->).
    split; simpl; lia.
Qed.

(** ** Sequences of handlers *)

Section Steps.
Context `{Env}.

(** One call of a handler, in any state of the server in which the peer of the upload
    has its place. *)
Inductive sender_step (u u' : upload_t) : Prop :=
  | step_ack ack w w' :
      peer_ok (psvr w) (ul_p_index u) -> ul_handle_ack u ack w = Some (u', w') -> sender_step u u'
  | step_send r w w' peer :
      zget (peers (peerlist (psvr w))) (ul_p_index u) = Some peer ->
      ul_send u w = Some ((r, u'), w') -> sender_step u u'
  | step_timer r w w' peer :
      zget (peers (peerlist (psvr w))) (ul_p_index u) = Some peer ->
      ul_check_timeout u w = Some ((r, u'), w') -> sender_step u u'.

Definition sender_ok (b : list Z) (n : Z) (u : upload_t) : Prop :=
  ul_wf u /\ ul_has_data u b /\ congestion_ok n u.

Lemma sender_step_ok b n u u' :
  0 <= n < 2 ^ 32 - 514 -> sender_ok b n u -> sender_step u u' -> sender_ok b (n + 1) u'.
Proof.
  intros Hn (Hwf & [Hd Hb] & Hc) Hst. pose proof (wf_acked _ Hwf) as Ha.
  destruct Hst as [ack w w' Hp Hrun|r w w' peer Hp Hrun|r w w' peer Hp Hrun].
  - refine (wp_run _ (fun u' _ => sender_ok b (n + 1) u') _ _ _ _ Hrun).
    apply ul_handle_ack_spec; [done|by eapply congestion_live|done|]. intros u1 w1 Hout _.
    destruct (ack_outcome_frame _ _ _ Hout (congestion_live _ _ Hc)) as (Ed & _).
    split_and!; [by eapply ack_outcome_wf|split; [congruence|done]|by eapply congestion_ack].
  - refine (wp_run _ (fun ru _ => sender_ok b (n + 1) (snd ru)) _ _ _ _ Hrun).
    eapply ul_send_spec; [done|by split|exact Hp|]. intros ok u1 w1 Hwf1 Hr _ Hm _.
    destruct (sender_moved_frame _ _ Hm) as (Ed & _). simpl in Ed.
    split_and!; [done|split; cbn [snd]; [congruence|done]|].
    apply (congestion_more n); [lia|]. by eapply congestion_sent.
  - refine (wp_run _ (fun ru _ => sender_ok b (n + 1) (snd ru)) _ _ _ _ Hrun).
    eapply ul_check_timeout_spec; [done|by split|exact Hp|]. intros r1 u1 resent w1 w2 Hout Hwf1 _ _.
    destruct (timeout_outcome_frame _ _ _ _ _ Hout) as (Ed & _).
    split_and!; [done|split; cbn [snd]; [congruence|done]|].
    eapply congestion_timeout; [exact Hwf|exact Hn|exact Hc|exact Hout].
Qed.

Lemma sender_steps_ok b k n u u' :
  nsteps sender_step k u u' -> 0 <= n -> n + Z.of_nat k < 2 ^ 32 - 513 -> sender_ok b n u ->
  sender_ok b (n + Z.of_nat k) u'.
Proof.
  intros Hs. revert n. induction Hs as [u|k u u1 u' Hst _ IH]; intros n Hn Hk Hok.
  - by rewrite Z.add_0_r.
  - replace (n + Z.of_nat (S k)) with (n + 1 + Z.of_nat k) by lia.
    apply IH; [lia|lia|]. eapply sender_step_ok; [|exact Hok|exact Hst]. lia.
Qed.
End Steps.

(** C26: after [ul_init] and any fewer than 2^32 - 513 calls of the sender's handlers:
    the threshold is at least 2, at most a window of packets is in flight, the window
    never wraps and stands to the threshold as the congestion state says
    ([phase_window]); fast recovery is never entered. *)
Theorem congestion_law `{Env} (i h : Z) (line : ChunkLine) (u u' : upload_t) (w w0 : World) (k : nat) :
  mmap_ok -> peer_ok (psvr w) i -> zget (chunks (haschunks (psvr w))) h = Some line ->
  is_place (cl_id line) -> ul_init i h w = Some ((0, u), w0) ->
  nsteps sender_step k u u' -> Z.of_nat k < 2 ^ 32 - 513 -> congestion_ok (Z.of_nat k) u'.
Proof.
  intros Hmm Hp Hl Hpl Hrun Hs Hk.
  assert (exists b, sender_ok b 0 u) as [b Hok].
  { refine (wp_run _ (fun ru _ => fst ru = 0 -> exists b, sender_ok b 0 (snd ru)) _ _ _ _ Hrun eq_refl).
    eapply ul_init_spec; [exact Hp|exact Hl|exact Hpl|]. intros n w1 _.
    destruct (Hmm n (place_of line)) as (b & -> & Hb). intros _. exists b. cbn [snd].
    split_and!; [apply ul_start_wf|by split|]. split; simpl; unfold SS_THRESH; lia. }
  eapply (sender_steps_ok b k 0); [exact Hs|lia|lia|exact Hok].
Qed.

(** The results of a run that succeeds. *)
Definition result_of {A} (m : M A) (w : World) (d : A) : A * World := default (d, w) (m w).
Lemma result_of_run {A} (m : M A) w d :
  bool_decide (is_Some (m w)) = true -> m w = Some (result_of m w d).
Proof. intros H%bool_decide_eq_true. unfold result_of. by destruct H as [x ->]. Qed.

Definition send_result `{Env} (u : upload_t) (w : World) : upload_t := (result_of (ul_send u) w (0, u)).1.2.
Definition ack_result `{Env} (u : upload_t) (ack : Z) (w : World) : upload_t :=
  (result_of (ul_handle_ack u ack) w u).1.

Lemma send_result_step `{Env} u w peer :
  zget (peers (peerlist (psvr w))) (ul_p_index u) = Some peer ->
  bool_decide (is_Some (ul_send u w)) = true -> sender_step u (send_result u w).
Proof.
  intros Hp Hr. apply (result_of_run _ _ (0, u)) in Hr. unfold send_result.
  destruct (result_of _ _ _) as [[r u'] w']. by eapply step_send.
Qed.
Lemma ack_result_step `{Env} u ack w :
  peer_ok (psvr w) (ul_p_index u) ->
  bool_decide (is_Some (ul_handle_ack u ack w)) = true -> sender_step u (ack_result u ack w).
Proof.
  intros Hp Hr. apply (result_of_run _ _ u) in Hr. unfold ack_result.
  destruct (result_of _ _ _) as [u' w']. by eapply step_ack.
Qed.

(** Packet 1 is sent and acknowledged, packets 2 and 3 are sent, then acknowledged at once. *)
Definition sent_1 : upload_t := @send_result sample_env sample_ul sample_world.
Definition acked_1 : upload_t := @ack_result sample_env sent_1 1 sample_world.
Definition sent_3 : upload_t := @send_result sample_env acked_1 sample_world.
Definition acked_3 : upload_t := @ack_result sample_env sent_3 3 sample_world.

Lemma sample_place u : ul_p_index u = 0 ->
  zget (peers (peerlist (psvr sample_world))) (ul_p_index u) = Some sample_peer /\
  peer_ok (psvr sample_world) (ul_p_index u).
Proof. intros ->. split; [reflexivity|]. split; [discriminate|reflexivity]. Qed.
Lemma sample_run : nsteps (@sender_step sample_env) 4 sample_ul acked_3.
Proof.
  assert (ul_p_index sample_ul = 0 /\ ul_p_index sent_1 = 0 /\ ul_p_index acked_1 = 0 /\
    ul_p_index sent_3 = 0) as (P0 & P1 & P2 & P3) by (vm_compute; auto).
  assert (@sender_step sample_env sample_ul sent_1) as S1
    by (refine (send_result_step _ _ _ (proj1 (sample_place _ P0)) _); vm_compute; reflexivity).
  assert (@sender_step sample_env sent_1 acked_1) as S2
    by (refine (ack_result_step _ _ _ (proj2 (sample_place _ P1)) _); vm_compute; reflexivity).
  assert (@sender_step sample_env acked_1 sent_3) as S3
    by (refine (send_result_step _ _ _ (proj1 (sample_place _ P2)) _); vm_compute; reflexivity).
  assert (@sender_step sample_env sent_3 acked_3) as S4
    by (refine (ack_result_step _ _ _ (proj2 (sample_place _ P3)) _); vm_compute; reflexivity).
  eapply nsteps_l; [exact S1|]. eapply nsteps_l; [exact S2|]. eapply nsteps_l; [exact S3|].
  apply nsteps_once, S4.
Qed.

Lemma sample_init : exists w0, @ul_init sample_env 0 0 sample_world = Some ((0, sample_ul), w0).
Proof.
  assert (wp (@ul_init sample_env 0 0) (fun ru _ => ru = (0, sample_ul)) sample_world)
    as (ru & w0 & Hrun & ->); [|by exists w0].
  apply (@ul_init_spec sample_env 0 0 _ _ zero_line).
  - split; [discriminate|reflexivity].
  - reflexivity.
  - split; [discriminate|reflexivity].
  - intros n w' _. reflexivity.
Qed.

Lemma congestion_law_witness :
  congestion_ok 4 acked_3 /\ window_size acked_3 = 4 /\ last_pkt_sent acked_3 = 3.
Proof.
  split.
  - destruct sample_init as [w0 Hinit].
    apply (@congestion_law sample_env 0 0 zero_line sample_ul acked_3 sample_world w0 4).
    + intros n off. exists zero_chunk. split; [reflexivity|apply zero_chunk_length].
    + split; [discriminate|reflexivity].
    + reflexivity.
    + split; [discriminate|reflexivity].
    + exact Hinit.
    + exact sample_run.
    + reflexivity.
  - split; vm_compute; reflexivity.
Defined.
