(* ===== verification/ServerOps.v ===== *)
(** * ServerOps: announcements, queues and the choice of a chunk

    What the helpers of send_helper.c and the chooser of peer_server.c do on a
    well-formed server: an [IHAVE] lists the asked hashes the server has, a peer's
    queue holds the hashes it announced, and the chunk chosen is the first
    unfetched one of the queue. *)

From S2P Require Import Prelude RecvWin LinkedList Sha Chunk ChunkList Machine Util Packet Sending Hashes.
From S2P Require Import Upload Download SendHelper PeerServer ParsePacket ServerInv.

(** ** Texts of hashes *)

Lemma cstr_nul a r r' : cstr (a ++ 0 :: r) = cstr (a ++ 0 :: r').
Proof. induction a as [|x a IH]; [done|]. simpl. by rewrite IH. Qed.

(** The texts of the first lines of a list. *)
Definition line_text (l : ChunkLine) : list Z := cstr (sha1_buf l).
Definition texts (c : ChunkList) : list (list Z) := line_text <$> range (chunks c) 0 (cl_count c).

(** The text of the [j]-th hash of a packet. *)
Definition asked (pkt : packet_t) (j : Z) : list Z :=
  cstr (hexstring (range (payload pkt) (HASH_OFFSET pkt j) SHA1_HASH_SIZE) ++ [0]).

Lemma GET_HASH_text pkt j buf :
  packet_valid pkt -> SHA1_HASH_SIZE <= GET_DATA_LEN pkt -> 0 <= j -> zlen buf = SHA1_BUF_SIZE ->
  exists hb, GET_HASH pkt j buf = Some hb /\ zlen hb = SHA1_BUF_SIZE /\ 0 ∈ hb /\ cstr hb = asked pkt j.
Proof.
  intros Hv Hd Hj Hb. destruct (GET_HASH_spec pkt j buf) as (src & Hsrc & E); [done..|lia|].
  rewrite E. eexists. split; [done|]. pose proof (zread_length _ _ _ _ Hsrc) as Hl.
  pose proof (hexstring_length src) as Hhl. change SHA1_HASH_SIZE with 20 in *.
  change SHA1_BUF_SIZE with 41 in *. split_and!.
  - rewrite length_app. cbn [length]. rewrite length_drop. lia.
  - apply elem_of_app. right. left.
  - unfold asked. rewrite (cstr_nul _ _ []). unfold zread in Hsrc. case_decide; [|done].
    injection Hsrc as <-. done.
Qed.

(** The bytes that a text of 40 digits stands for give the text back. *)
Lemma hash_bin_text s r :
  Forall is_hexdigit s -> zlen s = 40 -> hexstring (hash_bin (s ++ 0 :: r)) = s.
Proof.
  intros Hs Hl. destruct (hexdigits_hexstring s 20 Hs Hl) as (bs & -> & Hlen & Hb).
  unfold hash_bin. pose proof (hex2binary_spec bs (0 :: r) (replicate (Z.to_nat SHA1_HASH_SIZE) 0) Hb) as E.
  rewrite Hlen in E. change (2 * Z.of_nat 20) with SHA1_HASH_STR_SIZE in E.
  rewrite E by done. simpl. by rewrite app_nil_r.
Qed.

(** ** [send_ihave] *)

Lemma has_loop_spec cl hb n : forall j,
  list_wf cl -> 0 ∈ hb -> 0 <= j -> j + Z.of_nat n <= cl_count cl ->
  has_loop n j hb cl =
    Some (bool_decide (cstr hb ∈ line_text <$> range (chunks cl) j (Z.of_nat n))).
Proof.
  induction n as [|n IH]; intros j Hwf Hh Hj Hn; cbn [has_loop].
  { done. }
  destruct (list_wf_get cl j Hwf) as (l & Hl & Hlw); [lia|].
  destruct (strcmp_spec hb (sha1_buf l) Hh (proj2 Hlw)) as (d & Hd & Hiff).
  rewrite Hl, option_bind_Some, Hd, option_bind_Some.
  rewrite (range_cons _ _ _ _ Hl) by lia. rewrite fmap_cons.
  destruct (Z.eqb_spec d 0) as [->|Hne].
  - f_equal. symmetry. apply bool_decide_eq_true. apply elem_of_cons. left. by apply Hiff.
  - rewrite IH by (done || lia). f_equal. apply bool_decide_ext.
    replace (Z.of_nat (S n) - 1) with (Z.of_nat n) by lia.
    rewrite elem_of_cons. split; [by right|]. intros [E|?]; [|done]. by apply Hiff in E.
Qed.

Section Ops.
Context `{Env}.

(** The lines kept of those asked for. *)
Definition kept (has : ChunkList) (pkt : packet_t) (i n : Z) : list (list Z) :=
  filter (fun t => t ∈ texts has) (asked pkt <$> seqZ i n).

Lemma range_snoc {A} (l : list A) i n x :
  0 <= i -> 0 <= n -> zget l (i + n) = Some x -> range l i (n + 1) = range l i n ++ [x].
Proof. intros Hi Hn Hx. rewrite range_app by lia. f_equal. by rewrite (range_cons _ _ _ _ Hx). Qed.

Lemma range_zset_out {A} (l l' : list A) k x i n :
  zset l k x = Some l' -> 0 <= i -> i + n <= k -> range l' i n = range l i n.
Proof.
  intros Hs Hi Hk. unfold zset in Hs. case_decide; [|done]. injection Hs as <-.
  unfold range. destruct (decide (n <= 0)).
  { replace (Z.to_nat n) with 0%nat by lia. by rewrite !take_0. }
  apply list_eq. intros m. destruct (decide (m < Z.to_nat n)%nat).
  - rewrite !lookup_take_lt by done. rewrite !lookup_drop. apply list_lookup_insert_ne. lia.
  - rewrite !lookup_take_ge by lia. done.
Qed.

Lemma list_wf_zset cl k l cs n :
  list_wf cl -> zset (chunks cl) k l = Some cs -> line_wf l -> 0 <= n <= MAX_CHUNK_NUM ->
  list_wf {| cl_count := n; chunks := cs |}.
Proof.
  intros (Hl & _ & Hall) Hs Hlw Hn. split; [|split; [exact Hn|]].
  - simpl. by rewrite (zset_length _ _ _ _ Hs).
  - simpl. unfold zset in Hs. case_decide; [|done]. injection Hs as <-. by apply Forall_insert.
Qed.

Lemma list_ok_zset cl k l cs n :
  list_ok cl -> zset (chunks cl) k l = Some cs -> line_wf l -> is_place (cl_id l) -> 0 <= n <= MAX_CHUNK_NUM ->
  list_ok {| cl_count := n; chunks := cs |}.
Proof.
  intros [Hwf Hpl] Hs Hl Hid Hn. split; [by eapply list_wf_zset|].
  unfold places_int in *. simpl. unfold zset in Hs. case_decide; [|done]. injection Hs as <-. by apply Forall_insert.
Qed.

Lemma ihave_loop_spec pkt n : forall i k w (Q : Z -> World -> Prop),
  packet_valid pkt -> SHA1_HASH_SIZE <= GET_DATA_LEN pkt ->
  list_wf (haschunks (psvr w)) -> list_wf (ihavechunks (psvr w)) -> 0 <= i -> 0 <= k ->
  k + Z.of_nat n <= MAX_CHUNK_NUM ->
  (forall k' ih w', list_wf ih -> k <= k' <= k + Z.of_nat n ->
     w' = w .{ psvr := (psvr w) .{ ihavechunks := ih } } ->
     line_text <$> range (chunks ih) 0 k' =
       (line_text <$> range (chunks (ihavechunks (psvr w))) 0 k) ++
       kept (haschunks (psvr w)) pkt i (Z.of_nat n) ->
     Q k' w') ->
  wp (ihave_loop n i k pkt) Q w.
Proof.
  induction n as [|n IH]; intros i k w Q Hv Hd Hhas Hih Hi Hk Hn HQ; cbn [ihave_loop].
  { wp_go. apply (HQ k (ihavechunks (psvr w))); [done|lia| |].
    - destruct w as [s ? ?]. by destruct s.
    - unfold kept. cbn [fmap list_fmap filter]. by rewrite app_nil_r. }
  wp_go. destruct (zget_is_Some (chunks (ihavechunks (psvr w))) k) as [l Hl].
  { destruct Hih as (-> & _). lia. }
  eapply wp_lift; [exact Hl|]. wp_go. pose proof (list_wf_line _ _ _ Hih Hl) as [Hll _].
  destruct (GET_HASH_text pkt i (sha1_buf l) Hv Hd Hi Hll) as (hb & Eh & Hhl & Hh0 & Htext).
  eapply wp_lift; [exact Eh|]. wp_go.
  destruct (zset_is_Some (chunks (ihavechunks (psvr w))) k (l .{ sha1_buf := hb })) as [cs Ecs].
  { destruct Hih as (-> & _). lia. }
  eapply wp_lift; [exact Ecs|]. wp_go.
  change (haschunks (psvr (w .{ psvr := _ }))) with (haschunks (psvr w)).
  pose proof Hhas as (_ & Hhc & _).
  eapply wp_lift; [apply has_loop_spec; [done|done|done|lia]|]. wp_go.
  rewrite Z2Nat.id by lia. fold (texts (haschunks (psvr w))).
  set (ih1 := (ihavechunks (psvr w)) .{ chunks := cs }).
  assert (list_wf ih1) as Hih1.
  { apply (list_wf_zset (ihavechunks (psvr w)) k (l .{ sha1_buf := hb }) cs); [done|done| |apply Hih].
    by split. }
  set (w1 := w .{ psvr := _ }).
  assert (line_text <$> range cs 0 k = line_text <$> range (chunks (ihavechunks (psvr w))) 0 k) as E0.
  { f_equal. apply (range_zset_out _ _ _ _ _ _ Ecs); lia. }
  assert (kept (haschunks (psvr w)) pkt i (Z.of_nat (S n)) =
    (if bool_decide (asked pkt i ∈ texts (haschunks (psvr w))) then [asked pkt i] else []) ++
    kept (haschunks (psvr w)) pkt (i + 1) (Z.of_nat n)) as Ekept.
  { unfold kept. rewrite seqZ_cons, fmap_cons, filter_cons by lia.
    replace (Z.pred (Z.of_nat (S n))) with (Z.of_nat n) by lia.
    rewrite decide_bool_decide. by destruct (bool_decide _). }
  rewrite Htext. destruct (bool_decide _) eqn:Eb; apply (IH (i + 1) _ w1); try done; try lia;
    intros k' ih w' Hwf Hk' Ew' Et; apply (HQ k' ih w'); try done; try lia;
    rewrite Et, Ekept; change (chunks (ihavechunks (psvr w1))) with cs.
  - change (haschunks (psvr w1)) with (haschunks (psvr w)). rewrite app_assoc. f_equal.
    assert (zget cs (0 + k) = Some (l .{ sha1_buf := hb })) as Hk1
      by (rewrite Z.add_0_l; by eapply zget_zset_eq).
    rewrite (range_snoc cs 0 k _ ltac:(lia) Hk Hk1), fmap_app, E0. f_equal. cbn. by rewrite <- Htext.
  - by rewrite E0.
Qed.

(** The answer to a [WHOHAS]: the hashes kept, if any, in one packet to the asker. *)
Definition ihave_answer (s : PeerServer) (i : Z) (ts : list (list Z)) (evs : list event) : Prop :=
  match ts with
  | [] => evs = []
  | _ => exists p lines dg, zget (peers (peerlist s)) i = Some p /\ line_text <$> lines = ts /\
      Forall line_wf lines /\
      hash_datagram PACKET_TYPE_IHAVE ((fun l => hash_bin (sha1_buf l)) <$> lines) dg /\
      evs = [EvSend (sock s) (addr p) dg]
  end.

Lemma listed_all ty c i n :
  ty <> PACKET_TYPE_WHOHAS -> listed ty c i n = (fun l => hash_bin (sha1_buf l)) <$> range (chunks c) i n.
Proof.
  intros Hty. unfold listed. f_equal. generalize (range (chunks c) i n). intros l.
  induction l as [|x l IH]; [done|]. rewrite filter_cons, decide_True by (by intros ?).
  by rewrite IH.
Qed.

Lemma kept_length has pkt i n : 0 <= n -> zlen (kept has pkt i n) <= n.
Proof.
  intros Hn. unfold kept. pose proof (length_filter (fun t => t ∈ texts has) (asked pkt <$> seqZ i n)) as Hl.
  rewrite length_fmap, length_seqZ in Hl. lia.
Qed.

Lemma range_length {A} (l : list A) i n : 0 <= i -> 0 <= n -> i + n <= zlen l -> zlen (range l i n) = n.
Proof. intros. unfold range. rewrite length_take, length_drop. lia. Qed.

Lemma send_ihave_spec pkt i w cnt (Q : unit -> World -> Prop) :
  packet_valid pkt -> GET_CHUNK_CNT pkt = Some cnt -> 1 <= cnt -> 4 + SHA1_HASH_SIZE * cnt <= GET_DATA_LEN pkt ->
  list_wf (haschunks (psvr w)) -> list_wf (ihavechunks (psvr w)) -> peer_ok (psvr w) i ->
  (forall ih evs w', list_wf ih -> psvr w' = (psvr w) .{ ihavechunks := ih } -> out w' = out w ++ evs ->
     ihave_answer (psvr w) i (kept (haschunks (psvr w)) pkt 0 cnt) evs -> Q tt w') ->
  wp (send_ihave pkt i) Q w.
Proof.
  intros Hv Hcnt H1 Hd Hhas Hih Hi HQ. pose proof Hv as (_ & _ & _ & Hh & Hmax & _).
  unfold send_ihave. wp_go. eapply wp_lift; [exact Hcnt|]. wp_go.
  unfold GET_DATA_LEN, HEADER_SIZE, PACKET_SIZE, SHA1_HASH_SIZE in *.
  assert (cnt <= 74) as Hc74 by lia.
  apply ihave_loop_spec; [done|unfold SHA1_HASH_SIZE, GET_DATA_LEN; lia|done|done|lia|lia|
    change MAX_CHUNK_NUM with 4096; lia|].
  intros k ih w1 Hwf Hk Ew1 Et. rewrite Z2Nat.id in * by lia.
  assert (range (chunks (ihavechunks (psvr w))) 0 0 = []) as E00 by done.
  rewrite E00 in Et. cbn [fmap list_fmap app] in Et.
  assert (zlen (range (chunks ih) 0 k) = k) as Hrl.
  { destruct Hwf as (Hl & _). change MAX_CHUNK_NUM with 4096 in Hl. apply range_length; lia. }
  destruct (Z.eqb_spec k 0) as [->|Hk0].
  { wp_go. apply (HQ ih []); [done|by rewrite Ew1|by rewrite Ew1, app_nil_r|]. rewrite <- Et. done. }
  wp_go. set (w2 := w1 .{ psvr := _ }). set (ihk := ih .{ cl_count := k }).
  assert (psvr w2 = (psvr w) .{ ihavechunks := ihk }) as Ew2 by (unfold w2; by rewrite Ew1).
  assert (list_wf ihk) as Hwfk.
  { destruct Hwf as (? & _ & ?). split; [done|]. split; [|done]. simpl. change MAX_CHUNK_NUM with 4096. lia. }
  rewrite Ew2. change (ihavechunks (_ .{ ihavechunks := ihk })) with ihk.
  destruct (zget_is_Some _ _ Hi) as [p Hp].
  destruct (Z.eqb_spec i (-1)) as [->|_]; [destruct Hi; lia|].
  set (pp := _ .{ pp_type := PACKET_TYPE_IHAVE }).
  apply (send_hashes_spec pp ihk); change (pp_c_count pp <? 0) with true; change (pp_p_count pp <? 0) with false;
    change (pp_c_index pp) with 0; change (pp_p_index pp) with i; change (cl_count ihk) with k; cbv iota.
  - done.
  - right. by left.
  - discriminate.
  - destruct Hwfk as (_ & _ & Hall). eapply Forall_impl; [exact Hall|]. intros l [-> _]. done.
  - lia.
  - lia.
  - destruct Hwfk as (-> & _). change MAX_CHUNK_NUM with 4096. lia.
  - by destruct Hi.
  - change (pp_p_count pp) with 1. lia.
  - change (pp_p_count pp) with 1. rewrite Ew2. destruct Hi. simpl. lia.
  - intros dgs w3 Hpages Hem.
    assert (pkt_num k = 1) as Epk.
    { unfold pkt_num. change SHA1_HASH_SIZE with 20. change MAX_PAYLOAD_SIZE with 1484.
      rewrite Z.quot_div_nonneg by lia. Z.div_mod_to_equations. lia. }
    rewrite Epk in Hpages. change (seqZ 0 1) with [0] in Hpages. unfold pages_sent in Hpages.
    apply Forall2_cons_inv_l in Hpages as (dg & dgs' & Hdg & Hnil & ->).
    apply Forall2_nil_inv_l in Hnil as ->.
    unfold page in Hdg. change HASH_NUM_PKT with 74 in Hdg. rewrite !C_MIN_min in Hdg.
    rewrite Z.min_r, Z.min_l, Z.add_0_l in Hdg by lia.
    change (74 * 0) with 0 in Hdg. rewrite Z.sub_0_r in Hdg.
    rewrite listed_all in Hdg by discriminate.
    change (chunks ihk) with (chunks ih) in Hdg. change (pp_p_count pp) with 1 in Hem.
    change (pp_socket pp) with (sock (psvr w)) in Hem.
    rewrite Ew2 in Hem. change (peers (peerlist (_ .{ ihavechunks := ihk }))) with (peers (peerlist (psvr w))) in Hem.
    rewrite (range_one _ _ _ Hp) in Hem.
    destruct Hem as [Hps Hout]. apply (HQ ihk [EvSend (sock (psvr w)) (addr p) dg]).
    + done.
    + by rewrite Hps.
    + rewrite Hout. unfold w2. simpl. by rewrite Ew1.
    + rewrite <- Et. unfold ihave_answer. destruct (range (chunks ih) 0 k) as [|l ls] eqn:Er.
      { simpl in Hrl. lia. }
      cbn [fmap list_fmap]. exists p, (l :: ls), dg. split_and!; try done.
      destruct Hwf as (_ & _ & Hall). rewrite <- Er. by apply Forall_take, Forall_drop.
Qed.

(** ** Queues *)

(** A queue that holds hashes with these texts, in order. *)
Definition queue_holds (dq : Linlist ChunkLine) (ts : list (list Z)) : Prop :=
  exists xs, ll_rep dq xs /\ Forall (fun x => line_wf (snd x)) xs /\
    (fun x => line_text (snd x)) <$> xs = ts.

Lemma queue_holds_ok dq ts : queue_holds dq ts -> queue_ok dq.
Proof. intros (xs & ? & ? & _). by exists xs. Qed.
Lemma queue_ok_holds dq : queue_ok dq -> exists ts, queue_holds dq ts.
Proof. intros (xs & ? & ?). by eexists _, xs. Qed.

Lemma clear_queue_spec dq : queue_ok dq -> exists dq', clear_queue dq = Some dq' /\ ll_rep dq' [].
Proof.
  intros (xs & Hrep & _). unfold clear_queue, ll_count. destruct (Z.eqb_spec (ll_cnt dq) 0) as [E|E].
  - exists dq. split; [done|]. destruct Hrep as (? & ? & Hc & ?). destruct xs; [by split|].
    simpl in Hc. lia.
  - destruct (ll_delete_allnodes_rep _ _ Hrep) as (dq' & E' & Hrep' & _). cbn [negb].
    rewrite E', option_bind_Some. by eexists.
Qed.

(** The loop appends the texts of the packet; with [true] it was interrupted. *)
Lemma parse_download_loop_spec pkt n : forall i dq ts w (Q : bool * Linlist ChunkLine -> World -> Prop),
  packet_valid pkt -> SHA1_HASH_SIZE <= GET_DATA_LEN pkt -> 0 <= i ->
  queue_holds dq ts -> zlen ts + Z.of_nat n < 2 ^ 31 - 2 ->
  (forall fail dq' w', psvr w' = psvr w -> out w' = out w -> queue_ok dq' ->
     (if fail : bool then exists n, malloc_ok n = false
      else queue_holds dq' (ts ++ (asked pkt <$> seqZ i (Z.of_nat n)))) -> Q (fail, dq') w') ->
  wp (parse_download_loop n i pkt dq) Q w.
Proof.
  induction n as [|n IH]; intros i dq ts w Q Hv Hd Hi Hq Hlen HQ; cbn [parse_download_loop].
  { wp_go. apply HQ; [done|done|by eapply queue_holds_ok|]. cbn [seqZ fmap list_fmap].
    by rewrite app_nil_r. }
  unfold new_chunkline. wp_go. apply wp_ask. destruct (malloc_ok _) eqn:Em1; [|wp_go; apply HQ; [done|done|by eapply queue_holds_ok|by eexists]].
  wp_go. apply wp_ask. destruct (malloc_ok (tick (w .{ tick := _ }))) eqn:Em2; cbn [negb]; [|wp_go; apply HQ; [done|done|by eapply queue_holds_ok|by eexists]].
  destruct Hq as (xs & Hrep & Hall & Ets).
  pose proof (new_ll_Node_rep dq xs zero_line Hrep) as Hnew.
  destruct (new_ll_Node dq zero_line) as [dq1 node]. destruct Hnew as (Hrep1 & Hfresh & Hit).
  destruct (ll_insert_last_rep _ _ _ _ Hrep1 Hfresh Hit) as (dq2 & E2 & Hrep2).
  { rewrite <- Ets, length_fmap in Hlen. lia. }
  wp_go. eapply wp_lift; [exact E2|]. wp_go.
  destruct (GET_HASH_text pkt i (sha1_buf zero_line) Hv Hd Hi eq_refl) as (hb & Eh & Hhl & Hh0 & Htext).
  eapply wp_lift; [exact Eh|]. wp_go.
  destruct (ll_update_item_rep _ _ _ _ (zero_line .{ sha1_buf := hb }) Hrep2) as (dq3 & E3 & Hrep3).
  eapply wp_lift; [exact E3|].
  apply (IH (i + 1) _ (ts ++ [asked pkt i])); [done|done|lia| |rewrite length_app; cbn [length]; lia|].
  - eexists. split; [exact Hrep3|]. split.
    + apply Forall_app. split; [done|]. apply Forall_singleton. by split.
    + rewrite fmap_app, Ets. f_equal. cbn. unfold line_text. cbn. by rewrite Htext.
  - intros fail dq' w' Ew Eo Hok Hholds. apply HQ; [done|done|done|]. destruct fail; [exact Hholds|].
    rewrite <- app_assoc in Hholds. rewrite seqZ_cons, fmap_cons by lia.
    by replace (Z.pred (Z.of_nat (S n))) with (Z.of_nat n) by lia.
Qed.

(** [parse_download]: the queue of the peer is replaced by what it announced. *)
Lemma parse_download_spec pkt i p cnt w (Q : Z -> World -> Prop) :
  packet_valid pkt -> GET_CHUNK_CNT pkt = Some cnt -> 1 <= cnt -> 4 + SHA1_HASH_SIZE * cnt <= GET_DATA_LEN pkt ->
  zget (peers (peerlist (psvr w))) i = Some p -> queue_ok (hasqueue p) ->
  (forall r dq w', (r = 0 /\ queue_holds dq (asked pkt <$> seqZ 0 cnt) \/ r = -1 /\ queue_holds dq [] /\ exists n, malloc_ok n = false) ->
     psvr w' = upd_peer (psvr w) i (p .{ hasqueue := dq }) -> out w' = out w -> Q r w') ->
  wp (parse_download pkt i) Q w.
Proof.
  intros Hv Hcnt H1 Hd Hp Hq HQ. pose proof Hv as (_ & _ & _ & Hh & Hmax & _). unfold parse_download.
  wp_go. eapply wp_get_peer; [exact Hp|]. wp_go.
  destruct (clear_queue_spec _ Hq) as (dq & Eq & Hrep). eapply wp_lift; [exact Eq|]. wp_go.
  eapply wp_lift; [exact Hcnt|]. wp_go.
  unfold GET_DATA_LEN, HEADER_SIZE, PACKET_SIZE, SHA1_HASH_SIZE in *.
  apply (parse_download_loop_spec pkt _ 0 dq []);
    [done|unfold SHA1_HASH_SIZE, GET_DATA_LEN; lia|lia|by exists []|simpl; lia|].
  intros fail dq1 w1 Ew Eo Hok Hholds. wp_go. rewrite Z2Nat.id in Hholds by lia.
  destruct fail.
  - destruct (clear_queue_spec _ Hok) as (dq2 & Eq2 & Hrep2). eapply wp_lift; [exact Eq2|]. wp_go.
    eapply wp_set_peer; [by rewrite Ew|]. wp_go. apply (HQ (-1) dq2); [right|simpl; by rewrite Ew|done].
    split; [done|]. split; [by exists []|done].
  - eapply wp_lift; [reflexivity|]. wp_go.
    eapply wp_set_peer; [by rewrite Ew|]. wp_go. apply (HQ 0 dq1); [left|simpl; by rewrite Ew|done].
    by split.
Qed.

(** ** The choice of a chunk *)

(** Line [j] of the wanted list is unfetched and has this text. *)
Definition fetchable (gc : ChunkList) (t : list Z) (j : Z) : Prop :=
  0 <= j < cl_count gc /\
  exists c, zget (chunks gc) j = Some c /\ state c = unfetched /\ line_text c = t.

Lemma find_get_loop_spec gc sha n : forall i,
  list_wf gc -> 0 ∈ sha -> 0 <= i -> i + Z.of_nat n = cl_count gc ->
  exists r, find_get_loop n i gc sha = Some r /\
    match r with
    | Some j => i <= j /\ fetchable gc (cstr sha) j /\ forall k, i <= k < j -> ~ fetchable gc (cstr sha) k
    | None => forall k, i <= k -> ~ fetchable gc (cstr sha) k
    end.
Proof.
  induction n as [|n IH]; intros i Hwf Hs Hi Hn; cbn [find_get_loop].
  { exists None. split; [done|]. intros k Hk [Hr _]. lia. }
  destruct (list_wf_get gc i Hwf) as (c & Hc & Hcw); [lia|]. rewrite Hc, option_bind_Some.
  assert (~ fetchable gc (cstr sha) i -> exists r, find_get_loop n (i + 1) gc sha = Some r /\
    match r with
    | Some j => i <= j /\ fetchable gc (cstr sha) j /\ forall k, i <= k < j -> ~ fetchable gc (cstr sha) k
    | None => forall k, i <= k -> ~ fetchable gc (cstr sha) k
    end) as Hnext.
  { intros Hno. destruct (IH (i + 1)) as (r & Er & Hr); [done|done|lia|lia|]. exists r. split; [done|].
    assert (forall k, i <= k -> k <> i -> i + 1 <= k) as Hstep by lia.
    destruct r as [j|].
    - destruct Hr as (Hj & Hf & Hall). split_and!; [lia|done|]. intros k Hk.
      destruct (decide (k = i)) as [->|]; [done|]. apply Hall. lia.
    - intros k Hk. destruct (decide (k = i)) as [->|]; [done|]. apply Hr. lia. }
  destruct (decide (state c = unfetched)) as [Hu|Hu].
  - destruct (strcmp_spec (sha1_buf c) sha (proj2 Hcw) Hs) as (d & Hd & Hiff).
    rewrite Hd, option_bind_Some. destruct (Z.eqb_spec d 0) as [->|Hne].
    + exists (Some i). split; [done|]. split_and!; [lia| |intros; lia].
      split; [lia|]. exists c. split_and!; [done|done|]. by apply Hiff.
    + apply Hnext. intros (_ & c' & Hc' & _ & Et). simplify_eq. by apply Hiff in Et.
  - apply Hnext. intros (_ & c' & Hc' & ? & _). by simplify_eq.
Qed.

(** Nothing of the wanted list has such a text. *)
Definition no_fetchable (gc : ChunkList) (t : list Z) : Prop := forall j, ~ fetchable gc t j.

Lemma find_loop_spec gc dq suf : forall pre fuel,
  list_wf gc -> ll_rep dq (pre ++ suf) -> Forall (fun x => line_wf (snd x)) suf ->
  (length suf < fuel)%nat ->
  exists r, find_loop fuel gc dq (first_loc suf) = Some r /\
    match r with
    | None => Forall (fun x => no_fetchable gc (line_text (snd x))) suf
    | Some (node, i) => exists mid x rest, suf = mid ++ (node, x) :: rest /\
        Forall (fun x => no_fetchable gc (line_text (snd x))) mid /\ fetchable gc (line_text x) i /\
        forall k, k < i -> ~ fetchable gc (line_text x) k
    end.
Proof.
  induction suf as [|[l x] suf IH]; intros pre fuel Hwf Hrep Hall Hfuel.
  { exists None. split; [by destruct fuel|constructor]. }
  destruct (ll_walk _ _ _ _ _ Hrep) as (Hl & Hitem & Hnext).
  apply Forall_cons in Hall as [Hx Hall]. destruct fuel as [|fuel]; [simpl in Hfuel; lia|].
  cbn [find_loop first_loc]. destruct (Z.eqb_spec l ll_end) as [E|_]; [done|].
  rewrite Hitem, option_bind_Some. pose proof Hwf as (_ & Hc & _).
  destruct (find_get_loop_spec gc (sha1_buf x) (Z.to_nat (cl_count gc)) 0) as (r & Er & Hr);
    [done|apply Hx|lia|lia|]. rewrite Er, option_bind_Some. destruct r as [i|].
  - exists (Some (l, i)). split; [done|]. exists [], x, suf. destruct Hr as (Hi & Hf & Hfirst).
    split_and!; [done|constructor|exact Hf|]. intros k Hk Hk'. apply (Hfirst k); [|exact Hk'].
    destruct Hk' as [? _]. lia.
  - rewrite Hnext, option_bind_Some.
    destruct (IH (pre ++ [(l, x)]) fuel) as (r & E & Hres);
      [done|by rewrite <- app_assoc|done|simpl in Hfuel; lia|].
    exists r. split; [exact E|].
    assert (no_fetchable gc (line_text x)) as Hno.
    { intros k Hk. apply (Hr k); [|exact Hk]. destruct Hk as [? _]. lia. }
    destruct r as [[node i]|].
    + destruct Hres as (mid & y & rest & -> & Hmid & Hf). exists ((l, x) :: mid), y, rest.
      split_and!; [done|by constructor|apply Hf..].
    + by constructor.
Qed.

(** [find_unfetched_chunk]: the first text of the queue with an unfetched chunk goes,
    and that chunk is chosen. *)
Lemma find_unfetched_chunk_spec i p ts w (Q : Z -> World -> Prop) :
  list_wf (getchunks (psvr w)) -> zget (peers (peerlist (psvr w))) i = Some p ->
  queue_holds (hasqueue p) ts ->
  (Forall (no_fetchable (getchunks (psvr w))) ts -> Q (-1) w) ->
  (forall r dq ts1 t ts2, ts = ts1 ++ t :: ts2 -> Forall (no_fetchable (getchunks (psvr w))) ts1 ->
     fetchable (getchunks (psvr w)) t r -> (forall k, k < r -> ~ fetchable (getchunks (psvr w)) t k) ->
     queue_holds dq (ts1 ++ ts2) ->
     Q r (w .{ psvr := upd_peer (psvr w) i (p .{ hasqueue := dq } .{ dl := (dl p) .{ get_index := r } }) })) ->
  wp (find_unfetched_chunk i) Q w.
Proof.
  intros Hwf Hp (xs & Hrep & Hall & <-) Hnone Hsome. pose proof (zget_Some_range _ _ _ Hp) as Hi.
  unfold find_unfetched_chunk. destruct (Z.ltb_spec i 0); [lia|]. wp_go.
  eapply wp_get_peer; [exact Hp|]. wp_go. eapply wp_lift; [by apply ll_start_rep|]. wp_go.
  destruct (find_loop_spec (getchunks (psvr w)) (hasqueue p) xs [] (size (ll_heap (hasqueue p))))
    as (r & Er & Hr); [done|done|done|by apply ll_rep_size|]. eapply wp_lift; [exact Er|].
  destruct r as [[node r]|].
  - destruct Hr as (mid & x & rest & -> & Hmid & Hf & Hfirst).
    destruct (ll_remove_rep _ _ _ _ _ Hrep) as (dq & Eq & Hrep'). wp_go. eapply wp_lift; [exact Eq|].
    wp_go. eapply wp_set_peer; [exact Hp|]. wp_go.
    apply (Hsome r dq ((fun x => line_text (snd x)) <$> mid) (line_text x)
      ((fun x => line_text (snd x)) <$> rest)); [by rewrite fmap_app| |done|done|].
    + by apply Forall_fmap.
    + exists (mid ++ rest). rewrite fmap_app. split_and!; [done| |done].
      apply Forall_app in Hall as [? [_ ?]%Forall_cons]. by apply Forall_app.
  - wp_go. apply Hnone. by apply Forall_fmap.
Qed.
End Ops.
