(* ===== verification/ServerSafe.v ===== *)
(** * ServerSafe: the operations of the server keep its invariant

    Every handler of parse_packet.c and the timeout check of peer_server.c, from
    any state that satisfies [server_inv], runs without undefined behaviour and
    leaves such a state. *)

From S2P Require Import Prelude RecvWin LinkedList Sha Chunk ChunkList Machine Util Packet Sending Hashes.
From S2P Require Import Upload Download SendHelper PeerServer ParsePacket ServerInv ServerOps.

Section Safe.
Context `{Env}.

(** ** Changes of the state *)

(** The memory of another state with the same peers. *)
Lemma server_mem_ext s s' :
  server_mem s -> peerlist s' = peerlist s -> list_ok (haschunks s') -> list_ok (getchunks s') ->
  list_wf (ihavechunks s') -> name_ok (dl_filename s') /\ name_ok (getchunk_file s') -> server_mem s'.
Proof.
  intros [? ? Hps ? ? ? ?] E ? ? ? ?. split; rewrite ?E; try done.
  intros i p [Hp Hi]. rewrite E in *. by apply Hps.
Qed.

(** One peer changes, and the counters with it. *)
Lemma server_inv_change s s' i p p' :
  server_inv s -> peer_at s i p -> peer_safe i p' ->
  peerlist s' = peerlist (upd_peer s i p') -> max_conn s' = max_conn s ->
  haschunks s' = haschunks s -> ihavechunks s' = ihavechunks s -> list_ok (getchunks s') ->
  dl_filename s' = dl_filename s -> getchunk_file s' = getchunk_file s ->
  dl_num s' = dl_num s - bool_int (is_downloading p) + bool_int (is_downloading p') ->
  (dl_num s' <= Z.max 0 (max_conn s)) ->
  (clock_ok -> ul_num s' = ul_num s - bool_int (is_uploading p) + bool_int (is_uploading p') /\
     ul_num s' <= Z.max 0 (max_conn s)) ->
  server_inv s'.
Proof.
  intros [Hm Hd Hu] Hp Hsafe El Emx Eh Ei Hg En1 En2 Edl Hdl Hul.
  assert (forall f, running f s' = running f (upd_peer s i p')) as Er by (intros; unfold running; by rewrite El).
  split.
  - apply (server_mem_ext (upd_peer s i p')); [by eapply server_mem_upd|done| | | |].
    + rewrite Eh. apply Hm.
    + done.
    + rewrite Ei. apply Hm.
    + rewrite En1, En2. apply Hm.
  - destruct Hd as [Hd _]. split; [|by rewrite Emx]. rewrite Er, (running_upd _ _ _ _ _ Hp). lia.
  - intros Hck. destruct (Hu Hck) as [Hu1 _]. destruct (Hul Hck) as [Hul1 Hul2].
    split; [|by rewrite Emx]. rewrite Er, (running_upd _ _ _ _ _ Hp). lia.
Qed.

(** The same peers and counters. *)
Lemma server_inv_ext s s' :
  server_inv s -> peerlist s' = peerlist s -> max_conn s' = max_conn s -> dl_num s' = dl_num s ->
  ul_num s' = ul_num s -> list_ok (haschunks s') -> list_ok (getchunks s') ->
  list_wf (ihavechunks s') -> name_ok (dl_filename s') /\ name_ok (getchunk_file s') -> server_inv s'.
Proof.
  intros [Hm Hd Hu] El Emx Edl Eul ? ? ? ?.
  assert (forall f, running f s' = running f s) as Er by (intros; unfold running; by rewrite El).
  split; [by eapply server_mem_ext| |].
  - unfold counts_dl in *. by rewrite Er, Emx, Edl.
  - intros Hck. specialize (Hu Hck). unfold counts_ul in *. by rewrite Er, Emx, Eul.
Qed.

(** ** Marking a chunk *)

Definition with_chunks (s : PeerServer) (cs : list ChunkLine) : PeerServer :=
  s .{ getchunks := (getchunks s) .{ chunks := cs } }.

(** The list with line [i] in state [st]. *)
Definition marked (s : PeerServer) (i : Z) (st : ChunkState) (cs : list ChunkLine) : Prop :=
  exists c, zget (chunks (getchunks s)) i = Some c /\
    zset (chunks (getchunks s)) i (c .{ state := st }) = Some cs.

Lemma set_get_state_spec s i st :
  list_ok (getchunks s) -> 0 <= i < MAX_CHUNK_NUM ->
  exists cs, marked s i st cs /\ set_get_state s i st = Some (with_chunks s cs) /\
    list_ok ((getchunks s) .{ chunks := cs }).
Proof.
  intros Hok Hi. pose proof Hok as [Hwf Hpl]. pose proof Hwf as (Hl & Hc & _).
  destruct (zget_is_Some (chunks (getchunks s)) i) as [c Hget]; [lia|].
  destruct (zset_is_Some (chunks (getchunks s)) i (c .{ state := st })) as [cs Hset]; [lia|].
  exists cs. split; [by exists c|]. split.
  - unfold set_get_state. by rewrite Hget, option_bind_Some, Hset, option_bind_Some.
  - eapply (list_ok_zset (getchunks s)); [done|exact Hset| | |exact Hc].
    + exact (list_wf_line _ _ _ Hwf Hget).
    + exact (places_line _ _ _ Hpl Hget).
Qed.

Lemma mark_chunk_spec i st w (Q : unit -> World -> Prop) :
  list_ok (getchunks (psvr w)) -> 0 <= i < MAX_CHUNK_NUM ->
  (forall cs, marked (psvr w) i st cs -> list_ok ((getchunks (psvr w)) .{ chunks := cs }) ->
     Q tt (w .{ psvr := with_chunks (psvr w) cs })) ->
  wp (mark_chunk i st) Q w.
Proof.
  intros Hwf Hi HQ. destruct (set_get_state_spec (psvr w) i st Hwf Hi) as (cs & Hm & E & Hwf').
  unfold mark_chunk. wp_go. unfold id. eapply wp_lift; [exact E|]. wp_go. by apply HQ.
Qed.

(** ** Starting a download *)

Lemma strcpy_total dst src :
  0 ∈ src -> zlen src <= zlen dst -> exists f, strcpy dst src = Some f /\ zlen f = zlen dst /\ 0 ∈ f.
Proof.
  intros H0 Hl. unfold strcpy. rewrite decide_True by done.
  assert (zlen (cstr src ++ [0]) <= zlen src) as Hc.
  { rewrite length_app. cbn [length]. induction src as [|x src IH]; [by apply elem_of_nil in H0|].
    simpl. destruct (Z.eqb_spec x 0); [simpl; lia|].
    apply elem_of_cons in H0 as [?|H0]; [congruence|]. simpl in *. specialize (IH H0 ltac:(lia)). lia. }
  destruct (zwrite_is_Some dst 0 (cstr src ++ [0])) as [f Hf]; [lia|lia|].
  exists f. split; [done|]. split; [by rewrite (zwrite_length _ _ _ _ Hf)|].
  unfold zwrite in Hf. case_decide; [|done]. injection Hf as <-.
  rewrite !elem_of_app. left. right. left.
Qed.

(** The [GET] for line [c], to peer [i]. *)
Definition get_event (s : PeerServer) (i : Z) (c : ChunkLine) (e : event) : Prop :=
  exists p dg, zget (peers (peerlist s)) i = Some p /\
    hash_datagram PACKET_TYPE_GET [hash_bin (sha1_buf c)] dg /\ e = EvSend (sock s) (addr p) dg.

Lemma send_get_spec i r c w (Q : Z -> World -> Prop) :
  list_ok (getchunks (psvr w)) -> peer_ok (psvr w) i -> 0 <= r < cl_count (getchunks (psvr w)) ->
  zget (chunks (getchunks (psvr w))) r = Some c ->
  (forall cs e w', marked (psvr w) r fetching cs -> list_ok ((getchunks (psvr w)) .{ chunks := cs }) ->
     get_event (psvr w) i c e -> psvr w' = with_chunks (psvr w) cs -> out w' = out w ++ [e] -> Q 0 w') ->
  wp (send_get i r) Q w.
Proof.
  intros Hok Hi Hr Hc HQ. pose proof Hok as [Hwf _]. pose proof Hwf as (Hl & Hcnt & _). change MAX_CHUNK_NUM with 4096 in *.
  unfold send_get. wp_go. apply mark_chunk_spec; [done|change MAX_CHUNK_NUM with 4096; lia|].
  intros cs Hm Hwf'. wp_go.
  set (s1 := with_chunks (psvr w) cs). change (psvr (w .{ psvr := s1 })) with s1.
  destruct (zget_is_Some _ _ Hi) as [p Hp].
  set (pp := _ .{ pp_type := PACKET_TYPE_GET }).
  assert (zlen cs = 4096) as Hlcs by (destruct Hwf' as [(E & _) _]; exact E).
  apply (send_hashes_spec pp (getchunks s1)); change (pp_c_count pp) with 1; change (pp_p_count pp) with 1;
    change (pp_c_index pp) with r; change (pp_p_index pp) with i; cbv iota.
  - done.
  - right. by right.
  - discriminate.
  - destruct Hwf' as [(_ & _ & Hall) _]. eapply Forall_impl; [exact Hall|]. intros l [-> _]. done.
  - lia.
  - done.
  - change (r + 1 <= zlen cs). lia.
  - by destruct Hi.
  - done.
  - change (i + 1 <= zlen (peers (peerlist (psvr w)))). destruct Hi. lia.
  - intros dgs w2 Hpages [Hps Hout]. change (1 <? 0) with false in *. cbv iota in *.
    change (pkt_num 1) with 1 in Hpages. change (seqZ 0 1) with [0] in Hpages. unfold pages_sent in Hpages.
    apply Forall2_cons_inv_l in Hpages as (dg & dgs' & Hdg & Hnil & ->).
    apply Forall2_nil_inv_l in Hnil as ->. change (pp_c_index pp) with r in Hdg.
    unfold page in Hdg. change (C_MIN 1 (HASH_NUM_PKT * 0)) with 0 in Hdg.
    change (C_MIN 1 (HASH_NUM_PKT * (0 + 1))) with 1 in Hdg.
    rewrite listed_all in Hdg by discriminate. change (1 - 0) with 1 in Hdg. rewrite Z.add_0_r in Hdg.
    change (chunks (getchunks s1)) with cs in Hdg. destruct Hm as (c' & Hc' & Hset). simplify_eq.
    rewrite (range_one _ _ _ (zget_zset_eq _ _ _ _ Hset)) in Hdg. wp_go.
    eapply HQ; [by exists c|exact Hwf'| |exact Hps|].
    + exists p, dg. split_and!; [exact Hp|exact Hdg|reflexivity].
    + rewrite Hout. change (peers (peerlist (psvr (w .{ psvr := s1 })))) with (peers (peerlist (psvr w))).
      rewrite (range_one _ _ _ Hp). done.
Qed.

(** [try_send_get], for a peer that is free: nothing happens when its queue has no
    unfetched chunk; otherwise the first such chunk is asked for and its download
    starts. *)
Lemma try_send_get_spec i p ts w (Q : unit -> World -> Prop) :
  server_mem (psvr w) -> peer_at (psvr w) i p -> queue_holds (hasqueue p) ts ->
  0 <= dl_num (psvr w) <= MAX_PEER_NUM ->
  (Forall (no_fetchable (getchunks (psvr w))) ts -> Q tt w) ->
  (forall r dq d cs c e ts1 t ts2 w', ts = ts1 ++ t :: ts2 ->
     Forall (no_fetchable (getchunks (psvr w))) ts1 -> queue_holds dq (ts1 ++ ts2) ->
     0 <= r < cl_count (getchunks (psvr w)) -> zget (chunks (getchunks (psvr w))) r = Some c ->
     state c = unfetched -> line_text c = t -> marked (psvr w) r fetching cs ->
     list_ok ((getchunks (psvr w)) .{ chunks := cs }) -> get_event (psvr w) i c e ->
     dl_run i d -> get_index d = r -> fresh d ->
     psvr w' = (with_chunks (upd_peer (psvr w) i
                  (p .{ hasqueue := dq } .{ is_downloading := true } .{ dl := d })) cs)
                 .{ dl_num := dl_num (psvr w) + 1 } ->
     out w' = out w ++ [e] -> Q tt w') ->
  wp (try_send_get i) Q w.
Proof.
  intros Hm Hp Hq Hn Hnone Hsome. pose proof (sm_get _ Hm) as Hwf. pose proof (list_ok_wf _ Hwf). unfold try_send_get. wp_go.
  eapply find_unfetched_chunk_spec; [done|apply Hp|exact Hq| |].
  { intros Hno. cbn beta iota. change (-1 >=? 0) with false. wp_go. by apply Hnone. }
  intros r dq ts1 t ts2 Ets Hno (Hr & c & Hc & Hst & Htxt) _ Hq'. rewrite Z.geb_leb.
  destruct (Z.leb_spec 0 r); [|lia]. wp_go. set (p1 := _ .{ dl := _ }). set (s1 := upd_peer (psvr w) i p1).
  pose proof (upd_peer_get (psvr w) i p1 p (proj1 Hp)) as Hp1. fold s1 in Hp1.
  apply (send_get_spec i r c); [done|by eapply zget_Some_range|done|done|].
  intros cs e w2 Hmk Hwf' He Hw2 Ho2. wp_go. change (psvr (w .{ psvr := s1 })) with s1 in *.
  eapply wp_get_peer; [rewrite Hw2; exact Hp1|]. wp_go.
  eapply wp_set_peer; [rewrite Hw2; exact Hp1|]. wp_go. unfold start_download. wp_go.
  destruct (sm_name _ Hm) as [[Hnl Hn0] _].
  destruct (strcpy_total (filename dl_zero) (dl_filename (psvr w))) as (f & Ef & _);
    [done|rewrite Hnl; done|].
  set (w3 := w2 .{ psvr := _ }).
  assert (psvr w3 = upd_peer (with_chunks s1 cs) i (p1 .{ is_downloading := true })) as Hw3.
  { unfold w3. simpl. by rewrite Hw2. }
  assert (out w3 = out w ++ [e]) as Ho3 by exact Ho2. clearbody w3.
  eapply dl_init_spec; [rewrite Hw3; exact Ef|].
  intros d w4 Hinv Ej Ek Ef' Hem. cbn [fst snd]. change (0 <? 0) with false. wp_go.
  set (w5 := w4 .{ psvr := _ }).
  assert (psvr w5 = (psvr w3) .{ dl_num := dl_num (psvr w) + 1 }) as Hw5.
  { assert (s32 (dl_num (psvr w) + 1) = dl_num (psvr w) + 1) as E32.
    { change MAX_PEER_NUM with 1024 in Hn. rewrite s32_small; lia. }
    unfold w5. simpl. rewrite (proj1 Hem), Hw3. simpl. by rewrite E32. }
  assert (out w5 = out w4) as Ho5 by reflexivity. clearbody w5.
  assert (zget (peers (peerlist (psvr w5))) i = Some (p1 .{ is_downloading := true })) as Hp5.
  { rewrite Hw5, Hw3. eapply upd_peer_get. exact Hp1. }
  eapply wp_get_peer; [exact Hp5|]. wp_go. eapply wp_set_peer; [exact Hp5|].
  apply (Hsome r dq d cs c e ts1 t ts2); try done.
  - destruct He as (q & dg & Hq1 & Hdg & ->). rewrite Hp1 in Hq1. injection Hq1 as <-.
    exists p, dg. split_and!; [apply Hp|done|done].
  - split; [apply (ro_safe _ _ _ (proj1 (Hinv [])))|]. split; [done|]. rewrite Ek.
    destruct Hwf as [(_ & ? & _) _]. lia.
  - simpl. rewrite Hw5, Hw3. unfold s1, p1, upd_peer, with_chunks. simpl.
    rewrite !list_insert_insert_eq. done.
  - simpl. by rewrite Ho5, (proj2 Hem), app_nil_r, Ho3.
Qed.

(** The invariant after [try_send_get]. *)
Lemma try_send_get_inv i p w (Q : unit -> World -> Prop) :
  server_inv (psvr w) -> peer_at (psvr w) i p -> is_downloading p = false ->
  dl_num (psvr w) < max_conn (psvr w) ->
  (forall w', server_inv (psvr w') -> same_setup (psvr w) (psvr w') -> Q tt w') ->
  wp (try_send_get i) Q w.
Proof.
  intros Hs Hp Hidle Hlim HQ. pose proof Hs as [Hm Hd Hu].
  destruct (sm_peers _ Hm _ _ Hp) as [(ts & Hq)%queue_ok_holds Hdl Hul].
  pose proof (server_inv_dl_max _ Hs).
  eapply try_send_get_spec; [done|exact Hp|exact Hq|done|intros _; by apply HQ|].
  intros r dq d cs c e ts1 t ts2 w' _ _ Hq' _ _ _ _ _ Hwf' _ Hrun _ _ Ew' _. apply HQ.
  - rewrite Ew'. eapply (server_inv_change (psvr w) _ i p); [done|done| |reflexivity|reflexivity|
      reflexivity|reflexivity|exact Hwf'|reflexivity|reflexivity| | |].
    + split; [by eapply queue_holds_ok|done|exact Hul].
    + rewrite Hidle. simpl. lia.
    + simpl. lia.
    + intros Hck. destruct (Hu Hck). simpl. lia.
  - rewrite Ew'. done.
Qed.

(** ** Refreshing the downloads *)

Definition keeps (w w' : World) : Prop := server_inv (psvr w') /\ same_setup (psvr w) (psvr w').

Lemma keeps_refl w : server_inv (psvr w) -> keeps w w.
Proof. by split. Qed.
Lemma keeps_same w w' : server_inv (psvr w) -> psvr w' = psvr w -> keeps w w'.
Proof. intros Hs E. split; by rewrite E. Qed.
Lemma keeps_trans w1 w2 w3 : keeps w1 w2 -> keeps w2 w3 -> keeps w1 w3.
Proof. intros [_ H1] [Hs H2]. split; [done|]. by etransitivity. Qed.

Lemma refresh_loop_inv n : forall i w (Q : unit -> World -> Prop),
  server_inv (psvr w) -> 0 <= i -> i + Z.of_nat n <= pl_count (peerlist (psvr w)) ->
  (forall w', keeps w w' -> Q tt w') -> wp (refresh_loop n i) Q w.
Proof.
  induction n as [|n IH]; intros i w Q Hs Hi Hn HQ; cbn [refresh_loop].
  { wp_go. by apply HQ, keeps_refl. }
  wp_go. rewrite Z.geb_leb. destruct (Z.leb_spec (max_conn (psvr w)) (dl_num (psvr w))) as [|Hlim].
  { wp_go. by apply HQ, keeps_refl. }
  destruct (server_inv_at (psvr w) i Hs ltac:(lia)) as (p & Hp & _).
  wp_go. eapply wp_get_peer; [apply Hp|].
  destruct (negb (is_alive p) || is_downloading p) eqn:E.
  { apply IH; [done|lia|lia|done]. }
  apply orb_false_iff in E as [_ Hidle]. wp_go. eapply try_send_get_inv; [done|exact Hp|done|done|].
  intros w1 Hs1 Hset. wp_go. apply IH; [done|lia|destruct Hset as (-> & _); lia|].
  intros w2 Hk2. apply HQ. by eapply keeps_trans; [split|].
Qed.

(** [send_whohas] asks every peer for the unfetched chunks of the wanted list. *)
Definition whohas_events (s : PeerServer) (evs : list event) : Prop :=
  exists dgs, pages_sent (PKT_PARAM_CLEAR .{ pp_type := PACKET_TYPE_WHOHAS }) (getchunks s)
      (cl_count (getchunks s)) (seqZ 0 (pkt_num (cl_count (getchunks s)))) dgs /\
    evs = sends_all (sock s) (range (peers (peerlist s)) 0 (pl_count (peerlist s))) dgs.

Lemma send_whohas_spec w (Q : unit -> World -> Prop) :
  server_mem (psvr w) ->
  (forall evs w', whohas_events (psvr w) evs -> emitted evs w w' -> Q tt w') -> wp send_whohas Q w.
Proof.
  intros Hm HQ. pose proof (sm_get _ Hm) as [(Hl & Hc & Hall) _]. pose proof (sm_cnt _ Hm).
  unfold send_whohas. wp_go. set (pp := _ .{ pp_type := PACKET_TYPE_WHOHAS }).
  apply (send_hashes_spec pp (getchunks (psvr w))); change (pp_c_count pp <? 0) with true;
    change (pp_p_count pp <? 0) with true; change (pp_c_index pp) with 0;
    change (pp_p_index pp) with 0; cbv iota.
  - done.
  - by left.
  - done.
  - eapply Forall_impl; [exact Hall|]. intros l [-> _]. done.
  - done.
  - lia.
  - lia.
  - done.
  - lia.
  - lia.
  - intros dgs w1 Hpages Hem. eapply HQ; [|exact Hem]. by exists dgs.
Qed.

Lemma refresh_chunk_download_inv w (Q : unit -> World -> Prop) :
  server_inv (psvr w) -> (forall w', keeps w w' -> Q tt w') -> wp refresh_chunk_download Q w.
Proof.
  intros Hs HQ. pose proof (sm_cnt _ (si_mem _ Hs)). unfold refresh_chunk_download. wp_go.
  apply refresh_loop_inv; [done|lia|lia|]. intros w1 Hk1. wp_go. pose proof Hk1 as [Hs1 _].
  destruct (_ && _); [|wp_go; by apply HQ].
  wp_go. apply (get_timestamp_now_spec (fun _ => False)). intros now w2 _ [Ew2 _]. wp_go.
  destruct (_ >? _); [|wp_go; apply HQ; by eapply keeps_trans, keeps_same].
  wp_go. apply send_whohas_spec; [rewrite Ew2; apply Hs1|]. intros evs w3 _ [Ew3 _]. wp_go.
  apply (get_timestamp_now_spec (fun _ => False)). intros now' w4 _ [Ew4 _]. wp_go.
  apply HQ. eapply keeps_trans; [exact Hk1|]. split.
  - simpl. rewrite Ew4, Ew3, Ew2. by apply (server_inv_ext (psvr w1)); [|..]; try done; apply Hs1.
  - simpl. by rewrite Ew4, Ew3, Ew2.
Qed.

(** ** Ending transfers *)

Lemma kill_upload_of_spec i p w (Q : unit -> World -> Prop) :
  peer_at (psvr w) i p -> ul_data (ul p) <> data_unmapped ->
  (forall d w', psvr w' = (upd_peer (psvr w) i (p .{ ul := (ul p) .{ ul_data := d } }))
       .{ ul_num := s32 (ul_num (psvr w) - 1) } -> out w' = out w -> Q tt w') ->
  wp (kill_upload_of i) Q w.
Proof.
  intros Hp Hd HQ. unfold kill_upload_of. wp_go. eapply wp_get_peer; [apply Hp|]. unfold finish_upload.
  wp_go. apply ul_deinit_spec; [done|]. intros r d w1 Hem. wp_go.
  eapply wp_get_peer; [rewrite (proj1 Hem); apply Hp|]. wp_go.
  eapply wp_set_peer; [rewrite (proj1 Hem); apply Hp|]. apply (HQ d).
  - simpl. by rewrite (proj1 Hem).
  - simpl. rewrite (proj2 Hem). by rewrite app_nil_r.
Qed.

Lemma ul_run_mapped i u : ul_run i u -> ul_data u <> data_unmapped.
Proof. intros (_ & _ & _ & b & -> & _). done. Qed.

Lemma dl_num_dec s i p :
  server_inv s -> peer_at s i p -> is_downloading p = true ->
  s32 (dl_num s - 1) = dl_num s - 1 /\ 0 < dl_num s <= MAX_PEER_NUM.
Proof.
  intros Hs Hp Hd. pose proof (server_inv_dl_max _ Hs) as Hmax.
  pose proof (running_pos is_downloading _ _ _ Hp Hd). destruct (si_dl _ Hs) as [E _].
  change MAX_PEER_NUM with 1024 in *. rewrite s32_small; lia.
Qed.

Lemma ul_num_range s : server_inv s -> counts_ul s -> 0 <= ul_num s <= MAX_PEER_NUM.
Proof.
  intros [Hm _ _] [-> _]. pose proof (sm_cnt _ Hm). pose proof (sm_max _ Hm).
  pose proof (running_range is_uploading s). lia.
Qed.

Lemma ul_num_dec s i p :
  server_inv s -> counts_ul s -> peer_at s i p -> is_uploading p = true ->
  s32 (ul_num s - 1) = ul_num s - 1 /\ 0 < ul_num s <= MAX_PEER_NUM.
Proof.
  intros Hs Hu Hp Hd. pose proof (ul_num_range _ Hs Hu) as Hmax.
  pose proof (running_pos is_uploading _ _ _ Hp Hd). destruct Hu as [E _].
  change MAX_PEER_NUM with 1024 in *. rewrite s32_small; lia.
Qed.

(** A peer that dies, with its transfers stopped. *)
Lemma server_inv_die s s' i p q :
  server_inv s -> peer_at s i p -> hasqueue q = hasqueue p ->
  peerlist s' = peerlist (upd_peer s i (die q)) -> max_conn s' = max_conn s ->
  haschunks s' = haschunks s -> ihavechunks s' = ihavechunks s -> list_ok (getchunks s') ->
  dl_filename s' = dl_filename s -> getchunk_file s' = getchunk_file s ->
  dl_num s' = (if is_downloading p then s32 (dl_num s - 1) else dl_num s) ->
  ul_num s' = (if is_uploading p then s32 (ul_num s - 1) else ul_num s) -> server_inv s'.
Proof.
  intros Hs Hp Hq El ? ? ? ? ? ? Edl Eul. pose proof Hs as [Hm Hd Hu].
  assert (peer_safe i (die q)) as Hsafe.
  { split; [simpl; rewrite Hq; apply (ps_queue _ _ (sm_peers _ Hm _ _ Hp))|done|done]. }
  assert (dl_num s' = dl_num s - bool_int (is_downloading p)) as Edl'.
  { rewrite Edl. destruct (is_downloading p) eqn:E; [|simpl; lia].
    by destruct (dl_num_dec _ _ _ Hs Hp E) as [-> _]. }
  destruct Hd as [_ Hdle].
  eapply server_inv_change; [exact Hs|exact Hp|exact Hsafe|done..| | |].
  - simpl. lia.
  - rewrite Edl'. destruct (is_downloading p); simpl; lia.
  - intros Hck. specialize (Hu Hck). destruct (Hu) as [_ Hule].
    assert (ul_num s' = ul_num s - bool_int (is_uploading p)) as ->.
    { rewrite Eul. destruct (is_uploading p) eqn:E; [|simpl; lia].
      by destruct (ul_num_dec _ _ _ Hs Hu Hp E) as [-> _]. }
    simpl. destruct (is_uploading p); simpl; lia.
Qed.

Lemma upd_peer_id s i p : zget (peers (peerlist s)) i = Some p -> upd_peer s i p = s.
Proof.
  intros Hp. unfold upd_peer. unfold zget in Hp. case_decide; [|done].
  rewrite list_insert_id by done. by destruct s as [??? [] ???].
Qed.

(** Stopping the upload of a peer, if it runs. *)
Lemma stop_upload_spec i p w (Q : unit -> World -> Prop) :
  peer_at (psvr w) i p -> peer_safe i p ->
  (forall d w', psvr w' = (upd_peer (psvr w) i (p .{ ul := (ul p) .{ ul_data := d } }))
       .{ ul_num := if is_uploading p then s32 (ul_num (psvr w) - 1) else ul_num (psvr w) } ->
     out w' = out w -> Q tt w') ->
  wp (if is_uploading p then kill_upload_of i else ret tt) Q w.
Proof.
  intros Hp Hsafe HQ. destruct (is_uploading p) eqn:E.
  - eapply kill_upload_of_spec; [exact Hp|by eapply ul_run_mapped, (ps_ul _ _ Hsafe)|].
    intros d w' Ew' Eo. by apply (HQ d).
  - wp_go. apply (HQ (ul_data (ul p))); [|done].
    assert (p .{ ul := (ul p) .{ ul_data := ul_data (ul p) } } = p) as -> by (by destruct p as [??????? []]).
    rewrite upd_peer_id by apply Hp. destruct w as [[] ? ?]. done.
Qed.

(** [check_dl_timeout] and [check_ul_timeout] keep the invariant. *)
Lemma die_inv i p q s1 w (Q : unit -> World -> Prop) :
  server_inv s1 -> peer_at s1 i p -> zget (peers (peerlist (psvr w))) i = Some q ->
  hasqueue q = hasqueue p ->
  peerlist (upd_peer (psvr w) i (die q)) = peerlist (upd_peer s1 i (die q)) -> max_conn (psvr w) = max_conn s1 ->
  sock (psvr w) = sock s1 ->
  haschunks (psvr w) = haschunks s1 -> ihavechunks (psvr w) = ihavechunks s1 -> list_ok (getchunks (psvr w)) ->
  dl_filename (psvr w) = dl_filename s1 -> getchunk_file (psvr w) = getchunk_file s1 ->
  dl_num (psvr w) = (if is_downloading p then s32 (dl_num s1 - 1) else dl_num s1) ->
  ul_num (psvr w) = (if is_uploading p then s32 (ul_num s1 - 1) else ul_num s1) ->
  (forall w', server_inv (psvr w') -> same_setup s1 (psvr w') -> Q tt w') ->
  wp (get_peer i) (fun p w' => wp (set_peer i (die p)) Q w') w.
Proof.
  intros Hs Hp Hq Eq El Em Esk Eh Ei Hg En1 En2 Ed Eu HQ. eapply wp_get_peer; [exact Hq|]. wp_go.
  eapply wp_set_peer; [exact Hq|]. apply HQ.
  - simpl. by eapply (server_inv_die s1 _ i p q).
  - simpl. split_and!; [|done|done]. simpl. apply (f_equal pl_count) in El. exact El.
Qed.

Lemma check_dl_timeout_inv i p w (Q : unit -> World -> Prop) :
  server_inv (psvr w) -> peer_at (psvr w) i p -> (forall w', keeps w w' -> Q tt w') ->
  wp (check_dl_timeout i) Q w.
Proof.
  intros Hs Hp HQ. pose proof Hs as [Hm Hd Hu]. destruct (sm_peers _ Hm _ _ Hp) as [Hq Hdl Hul].
  unfold check_dl_timeout. wp_go. eapply wp_get_peer; [apply Hp|].
  destruct (is_downloading p) eqn:Edl; [|wp_go; by apply HQ, keeps_refl].
  destruct (Hdl eq_refl) as (Hsafe & Hidx & Hget). wp_go.
  apply dl_check_timeout_safe; [done|rewrite Hidx; by eapply peer_at_ok|].
  intros r d w1 Hsafe' (Eg & Ei & _) Hem. pose proof (emits_psvr _ _ _ Hem) as Ew1. wp_go. cbn [fst snd].
  eapply wp_get_peer; [rewrite Ew1; apply Hp|]. wp_go. eapply wp_set_peer; [rewrite Ew1; apply Hp|].
  rewrite Ew1. set (p1 := p .{ dl := d }). set (s1 := upd_peer (psvr w) i p1). wp_go.
  assert (peer_at s1 i p1) as Hp1 by (by eapply upd_peer_at).
  assert (peer_safe i p1) as Hsafe1.
  { split; [done| |exact Hul]. intros _. split; [done|]. simpl. rewrite Ei, Eg. done. }
  assert (server_inv s1) as Hs1 by (eapply server_inv_upd; [done|exact Hp|done|done|done]).
  assert (same_setup (psvr w) s1) as Hset by done.
  assert (is_downloading p1 = true) as Ed1 by exact Edl. clearbody s1 p1.
  destruct (r >? MAX_TIMEOUT_CNT); [|wp_go; by apply HQ].
  wp_go. eapply wp_get_peer; [apply Hp1|]. unfold kill_download. wp_go.
  apply mark_chunk_spec; [apply Hs1|by apply (ps_dl _ _ Hsafe1)|]. intros cs _ Hwf'. wp_go.
  apply (stop_upload_spec i p1); [exact Hp1|done|]. intros dm w2 Ew2 _. simpl in Ew2. wp_go.
  eapply (die_inv i p1 _ s1); [done|exact Hp1|rewrite Ew2; eapply upd_peer_get, Hp1|done|..].
  all: simpl; rewrite ?Ew2; simpl; rewrite ?Ed1; try done.
  - by rewrite list_insert_insert_eq.
  - intros w' Hs' Hset'. apply HQ. split; [done|]. by etransitivity.
Qed.

Lemma check_ul_timeout_inv i p w (Q : unit -> World -> Prop) :
  server_inv (psvr w) -> peer_at (psvr w) i p -> (forall w', keeps w w' -> Q tt w') ->
  wp (check_ul_timeout i) Q w.
Proof.
  intros Hs Hp HQ. pose proof Hs as [Hm Hd Hu]. destruct (sm_peers _ Hm _ _ Hp) as [Hq Hdl Hul].
  unfold check_ul_timeout. wp_go. eapply wp_get_peer; [apply Hp|].
  destruct (is_uploading p) eqn:Eul; [|wp_go; by apply HQ, keeps_refl].
  destruct (Hul eq_refl) as (Hwf & Hidx & Hst & b & Hb). wp_go.
  apply (ul_check_timeout_spec b _ _ _ p); [done|done|rewrite Hidx; apply Hp|].
  intros r u resent w1 w2 Hout Hwf' Hem1 Hem2.
  assert (psvr w2 = psvr w) as Ew2 by (rewrite (proj1 Hem2); by eapply emits_psvr).
  destruct (timeout_outcome_frame _ _ _ _ _ Hout) as (Ed & Ei & _ & Hst' & _ & _). wp_go. cbn [fst snd].
  eapply wp_get_peer; [rewrite Ew2; apply Hp|]. wp_go. eapply wp_set_peer; [rewrite Ew2; apply Hp|].
  rewrite Ew2. set (p1 := p .{ ul := u }). set (s1 := upd_peer (psvr w) i p1). wp_go.
  assert (peer_at s1 i p1) as Hp1 by (by eapply upd_peer_at).
  assert (peer_safe i p1) as Hsafe1.
  { split; [done|exact Hdl|]. intros _. split_and!; [done|simpl; congruence|by apply Hst'|].
    exists b. destruct Hb. split; simpl; congruence. }
  assert (server_inv s1) as Hs1 by (eapply server_inv_upd; [done|exact Hp|done|done|done]).
  assert (same_setup (psvr w) s1) as Hset by done.
  assert (is_uploading p1 = true) as Eu1 by exact Eul. clearbody s1 p1.
  destruct (r >? MAX_TIMEOUT_CNT); [|wp_go; by apply HQ].
  wp_go. eapply (kill_upload_of_spec i p1); [exact Hp1|by eapply ul_run_mapped, (ps_ul _ _ Hsafe1)|].
  intros dm w3 Ew3 _. wp_go. set (p2 := p1 .{ ul := _ }) in *.
  assert (peer_at (upd_peer s1 i p2) i p2) as Hp2 by (by eapply upd_peer_at).
  eapply wp_get_peer; [rewrite Ew3; apply Hp2|]. simpl in Ew3. change (is_downloading p2) with (is_downloading p1).
  destruct (is_downloading p1) eqn:Edl1.
  - unfold kill_download. wp_go. destruct (ps_dl _ _ Hsafe1 Edl1) as (_ & _ & Hget).
    apply mark_chunk_spec; [rewrite Ew3; apply Hs1|exact Hget|]. intros cs _ Hcs. rewrite Ew3 in Hcs. wp_go.
    eapply (die_inv i p1 p2 s1); [done|exact Hp1|simpl; rewrite Ew3; apply Hp2|done|..].
    all: simpl; rewrite ?Ew3; simpl; rewrite ?Edl1, ?Eu1; try done.
    + by rewrite list_insert_insert_eq.
    + intros w' Hs' Hset'. apply HQ. split; [done|]. by etransitivity.
  - wp_go. eapply (die_inv i p1 p2 s1); [done|exact Hp1|simpl; rewrite Ew3; apply Hp2|done|..].
    all: simpl; rewrite ?Ew3; simpl; rewrite ?Edl1, ?Eu1; try done.
    + by rewrite list_insert_insert_eq.
    + apply Hs1.
    + intros w' Hs' Hset'. apply HQ. split; [done|]. by etransitivity.
Qed.
End Safe.
