(* ===== verification/Handlers.v ===== *)
(** * Handlers: every event the server reacts to keeps its invariant

    The timeout check, the cases of [parse_packet], the arrival of a datagram and
    the [GET] command of the user, from any state that satisfies [server_inv]. *)

From S2P Require Import Prelude RecvWin LinkedList Sha Chunk ChunkList Machine Util Packet Sending Hashes.
From S2P Require Import Upload Download SendHelper PeerServer ParsePacket ServerInv ServerOps ServerSafe.

Section Handlers.
Context `{Env}.

(** ** Timeouts *)

Lemma timeout_loop_inv n : forall i w (Q : unit -> World -> Prop),
  server_inv (psvr w) -> 0 <= i -> i + Z.of_nat n <= pl_count (peerlist (psvr w)) ->
  (forall w', keeps w w' -> Q tt w') -> wp (timeout_loop n i) Q w.
Proof.
  induction n as [|n IH]; intros i w Q Hs Hi Hn HQ; cbn [timeout_loop].
  { wp_go. by apply HQ, keeps_refl. }
  destruct (server_inv_at (psvr w) i Hs ltac:(lia)) as (p & Hp & _).
  assert (forall w1, keeps w w1 -> wp (timeout_loop n (i + 1)) Q w1) as Hrest.
  { intros w1 Hk1. pose proof Hk1 as [Hs1 (Ec & _)]. apply IH; [done|lia|rewrite Ec; lia|].
    intros w2 Hk2. apply HQ. by eapply keeps_trans. }
  wp_go. eapply wp_get_peer; [apply Hp|]. destruct (is_alive p); [|wp_go; by apply Hrest, keeps_refl].
  wp_go. eapply check_dl_timeout_inv; [done|exact Hp|]. intros w1 Hk1. wp_go.
  pose proof Hk1 as [Hs1 (Ec & _)].
  destruct (server_inv_at (psvr w1) i Hs1 ltac:(lia)) as (p1 & Hp1 & _).
  eapply check_ul_timeout_inv; [done|exact Hp1|]. intros w2 Hk2. apply Hrest. by eapply keeps_trans.
Qed.

Lemma check_all_timeout_inv w (Q : Z -> World -> Prop) :
  server_inv (psvr w) -> (forall w', keeps w w' -> Q 0 w') -> wp check_all_timeout Q w.
Proof.
  intros Hs HQ. pose proof (sm_cnt _ (si_mem _ Hs)). unfold check_all_timeout. wp_go.
  apply timeout_loop_inv; [done|lia|lia|]. intros w1 Hk1. wp_go.
  destruct (_ >? 0); [|wp_go; by apply HQ].
  apply refresh_chunk_download_inv; [apply Hk1|]. intros w2 Hk2. wp_go. apply HQ. by eapply keeps_trans.
Qed.

(** ** Uploads *)

Lemma update_upload_spec i p u pkt w (Q : Z * upload_t -> World -> Prop) :
  ul_run i u -> zget (peers (peerlist (psvr w))) i = Some p ->
  (forall r u' w', ul_run i u' -> psvr w' = psvr w -> Q (r, u') w') -> wp (update_upload u pkt) Q w.
Proof.
  intros (Hwf & Hidx & Hst & b & Hb) Hp HQ. unfold update_upload. wp_go.
  apply ul_handle_ack_spec; [done|done|rewrite Hidx; by eapply zget_Some_range|].
  intros u1 w1 Hout Hem. pose proof (emits_psvr _ _ _ Hem) as Ew1. wp_go.
  destruct (ack_outcome_frame _ _ _ Hout Hst) as (Ed & Ei & _ & Hst1 & _).
  apply (ul_send_spec b _ _ _ p); [by eapply ack_outcome_wf| |by rewrite Ew1, Ei, Hidx|].
  { destruct Hb. split; congruence. }
  intros ok u2 w2 Hwf2 _ _ Hmv Hem2. destruct (sender_moved_frame _ _ Hmv) as (Ed2 & Ei2 & _ & Es2 & _).
  simpl in Ed2, Ei2, Es2. apply HQ.
  - split_and!; [done|congruence|congruence|]. exists b. destruct Hb. split; congruence.
  - destruct Hem2 as [-> _]. done.
Qed.

Lemma start_upload_spec i p h w (Q : Z * upload_t -> World -> Prop) :
  mmap_ok -> zget (peers (peerlist (psvr w))) i = Some p ->
  0 <= h < zlen (chunks (haschunks (psvr w))) -> places_int (haschunks (psvr w)) ->
  (forall (ok : bool) u' w', ul_run i u' -> (ok = false -> ~ clock_ok) ->
     psvr w' = (if ok then (psvr w) .{ ul_num := s32 (ul_num (psvr w) + 1) } else psvr w) ->
     Q (if ok then 0 else -1, u') w') -> wp (start_upload i h) Q w.
Proof.
  intros Hmm Hp Hh Hpl HQ. destruct (zget_is_Some _ _ Hh) as [line Hline]. unfold start_upload. wp_go.
  eapply ul_init_spec; [by eapply zget_Some_range|exact Hline|by eapply places_line|]. intros n w1 Hem.
  pose proof (emits_psvr _ _ _ Hem) as Ew1.
  destruct (Hmm n (place_of line)) as (b & -> & Hb). cbn [fst snd]. change (0 <? 0) with false. wp_go.
  apply (ul_send_spec b _ _ _ p); [apply ul_start_wf|by split|by rewrite Ew1|].
  intros ok u' w2 Hwf' _ Hok Hmv [Ew2 _]. destruct (sender_moved_frame _ _ Hmv) as (Ed & Ei & _ & Es & _).
  simpl in Ed, Ei, Es.
  assert (ul_run i u') as Hrun.
  { split_and!; [done|done|by rewrite Es|]. exists b. by split. }
  destruct ok; cbn [fst snd].
  - change (0 <? 0) with false. wp_go. apply (HQ true); [done|done|]. simpl. by rewrite Ew2, Ew1.
  - change (-1 <? 0) with true. wp_go. apply (HQ false); [done|intros _; apply Hok|]. by rewrite Ew2, Ew1.
Qed.

(** ** A finished download *)

Lemma strncmp_text s r b :
  Forall is_hexdigit s -> 0 ∈ b -> zlen b = SHA1_BUF_SIZE -> zlen s = SHA1_HASH_STR_SIZE ->
  exists d, strncmp (s ++ 0 :: r) b (Z.to_nat SHA1_HASH_STR_SIZE) = Some d /\ (d = 0 <-> cstr b = s).
Proof.
  change SHA1_BUF_SIZE with 41. change SHA1_HASH_STR_SIZE with 40. intros Hs H0 Hb Hl.
  assert (length b = S (length s)) as Hlb by lia. replace (Z.to_nat 40) with (length s) by lia.
  clear Hb Hl. revert b H0 Hlb. induction Hs as [|x s Hx Hs IH]; intros b H0 Hlb.
  - exists 0. split; [done|]. split; [|done]. intros _. destruct b as [|y [|]]; try done.
    apply list_elem_of_singleton in H0 as <-. done.
  - destruct b as [|y b]; [done|]. cbn [app length strncmp].
    unfold is_hexdigit in Hx. destruct (Z.eqb_spec x y) as [->|Hne].
    + destruct (Z.eqb_spec y 0); [lia|]. apply elem_of_cons in H0 as [?|H0]; [lia|].
      destruct (IH b H0) as (d & Hd & Hiff); [simpl in Hlb; lia|]. exists d. split; [done|]. cbn [cstr].
      destruct (Z.eqb_spec y 0); [lia|]. rewrite Hiff. split; [by intros ->|by intros [= ->]].
    + exists (x - y). split; [done|]. split; [lia|]. cbn [cstr].
      destruct (Z.eqb_spec y 0); [done|]. intros [= ->]; done.
Qed.

(** The text of the hash of some data. *)
Definition sha1_text (m : list Z) : list Z := hexstring (sha1_spec m).

Lemma sha1_spec_bytes m : Forall is_byte (sha1_spec m).
Proof.
  unfold sha1_spec. generalize (foldl SHA1Guts iv (blocks (sha1_pad m))). intros l.
  induction l as [|x l IH]; [constructor|]. rewrite fmap_cons. cbn [mjoin list_join concat].
  apply Forall_app. split; [|exact IH]. apply Forall_reverse, store_le_bytes.
Qed.

Lemma sha1_text_digits m : Forall is_hexdigit (sha1_text m) /\ zlen (sha1_text m) = SHA1_HASH_STR_SIZE.
Proof.
  split; [apply hexstring_digits, sha1_spec_bytes|].
  unfold sha1_text. rewrite hexstring_length, sha1_spec_length. done.
Qed.

(** [check_hash_succeed] compares the hash of the whole buffer with the wanted one. *)
Lemma check_hash_succeed_spec d line w (Q : bool -> World -> Prop) :
  zlen (buffer d) = BT_CHUNK_SIZE -> zget (chunks (getchunks (psvr w))) (get_index d) = Some line ->
  line_wf line ->
  (forall w', emitted [] w w' -> Q (bool_decide (line_text line = sha1_text (buffer d))) w') ->
  wp (check_hash_succeed d) Q w.
Proof.
  intros Hbuf Hline [Hll Hl0] HQ. unfold check_hash_succeed. wp_go. apply wp_ask_any. intros bs. wp_go.
  set (j1 := u8 <$> resize 64 0 bs). set (j2 := u8 <$> resize 41 0 bs).
  assert (length j1 = 64%nat /\ length j2 = 41%nat) as [Hj1 Hj2]
    by (unfold j1, j2; by rewrite !length_fmap, !length_resize).
  clearbody j1 j2.
  destruct (SHA1Update_rep _ _ (buffer d) BT_CHUNK_SIZE (SHA1Init_rep j1 Hj1)) as (sc & Esc & Hrep).
  { rewrite Hbuf. done. }
  { done. }
  rewrite take_ge in Hrep by lia. rewrite app_nil_l in Hrep.
  eapply wp_lift; [exact Esc|]. wp_go. eapply wp_lift; [apply (SHA1Final_rep _ _ Hrep); by rewrite Hbuf|].
  wp_go. destruct (sha1_text_digits (buffer d)) as [Hdig Htl]. pose proof (sha1_spec_length (buffer d)) as Hsl.
  unfold sha1_text in *. revert Hdig Htl Hsl HQ. generalize (sha1_spec (buffer d)). intros hs Hdig Htl Hsl HQ.
  pose proof (binary2hex_spec hs j2) as Hhex. rewrite Hsl in Hhex.
  eapply wp_lift; [apply Hhex; lia|]. wp_go. eapply wp_lift; [exact Hline|]. wp_go.
  destruct (strncmp_text (hexstring hs) (drop (Z.to_nat (2 * Z.of_nat 20 + 1)) j2) (sha1_buf line))
    as (c & Ec & Hiff); [done..|].
  eapply wp_lift; [exact Ec|]. wp_go.
  replace (c =? 0) with (bool_decide (line_text line = hexstring hs)).
  - apply HQ. split; [done|]. simpl. by rewrite app_nil_r.
  - apply eq_true_iff_eq. rewrite bool_decide_eq_true, Z.eqb_eq. unfold line_text. by rewrite Hiff.
Qed.

(** What became of writing a chunk: it is complete and marked as fetched, or the file
    could not be opened or did not take it. *)
Inductive write_outcome (s : PeerServer) (d : download_t) : PeerServer -> list event -> Prop :=
  | write_done off cs :
      marked s (get_index d) fetched cs ->
      write_outcome s d ((with_chunks s cs) .{ dl_remain := s32 (dl_remain s - 1) })
        (EvWrite (cstr (filename d)) off (buffer d) ::
         if s32 (dl_remain s - 1) =? 0 then [EvGot (cstr (getchunk_file s))] else [])
  | write_failed evs n :
      open_ok n = false \/ write_file n <> BT_CHUNK_SIZE -> zlen evs <= 1 -> write_outcome s d s evs.

Lemma write_to_file_spec d w (Q : Z -> World -> Prop) :
  list_ok (getchunks (psvr w)) -> 0 <= get_index d < MAX_CHUNK_NUM -> zlen (buffer d) = BT_CHUNK_SIZE ->
  (forall r w' evs, write_outcome (psvr w) d (psvr w') evs -> out w' = out w ++ evs ->
     list_ok (getchunks (psvr w')) -> Q r w') -> wp (write_to_file d) Q w.
Proof.
  intros Hwf Hget Hbuf HQ. unfold write_to_file, dl_save_buffer. wp_go. apply wp_ask.
  destruct (open_ok (tick w)) eqn:Eo; cbn [negb].
  2: { wp_go. apply (HQ _ _ []); [apply (write_failed _ _ _ (tick w)); [by left|simpl; lia]|by rewrite app_nil_r|done]. }
  wp_go. destruct (zget_is_Some (chunks (getchunks (psvr w))) (get_index d)) as [line Hline].
  { destruct Hwf as [(-> & _) _]. done. }
  eapply wp_lift; [exact Hline|]. wp_go. eapply wp_lift; [by eapply int_mul_place, places_line; [apply Hwf|]|]. wp_go. apply wp_ask_any. intros sought. wp_go. apply wp_ask.
  match goal with |- context [write_file ?k] => set (nk := k) end.
  set (off := if sought then _ else _). clearbody off. cbv zeta.
  match goal with |- wp _ _ ?x => set (w1 := x) end.
  assert (psvr w1 = psvr w /\ out w1 = out w) as [E1 O1] by done. clearbody w1 nk.
  set (n := write_file nk). set (evs := if n >? 0 then [EvWrite (cstr (filename d)) off (take (Z.to_nat n) (buffer d))] else []).
  apply wp_bind, (wp_mono _ (fun _ w2 => psvr w2 = psvr w /\ out w2 = out w ++ evs)).
  { unfold evs. destruct (n >? 0); wp_go; simpl; rewrite O1; [done|]. by rewrite app_nil_r. }
  intros [] w2 [E2 O2]. destruct (Z.eqb_spec n BT_CHUNK_SIZE) as [En|Hn].
  - wp_go. unfold id. rewrite E2. destruct (set_get_state_spec (psvr w) (get_index d) fetched Hwf Hget) as (cs & Hm & E & Hwf').
    eapply wp_lift; [exact E|]. wp_go. change (dl_remain (with_chunks (psvr w) cs)) with (dl_remain (psvr w)).
    assert (evs = [EvWrite (cstr (filename d)) off (buffer d)]) as Eevs.
    { unfold evs. rewrite En. change (BT_CHUNK_SIZE >? 0) with true. cbv iota. rewrite take_ge by lia. done. }
    match goal with |- context [if dl_remain ?s =? 0 then _ else _] =>
      change (dl_remain s) with (s32 (dl_remain (psvr w) - 1)) end.
    pose proof (write_done (psvr w) d off cs Hm) as Hdone.
    destruct (s32 (dl_remain (psvr w) - 1) =? 0); wp_go; (eapply HQ; [exact Hdone| |exact Hwf']); simpl.
    + by rewrite O2, Eevs, <- app_assoc.
    + by rewrite O2, Eevs.
  - wp_go. apply (HQ _ _ evs); [|done|by rewrite E2]. rewrite E2. apply (write_failed _ _ _ nk); [by right|].
    unfold evs. destruct (n >? 0); simpl; lia.
Qed.

(** ** The cases of [parse_packet] *)

Lemma keeps_upd_peer w i p p' tk o :
  server_inv (psvr w) -> peer_at (psvr w) i p -> peer_safe i p' ->
  is_downloading p' = is_downloading p -> is_uploading p' = is_uploading p ->
  keeps w {| psvr := upd_peer (psvr w) i p'; tick := tk; out := o |}.
Proof. intros Hs Hp Hsafe Ed Eu. split; [by eapply server_inv_upd|done]. Qed.

Lemma set_alive_spec i p w (Q : unit -> World -> Prop) :
  peer_at (psvr w) i p ->
  (let p' := p .{ is_alive := true } in forall w', psvr w' = upd_peer (psvr w) i p' -> out w' = out w -> Q tt w') ->
  wp (set_alive i) Q w.
Proof.
  intros Hp HQ. unfold set_alive. wp_go. eapply wp_get_peer; [apply Hp|]. destruct (is_alive p) eqn:E.
  - wp_go. apply HQ; [|done]. replace (p .{ is_alive := true }) with p by (destruct p; simpl in *; by subst).
    symmetry. apply upd_peer_id, Hp.
  - eapply wp_set_peer; [apply Hp|]. by apply HQ.
Qed.

Lemma server_inv_alive i p s :
  server_inv s -> peer_at s i p -> server_inv (upd_peer s i (p .{ is_alive := true })).
Proof.
  intros Hs Hp. pose proof (sm_peers _ (si_mem _ Hs) _ _ Hp) as [? ? ?].
  by eapply server_inv_upd; [done|exact Hp|split|..].
Qed.

Lemma handle_WHOHAS_inv pkt i p w (Q : Z -> World -> Prop) :
  server_inv (psvr w) -> peer_at (psvr w) i p -> packet_valid pkt -> type pkt = PACKET_TYPE_WHOHAS ->
  (forall r w', keeps w w' -> Q r w') -> wp (handle_WHOHAS pkt i) Q w.
Proof.
  intros Hs Hp Hv Hty HQ. unfold handle_WHOHAS. wp_go.
  destruct (_ >=? _); [wp_go; by apply HQ, keeps_refl|]. wp_go. eapply set_alive_spec; [exact Hp|].
  intros p1 w1 Ew1 _. pose proof (upd_peer_at _ _ p1 _ Hp) as Hp1. rewrite <- Ew1 in Hp1.
  assert (keeps w w1) as Hk1 by (split; rewrite Ew1; [by apply server_inv_alive|done]).
  wp_go. eapply wp_get_peer; [apply Hp1|]. destruct (is_uploading p1); [wp_go; by apply HQ|].
  pose proof Hv as (_ & _ & _ & _ & _ & Hcnt & _). destruct Hcnt as (cnt & Hcnt & H1 & Hd); [by left|].
  pose proof (proj1 Hk1) as Hs1.
  wp_go. eapply send_ihave_spec; [done|exact Hcnt|done|done|apply Hs1|apply Hs1|by eapply peer_at_ok|].
  intros ih evs w2 Hih Ew2 _ _. wp_go. apply HQ. eapply keeps_trans; [exact Hk1|]. split; rewrite Ew2; [|done].
  eapply server_inv_ext; [exact Hs1|done..|apply Hs1|apply Hs1|exact Hih|apply Hs1].
Qed.

Lemma handle_IHAVE_inv pkt i p w (Q : Z -> World -> Prop) :
  server_inv (psvr w) -> peer_at (psvr w) i p -> packet_valid pkt -> type pkt = PACKET_TYPE_IHAVE ->
  (forall r w', keeps w w' -> Q r w') -> wp (handle_IHAVE pkt i) Q w.
Proof.
  intros Hs Hp Hv Hty HQ. unfold handle_IHAVE. wp_go. eapply set_alive_spec; [exact Hp|].
  intros p1 w1 Ew1 _. pose proof (upd_peer_at _ _ p1 _ Hp) as Hp1. rewrite <- Ew1 in Hp1.
  assert (keeps w w1) as Hk1 by (split; rewrite Ew1; [by apply server_inv_alive|done]).
  wp_go. eapply wp_get_peer; [apply Hp1|]. destruct (is_downloading p1) eqn:Edl; [wp_go; by apply HQ|].
  pose proof Hv as (_ & _ & _ & _ & _ & Hcnt & _). destruct Hcnt as (cnt & Hcnt & H1 & Hd); [by right|].
  pose proof (proj1 Hk1) as Hs1. pose proof (sm_peers _ (si_mem _ Hs1) _ _ Hp1) as [Hq1 Hdl1 Hul1].
  wp_go. eapply parse_download_spec; [done|exact Hcnt|done|done|apply Hp1|done|].
  intros r dq w2 Hr Ew2 _. set (p2 := p1 .{ hasqueue := dq }) in *.
  assert (queue_ok dq) as Hq2 by (destruct Hr as [[_ ?]|(_ & ? & _)]; by eapply queue_holds_ok).
  assert (keeps w1 w2) as Hk2.
  { split; rewrite Ew2; [|done]. eapply server_inv_upd; [done|exact Hp1|by split|done|done]. }
  pose proof (keeps_trans _ _ _ Hk1 Hk2) as Hk.
  destruct (r <? 0); [wp_go; by apply HQ|]. wp_go.
  rewrite Z.geb_leb. destruct (Z.leb_spec (max_conn (psvr w2)) (dl_num (psvr w2))); [wp_go; by apply HQ|]. wp_go.
  eapply (try_send_get_inv i p2); [apply Hk2|rewrite Ew2; by eapply upd_peer_at|exact Edl|done|].
  intros w3 Hs3 Hset3. wp_go. apply HQ. eapply keeps_trans; [exact Hk|by split].
Qed.

Lemma handle_ACK_inv pkt i p w (Q : Z -> World -> Prop) :
  server_inv (psvr w) -> peer_at (psvr w) i p ->
  (forall r w', keeps w w' -> Q r w') -> wp (handle_ACK pkt i) Q w.
Proof.
  intros Hs Hp HQ. unfold handle_ACK. wp_go. eapply wp_get_peer; [apply Hp|].
  destruct (negb (is_alive p) || negb (is_uploading p)) eqn:E; [wp_go; by apply HQ, keeps_refl|].
  apply orb_false_iff in E as [_ Eul%negb_false_iff]. wp_go.
  pose proof (sm_peers _ (si_mem _ Hs) _ _ Hp) as [Hq Hdl Hul].
  eapply (update_upload_spec i p); [by apply Hul|apply Hp|]. intros r u w1 Hrun Ew1. wp_go. cbn [fst snd].
  eapply wp_get_peer; [rewrite Ew1; apply Hp|]. wp_go. eapply wp_set_peer; [rewrite Ew1; apply Hp|].
  rewrite Ew1. set (p1 := p .{ ul := u }). wp_go.
  assert (peer_safe i p1) as Hsafe1 by by split.
  assert (peer_at (upd_peer (psvr w) i p1) i p1) as Hp1 by by eapply upd_peer_at.
  assert (is_uploading p1 = true) as Eul1 by done.
  destruct (is_upload_finished u); [|wp_go; by apply HQ, (keeps_upd_peer _ _ p)].
  wp_go. eapply (kill_upload_of_spec i p1); [exact Hp1|by eapply ul_run_mapped|]. intros dm w2 Ew2 _. wp_go.
  set (p2 := p1 .{ ul := _ }) in Ew2.
  assert (zget (peers (peerlist (psvr w2))) i = Some p2) as Hp2
    by (rewrite Ew2; exact (upd_peer_get _ _ p2 _ (proj1 Hp1))).
  eapply wp_get_peer; [exact Hp2|]. wp_go. eapply wp_set_peer; [exact Hp2|]. wp_go. apply HQ.
  pose proof Hs as [Hm [_ Hdle] Hu]. split; [|simpl; by rewrite Ew2].
  eapply (server_inv_change (psvr w) _ i p (p2 .{ is_uploading := false })); [done|exact Hp|by split|..].
  all: simpl; rewrite ?Ew2; simpl; rewrite ?list_insert_insert_eq; try done; try apply Hs.
  - lia.
  - intros Hck. destruct (ul_num_dec _ _ _ Hs (Hu Hck) Hp Eul) as [-> ?]. destruct (Hu Hck) as [_ ?].
    rewrite Eul. simpl. lia.
Qed.

(** The hash of the first line found is looked up among the chunks of the host. *)
Lemma hash2Index_range cl hash r :
  list_wf cl -> 0 ∈ hash -> hash2Index cl hash = Some r -> r < cl_count cl.
Proof.
  intros Hwf Hh Hr. pose proof Hwf as (_ & Hc & _).
  destruct (hash2Index_loop_spec cl hash (Z.to_nat (cl_count cl)) 0 Hwf Hh) as (r' & Hr' & Hcase); [lia..|].
  unfold hash2Index in Hr. simplify_eq. destruct Hcase as [[-> _]|[? _]]; lia.
Qed.

Lemma hash2Index_total cl hash : list_wf cl -> 0 ∈ hash -> exists r, hash2Index cl hash = Some r.
Proof.
  intros Hwf Hh. pose proof Hwf as (_ & Hc & _).
  destruct (hash2Index_loop_spec cl hash (Z.to_nat (cl_count cl)) 0 Hwf Hh) as (r' & Hr' & _); [lia..|]. by exists r'.
Qed.

Lemma handle_GET_inv pkt i p w (Q : Z -> World -> Prop) :
  mmap_ok -> server_inv (psvr w) -> peer_at (psvr w) i p -> packet_valid pkt -> type pkt = PACKET_TYPE_GET ->
  (forall r w', keeps w w' -> Q r w') -> wp (handle_GET pkt i) Q w.
Proof.
  intros Hmm Hs Hp Hv Hty HQ. unfold handle_GET. wp_go. eapply wp_get_peer; [apply Hp|].
  destruct (negb (is_alive p)); [wp_go; by apply HQ, keeps_refl|]. wp_go. rewrite Z.geb_leb.
  destruct (Z.leb_spec (max_conn (psvr w)) (ul_num (psvr w))) as [|Hlim]; [wp_go; by apply HQ, keeps_refl|]. wp_go.
  pose proof Hv as (_ & _ & _ & _ & _ & _ & Hlen). specialize (Hlen Hty).
  destruct (GET_HASH_text pkt 0 (replicate (Z.to_nat SHA1_BUF_SIZE) 0) Hv Hlen) as (hb & Ehb & _ & Hh0 & _); [done..|].
  eapply wp_lift; [exact Ehb|]. wp_go. pose proof (sm_has _ (si_mem _ Hs)) as [Hhas Hpl].
  destruct (hash2Index_total (haschunks (psvr w)) hb Hhas Hh0) as (h & Eh). eapply wp_lift; [exact Eh|].
  pose proof (hash2Index_range _ _ _ Hhas Hh0 Eh) as Hh. wp_go.
  destruct (Z.ltb_spec h 0); [wp_go; by apply HQ, keeps_refl|].
  pose proof (sm_peers _ (si_mem _ Hs) _ _ Hp) as [Hq Hdl Hul]. wp_go.
  eapply (stop_upload_spec i p); [done|by split|]. intros dm w1 Ew1 _. wp_go. set (p1 := p .{ ul := _ }) in Ew1.
  assert (zget (peers (peerlist (psvr w1))) i = Some p1) as Hp1
    by (rewrite Ew1; exact (upd_peer_get _ _ p1 _ (proj1 Hp))).
  eapply (start_upload_spec i p1); [done|exact Hp1| |by rewrite Ew1|].
  { rewrite Ew1. destruct Hhas as (Hhl & ? & _). simpl. lia. }
  intros ok u w2 Hrun Hck Ew2. wp_go. cbn [fst snd].
  assert (zget (peers (peerlist (psvr w2))) i = Some p1) as Hp2 by (rewrite Ew2; by destruct ok).
  eapply wp_get_peer; [exact Hp2|]. wp_go. eapply wp_set_peer; [exact Hp2|]. wp_go. apply HQ.
  pose proof Hs as [Hm [_ Hdle] Hu].
  split; [|simpl; rewrite Ew2; destruct ok; simpl; rewrite Ew1; done].
  eapply (server_inv_change (psvr w) _ i p (p1 .{ ul := u } .{ is_uploading := true })); [done|exact Hp|by split|..].
  all: simpl; rewrite ?Ew2; destruct ok; simpl; rewrite ?Ew1; simpl; rewrite ?list_insert_insert_eq; try done; try apply Hs.
  - lia.
  - lia.
  - intros Hok. specialize (Hu Hok). pose proof Hu as [_ Hule].
    destruct (is_uploading p) eqn:Eul; simpl.
    + destruct (ul_num_dec _ _ _ Hs Hu Hp Eul) as [-> ?]. change MAX_PEER_NUM with 1024 in *.
      rewrite s32_small by lia. lia.
    + pose proof (ul_num_range _ Hs Hu). change MAX_PEER_NUM with 1024 in *. rewrite s32_small by lia. lia.
  - intros Hok. by destruct (Hck eq_refl).
Qed.

Lemma print_download_progress_total i p w (Q : option Z -> World -> Prop) :
  dl_run i (dl p) -> list_ok (getchunks (psvr w)) -> (forall r, Q r w) -> wp (print_download_progress p) Q w.
Proof.
  intros ([_ _ _ _ Hlen] & _ & Hget) [(Hl & _) _] HQ. unfold print_download_progress.
  destruct (Z.eqb_spec 0 (data_length (dl p))) as [|Hne]; [wp_go; apply HQ|]. wp_go.
  destruct (zget_is_Some (chunks (getchunks (psvr w))) (get_index (dl p))) as [line Hline]; [lia|].
  eapply wp_lift; [exact Hline|]. wp_go.
  change BT_CHUNK_SIZE with 524288. change MAX_PAYLOAD_SIZE with 1484 in *.
  destruct (Z.eqb_spec (Z.quot 524288 (data_length (dl p))) 0) as [E|_]; [|wp_go; apply HQ].
  rewrite Z.quot_div_nonneg in E by lia. apply Z.div_small_iff in E; lia.
Qed.

(** The server when the download from peer [i] is over. *)
Definition released (s : PeerServer) (i : Z) (p : Peer) : PeerServer :=
  (upd_peer s i (p .{ is_downloading := false })) .{ dl_num := dl_num s - 1 }.

(** What becomes of a downloaded chunk, [line] of the wanted ones: with the wanted hash
    it is written and fetched; otherwise, or when the file fails, it is to be fetched again. *)
Inductive end_outcome (s : PeerServer) (i : Z) (p : Peer) (line : ChunkLine) : PeerServer -> list event -> Prop :=
  | end_saved off cs :
      line_text line = sha1_text (buffer (dl p)) -> marked s (get_index (dl p)) fetched cs ->
      end_outcome s i p line ((with_chunks (released s i p) cs) .{ dl_remain := s32 (dl_remain s - 1) })
        (EvWrite (cstr (filename (dl p))) off (buffer (dl p)) ::
         if s32 (dl_remain s - 1) =? 0 then [EvGot (cstr (getchunk_file s))] else [])
  | end_again evs s1 :
      (if decide (line_text line = sha1_text (buffer (dl p)))
       then zlen evs <= 1 /\ exists n, open_ok n = false \/ write_file n <> BT_CHUNK_SIZE else evs = []) ->
      (if decide (state line = fetched) then s1 = released s i p
       else exists cs, marked s (get_index (dl p)) unfetched cs /\ s1 = with_chunks (released s i p) cs) ->
      end_outcome s i p line s1 evs.

Lemma released_inv s i p :
  server_inv s -> peer_at s i p -> is_downloading p = true ->
  server_inv (released s i p) /\ same_setup s (released s i p).
Proof.
  intros Hs Hp Edl. split; [|done]. pose proof (sm_peers _ (si_mem _ Hs) _ _ Hp) as [Hq Hdl Hul].
  destruct (dl_num_dec _ _ _ Hs Hp Edl) as [_ Hpos]. pose proof Hs as [Hm [_ Hdle] Hu].
  eapply (server_inv_change s _ i p (p .{ is_downloading := false })); [done|exact Hp|by split|done..|apply Hs|done|done| | |].
  - simpl. rewrite Edl. simpl. lia.
  - simpl. lia.
  - intros Hck. destruct (Hu Hck). simpl. lia.
Qed.

Lemma server_inv_chunks s cs n :
  server_inv s -> list_ok ((getchunks s) .{ chunks := cs }) -> server_inv ((with_chunks s cs) .{ dl_remain := n }).
Proof. intros Hs Hwf. eapply server_inv_ext; [exact Hs|done..|apply Hs|exact Hwf|apply Hs|apply Hs]. Qed.

(** [end_download] settles the chunk and then lets the next ones be chosen. *)
Lemma end_download_spec i p w (Q : unit -> World -> Prop) :
  server_inv (psvr w) -> peer_at (psvr w) i p -> is_downloading p = true ->
  (forall line w1 evs, zget (chunks (getchunks (psvr w))) (get_index (dl p)) = Some line ->
     end_outcome (psvr w) i p line (psvr w1) evs -> out w1 = out w ++ evs -> keeps w w1 ->
     wp (if dl_remain (psvr w1) >? 0 then refresh_chunk_download else ret tt) Q w1) ->
  wp (end_download i) Q w.
Proof.
  intros Hs Hp Edl HQ. destruct (released_inv _ _ _ Hs Hp Edl) as [Hrel Hset].
  destruct (ps_dl _ _ (sm_peers _ (si_mem _ Hs) _ _ Hp) Edl) as (Hsafe & Hidx & Hget).
  destruct (dl_num_dec _ _ _ Hs Hp Edl) as [E32 _]. pose proof (sm_get _ (si_mem _ Hs)) as Hwf.
  destruct (zget_is_Some (chunks (getchunks (psvr w))) (get_index (dl p))) as [line El]; [destruct Hwf as [(-> & _) _]; lia|].
  pose proof (list_wf_line _ _ _ (list_ok_wf _ Hwf) El) as Hlwf.
  unfold end_download. wp_go. eapply wp_get_peer; [apply Hp|]. wp_go. eapply wp_set_peer; [apply Hp|]. wp_go.
  match goal with |- wp _ _ ?x => assert (psvr x = released (psvr w) i p /\ out x = out w) as [Ew1 Eo1];
    [|revert Ew1 Eo1; generalize x; intros w1 Ew1 Eo1] end.
  { split; [|done]. transitivity ((upd_peer (psvr w) i (p .{ is_downloading := false })) .{ dl_num := s32 (dl_num (psvr w) - 1) });
      [done|by rewrite E32]. }
  eapply (check_hash_succeed_spec _ line); [apply Hsafe|by rewrite Ew1|exact Hlwf|]. intros w2 [Ew2 Eo2].
  rewrite app_nil_r in Eo2. rewrite Ew1 in Ew2. rewrite Eo1 in Eo2.
  apply wp_bind. eapply (wp_mono _ (fun _ w3 => exists evs, out w3 = out w ++ evs /\ list_ok (getchunks (psvr w3)) /\
    if decide (line_text line = sha1_text (buffer (dl p))) then write_outcome (psvr w2) (dl p) (psvr w3) evs
    else evs = [] /\ psvr w3 = psvr w2)).
  { destruct (decide _) as [E|E].
    - rewrite bool_decide_eq_true_2 by done. wp_go. apply write_to_file_spec; [by rewrite Ew2|done|apply Hsafe|].
      intros r w3 evs Ho Eo Hw. wp_go. exists evs. by rewrite Eo, Eo2.
    - rewrite bool_decide_eq_false_2 by done. wp_go. exists []. rewrite app_nil_r, Ew2. by split_and!. }
  intros [] w3 (evs & Eo3 & Hwf3 & Hcase). wp_go.
  assert ((exists off cs, line_text line = sha1_text (buffer (dl p)) /\ marked (psvr w) (get_index (dl p)) fetched cs /\
      psvr w3 = (with_chunks (released (psvr w) i p) cs) .{ dl_remain := s32 (dl_remain (psvr w) - 1) } /\
      evs = EvWrite (cstr (filename (dl p))) off (buffer (dl p)) ::
        if s32 (dl_remain (psvr w) - 1) =? 0 then [EvGot (cstr (getchunk_file (psvr w)))] else []) \/
    (if decide (line_text line = sha1_text (buffer (dl p)))
       then zlen evs <= 1 /\ exists n, open_ok n = false \/ write_file n <> BT_CHUNK_SIZE else evs = []) /\
    psvr w3 = released (psvr w) i p) as [(off & cs & Htx & Hmk & Ew3 & ->)|[Hevs Ew3]].
  { destruct (decide _) as [E|E]; [|right; by rewrite <- Ew2]. rewrite Ew2 in Hcase. remember (psvr w3) as s3 eqn:Es3.
    inversion Hcase as [off cs Hmk|? n Hn Hl]; subst; [left; by exists off, cs|right; split; [|done]]. split; [done|by exists n]. }
  - pose proof Hmk as (c & Hc & Hset3). assert (c = line) as -> by congruence.
    pose proof (zget_zset_eq _ _ _ _ Hset3) as El3. eapply wp_lift; [rewrite Ew3; exact El3|]. wp_go.
    rewrite decide_True by done. wp_go. eapply (HQ line w3); [exact El|rewrite Ew3; by apply end_saved|done|].
    rewrite Ew3 in Hwf3. split; rewrite Ew3; [|done]. by apply server_inv_chunks; [|exact Hwf3].
  - eapply wp_lift; [rewrite Ew3; exact El|]. wp_go. destruct (decide (state line = fetched)) as [E|E]; wp_go.
    + eapply (HQ line w3); [exact El|apply end_again; [exact Hevs|]; by rewrite decide_True, Ew3|done|].
      split; by rewrite Ew3.
    + apply mark_chunk_spec; [by rewrite Ew3|done|]. rewrite Ew3. intros cs Hmk Hwf'. wp_go.
      match goal with |- wp _ _ ?x => apply (HQ line x evs El) end; [|done|split; [|done]].
      * apply end_again; [exact Hevs|]. rewrite decide_False by done. by exists cs.
      * by apply (server_inv_chunks (released (psvr w) i p) cs (dl_remain (psvr w))).
Qed.

Lemma end_download_inv i p w (Q : unit -> World -> Prop) :
  server_inv (psvr w) -> peer_at (psvr w) i p -> is_downloading p = true ->
  (forall w', keeps w w' -> Q tt w') -> wp (end_download i) Q w.
Proof.
  intros Hs Hp Edl HQ. eapply end_download_spec; [done|exact Hp|done|]. intros line w1 evs _ _ _ Hk.
  destruct (_ >? 0); [|wp_go; by apply HQ]. apply refresh_chunk_download_inv; [apply Hk|].
  intros w2 Hk2. apply HQ. by eapply keeps_trans.
Qed.

Lemma handle_DATA_inv pkt i p w (Q : Z -> World -> Prop) :
  server_inv (psvr w) -> peer_at (psvr w) i p -> packet_valid pkt ->
  (forall r w', keeps w w' -> Q r w') -> wp (handle_DATA pkt i) Q w.
Proof.
  intros Hs Hp Hv HQ. unfold handle_DATA. wp_go. eapply wp_get_peer; [apply Hp|].
  destruct (negb (is_alive p) || negb (is_downloading p)) eqn:E; [wp_go; by apply HQ, keeps_refl|].
  apply orb_false_iff in E as [_ Edl%negb_false_iff]. wp_go.
  pose proof (sm_peers _ (si_mem _ Hs) _ _ Hp) as [Hq Hdl Hul]. destruct (Hdl Edl) as (Hsafe & Hidx & Hget).
  eapply (print_download_progress_total i p); [by apply Hdl|apply Hs|]. intros _. wp_go.
  apply dl_recv_safe; [done|done|rewrite Hidx; by eapply peer_at_ok|].
  intros r d w1 Hsafe' (Eg & Ei & _) Hem. pose proof (emits_psvr _ _ _ Hem) as Ew1. wp_go. cbn [fst snd].
  eapply wp_get_peer; [rewrite Ew1; apply Hp|]. wp_go. eapply wp_set_peer; [rewrite Ew1; apply Hp|].
  rewrite Ew1. set (p1 := p .{ dl := d }). wp_go.
  assert (peer_safe i p1) as Hsafe1.
  { split; [done| |exact Hul]. intros _. split; [done|]. simpl. by rewrite Ei, Eg. }
  assert (peer_at (upd_peer (psvr w) i p1) i p1) as Hp1 by by eapply upd_peer_at.
  match goal with |- context [wp _ _ ?x] =>
    assert (keeps w x) as Hk2 by (by apply (keeps_upd_peer _ _ p)); assert (psvr x = upd_peer (psvr w) i p1) as Ew2
      by (done); revert Hk2 Ew2; generalize x; intros w2 Hk2 Ew2 end.
  destruct (is_download_finished d); [|wp_go; by apply HQ].
  eapply (end_download_inv i p1); [apply Hk2|by rewrite Ew2|done|]. intros w3 Hk3. wp_go. apply HQ.
  by eapply keeps_trans.
Qed.
End Handlers.
