(* ===== verification/UserInput.v ===== *)
(** * UserInput: the lines of the user (input_buffer.c, handle_user_input of peer.c)

    [process_user_input] cuts what is read from the terminal into lines, and
    [handle_user_input] recognises the command [GET]. *)

From S2P Require Import Prelude LinkedList Sha Chunk ChunkList Machine Util Packet Sending.
From S2P Require Import Upload Download SendHelper PeerServer ParsePacket.

(** ** input_buffer.c *)

Definition USERBUF_SIZE : Z := 8191.
Record user_iobuf := { ub_buf : list Z; ub_cur : Z }.

(** [strchr] on a buffer, from index [i]. *)
Fixpoint strchr (c : Z) (l : list Z) (i : Z) : option (option Z) :=
  match l with
  | [] => None
  | x :: l' => if x =? c then Some (Some i) else if x =? 0 then Some None else strchr c l' (i + 1)
  end.

Section Code.
Context `{Env}.

Definition create_userbuf : M (option user_iobuf) :=
  b_ok <- ask malloc_ok ;;
  if negb b_ok then ret None else
  buf_ok <- ask malloc_ok ;;
  if negb buf_ok then ret None else
  ret (Some {| ub_buf := zeros (USERBUF_SIZE + 1); ub_cur := 0 |}).

(** The [while] loop of [process_user_input]: each turn shortens the string in the
    buffer. The handler is given the buffer, as a C string. *)
Fixpoint input_loop (fuel : nat) (handle_line : list Z -> M unit) (buf : list Z) (cur : Z) : M user_iobuf :=
  r <- lift (strchr 10 buf 0) ;;
  match r with
  | None => ret {| ub_buf := buf; ub_cur := cur |}
  | Some off =>
    match fuel with
    | O => lift None
    | S fuel' =>
      buf <- lift (zset buf off 0) ;;
      handle_line buf ;;;
      src <- lift (zread buf (off + 1) (USERBUF_SIZE - off)) ;;
      buf <- lift (zwrite buf 0 src) ;;
      input_loop fuel' handle_line buf (u32 (cur - (off + 1)))
    end
  end.

(** [read] gives at most as many of the available bytes as asked for, or -1
    ([None]). The result is [None] for [exit(-1)]. *)
Definition process_user_input (avail : option (list Z)) (userbuf : user_iobuf)
    (handle_line : list Z -> M unit) : M (option user_iobuf) :=
  if ub_cur userbuf >=? USERBUF_SIZE - 1 then ret None else
  let got := take (Z.to_nat (USERBUF_SIZE - ub_cur userbuf)) (default [] avail) in
  buf <- lift (zwrite (ub_buf userbuf) (ub_cur userbuf) got) ;;
  let cur := if zlen got >? 0 then u32 (ub_cur userbuf + zlen got) else ub_cur userbuf in
  ub <- input_loop (length buf) handle_line buf cur ;;
  ret (Some ub).

(** ** [handle_user_input] *)

(** A literal of the format: [inl] for its [return] value when it does not match. *)
Fixpoint scan_literal (lit inp : list Z) : Z + list Z :=
  match lit, inp with
  | [], _ => inr inp
  | _ :: _, [] => inl EOF
  | c :: lit', d :: inp' => if c =? d then scan_literal lit' inp' else inl 0
  end.

(** A conversion [%120s]: up to 120 characters that are not blanks. *)
Definition scan_word (inp : list Z) : option (list Z * list Z) :=
  match skip_space inp with
  | [] => None
  | l => let w := (span (fun c => negb (isspace c)) (take 120 l)).1 in Some (w, drop (length w) l)
  end.

(** [sscanf(line, "GET %120s %120s", chunkf, outf)]. *)
Definition sscanf_GET (line : list Z) : Z * option (list Z) * option (list Z) :=
  match scan_literal [71; 69; 84] (cstr line) with
  | inl r => (r, None, None)
  | inr inp =>
    match scan_word inp with
    | None => (EOF, None, None)
    | Some (w1, inp) =>
      match scan_word inp with
      | None => (1, Some w1, None)
      | Some (w2, _) => (2, Some w1, Some w2)
      end
    end
  end.

Definition put_str (buf : list Z) (s : option (list Z)) : option (list Z) :=
  match s with Some s => zwrite buf 0 (s ++ [0]) | None => Some buf end.

(** [fopen] gives the contents of the file with a name, if it can be opened. *)
Definition handle_user_input (fopen : list Z -> option (list Z)) (line : list Z) : M unit :=
  let '(r, s1, s2) := sscanf_GET line in
  chunkf <- lift (put_str (zeros 128) s1) ;;
  outf <- lift (put_str (zeros 128) s2) ;;
  if negb (r =? 0) then
    if zlen (cstr outf) >? 0 then process_get chunkf outf (fopen (cstr chunkf)) else ret tt
  else ret tt.
End Code.

(** ** Lines *)

(** The complete lines of some text, and what follows the last of them. *)
Fixpoint split_lines (l : list Z) : list (list Z) * list Z :=
  match l with
  | [] => ([], [])
  | c :: l' =>
    let '(ls, r) := split_lines l' in
    if c =? 10 then ([] :: ls, r) else
    match ls with [] => ([], c :: r) | x :: ls' => ((c :: x) :: ls', r) end
  end.

Definition line_char (c : Z) : Prop := c <> 10 /\ c <> 0.
Definition typed (l : list Z) : Prop := Forall (fun c => c <> 0) l.

Lemma split_lines_nonl x r : Forall line_char x -> split_lines (x ++ 10 :: r) =
  (x :: (split_lines r).1, (split_lines r).2).
Proof.
  induction 1 as [|c x [Hc _] _ IH]; cbn [app split_lines].
  - by destruct (split_lines r).
  - rewrite IH. by destruct (Z.eqb_spec c 10).
Qed.

Lemma split_lines_none x : Forall line_char x -> split_lines x = ([], x).
Proof.
  induction 1 as [|c x [Hc _] _ IH]; [done|]. cbn [split_lines]. rewrite IH. by destruct (Z.eqb_spec c 10).
Qed.

(** Text is a line without newline, or starts with a complete line. *)
Lemma typed_cases l : typed l -> Forall line_char l \/
  exists x r, l = x ++ 10 :: r /\ Forall line_char x /\ typed r.
Proof.
  induction 1 as [|c l Hc Hl IH]; [by left|]. destruct (Z.eqb_spec c 10) as [->|Hn].
  - right. by exists [], l.
  - destruct IH as [IH|(x & r & -> & Hx & Hr)].
    + left. by constructor.
    + right. exists (c :: x), r. split_and!; [done|by constructor|done].
Qed.

Lemma strchr_line x i r : Forall line_char x -> strchr 10 (x ++ 10 :: r) i = Some (Some (i + zlen x)).
Proof.
  intros Hx. revert i. induction Hx as [|c x [Hc H0] _ IH]; intros i; cbn [app strchr length].
  - simpl. by rewrite Z.add_0_r.
  - destruct (Z.eqb_spec c 10); [done|]. destruct (Z.eqb_spec c 0); [done|]. rewrite IH. do 2 f_equal. lia.
Qed.

Lemma strchr_none x i r : Forall line_char x -> strchr 10 (x ++ 0 :: r) i = Some None.
Proof.
  intros Hx. revert i. induction Hx as [|c x [Hc H0] _ IH]; intros i; cbn [app strchr]; [done|].
  destruct (Z.eqb_spec c 10); [done|]. by destruct (Z.eqb_spec c 0).
Qed.

Lemma cstr_line x r : Forall line_char x -> cstr (x ++ 0 :: r) = x.
Proof.
  induction 1 as [|c x [_ Hc] _ IH]; [done|]. simpl. destruct (Z.eqb_spec c 0); [done|]. by rewrite IH.
Qed.

(** ** The buffer between two reads *)


Lemma zeros_length n : length (zeros n) = Z.to_nat n.
Proof. unfold zeros. by rewrite length_replicate. Qed.

Lemma drop_zeros n m : drop n (zeros m) = replicate (Z.to_nat m - n) 0.
Proof. unfold zeros. by rewrite drop_replicate. Qed.

(** One line leaves the buffer: the bytes that [memmove] does not overwrite are zero. *)
Lemma shift_line x r z :
  2 * zlen (x ++ 10 :: r) <= USERBUF_SIZE -> z = zeros (USERBUF_SIZE + 1 - zlen (x ++ 10 :: r)) ->
  zset ((x ++ 10 :: r) ++ z) (zlen x) 0 = Some ((x ++ 0 :: r) ++ z) /\
  zread ((x ++ 0 :: r) ++ z) (zlen x + 1) (USERBUF_SIZE - zlen x) = Some (r ++ z) /\
  zwrite ((x ++ 0 :: r) ++ z) 0 (r ++ z) = Some (r ++ zeros (USERBUF_SIZE + 1 - zlen r)).
Proof.
  unfold USERBUF_SIZE. intros Hl Ez.
  assert (zlen (x ++ 10 :: r) = zlen x + 1 + zlen r) as El by (rewrite length_app; cbn [length]; lia).
  rewrite El in *. replace (8191 + 1 - _) with (8191 - zlen x - zlen r) in Ez by lia.
  assert (zlen z = 8191 - zlen x - zlen r) as HZ by (rewrite Ez, zeros_length; lia).
  assert (zlen (r ++ z) = 8191 - zlen x) as Hrest by (rewrite length_app; lia).
  assert (zlen ((x ++ 0 :: r) ++ z) = 8192) as Hbuf1 by (rewrite !length_app; cbn [length]; lia).
  split_and!.
  - unfold zset. rewrite decide_True by (rewrite !length_app; cbn [length]; lia).
    rewrite <- !app_assoc, Nat2Z.id. by rewrite insert_app_r_alt, Nat.sub_diag by done.
  - unfold zread. rewrite decide_True by lia. rewrite <- app_assoc. cbn [app].
    replace (Z.to_nat (zlen x + 1)) with (length x + 1)%nat by lia. rewrite <- drop_drop.
    rewrite drop_app_length. cbn [drop]. rewrite drop_0, take_ge; [done|lia].
  - unfold zwrite. rewrite decide_True by lia. rewrite Z2Nat.inj_0, take_0. cbn [app].
    rewrite drop_app_ge by (rewrite length_app; cbn [length]; lia). rewrite <- app_assoc. f_equal.
    rewrite Ez, drop_zeros. unfold zeros. rewrite <- replicate_add. f_equal.
    rewrite !length_app, length_replicate. cbn [length]. f_equal. lia.
Qed.

Section Lines.
Context `{Env}.

Fixpoint handle_all (hl : list Z -> M unit) (ls : list (list Z)) : M unit :=
  match ls with [] => ret tt | l :: ls' => hl l ;;; handle_all hl ls' end.

Definition ub_of (pend : list Z) : user_iobuf :=
  {| ub_buf := pend ++ zeros (USERBUF_SIZE + 1 - zlen pend); ub_cur := zlen pend |}.

Lemma bind_lift {A B} (a : A) (k : A -> M B) w : bind (lift (Some a)) k w = k a w.
Proof. done. Qed.

Lemma bind_assoc {A B C} (m : M A) (f : A -> M B) (g : B -> M C) w :
  bind (bind m f) g w = bind m (fun a => bind (f a) g) w.
Proof. unfold bind. by destruct (m w) as [[]|]. Qed.
Lemma bind_run {A B} (m1 m2 : M A) (k : A -> M B) w : m1 w = m2 w -> bind m1 k w = bind m2 k w.
Proof. intros E. unfold bind. by rewrite E. Qed.
Lemma bind_same {A B} (m : M A) (k1 k2 : A -> M B) w :
  (forall a w', k1 a w' = k2 a w') -> bind m k1 w = bind m k2 w.
Proof. intros Hk. unfold bind. by destruct (m w) as [[]|]. Qed.

(** The loop hands over the complete lines, in order, and keeps the rest. *)
Lemma input_loop_lines hl fuel : forall t w,
  typed t -> 2 * zlen t <= USERBUF_SIZE -> (length t < fuel)%nat ->
  input_loop fuel (fun b => hl (cstr b)) (t ++ zeros (USERBUF_SIZE + 1 - zlen t)) (zlen t) w =
    (handle_all hl (split_lines t).1 ;;; ret (ub_of (split_lines t).2)) w.
Proof.
  induction fuel as [|fuel IH]; intros t w Ht Hl Hf; [lia|].
  destruct (typed_cases t Ht) as [Hline|(x & r & -> & Hx & Hr)].
  - rewrite split_lines_none by done. cbn [input_loop fst snd handle_all].
    assert (exists z, zeros (USERBUF_SIZE + 1 - zlen t) = 0 :: z) as [z Ez].
    { unfold zeros. unfold USERBUF_SIZE in *. replace (Z.to_nat (8191 + 1 - zlen t)) with (S (Z.to_nat (8191 - zlen t))) by lia.
      by eexists. }
    unfold ub_of. rewrite Ez, strchr_none by done. done.
  - destruct (shift_line x r _ Hl eq_refl) as (E1 & E2 & E3). rewrite split_lines_nonl by done.
    cbn [input_loop fst snd handle_all]. rewrite <- app_assoc. cbn [app].
    rewrite strchr_line by done. rewrite bind_lift. change (0 + zlen x) with (zlen x).
    rewrite app_comm_cons, app_assoc, E1, bind_lift, bind_assoc.
    replace (cstr _) with x by (rewrite <- app_assoc; symmetry; by apply cstr_line). apply bind_same. intros [] w1.
    rewrite E2, bind_lift, E3, bind_lift. rewrite length_app in *. cbn [length] in *.
    replace (u32 (Z.of_nat (length x + S (length r)) - (zlen x + 1))) with (zlen r).
    + rewrite IH; [done|done|lia|lia].
    + rewrite u32_small; unfold USERBUF_SIZE in *; lia.
Qed.

(** One call of [process_user_input]. *)
Lemma process_user_input_lines hl pend data w :
  Forall line_char pend -> typed data -> 2 * zlen (pend ++ data) <= USERBUF_SIZE ->
  process_user_input (Some data) (ub_of pend) (fun b => hl (cstr b)) w =
    (handle_all hl (split_lines (pend ++ data)).1 ;;; ret (Some (ub_of (split_lines (pend ++ data)).2))) w.
Proof.
  intros Hp Hd Hl. pose proof Hl as Hl'. rewrite length_app in Hl'. unfold process_user_input.
  assert (typed (pend ++ data)) as Ht.
  { apply Forall_app. split; [|done]. eapply Forall_impl; [exact Hp|]. by intros x []. }
  cbn [ub_cur ub_of ub_buf]. change (default [] (Some data)) with data. rewrite Z.geb_leb.
  destruct (Z.leb_spec (USERBUF_SIZE - 1) (zlen pend)); [unfold USERBUF_SIZE in *; lia|].
  rewrite take_ge by (unfold USERBUF_SIZE in *; lia).
  assert (zwrite (pend ++ zeros (USERBUF_SIZE + 1 - zlen pend)) (zlen pend) data =
    Some ((pend ++ data) ++ zeros (USERBUF_SIZE + 1 - zlen (pend ++ data)))) as ->.
  { unfold zwrite. rewrite decide_True.
    2: { rewrite length_app, zeros_length. unfold USERBUF_SIZE in *. lia. }
    rewrite Nat2Z.id, take_app_length, drop_app_ge by lia. rewrite <- app_assoc, drop_zeros. unfold zeros.
    do 4 f_equal. rewrite length_app. lia. }
  rewrite bind_lift.
  assert ((if zlen data >? 0 then u32 (zlen pend + zlen data) else zlen pend) = zlen (pend ++ data)) as ->.
  { rewrite length_app. destruct (Z.gtb_spec (zlen data) 0); [rewrite u32_small; unfold USERBUF_SIZE in *; lia|lia]. }
  erewrite bind_run; [|apply input_loop_lines; [done|done|]].
  - rewrite bind_assoc. apply bind_same. by intros [] w'.
  - rewrite ?length_app, ?zeros_length, ?length_app. unfold USERBUF_SIZE in *. lia.
Qed.
End Lines.

Lemma split_lines_app a b :
  split_lines (a ++ b) =
    ((split_lines a).1 ++ (split_lines ((split_lines a).2 ++ b)).1, (split_lines ((split_lines a).2 ++ b)).2).
Proof.
  induction a as [|c a IH]; cbn [app split_lines fst snd]; [by destruct (split_lines b)|].
  rewrite IH. destruct (split_lines a) as [ls r]. cbn [fst snd]. destruct (c =? 10) eqn:E; [done|].
  destruct ls as [|x ls]; [|done]. cbn [app fst snd split_lines]. rewrite E. by destruct (split_lines (r ++ b)) as [[] ?].
Qed.

Lemma split_lines_rest t : typed t -> Forall line_char (split_lines t).2.
Proof.
  induction 1 as [|c t Hc _ IH]; [constructor|]. cbn [split_lines]. destruct (split_lines t) as [ls r]. cbn [snd] in IH.
  destruct (Z.eqb_spec c 10); [done|]. by destruct ls; [constructor|].
Qed.

(** ** Memory safety, whatever is typed *)

Definition buf_ok (ub : user_iobuf) : Prop :=
  0 <= ub_cur ub < 2 ^ 32 /\ exists b, ub_buf ub = b ++ [0] /\ zlen b = USERBUF_SIZE.

(** [strchr] finds the byte before the end of the string, or not at all. *)
Lemma strchr_total c l : forall i, 0 ∈ l -> c <> 0 ->
  exists r, strchr c l i = Some r /\
    forall off, r = Some off -> i <= off < i + zlen (cstr l) /\ off - i < zlen l.
Proof.
  induction l as [|x l IH]; intros i H0 Hc; [by apply elem_of_nil in H0|]. cbn [strchr cstr].
  destruct (Z.eqb_spec x c) as [->|Hx].
  - exists (Some i). split; [done|]. intros off [= <-]. destruct (Z.eqb_spec c 0); [done|]. cbn [length]. lia.
  - destruct (Z.eqb_spec x 0) as [->|Hx0]; [by exists None|]. apply elem_of_cons in H0 as [?|H0]; [done|].
    destruct (IH (i + 1) H0 Hc) as (r & -> & Hr). exists r. split; [done|]. intros off Eo.
    specialize (Hr _ Eo). cbn [length]. lia.
Qed.

Lemma cstr_length_snoc (b : list Z) : (length (cstr (b ++ [0%Z])) <= length b)%nat.
Proof. induction b as [|x b IH]; [done|]. simpl. destruct (x =? 0); simpl; lia. Qed.

(** What is left of a string after its first bytes. *)
Lemma cstr_drop (l : list Z) n z : (n <= length (cstr l))%nat -> 0 ∈ l -> cstr (drop n l ++ z) = drop n (cstr l).
Proof.
  revert n. induction l as [|x l IH]; intros n Hn H0; [by apply elem_of_nil in H0|]. simpl in *.
  destruct (Z.eqb_spec x 0) as [->|Hx].
  - destruct n; [|simpl in Hn; lia]. done.
  - apply elem_of_cons in H0 as [?|H0]; [done|]. destruct n as [|n].
    + cbn [drop app cstr]. destruct (Z.eqb_spec x 0); [done|]. f_equal. apply (IH 0%nat); [lia|done].
    + cbn [drop]. apply IH; [simpl in Hn; lia|done].
Qed.

(** Cutting the string at a byte of it, and moving the rest to the front. *)
Lemma move_line (l : list Z) off z :
  (off < length (cstr l))%nat -> 0 ∈ l ->
  length (cstr (drop (S off) (<[off := 0]> l) ++ z)) = (length (cstr l) - S off)%nat.
Proof.
  intros Hoff H0. rewrite drop_insert_lt by lia. rewrite cstr_drop by (done || lia). by rewrite length_drop.
Qed.

Section Safety.
Context `{Env} (P : World -> Prop) (hl : list Z -> M unit).
Context (hl_ok : forall b w (Q : unit -> World -> Prop), P w -> 0 ∈ b -> (forall w', P w' -> Q tt w') -> wp (hl b) Q w).

Lemma input_loop_safe fuel : forall b cur w (Q : user_iobuf -> World -> Prop),
  P w -> zlen b = USERBUF_SIZE -> 0 <= cur < 2 ^ 32 -> (length (cstr (b ++ [0%Z])) <= fuel)%nat ->
  (forall ub w', buf_ok ub -> P w' -> Q ub w') -> wp (input_loop fuel hl (b ++ [0]) cur) Q w.
Proof.
  induction fuel as [|fuel IH]; intros b cur w Q HP Hb Hcur Hf HQ; cbn [input_loop].
  all: assert (0 ∈ b ++ [0]) as H0 by (apply elem_of_app; right; left).
  all: destruct (strchr_total 10 (b ++ [0]) 0 H0) as (r & Er & Hr); [done|].
  all: wp_go; eapply wp_lift; [exact Er|]; destruct r as [off|]; [|wp_go; apply HQ; [split; [done|by exists b]|done]].
  { destruct (Hr off eq_refl). lia. }
  destruct (Hr off eq_refl) as [Hoff Hofl]. rewrite length_app in Hofl. cbn [length] in Hofl.
  pose proof (cstr_length_snoc b) as Hcl.
  unfold zset. rewrite decide_True by (rewrite length_app; cbn [length]; lia). wp_go. eapply wp_lift; [done|].
  rewrite insert_app_l by lia. set (b1 := <[Z.to_nat off := 0]> b).
  assert (zlen b1 = USERBUF_SIZE) as Hb1 by (unfold b1; by rewrite length_insert).
  wp_go. apply hl_ok; [done|apply elem_of_app; right; left|]. intros w1 HP1. wp_go.
  assert (zread (b1 ++ [0]) (off + 1) (USERBUF_SIZE - off) = Some (drop (Z.to_nat (off + 1)) b1 ++ [0])) as ->.
  { unfold zread. rewrite decide_True by (rewrite length_app; cbn [length]; lia).
    rewrite drop_app_le by lia. rewrite take_ge; [done|]. rewrite length_app, length_drop. cbn [length]. lia. }
  eapply wp_lift; [done|]. wp_go.
  assert (zwrite (b1 ++ [0]) 0 (drop (Z.to_nat (off + 1)) b1 ++ [0]) =
    Some ((drop (Z.to_nat (off + 1)) b1 ++ [0] ++ drop (Z.to_nat (USERBUF_SIZE - off)) b1) ++ [0])) as ->.
  { unfold zwrite. rewrite decide_True by (rewrite !length_app, length_drop; cbn [length]; lia).
    rewrite Z2Nat.inj_0, take_0, drop_app_le by (rewrite length_app, length_drop; cbn [length]; lia).
    replace (0 + length (drop (Z.to_nat (off + 1)) b1 ++ [0%Z]))%nat with (Z.to_nat (USERBUF_SIZE - off)).
    - by rewrite <- !app_assoc.
    - rewrite length_app, length_drop. cbn [length]. lia. }
  eapply wp_lift; [done|]. apply IH; [done| |apply u32_range| |done].
  - rewrite !length_app, !length_drop. cbn [length]. lia.
  - rewrite <- !app_assoc. change ([0] ++ ?x) with (0 :: x).
    pose proof (move_line (b ++ [0]) (Z.to_nat off) (drop (Z.to_nat (USERBUF_SIZE - off)) b1 ++ [0])) as Hm.
    rewrite insert_app_l in Hm by lia. fold b1 in Hm. rewrite drop_app_le in Hm by lia.
    rewrite <- app_assoc in Hm. change ([0] ++ ?x) with (0 :: x) in Hm.
    replace (Z.to_nat (off + 1)) with (S (Z.to_nat off)) by lia. rewrite Hm; [lia|lia|done].
Qed.

Lemma process_user_input_safe avail ub w (Q : option user_iobuf -> World -> Prop) :
  P w -> buf_ok ub -> (forall r w', (forall ub', r = Some ub' -> buf_ok ub') -> P w' -> Q r w') ->
  wp (process_user_input avail ub hl) Q w.
Proof.
  intros HP (Hcur & b & Eb & Hb) HQ. unfold process_user_input. rewrite Z.geb_leb.
  destruct (Z.leb_spec (USERBUF_SIZE - 1) (ub_cur ub)); [wp_go; by apply HQ|].
  set (got := take _ _). assert (zlen got <= USERBUF_SIZE - ub_cur ub) as Hgot.
  { unfold got. rewrite length_take. lia. }
  clearbody got. rewrite Eb.
  destruct (zwrite_is_Some b (ub_cur ub) got) as [b1 E1]; [lia..|].
  pose proof (zwrite_length _ _ _ _ E1) as Hl1.
  assert (zwrite (b ++ [0]) (ub_cur ub) got = Some (b1 ++ [0])) as ->.
  { unfold zwrite in *. rewrite decide_True by (rewrite length_app; cbn [length]; lia).
    rewrite decide_True in E1 by lia. injection E1 as <-. rewrite take_app_le, drop_app_le by lia.
    by rewrite <- !app_assoc. }
  wp_go. eapply wp_lift; [done|]. wp_go. apply input_loop_safe; [done|lia| | |].
  - destruct (zlen got >? 0); [apply u32_range|done].
  - rewrite length_app. pose proof (cstr_length_snoc b1). cbn [length]. lia.
  - intros ub' w' Hub HP'. wp_go. apply HQ; [by intros ub'' [= <-]|done].
Qed.
End Safety.

(** ** Properties *)

Section Feed.
Context `{Env}.

(** Several reads; [None] once the program has exited. *)
Fixpoint feed (hl : list Z -> M unit) (ds : list (list Z)) (ub : user_iobuf) : M (option user_iobuf) :=
  match ds with
  | [] => ret (Some ub)
  | d :: ds' =>
    r <- process_user_input (Some d) ub hl ;;
    match r with None => ret None | Some ub' => feed hl ds' ub' end
  end.

(** The line being typed never fills more than half of the buffer. *)
Fixpoint fits (pend : list Z) (ds : list (list Z)) : Prop :=
  match ds with
  | [] => True
  | d :: ds' => typed d /\ 2 * zlen (pend ++ d) <= USERBUF_SIZE /\ fits (split_lines (pend ++ d)).2 ds'
  end.

Lemma handle_all_app hl l1 l2 w : handle_all hl (l1 ++ l2) w = (handle_all hl l1 ;;; handle_all hl l2) w.
Proof.
  revert w. induction l1 as [|l l1 IH]; intros w; cbn [app handle_all]; [done|].
  rewrite bind_assoc. apply bind_same. intros _ w'. apply IH.
Qed.

Lemma feed_lines hl ds : forall pend w, Forall line_char pend -> fits pend ds ->
  feed (fun b => hl (cstr b)) ds (ub_of pend) w =
    (handle_all hl (split_lines (pend ++ mjoin ds)).1 ;;;
     ret (Some (ub_of (split_lines (pend ++ mjoin ds)).2))) w.
Proof.
  induction ds as [|d ds IH]; intros pend w Hp Hf; cbn [feed].
  - change (mjoin []) with (@nil Z). by rewrite app_nil_r, split_lines_none.
  - destruct Hf as (Hd & Hl & Hf). change (mjoin (d :: ds)) with (d ++ mjoin ds).
    rewrite app_assoc, split_lines_app. cbn [fst snd].
    set (t := pend ++ d) in *.
    assert (typed t) as Ht.
    { apply Forall_app. split; [|done]. eapply Forall_impl; [exact Hp|]. by intros x []. }
    rewrite (bind_run _ _ _ _ (process_user_input_lines hl pend d w Hp Hd Hl)). fold t.
    rewrite (bind_run _ _ _ _ (handle_all_app hl _ _ w)), !bind_assoc. apply bind_same. intros [] w1.
    change (bind (ret ?a) ?k w1) with (k a w1). cbv beta iota.
    rewrite IH; [done|by apply split_lines_rest|done].
Qed.
End Feed.

(** C32: however the typed text is cut into reads, [process_user_input] hands its
    complete lines to the handler, once each and in order, and keeps the unfinished one
    in the buffer, as long as what it holds at a time fits half of the buffer. *)
Theorem user_lines_stream (hl : list Z -> M unit) (ds : list (list Z)) (w : World) :
  fits [] ds ->
  feed (fun b => hl (cstr b)) ds {| ub_buf := zeros (USERBUF_SIZE + 1); ub_cur := 0 |} w =
    (handle_all hl (split_lines (mjoin ds)).1 ;;; ret (Some (ub_of (split_lines (mjoin ds)).2))) w.
Proof. intros Hf. apply (feed_lines hl ds []); [constructor|done]. Qed.

#[local] Instance event_eq_dec : EqDecision event.
Proof. solve_decision. Defined.

(** A handler that records its lines. *)
Definition record_line (l : list Z) : M unit := emit (EvGot (cstr l)).

Lemma user_lines_stream_witness :
  feed (fun b => record_line (cstr b)) [[65; 66]; [67; 10; 68]; [10; 69]]
      {| ub_buf := zeros (USERBUF_SIZE + 1); ub_cur := 0 |} sample_world =
    Some (Some (ub_of [69]), sample_world .{ out := [EvGot [65; 66; 67]; EvGot [68]] }).
Proof.
  rewrite (user_lines_stream record_line); [reflexivity|].
  repeat split; try (repeat constructor; lia); vm_compute; discriminate.
Defined.

(** When more than half of the buffer is used, the bytes that [memmove] leaves
    behind come back: after two long lines, 1500 typed characters without a newline are
    handed over as a line with 3000 old ones, [cur] wraps below zero, and the next call
    exits. *)
Theorem stale_bytes_end_input :
  let d1 := replicate 4500 65 ++ [10] ++ replicate 3000 66 ++ [10] in
  let d2 := replicate 1500 67 in
  exists ub w, feed record_line [d1; d2]
      {| ub_buf := zeros (USERBUF_SIZE + 1); ub_cur := 0 |} sample_world = Some (Some ub, w) /\
    out w = [EvGot (replicate 4500 65); EvGot (replicate 3000 66);
             EvGot (replicate 1500 67 ++ replicate 3000 66)] /\
    ub_cur ub = 2 ^ 32 - 3001 /\
    forall d, process_user_input (Some d) ub record_line w = Some (None, w).
Proof.
  intros d1 d2.
  assert (match feed record_line [d1; d2] (ub_of []) sample_world with
          | Some (Some ub, w) => bool_decide (out w = [EvGot (replicate 4500 65); EvGot (replicate 3000 66);
              EvGot (replicate 1500 67 ++ replicate 3000 66)]) && (ub_cur ub =? 2 ^ 32 - 3001)
          | _ => false
          end = true) as Hrun by (vm_compute; reflexivity).
  change {| ub_buf := _; ub_cur := 0 |} with (ub_of []). clearbody d1 d2.
  destruct (feed _ _ _ _) as [[[ub|] w]|]; try discriminate. exists ub, w.
  apply andb_true_iff in Hrun as [Hout%bool_decide_eq_true Hcur%Z.eqb_eq].
  split_and!; [done|done|done|]. intros d. unfold process_user_input. by rewrite Hcur.
Qed.
