(* ===== verification/CommandLine.v ===== *)
(** * CommandLine: options and the list of peers (bt_parse.c, include/bt_parse.h)

    [getopt] is given by the options it finds, [gethostbyname] by a function; a
    failed [assert] and [exit] end the program. *)

From S2P Require Import Prelude LinkedList Sha Chunk ChunkList Machine Util Packet Sending.
From S2P Require Import Upload Download SendHelper PeerServer.

(** ** The configuration *)

(** [argc] and [argv] only reach [getopt]; the list of peers is in the order of the
    nodes. *)
Record bt_config_t := {
  cfg_chunk_file : list Z; cfg_has_chunk_file : list Z; cfg_output_file : list Z;
  cfg_peer_list_file : list Z; cfg_max_conn : Z; cfg_identity : Z; cfg_myport : Z;
  cfg_no_output : Z; cfg_peers : list bt_peer_t }.
#[export] Instance config_settable : Settable bt_config_t := fun c => Build_bt_config_t
  (cfg_chunk_file c) (cfg_has_chunk_file c) (cfg_output_file c) (cfg_peer_list_file c)
  (cfg_max_conn c) (cfg_identity c) (cfg_myport c) (cfg_no_output c) (cfg_peers c).

(** ["problem2-peer.txt"] and ["nodes.map"]. *)
Definition default_output : list Z :=
  [112; 114; 111; 98; 108; 101; 109; 50; 45; 112; 101; 101; 114; 46; 116; 120; 116].
Definition default_nodes : list Z := [110; 111; 100; 101; 115; 46; 109; 97; 112].

Definition bt_init : option bt_config_t :=
  let z := {| cfg_chunk_file := zeros BT_FILENAME_LEN; cfg_has_chunk_file := zeros BT_FILENAME_LEN;
              cfg_output_file := zeros BT_FILENAME_LEN; cfg_peer_list_file := zeros BT_FILENAME_LEN;
              cfg_max_conn := 0; cfg_identity := 0; cfg_myport := 0; cfg_no_output := 0;
              cfg_peers := [] |} in
  o ← strcpy (cfg_output_file z) (default_output ++ [0]);
  n ← strcpy (cfg_peer_list_file z) (default_nodes ++ [0]);
  Some (z .{ cfg_output_file := o } .{ cfg_peer_list_file := n }).

(** ["chunkfile"] and ["haschunks"]. *)
Definition testing_chunks : list Z := [99; 104; 117; 110; 107; 102; 105; 108; 101].
Definition testing_has : list Z := [104; 97; 115; 99; 104; 117; 110; 107; 115].

(** The block of [main] under [#ifdef TESTING], which the Makefile defines. *)
Definition testing_config (config : bt_config_t) : option bt_config_t :=
  f ← strcpy (cfg_chunk_file config) (testing_chunks ++ [0]);
  h ← strcpy (cfg_has_chunk_file config) (testing_has ++ [0]);
  Some (config .{ cfg_identity := 1 } .{ cfg_chunk_file := f } .{ cfg_has_chunk_file := h }).

(** The configuration with which [main] parses the command line, in a build with or
    without [TESTING]. *)
Definition start_config (testing : bool) : option bt_config_t :=
  config ← bt_init; if testing then testing_config config else Some config.

(** [bt_peer_info]: the first node with this identity. *)
Fixpoint bt_peer_info (ps : list bt_peer_t) (peer_id : Z) : option bt_peer_t :=
  match ps with
  | [] => None
  | p :: ps' => if bp_id p =? peer_id then Some p else bt_peer_info ps' peer_id
  end.

(** [atoi] on the characters of a string. *)
Definition scan_int (inp : list Z) : option (Z * list Z) :=
  match skip_space inp with
  | [] => None
  | c :: l =>
    let '(neg, body) :=
      if c =? 45 then (true, l) else if c =? 43 then (false, l) else (false, c :: l) in
    match span isdigit body with
    | ([], _) => None
    | (ds, rest) => Some (s32 (strtol neg ds), rest)
    end
  end.
Definition atoi (s : list Z) : Z := match scan_int s with Some (v, _) => v | None => 0 end.

(** [fgets] on the unread bytes of a file. *)
Definition fgets (size : Z) (inp : list Z) : option (list Z * list Z) :=
  match inp with
  | [] => None
  | _ =>
    let '(a, b) := span (fun c => negb (c =? 10)) (take (Z.to_nat (size - 1)) inp) in
    let line := match b with [] => a | c :: _ => a ++ [c] end in
    Some (line, drop (length line) inp)
  end.

(** [sscanf(line, "%d %s %d", ...)]: its result and the conversions made. *)
Definition sscanf_d_s_d (line : list Z) : Z * option Z * option (list Z) * option Z :=
  let r := fscanf_d_s line in
  if sc_ret r =? 2 then
    match scan_int (sc_rest r) with
    | Some (p, _) => (3, sc_id r, sc_str r, Some p)
    | None => (2, sc_id r, sc_str r, None)
    end
  else (sc_ret r, sc_id r, sc_str r, None).

(** The result of [set_debug], which otherwise only sets a mask for messages. *)
Definition set_debug (arg : list Z) : Z :=
  match arg with
  | [] => -1
  | c :: _ => if (c =? 63) || bool_decide (arg = [108; 105; 115; 116]) then -1 else 0
  end.

(** What [getopt] finds: the option's letter and its argument. *)
Definition opt : Type := Z * list Z.

Section Code.
Context `{Env}.

(** The loop of [bt_parse_peer_list]: [id], [host] and [port] are the local variables,
    [None] while they were never assigned. The result is [None] when an [assert] fails.
    Every line consumes a byte at least: the fuel is the length of the file. *)
Fixpoint peer_list_loop (fuel : nat) (gethostbyname : list Z -> option Z) (inp : list Z)
    (id : option Z) (host : option (list Z)) (port : option Z) (ps : list bt_peer_t)
    : M (option (list bt_peer_t)) :=
  match fgets BT_FILENAME_LEN inp with
  | None => ret (Some ps)
  | Some (line, rest) =>
    match fuel with
    | O => lift None
    | S fuel' =>
      c <- lift (zget (line ++ [0]) 0) ;;
      if c =? 35 then peer_list_loop fuel' gethostbyname rest id host port ps else
      let '(r, i, h, p) := sscanf_d_s_d (cstr (line ++ [0])) in
      if r =? 0 then ret None else
      let id := match i with Some _ => i | None => id end in
      let host := match h with Some _ => h | None => host end in
      let port := match p with Some _ => p | None => port end in
      node_ok <- ask malloc_ok ;;
      if negb node_ok then ret None else
      nodeid <- lift id ;;
      hostname <- lift host ;;
      match gethostbyname hostname with
      | None => ret None
      | Some a =>
        pt <- lift port ;;
        let node := {| bp_id := s16 nodeid; bp_addr := {| sin_port := htons (u16 pt); s_addr := a |} |} in
        peer_list_loop fuel' gethostbyname rest id host port (node :: ps)
      end
    end
  end.

Definition bt_parse_peer_list (fopen : list Z -> option (list Z)) (gethostbyname : list Z -> option Z)
    (config : bt_config_t) : M (option bt_config_t) :=
  match fopen (cstr (cfg_peer_list_file config)) with
  | None => ret None
  | Some f =>
    r <- peer_list_loop (length f) gethostbyname f None None None (cfg_peers config) ;;
    match r with
    | None => ret None
    | Some ps => ret (Some (config .{ cfg_peers := ps }))
    end
  end.

(** The [while] loop over the options; [None] for [exit]. *)
Fixpoint getopt_loop (opts : list opt) (config : bt_config_t) : M (option bt_config_t) :=
  match opts with
  | [] => ret (Some config)
  | (c, optarg) :: opts' =>
    if c =? 104 (* h *) then ret None
    else if c =? 100 (* d *) then
      if set_debug optarg =? -1 then ret None else getopt_loop opts' config
    else if c =? 112 (* p *) then
      b <- lift (strcpy (cfg_peer_list_file config) (optarg ++ [0])) ;;
      getopt_loop opts' (config .{ cfg_peer_list_file := b })
    else if c =? 99 (* c *) then
      b <- lift (strcpy (cfg_has_chunk_file config) (optarg ++ [0])) ;;
      getopt_loop opts' (config .{ cfg_has_chunk_file := b })
    else if c =? 102 (* f *) then
      b <- lift (strcpy (cfg_chunk_file config) (optarg ++ [0])) ;;
      getopt_loop opts' (config .{ cfg_chunk_file := b })
    else if c =? 109 (* m *) then getopt_loop opts' (config .{ cfg_max_conn := atoi optarg })
    else if c =? 105 (* i *) then getopt_loop opts' (config .{ cfg_identity := s16 (atoi optarg) })
    else if c =? 110 (* n *) then getopt_loop opts' (config .{ cfg_no_output := 1 })
    else ret None
  end.

Definition bt_parse_command_line (opts : list opt) (fopen : list Z -> option (list Z))
    (gethostbyname : list Z -> option Z) (config : bt_config_t) : M (option bt_config_t) :=
  r <- getopt_loop opts config ;;
  match r with
  | None => ret None
  | Some config =>
    r <- bt_parse_peer_list fopen gethostbyname config ;;
    match r with
    | None => ret None
    | Some config =>
      if cfg_identity config =? 0 then ret None else
      match bt_peer_info (cfg_peers config) (cfg_identity config) with
      | None => ret None
      | Some p =>
        let config := config .{ cfg_myport := ntohs (sin_port (bp_addr p)) } in
        if (zlen (cstr (cfg_chunk_file config)) =? 0) || (zlen (cstr (cfg_has_chunk_file config)) =? 0)
        then ret None else ret (Some config)
      end
    end
  end.
End Code.

(** ** Reading the list of peers *)

(** What a user writes in the file: a node per line, and comments. *)
Inductive list_line :=
  | node_line (id : Z) (host : list Z) (port : Z)
  | comment_line (text : list Z).

Definition print_list_line (l : list_line) : list Z :=
  match l with
  | node_line id host port => printf_d id ++ 32 :: host ++ 32 :: printf_d port ++ [10]
  | comment_line text => 35 :: text ++ [10]
  end.

(** Lines that [fgets] reads in one piece. *)
Definition list_line_ok (l : list_line) : Prop :=
  zlen (print_list_line l) < BT_FILENAME_LEN /\
  match l with
  | node_line id host port =>
    0 <= id < 2 ^ 15 /\ 0 <= port < 2 ^ 16 /\ host <> [] /\ Forall (fun c => isspace c = false /\ c <> 0) host
  | comment_line text => Forall (fun c => c <> 10) text
  end.

(** The node that a line stands for. *)
Definition line_node (gethostbyname : list Z -> option Z) (l : list_line) : option bt_peer_t :=
  match l with
  | node_line id host port =>
    a ← gethostbyname host;
    Some {| bp_id := id; bp_addr := {| sin_port := htons port; s_addr := a |} |}
  | comment_line _ => None
  end.
Definition resolves (gethostbyname : list Z -> option Z) (l : list_line) : Prop :=
  match l with node_line _ host _ => is_Some (gethostbyname host) | comment_line _ => True end.

Lemma fgets_line x r : Forall (fun c => c <> 10) x -> zlen (x ++ [10]) < BT_FILENAME_LEN ->
  fgets BT_FILENAME_LEN (x ++ 10 :: r) = Some (x ++ [10], r).
Proof.
  intros Hx Hl. rewrite length_app in Hl. simpl length in Hl. change BT_FILENAME_LEN with 255 in *.
  unfold fgets. change (Z.to_nat (255 - 1)) with 254%nat.
  rewrite take_app, take_ge by lia.
  replace (254 - length x)%nat with (S (253 - length x)) by lia. cbn [take].
  rewrite span_app; [| |done].
  2: { eapply Forall_impl; [exact Hx|]. intros c Hc. by apply negb_true_iff, Z.eqb_neq. }
  assert (drop (length (x ++ [10])) (x ++ 10 :: r) = r) as Ed.
  { change (x ++ 10 :: r) with (x ++ [10] ++ r). rewrite app_assoc. apply drop_app_length. }
  rewrite Ed. by destruct x.
Qed.

Lemma printf_d_plain n : 0 <= n < 2 ^ 31 -> Forall (fun c => isspace c = false /\ c <> 0) (printf_d n).
Proof.
  intros Hn. destruct (printf_d_digits n Hn) as (d & ds & -> & Hd & _). eapply Forall_impl; [exact Hd|].
  unfold is_digit. intros c Hc. split; [|lia]. apply isspace_digit. left. lia.
Qed.

Lemma plain_not_10 l : Forall (fun c => isspace c = false /\ c <> 0) l -> Forall (fun c => c <> 10 /\ c <> 0) l.
Proof. intros H. eapply Forall_impl; [exact H|]. intros c [E ?]. split; [|done]. by intros ->. Qed.

(** Every line is a text without a newline, and a newline. *)
Lemma print_list_line_shape l : list_line_ok l ->
  exists x, print_list_line l = x ++ [10] /\ Forall (fun c => c <> 10) x.
Proof.
  intros [_ Hl]. destruct l as [id host port|text].
  - destruct Hl as (Hid & Hp & _ & Hh). exists (printf_d id ++ 32 :: host ++ 32 :: printf_d port). split.
    { simpl. by rewrite <- !app_assoc, <- !app_comm_cons, <- !app_assoc. }
    assert (forall y, Forall (fun c => c <> 10 /\ c <> 0) y -> Forall (fun c => c <> 10) y) as Hw.
    { intros y Hy. eapply Forall_impl; [exact Hy|]. by intros c []. }
    pose proof (Hw _ (plain_not_10 _ (printf_d_plain id ltac:(lia)))).
    pose proof (Hw _ (plain_not_10 _ (printf_d_plain port ltac:(lia)))).
    pose proof (Hw _ (plain_not_10 _ Hh)).
    apply Forall_app. split; [done|]. constructor; [done|]. apply Forall_app. split; [done|]. by constructor.
  - exists (35 :: text). split; [done|]. by constructor.
Qed.

(** [sscanf] reads the three fields of a node. *)
Lemma sscanf_node id host port : list_line_ok (node_line id host port) ->
  sscanf_d_s_d (print_list_line (node_line id host port)) = (3, Some id, Some host, Some port).
Proof.
  intros [_ (Hid & Hp & Hne & Hh)]. unfold sscanf_d_s_d. simpl print_list_line.
  rewrite fscanf_word; [|lia| |done|done].
  2: { eapply Forall_impl; [exact Hh|]. by intros c []. }
  cbn [sc_ret sc_id sc_str sc_rest]. change (2 =? 2) with true. cbv iota.
  destruct (printf_d_digits port ltac:(lia)) as (d & ds & -> & Hd & Hv).
  unfold scan_int. change (skip_space (32 :: ?x)) with (skip_space x).
  assert (is_digit d) as Hd0 by (by apply Forall_cons in Hd as [? _]). unfold is_digit in Hd0.
  rewrite <- app_comm_cons, skip_space_digit by (left; lia).
  destruct (Z.eqb_spec d 45); [lia|]. destruct (Z.eqb_spec d 43); [lia|].
  rewrite app_comm_cons, span_app; [|by apply digits_isdigit|done]. by rewrite Hv.
Qed.

Lemma cstr_plain x r : Forall (fun c => c <> 0) x -> cstr (x ++ 0 :: r) = x.
Proof.
  induction 1 as [|c x Hc _ IH]; [done|]. simpl. destruct (Z.eqb_spec c 0); [done|]. by rewrite IH.
Qed.

Lemma node_line_no_zero id host port : list_line_ok (node_line id host port) ->
  Forall (fun c => c <> 0) (print_list_line (node_line id host port)).
Proof.
  intros [_ (Hid & Hp & _ & Hh)]. simpl.
  assert (forall y, Forall (fun c => isspace c = false /\ c <> 0) y -> Forall (fun c => c <> 0) y) as Hw.
  { intros y Hy. eapply Forall_impl; [exact Hy|]. by intros c []. }
  pose proof (Hw _ (printf_d_plain id ltac:(lia))). pose proof (Hw _ (printf_d_plain port ltac:(lia))).
  pose proof (Hw _ Hh). apply Forall_app. split; [done|]. constructor; [done|]. apply Forall_app. split; [done|].
  constructor; [done|]. apply Forall_app. split; [done|]. by constructor.
Qed.

(** A node's first character is a digit: its line is no comment. *)
Lemma node_line_first id host port : list_line_ok (node_line id host port) ->
  exists c, zget (print_list_line (node_line id host port) ++ [0]) 0 = Some c /\ c <> 35.
Proof.
  intros [_ (Hid & _)]. destruct (printf_d_digits id ltac:(lia)) as (d & ds & E & Hd & _).
  exists d. split; [simpl; by rewrite E|]. apply Forall_cons in Hd as [Hd _]. unfold is_digit in Hd. lia.
Qed.

Section Specs.
Context `{Env}.
Context (gethostbyname : list Z -> option Z) (malloc_never_fails : forall n, malloc_ok n = true).

Lemma peer_list_loop_reads ls : forall fuel id host port ps w (Q : option (list bt_peer_t) -> World -> Prop),
  Forall list_line_ok ls -> Forall (resolves gethostbyname) ls -> (length ls <= fuel)%nat ->
  (forall w', psvr w' = psvr w -> out w' = out w ->
     Q (Some (reverse (omap (line_node gethostbyname) ls) ++ ps)) w') ->
  wp (peer_list_loop fuel gethostbyname (mjoin (print_list_line <$> ls)) id host port ps) Q w.
Proof.
  induction ls as [|l ls IH]; intros fuel id host port ps w Q Hok Hres Hfuel HQ.
  { destruct fuel; simpl; wp_go; by apply HQ. }
  apply Forall_cons in Hok as [Hl Hok]. apply Forall_cons in Hres as [Hr Hres].
  destruct fuel as [|fuel]; [simpl in Hfuel; lia|]. simpl in Hfuel.
  destruct (print_list_line_shape l Hl) as (x & Ex & Hx). rewrite fmap_cons.
  change (mjoin (?a :: ?b)) with (a ++ mjoin b). cbn [peer_list_loop].
  assert (fgets BT_FILENAME_LEN (print_list_line l ++ mjoin (print_list_line <$> ls)) =
    Some (print_list_line l, mjoin (print_list_line <$> ls))) as ->.
  { destruct Hl as [Hlen _]. rewrite Ex in *. rewrite <- app_assoc. by apply fgets_line. }
  destruct l as [i h p|text].
  - destruct (node_line_first _ _ _ Hl) as (c & Hc & Hc35). eapply wp_bind, wp_lift; [exact Hc|].
    destruct (Z.eqb_spec c 35); [done|].
    rewrite cstr_plain by (by apply node_line_no_zero). rewrite sscanf_node by done. cbv iota beta.
    change (3 =? 0) with false. cbv iota. wp_go. apply wp_ask. rewrite malloc_never_fails. cbn [negb]. cbv iota.
    eapply wp_bind, wp_lift; [done|]. eapply wp_bind, wp_lift; [done|].
    destruct Hr as [a Ha]. rewrite Ha. eapply wp_bind, wp_lift; [done|]. destruct Hl as [_ (Hi & Hp & _)].
    rewrite s16_small, u16_small by lia. apply IH; [done|done|lia|]. intros w' E1 E2.
    assert (line_node gethostbyname (node_line i h p) =
      Some {| bp_id := i; bp_addr := {| sin_port := htons p; s_addr := a |} |}) as En by (simpl; by rewrite Ha).
    cbn [omap list_omap] in HQ. rewrite En, reverse_cons, <- app_assoc in HQ. by apply HQ.
  - eapply wp_bind, wp_lift; [done|]. change (35 =? 35) with true. cbv iota. apply IH; [done|done|lia|done].
Qed.

Lemma bt_parse_peer_list_reads fopen config ls w (Q : option bt_config_t -> World -> Prop) :
  fopen (cstr (cfg_peer_list_file config)) = Some (mjoin (print_list_line <$> ls)) ->
  Forall list_line_ok ls -> Forall (resolves gethostbyname) ls ->
  (forall w', psvr w' = psvr w -> out w' = out w ->
     Q (Some (config .{ cfg_peers := reverse (omap (line_node gethostbyname) ls) ++ cfg_peers config })) w') ->
  wp (bt_parse_peer_list fopen gethostbyname config) Q w.
Proof.
  intros Hf Hok Hres HQ. unfold bt_parse_peer_list. rewrite Hf. wp_go. apply peer_list_loop_reads; [done|done| |].
  - clear -Hok. induction Hok as [|l ls Hl _ IH]; [done|]. destruct (print_list_line_shape l Hl) as (x & E & _).
    rewrite fmap_cons. change (mjoin (?a :: ?b)) with (a ++ mjoin b). rewrite E, !length_app. simpl. lia.
  - intros w' E1 E2. wp_go. by apply HQ.
Qed.
End Specs.

(** ** Options *)

(** The last argument given to an option. *)
Fixpoint last_arg (c : Z) (opts : list opt) (d : list Z) : list Z :=
  match opts with
  | [] => d
  | (c', a) :: opts' => last_arg c opts' (if c' =? c then a else d)
  end.
Definition has_opt (c : Z) (opts : list opt) : bool := bool_decide (Exists (fun o => o.1 = c) opts).

(** The letters of the options that configure the peer, and arguments that fit. *)
Definition opt_ok (o : opt) : Prop :=
  o.1 ∈ [112; 99; 102; 109; 105; 110] /\ zlen o.2 < BT_FILENAME_LEN /\ Forall (fun c => c <> 0) o.2.

(** A configured buffer holds the string [s]. *)
Definition holds (buf s : list Z) : Prop := zlen buf = BT_FILENAME_LEN /\ 0 ∈ buf /\ cstr buf = s.

Lemma strcpy_holds buf old s : holds buf old -> zlen s < BT_FILENAME_LEN -> Forall (fun c => c <> 0) s ->
  exists b, strcpy buf (s ++ [0]) = Some b /\ holds b s.
Proof.
  intros (Hl & _ & _) Hs Hz. unfold strcpy. rewrite decide_True by (apply elem_of_app; right; by left).
  rewrite (cstr_plain s []) by done.
  destruct (zwrite_is_Some buf 0 (s ++ [0])) as [b E]; [done| |].
  { rewrite length_app. simpl. lia. }
  exists b. split; [done|]. split; [by rewrite (zwrite_length _ _ _ _ E)|].
  unfold zwrite in E. case_decide; [|done]. injection E as <-. change (take (Z.to_nat 0) buf) with (@nil Z).
  cbn [app]. rewrite <- app_assoc. split; [|by apply cstr_plain]. apply elem_of_app. right. by left.
Qed.

(** A configuration with these files, these arguments of [-m] and [-i], and these nodes. *)
Record configured (c : bt_config_t) (chunkf hasf listf maxc me : list Z) (no_out : Z) (ps : list bt_peer_t) : Prop := {
  co_chunk : holds (cfg_chunk_file c) chunkf;
  co_has : holds (cfg_has_chunk_file c) hasf;
  co_list : holds (cfg_peer_list_file c) listf;
  co_conn : cfg_max_conn c = atoi maxc;
  co_me : cfg_identity c = s16 (atoi me);
  co_out : cfg_no_output c = no_out;
  co_peers : cfg_peers c = ps }.

Lemma bt_init_configured c : bt_init = Some c -> configured c [] [] default_nodes [] [] 0 [].
Proof.
  intros E. assert (forall n, 0 < n -> 0 ∈ zeros n) as Hz.
  { intros n Hn. apply elem_of_replicate. split; [done|lia]. }
  assert (bt_init = Some {| cfg_chunk_file := zeros BT_FILENAME_LEN; cfg_has_chunk_file := zeros BT_FILENAME_LEN;
    cfg_output_file := default_output ++ zeros 238; cfg_peer_list_file := default_nodes ++ zeros 246;
    cfg_max_conn := 0; cfg_identity := 0; cfg_myport := 0; cfg_no_output := 0; cfg_peers := [] |}) as E'
    by (vm_compute; reflexivity).
  rewrite E' in E. injection E as <-.
  split; try done; (split; [done|split; [|done]]); [by apply Hz|by apply Hz|].
  change (0 ∈ default_nodes ++ zeros 246). apply elem_of_app. right. by apply Hz.
Qed.

(** What a build presets, as the arguments of [-f], [-c] and [-i] would. *)
Definition preset_chunks (testing : bool) : list Z := if testing then testing_chunks else [].
Definition preset_has (testing : bool) : list Z := if testing then testing_has else [].
Definition preset_me (testing : bool) : list Z := if testing then [49] else [].

Lemma start_config_configured testing : exists c, start_config testing = Some c /\
  configured c (preset_chunks testing) (preset_has testing) default_nodes [] (preset_me testing) 0 [].
Proof.
  unfold start_config. destruct bt_init as [c|] eqn:E; [|discriminate E].
  pose proof (bt_init_configured c E) as Hc. rewrite option_bind_Some. destruct testing; [|by exists c].
  destruct Hc as [H1 H2 H3 H4 _ H6 H7]. unfold testing_config.
  destruct (strcpy_holds _ _ testing_chunks H1) as (b & -> & Hb); [done|by repeat constructor|].
  destruct (strcpy_holds _ _ testing_has H2) as (h & -> & Hh); [done|by repeat constructor|].
  rewrite !option_bind_Some. eexists. split; [done|]. by split.
Qed.

Section Options.
Context `{Env}.

Lemma getopt_loop_configures opts : forall c cf hf lf mc me no ps w (Q : option bt_config_t -> World -> Prop),
  Forall opt_ok opts -> configured c cf hf lf mc me no ps ->
  (forall c', configured c' (last_arg 102 opts cf) (last_arg 99 opts hf) (last_arg 112 opts lf)
      (last_arg 109 opts mc) (last_arg 105 opts me) (if has_opt 110 opts then 1 else no) ps -> Q (Some c') w) ->
  wp (getopt_loop opts c) Q w.
Proof.
  induction opts as [|[l a] opts IH]; intros c cf hf lf mc me no ps w Q Hok Hc HQ.
  { simpl. wp_go. by apply HQ. }
  apply Forall_cons in Hok as [(Hl & Hlen & Hz) Hok]. cbn [fst snd] in Hl, Hlen, Hz.
  assert (forall b s, holds b s -> exists b', strcpy b (a ++ [0]) = Some b' /\ holds b' a) as Hcpy.
  { intros b s Hb. by eapply strcpy_holds. }
  destruct Hc as [H1 H2 H3 H4 H5 H6 H7].
  assert (forall cc, (has_opt cc ((l, a) :: opts)) = (l =? cc) || has_opt cc opts) as Hh.
  { intros cc. unfold has_opt. destruct (Z.eqb_spec l cc) as [->|Hne]; cbn [orb].
    - by apply bool_decide_eq_true_2, Exists_cons_hd.
    - apply bool_decide_ext. rewrite Exists_cons. cbn [fst]. naive_solver. }
  rewrite Hh in HQ. cbn [last_arg getopt_loop] in *.
  repeat (apply elem_of_cons in Hl as [->|Hl]); [..|by apply elem_of_nil in Hl];
    repeat match goal with |- context [?x =? ?y] => change (x =? y) with false || change (x =? y) with true end;
    repeat match type of HQ with context [?x =? ?y] =>
      first [progress change (x =? y) with false in HQ | progress change (x =? y) with true in HQ] end;
    cbv iota in *; cbn [orb] in HQ.
  - destruct (Hcpy _ _ H3) as (b & E & Hb). eapply wp_bind, wp_lift; [exact E|].
    eapply IH; [done| |exact HQ]. by split.
  - destruct (Hcpy _ _ H2) as (b & E & Hb). eapply wp_bind, wp_lift; [exact E|].
    eapply IH; [done| |exact HQ]. by split.
  - destruct (Hcpy _ _ H1) as (b & E & Hb). eapply wp_bind, wp_lift; [exact E|].
    eapply IH; [done| |exact HQ]. by split.
  - eapply IH; [done| |exact HQ]. by split.
  - eapply IH; [done| |exact HQ]. by split.
  - eapply IH; [done| |intros c' Hc'; apply HQ; by destruct (has_opt 110 opts)]. by split.
Qed.
End Options.

(** ** The node of the peer itself *)

Definition names (me : Z) (l : list_line) : Prop :=
  match l with node_line id _ _ => id = me | comment_line _ => False end.

(** The list is read backwards: the last line with an identity counts. *)
Lemma own_node gethostbyname me ls : Forall (resolves gethostbyname) ls ->
  match bt_peer_info (reverse (omap (line_node gethostbyname) ls)) me with
  | Some p => exists pre host port post, ls = pre ++ node_line me host port :: post /\
      line_node gethostbyname (node_line me host port) = Some p /\ Forall (fun l => ~ names me l) post
  | None => Forall (fun l => ~ names me l) ls
  end.
Proof.
  induction ls as [|l ls IH] using rev_ind; intros Hres; [constructor|].
  apply Forall_app in Hres as [Hres Hl]. apply Forall_cons in Hl as [Hl _]. specialize (IH Hres).
  rewrite omap_app, reverse_app. destruct l as [id host port|text].
  - destruct Hl as [a Ha]. set (p := {| bp_id := id; bp_addr := {| sin_port := htons port; s_addr := a |} |}).
    assert (line_node gethostbyname (node_line id host port) = Some p) as En by (simpl; by rewrite Ha).
    cbn [omap list_omap]. rewrite En. change (reverse [p]) with [p]. cbn [app bt_peer_info].
    change (bp_id p) with id. destruct (Z.eqb_spec id me) as [<-|Hne].
    + by exists ls, host, port, [].
    + destruct (bt_peer_info _ me) as [q|].
      * destruct IH as (pre & h & pt & post & -> & Eq & Hpost). exists pre, h, pt, (post ++ [node_line id host port]).
        split; [by rewrite <- app_assoc|]. split; [done|]. apply Forall_app. split; [done|]. by constructor.
      * apply Forall_app. split; [done|]. by constructor.
  - cbn [omap list_omap line_node app]. destruct (bt_peer_info _ me) as [q|].
    + destruct IH as (pre & h & pt & post & -> & Eq & Hpost). exists pre, h, pt, (post ++ [comment_line text]).
      split; [by rewrite <- app_assoc|]. split; [done|]. apply Forall_app. split; [done|]. constructor; [|done]. by intros [].
    + apply Forall_app. split; [done|]. constructor; [|done]. by intros [].
Qed.

Section Configure.
Context `{Env}.
Context (testing : bool) (opts : list opt) (ls : list list_line) (gethostbyname : list Z -> option Z).

(** What the command line must lead to: a configuration, or the end of the program. *)
Definition command_outcome (r : option bt_config_t) : Prop :=
  let chunkf := last_arg 102 opts (preset_chunks testing) in
  let hasf := last_arg 99 opts (preset_has testing) in
  let me_arg := last_arg 105 opts (preset_me testing) in
  let me := s16 (atoi me_arg) in
  match r with
  | Some c =>
    configured c chunkf hasf (last_arg 112 opts default_nodes) (last_arg 109 opts []) me_arg
      (if has_opt 110 opts then 1 else 0) (reverse (omap (line_node gethostbyname) ls)) /\
    me <> 0 /\ chunkf <> [] /\ hasf <> [] /\
    exists pre host post, ls = pre ++ node_line me host (cfg_myport c) :: post /\ Forall (fun l => ~ names me l) post
  | None => me = 0 \/ Forall (fun l => ~ names me l) ls \/ chunkf = [] \/ hasf = []
  end.

Lemma bt_parse_command_line_spec fopen c0 w (Q : option bt_config_t -> World -> Prop) :
  start_config testing = Some c0 -> Forall opt_ok opts ->
  fopen (last_arg 112 opts default_nodes) = Some (mjoin (print_list_line <$> ls)) ->
  Forall list_line_ok ls -> Forall (resolves gethostbyname) ls -> (forall n, malloc_ok n = true) ->
  (forall r w', command_outcome r -> psvr w' = psvr w -> out w' = out w -> Q r w') ->
  wp (bt_parse_command_line opts fopen gethostbyname c0) Q w.
Proof.
  intros Hinit Hopts Hfile Hls Hres Hmalloc HQ.
  destruct (start_config_configured testing) as (c0' & E0 & Hc0). rewrite Hinit in E0. injection E0 as <-.
  unfold bt_parse_command_line. wp_go. eapply getopt_loop_configures; [exact Hopts|exact Hc0|].
  intros c [H1 H2 H3 H4 H5 H6 H7]. cbv iota. wp_go.
  destruct H3 as (H3a & H3b & H3c). apply (bt_parse_peer_list_reads _ Hmalloc _ _ ls); [by rewrite H3c|done|done|].
  intros w' Ew Eo. cbv iota. wp_go.
  assert (forall r, command_outcome r -> Q r w') as HQ' by (intros r Hr; by apply HQ). clear HQ.
  unfold command_outcome in HQ'.
  set (chunkf := last_arg 102 opts (preset_chunks testing)) in *. set (hasf := last_arg 99 opts (preset_has testing)) in *.
  set (me := s16 (atoi (last_arg 105 opts (preset_me testing)))) in *.
  set (nodes := reverse (omap (line_node gethostbyname) ls)) in *.
  assert (cfg_peers c = []) as -> by done. rewrite app_nil_r.
  change (cfg_identity (c .{ cfg_peers := nodes })) with (cfg_identity c).
  change (cfg_peers (c .{ cfg_peers := nodes })) with nodes. rewrite H5.
  fold me.
  destruct (Z.eqb_spec me 0) as [E0|Hme]; [wp_go; apply HQ'; by left|].
  pose proof (own_node gethostbyname me ls Hres) as Hown. fold nodes in Hown.
  destruct (bt_peer_info nodes me) as [p|]; [|wp_go; apply HQ'; by right; left].
  destruct H1 as (H1a & H1b & H1c), H2 as (H2a & H2b & H2c).
  match goal with |- context [if ?b then _ else _] => change b with
    ((zlen (cstr (cfg_chunk_file c)) =? 0) || (zlen (cstr (cfg_has_chunk_file c)) =? 0)) end.
  rewrite H1c, H2c.
  assert (forall s : list Z, (zlen s =? 0) = true -> s = []) as Hnil by (by intros [|x s]; [|intros ?%Z.eqb_eq]).
  destruct (_ || _) eqn:Enil; wp_go; apply HQ'.
  { apply orb_true_iff in Enil as [E%Hnil|E%Hnil]; auto. }
  apply orb_false_iff in Enil as [Ec Eh].
  destruct Hown as (pre & host & port & post & -> & Ep & Hpost).
  split; [by split|]. split; [done|]. split; [by intros E; rewrite E in Ec|]. split; [by intros E; rewrite E in Eh|].
  exists pre, host, post. split; [|done]. do 2 f_equal. f_equal.
  apply Forall_app in Hls as [_ Hls]. apply Forall_cons in Hls as [[_ (_ & Hpt & _)] _].
  simpl in Ep. destruct (gethostbyname host); [|done]. injection Ep as <-. symmetry. exact (swap_swap 2 port Hpt).
Qed.
End Configure.

(** ** Properties *)


