(* ===== verification/Spiffy.v ===== *)
(** * Spiffy: the network simulator's shim (spiffy.c, include/spiffy.h)

    When a router is configured, every datagram travels to it behind a header that
    names its source and destination; [spiffy_recvfrom] removes the header again.
    The socket calls are arguments: what [sendto] returns, what [recvfrom] delivers. *)

From S2P Require Import Prelude Sha Chunk ChunkList Machine Packet UserInput CommandLine.

(** ** The header *)

Record spiffy_header := { sh_ID : Z; lSrcAddr : Z; lDestAddr : Z; lSrcPort : Z; lDestPort : Z }.
Definition sizeof_header : Z := 16.

(** The bytes of the header in memory, and back: [int] and [short] fields. *)
Definition header_bytes (h : spiffy_header) : list Z :=
  store_le 4 (u32 (sh_ID h)) ++ store_le 4 (u32 (lSrcAddr h)) ++ store_le 4 (u32 (lDestAddr h)) ++
  store_le 2 (u16 (lSrcPort h)) ++ store_le 2 (u16 (lDestPort h)).
Definition header_of (b : list Z) : spiffy_header :=
  let field off n := load_le (take n (drop off b)) in
  {| sh_ID := s32 (field 0%nat 4%nat); lSrcAddr := s32 (field 4%nat 4%nat); lDestAddr := s32 (field 8%nat 4%nat);
     lSrcPort := s16 (field 12%nat 2%nat); lDestPort := s16 (field 14%nat 2%nat) |}.

(** ** The state: the global variables of spiffy.c *)

Record spiffy := {
  glSrcAddr : Z; gsSrcPort : Z; giSpiffyEnabled : Z; glNodeID : Z; gsSpiffyRouter : sockaddr_in }.
#[export] Instance spiffy_settable : Settable spiffy := fun g => Build_spiffy
  (glSrcAddr g) (gsSrcPort g) (giSpiffyEnabled g) (glNodeID g) (gsSpiffyRouter g).
Definition spiffy_zero : spiffy :=
  {| glSrcAddr := 0; gsSrcPort := 0; giSpiffyEnabled := 0; glNodeID := 0;
     gsSpiffyRouter := {| sin_port := 0; s_addr := 0 |} |}.

Definition AF_INET : Z := 2.

(** ** The operations *)

(** [SPIFFY_ROUTER] is the value of the environment variable, without its final zero. *)
Definition spiffy_init (SPIFFY_ROUTER : option (list Z)) (inet_aton : list Z -> option Z) (lNodeID : Z)
    (addr : sockaddr_in) (g : spiffy) : option (Z * spiffy) :=
  match SPIFFY_ROUTER with
  | None => Some (1, g)
  | Some name =>
    cColon ← strchr 58 (name ++ [0]) 0;
    match cColon with
    | None => Some (-1, g)
    | Some c =>
      let port := htons (u16 (atoi (drop (Z.to_nat (c + 1)) name))) in
      let r := gsSpiffyRouter g in
      let g := g .{ gsSpiffyRouter := {| sin_port := port; s_addr := s_addr r |} } in
      match inet_aton (take (Z.to_nat c) name) with
      | None => Some (-1, g)
      | Some a =>
        let g := g .{ gsSpiffyRouter := {| sin_port := port; s_addr := a |} } .{ giSpiffyEnabled := 1 }
                   .{ glNodeID := lNodeID } .{ glSrcAddr := s_addr addr } .{ gsSrcPort := s16 (sin_port addr) } in
        Some (0, g)
      end
    end
  end.

(** The result is the value returned and the datagram handed to [sendto], if any,
    with its destination. [newbuf] is the fresh memory that [malloc] gives. *)
Definition spiffy_sendto (g : spiffy) (malloc : Z -> option (list Z)) (sendto : sockaddr_in -> list Z -> Z)
    (msg : list Z) (len : Z) (sa_family : Z) (to : sockaddr_in) : option (Z * option (sockaddr_in * list Z)) :=
  if 0 =? giSpiffyEnabled g then
    bytes ← zread msg 0 len;
    Some (sendto to bytes, Some (to, bytes))
  else
    match malloc (sizeof_header + len) with
    | None => Some (-1, None)
    | Some newbuf =>
      if sa_family =? AF_INET then
        let s_head := {| sh_ID := s32 (htonl (u32 (glNodeID g))); lSrcAddr := s32 (glSrcAddr g);
                         lDestAddr := s32 (s_addr to); lSrcPort := gsSrcPort g; lDestPort := s16 (sin_port to) |} in
        bytes ← zread msg 0 len;
        newbuf ← zwrite newbuf sizeof_header bytes;
        newbuf ← zwrite newbuf 0 (header_bytes s_head);
        let dg := take (Z.to_nat (len + sizeof_header)) newbuf in
        let retVal := s32 (sendto (gsSpiffyRouter g) dg) in
        let retVal := if retVal >? 0 then s32 (u64 (retVal - sizeof_header)) else retVal in
        Some (retVal, Some (gsSpiffyRouter g, dg))
      else Some (-1, None)
    end.

(** [recvfrom] delivers a datagram with its source, of which it stores what fits, or
    fails; the result is the value returned, the buffer and the source address. *)
Definition spiffy_recvfrom (g : spiffy) (malloc : Z -> option (list Z)) (recvfrom : option (list Z * sockaddr_in))
    (buf : list Z) (size : Z) (addr : sockaddr_in) : option (Z * list Z * sockaddr_in) :=
  if giSpiffyEnabled g =? 0 then
    match recvfrom with
    | None => Some (-1, buf, addr)
    | Some (dg, from) =>
      let dg := take (Z.to_nat size) dg in
      buf ← zwrite buf 0 dg;
      Some (zlen dg, buf, from)
    end
  else
    match malloc (size + sizeof_header) with
    | None => Some (-1, buf, addr)
    | Some newbuf =>
      match recvfrom with
      | None => Some (-1, buf, addr)
      | Some (dg, _) =>
        let dg := take (Z.to_nat (size + sizeof_header)) dg in
        newbuf ← zwrite newbuf 0 dg;
        let retVal := s32 (zlen dg) in
        if retVal >? 0 then
          head ← zread newbuf 0 sizeof_header;
          let s_head := header_of head in
          data ← zread newbuf sizeof_header size;
          buf ← zwrite buf 0 data;
          Some (s32 (u64 (retVal - sizeof_header)), buf,
                {| sin_port := u16 (lSrcPort s_head); s_addr := u32 (lSrcAddr s_head) |})
        else Some (retVal, buf, addr)
      end
    end.

(** ** The header travels unchanged *)

Record header_ok (h : spiffy_header) : Prop := {
  ho_id : - 2 ^ 31 <= sh_ID h < 2 ^ 31;
  ho_src : - 2 ^ 31 <= lSrcAddr h < 2 ^ 31;
  ho_dest : - 2 ^ 31 <= lDestAddr h < 2 ^ 31;
  ho_sport : - 2 ^ 15 <= lSrcPort h < 2 ^ 15;
  ho_dport : - 2 ^ 15 <= lDestPort h < 2 ^ 15 }.

Lemma header_bytes_length h : length (header_bytes h) = 16%nat.
Proof. unfold header_bytes. by rewrite !length_app, !store_le_length. Qed.

(** Taking a field out of consecutive fields. *)
Lemma field_here (n : nat) x r : 0 <= x < 2 ^ (8 * Z.of_nat n) ->
  load_le (take n (drop 0 (store_le n x ++ r))) = x.
Proof.
  intros Hx. rewrite drop_0, take_app_le, take_ge by (rewrite store_le_length; lia). by apply load_store_small.
Qed.
Lemma field_next (k n off : nat) x r :
  load_le (take n (drop (k + off) (store_le k x ++ r))) = load_le (take n (drop off r)).
Proof. do 2 f_equal. rewrite <- (store_le_length k x) at 1. apply drop_app_add. Qed.

Lemma header_of_bytes h r : header_ok h -> header_of (header_bytes h ++ r) = h.
Proof.
  intros [H1 H2 H3 H4 H5]. unfold header_of, header_bytes. rewrite <- !app_assoc.
  assert (forall x, 0 <= u32 x < 2 ^ (8 * Z.of_nat 4)) as U4 by (intros x; apply Z.mod_pos_bound; lia).
  assert (forall x, 0 <= u16 x < 2 ^ (8 * Z.of_nat 2)) as U2 by (intros x; apply Z.mod_pos_bound; lia).
  change (drop 4 ?l) with (drop (4 + 0) l). change (drop 8 ?l) with (drop (4 + (4 + 0)) l).
  change (drop 12 ?l) with (drop (4 + (4 + (4 + 0))) l). change (drop 14 ?l) with (drop (4 + (4 + (4 + (2 + 0)))) l).
  rewrite !field_next, !field_here by done.
  rewrite !s32_u32, !s16_u16 by done. by destruct h.
Qed.

(** ** What [malloc] and the sockets are expected to do *)

Definition memory (malloc : Z -> option (list Z)) : Prop := forall n, 0 <= n -> exists b, malloc n = Some b /\ zlen b = n.
Definition addr_ok (a : sockaddr_in) : Prop := 0 <= sin_port a < 2 ^ 16 /\ 0 <= s_addr a < 2 ^ 32.

(** A router is in use, and the socket is bound to [src]. *)
Definition spiffy_bound (g : spiffy) (src : sockaddr_in) : Prop :=
  giSpiffyEnabled g <> 0 /\ glSrcAddr g = s_addr src /\ gsSrcPort g = s16 (sin_port src).

Lemma spiffy_init_bound router inet_aton id src g0 g :
  spiffy_init router inet_aton id src g0 = Some (0, g) -> spiffy_bound g src.
Proof.
  unfold spiffy_init. destruct router as [name|]; [|discriminate].
  destruct (strchr 58 (name ++ [0]) 0) as [[c|]|]; [|discriminate|discriminate].
  rewrite option_bind_Some. destruct (inet_aton _) as [a|]; [|discriminate]. intros [= <-]. by split_and!.
Qed.

Definition sent_header (g : spiffy) (to : sockaddr_in) : spiffy_header :=
  {| sh_ID := s32 (htonl (u32 (glNodeID g))); lSrcAddr := s32 (glSrcAddr g); lDestAddr := s32 (s_addr to);
     lSrcPort := gsSrcPort g; lDestPort := s16 (sin_port to) |}.

Lemma sent_header_ok g src to : spiffy_bound g src -> header_ok (sent_header g to).
Proof. intros (_ & _ & E). split; cbn; rewrite ?E; apply s32_range || apply s16_range. Qed.

Lemma zwrite_at (l src : list Z) off : 0 <= off -> off + zlen src = zlen l ->
  zwrite l off src = Some (take (Z.to_nat off) l ++ src).
Proof.
  intros H1 H2. unfold zwrite. rewrite decide_True by lia. rewrite (drop_ge l) by lia. by rewrite app_nil_r.
Qed.

Lemma zwrite_front (l src : list Z) : zlen src <= zlen l -> zwrite l 0 src = Some (src ++ drop (length src) l).
Proof. intros Hs. unfold zwrite. rewrite decide_True by lia. done. Qed.

(** The datagram on the wire is the header and the message. *)
Lemma spiffy_sendto_spec g malloc sendto msg len src to :
  spiffy_bound g src -> memory malloc -> 0 <= len <= zlen msg ->
  spiffy_sendto g malloc sendto msg len AF_INET to =
    let dg := header_bytes (sent_header g to) ++ take (Z.to_nat len) msg in
    let r := s32 (sendto (gsSpiffyRouter g) dg) in
    Some (if r >? 0 then s32 (u64 (r - sizeof_header)) else r, Some (gsSpiffyRouter g, dg)).
Proof.
  intros (Hen & _ & _) Hmem Hlen. unfold spiffy_sendto. rewrite (proj2 (Z.eqb_neq 0 _)) by congruence.
  change sizeof_header with 16. destruct (Hmem (16 + len)) as (nb & -> & Hnb); [lia|].
  change (AF_INET =? AF_INET) with true. cbv iota.
  unfold zread. rewrite decide_True by lia. rewrite option_bind_Some. change (drop (Z.to_nat 0) msg) with msg.
  assert (zlen (take (Z.to_nat len) msg) = len) as Ht by (rewrite length_take; lia).
  rewrite zwrite_at by lia. rewrite option_bind_Some.
  assert (length (take (Z.to_nat 16) nb) = 16%nat) as Htn by (rewrite length_take; lia).
  fold (sent_header g to). pose proof (header_bytes_length (sent_header g to)) as Hh.
  rewrite zwrite_front by (rewrite length_app, Hh, Htn; lia). rewrite option_bind_Some, Hh, <- Htn, drop_app_length.
  rewrite take_ge by (rewrite length_app, Hh; lia). done.
Qed.

(** A datagram of the router arrives without its header, from the address in it. *)
Lemma spiffy_recvfrom_spec g malloc h payload from buf size addr :
  giSpiffyEnabled g <> 0 -> memory malloc -> header_ok h ->
  zlen payload <= size -> size <= zlen buf -> zlen payload + 16 < 2 ^ 31 ->
  exists buf', spiffy_recvfrom g malloc (Some (header_bytes h ++ payload, from)) buf size addr =
    Some (zlen payload, buf', {| sin_port := u16 (lSrcPort h); s_addr := u32 (lSrcAddr h) |}) /\
    zlen buf' = zlen buf /\ take (length payload) buf' = payload /\
    drop (Z.to_nat size) buf' = drop (Z.to_nat size) buf.
Proof.
  intros Hen Hmem Hh Hp Hb Hmax. unfold spiffy_recvfrom. rewrite (proj2 (Z.eqb_neq _ 0)) by done.
  change sizeof_header with 16. destruct (Hmem (size + 16)) as (nb & -> & Hnb); [lia|].
  pose proof (header_bytes_length h) as Hhl.
  assert (zlen (header_bytes h ++ payload) = zlen payload + 16) as Hl by (rewrite length_app, Hhl; lia).
  rewrite take_ge by lia. rewrite zwrite_front by lia. rewrite option_bind_Some, Hl, s32_small by lia.
  destruct (Z.gtb_spec (zlen payload + 16) 0); [|lia].
  unfold zread. rewrite !decide_True by (rewrite length_app, length_drop; lia).
  rewrite option_bind_Some. change (drop (Z.to_nat 0) ?l) with l. change (Z.to_nat 16) with 16%nat.
  rewrite <- app_assoc, take_app_le, take_ge, option_bind_Some by lia.
  assert (header_of (header_bytes h) = h) as -> by (rewrite <- (app_nil_r (header_bytes h)); by apply header_of_bytes).
  assert (forall l, drop 16 (header_bytes h ++ l) = l) as -> by (intros l; rewrite <- Hhl; apply drop_app_length).
  set (tl := drop _ nb).
  assert (zlen (take (Z.to_nat size) (payload ++ tl)) = size) as Hd.
  { unfold tl. rewrite length_take, length_app, length_drop. lia. }
  rewrite zwrite_front, option_bind_Some by lia. eexists. split; [|split; [|split]].
  - do 3 f_equal. rewrite u64_small, s32_small by lia. lia.
  - rewrite length_app, length_drop. lia.
  - rewrite take_app_le by lia. rewrite take_take, Nat.min_l by lia. by rewrite take_app_length.
  - rewrite drop_app_ge by lia. rewrite drop_drop. f_equal. lia.
Qed.

(** ** Properties *)

(** C31: what one host sends through the router another receives: the message, its
    length and the address of the sender, whatever the buffers held before; the header
    on the wire names the destination. *)
Theorem spiffy_roundtrip (router : option (list Z)) (inet_aton : list Z -> option Z) (id : Z) (src to : sockaddr_in)
    (g0 g g' : spiffy) (malloc : Z -> option (list Z)) (sendto : sockaddr_in -> list Z -> Z)
    (msg : list Z) (from addr : sockaddr_in) (buf : list Z) :
  spiffy_init router inet_aton id src g0 = Some (0, g) -> addr_ok src -> addr_ok to -> giSpiffyEnabled g' <> 0 ->
  memory malloc -> (forall a dg, sendto a dg = zlen dg) ->
  zlen msg <= zlen buf -> zlen msg + 16 < 2 ^ 31 ->
  exists dg buf', spiffy_sendto g malloc sendto msg (zlen msg) AF_INET to = Some (zlen msg, Some (gsSpiffyRouter g, dg)) /\
    spiffy_recvfrom g' malloc (Some (dg, from)) buf (zlen buf) addr = Some (zlen msg, buf', src) /\
    zlen buf' = zlen buf /\ take (length msg) buf' = msg /\
    u32 (lDestAddr (header_of dg)) = s_addr to /\ u16 (lDestPort (header_of dg)) = sin_port to.
Proof.
  intros Hinit [Hsp Hsa] [Htp Hta] Hen Hmem Hsend Hbuf Hmax. apply spiffy_init_bound in Hinit as Hb.
  rewrite (spiffy_sendto_spec _ _ _ _ _ src) by (done || lia). cbv zeta. rewrite Hsend, Nat2Z.id, take_ge by lia.
  pose proof (sent_header_ok g src to Hb) as Hh. set (h := sent_header g to) in *.
  destruct (spiffy_recvfrom_spec g' malloc h msg from buf (zlen buf) addr) as (buf' & E & Hl & Ht & _); [done..|lia|lia|].
  exists (header_bytes h ++ msg), buf'. split; [|split; [|split; [done|split; [done|]]]].
  - do 2 f_equal. rewrite length_app, header_bytes_length. change sizeof_header with 16.
    rewrite s32_small by lia. destruct (Z.gtb_spec (Z.of_nat (16 + length msg)) 0); [|lia].
    rewrite u64_small, s32_small by lia. lia.
  - rewrite E. do 2 f_equal. unfold h, sent_header. cbn [lSrcPort lSrcAddr].
    destruct Hb as (_ & -> & ->). rewrite u16_s16, u32_s32 by done. by destruct src.
  - rewrite header_of_bytes by done. unfold h, sent_header. cbn [lDestAddr lDestPort].
    split; [by apply u32_s32|by apply u16_s16].
Qed.

(** A datagram of the router that is too short for the header is not refused: the value
    returned is negative, and the address is made of memory that was never written. *)
Lemma spiffy_short_datagram g malloc dg from buf size addr :
  giSpiffyEnabled g <> 0 -> memory malloc -> 0 < zlen dg < 16 -> 0 <= size <= zlen buf ->
  exists buf' a, spiffy_recvfrom g malloc (Some (dg, from)) buf size addr = Some (zlen dg - 16, buf', a) /\ zlen dg - 16 < 0.
Proof.
  intros Hen Hmem Hdg Hb. unfold spiffy_recvfrom. rewrite (proj2 (Z.eqb_neq _ 0)) by done.
  change sizeof_header with 16. destruct (Hmem (size + 16)) as (nb & -> & Hnb); [lia|].
  rewrite take_ge by lia. rewrite zwrite_front by lia. rewrite option_bind_Some, s32_small by lia.
  destruct (Z.gtb_spec (zlen dg) 0); [|lia].
  unfold zread. rewrite !decide_True by (rewrite length_app, length_drop; lia).
  rewrite !option_bind_Some. rewrite zwrite_front, option_bind_Some.
  2: { rewrite length_take, length_drop, length_app, length_drop. lia. }
  eexists _, _. split; [|lia]. do 3 f_equal. unfold u64, s32. Z.div_mod_to_equations. lia.
Qed.

(** Node 3 at 127.0.0.1 sends three bytes to port 80. *)
Lemma spiffy_roundtrip_witness :
  exists g dg buf',
    spiffy_init (Some [49; 58; 57]) (fun _ => Some 1) 3 {| sin_port := 2048; s_addr := 16777343 |} spiffy_zero = Some (0, g) /\
    spiffy_sendto g (fun n => Some (zeros n)) (fun _ dg => zlen dg) [7; 8; 9] 3 AF_INET {| sin_port := 80; s_addr := 1 |}
      = Some (3, Some (gsSpiffyRouter g, dg)) /\ take 3 buf' = [7; 8; 9].
Proof.
  set (g := {| glSrcAddr := 16777343; gsSrcPort := 2048; giSpiffyEnabled := 1; glNodeID := 3;
    gsSpiffyRouter := {| sin_port := htons 9; s_addr := 1 |} |}). exists g.
  assert (spiffy_init (Some [49; 58; 57]) (fun _ => Some 1) 3 {| sin_port := 2048; s_addr := 16777343 |} spiffy_zero
    = Some (0, g)) as E0 by (vm_compute; reflexivity).
  destruct (spiffy_roundtrip (Some [49; 58; 57]) (fun _ => Some 1) 3 {| sin_port := 2048; s_addr := 16777343 |}
    {| sin_port := 80; s_addr := 1 |} spiffy_zero g g (fun n => Some (zeros n)) (fun _ dg => zlen dg) [7; 8; 9]
    {| sin_port := 0; s_addr := 0 |} {| sin_port := 0; s_addr := 0 |} (zeros 10)) as (dg & buf' & Es & _ & _ & E & _).
  - exact E0.
  - split; simpl; lia.
  - split; simpl; lia.
  - discriminate.
  - intros n Hn. exists (zeros n). split; [reflexivity|]. unfold zeros. rewrite length_replicate. lia.
  - reflexivity.
  - unfold zeros. simpl. lia.
  - simpl. lia.
  - exists dg, buf'. split; [exact E0|]. split; [exact Es|exact E].
Defined.
