(* ===== verification/PeerInit.v ===== *)
(** * PeerInit: starting the server (peer_init and readString of peer_server.c)

    [peer_init] reads the configuration files once. From zeroed memory it reaches a
    state that satisfies [server_inv], from which the main loop is safe. *)

From S2P Require Import Prelude RecvWin LinkedList Sha Chunk ChunkList Machine Util Packet Sending Hashes.
From S2P Require Import Upload Download SendHelper PeerServer ParsePacket ServerInv CommandLine.

(** ** The code *)

Definition BUFFER : Z := 256.

Section Code.
Context `{Env}.

(** The loop of [readString] from [pos], on the unread bytes of the file. At the end
    of the file [fgetc] gives -1, which is stored as a character. The result of
    [realloc] is not kept: after it the string is written through a dead pointer. *)
Fixpoint read_string_loop (n : nat) (pos : Z) (inp str : list Z) : M (option (list Z)) :=
  match n with
  | O => lift None
  | S n' =>
    let c := match inp with [] => u8 (-1) | c :: _ => c end in
    str <- lift (zset str pos c) ;;
    if c =? 10 then
      str <- lift (zset str pos 0) ;; ret (Some str)
    else if pos mod BUFFER =? BUFFER - 1 then
      ok <- ask malloc_ok ;;
      if ok : bool then lift None else ret None
    else read_string_loop n' (pos + 1) (tail inp) str
  end.
Definition readString (inp : list Z) : M (option (list Z)) :=
  b <- ask stack ;;
  ok <- ask malloc_ok ;;
  if negb ok then lift None else
  read_string_loop (Z.to_nat BUFFER) 0 inp (u8 <$> resize (Z.to_nat BUFFER) 0 b).

(** [fscanf(fp, "File:%*c")]: the bytes left. *)
Fixpoint skip_literal (lit inp : list Z) : list Z :=
  match lit, inp with
  | [], _ => tail inp
  | c :: lit', d :: inp' => if c =? d then skip_literal lit' inp' else inp
  | _ :: _, [] => []
  end.
Definition skip_File (inp : list Z) : list Z := skip_literal [70; 105; 108; 101; 58] inp.

(** [config] is a field of [psvr]; of its fields the model of [psvr] has [no_output].
    The master chunk file is only opened: its bytes are read by [mmap]. *)
Definition peer_init (fopen : list Z -> option (list Z)) (config : bt_config_t) : M Z :=
  now <- get_timestamp_now ;;
  modify (fun s => s .{ start_ts := now }) ;;;
  if 0 =? now then ret (-1) else
  pl <- gets peerlist ;;
  pl <- lift (init_peerlist pl (cfg_peers config) (cfg_identity config)) ;;
  modify (fun s => s .{ peerlist := pl }) ;;;
  match fopen (cstr (cfg_chunk_file config)) with
  | None => ret (-1)
  | Some master =>
    str <- readString (skip_File master) ;;
    match str with
    | None => ret (-1)
    | Some file_str =>
      match fopen (cstr file_str) with
      | None => ret (-1)
      | Some _ =>
        no_out <- gets no_output ;;
        out_ok <- (if no_out : bool then ret true else ask open_ok) ;;
        if negb out_ok then ret (-1) else
        has <- gets haschunks ;;
        r <- lift (parse_chunk has (fopen (cstr (cfg_has_chunk_file config)))) ;;
        modify (fun s => s .{ haschunks := snd r }) ;;;
        if fst r <? 0 then ret (-1) else
        modify (fun s => s .{ getchunks := (getchunks s) .{ cl_count := 0 } }
                           .{ max_conn := cfg_max_conn config } .{ dl_num := 0 }
                           .{ dl_remain := 0 } .{ ul_num := 0 }) ;;;
        ret 0
      end
    end
  end.
End Code.

(** The zeroed [psvr] of the start of the program. *)
Definition peer_zero : Peer :=
  {| p_id := 0; addr := {| sin_port := 0; s_addr := 0 |};
     hasqueue := {| ll_heap := ∅; ll_cnt := 0; ll_brk := 1 |};
     is_alive := false; is_downloading := false; dl := dl_zero; is_uploading := false; ul := ul_zero |}.
Definition server_zero (no_out : bool) : PeerServer :=
  {| sock := 0; no_output := no_out; start_ts := 0;
     peerlist := {| pl_count := 0; peers := replicate (Z.to_nat MAX_PEER_NUM) peer_zero |};
     haschunks := zero_list; getchunks := zero_list; ihavechunks := zero_list;
     max_conn := 0; dl_num := 0; ul_num := 0; dl_remain := 0;
     dl_filename := zeros BT_FILENAME_LEN; getchunk_file := zeros BT_FILENAME_LEN; last_whohas := 0 |}.

Lemma server_zero_peers no_out : zlen (peers (peerlist (server_zero no_out))) = MAX_PEER_NUM.
Proof.
  change (peers (peerlist (server_zero no_out))) with (replicate (Z.to_nat MAX_PEER_NUM) peer_zero).
  rewrite length_replicate. by apply Z2Nat.id.
Qed.

(** ** The list of peers *)

Definition others (selfid : Z) (ps : list bt_peer_t) : list bt_peer_t :=
  filter (fun p => bp_id p <> selfid) ps.

(** A peer that was initialised from a node. *)
Definition fresh_peer (b : bt_peer_t) (p : Peer) : Prop :=
  p_id p = bp_id b /\ addr p = bp_addr b /\ is_alive p = false /\ is_downloading p = false /\
  is_uploading p = false /\ ll_rep (hasqueue p) [].

Lemma init_linkedlist_rep (ll : Linlist ChunkLine) :
  ll_heap ll = ∅ -> head_loc < ll_brk ll -> ll_rep (init_linkedlist ll) [].
Proof.
  intros Hh Hb. unfold init_linkedlist. split_and!; simpl; try done.
  - unfold nx, pv. simpl. rewrite Hh. by rewrite !lookup_insert_eq.
  - constructor; [by apply not_elem_of_nil|constructor].
  - intros l. rewrite Hh. rewrite lookup_insert_is_Some, lookup_empty. unfold head_loc in *.
    intros [<-|[_ [? ?]]]; [lia|done].
Qed.

Lemma init_peerlist_loop_spec ps selfid : forall i (arr : list Peer),
  0 <= i -> i + zlen (others selfid ps) <= zlen arr ->
  (forall j p, i <= j -> zget arr j = Some p -> p = peer_zero) ->
  exists arr', init_peerlist_loop ps selfid i arr = Some (i + zlen (others selfid ps), arr') /\
    zlen arr' = zlen arr /\
    (forall j, j < i -> zget arr' j = zget arr j) /\
    (forall k b, others selfid ps !! k = Some b ->
       exists p, zget arr' (i + Z.of_nat k) = Some p /\ fresh_peer b p).
Proof.
  induction ps as [|p ps IH]; intros i arr Hi Hn Hz; cbn [init_peerlist_loop].
  { exists arr. split_and!; [f_equal; f_equal; simpl; lia|done|done|]. by intros k b Hk. }
  unfold others in *. rewrite filter_cons in *. destruct (Z.eqb_spec (bp_id p) selfid) as [E|E].
  - rewrite decide_False in * by (by intros ?). by apply IH.
  - rewrite decide_True in * by done. cbn [length] in *.
    destruct (zget_is_Some arr i) as [q Hq]; [lia|]. rewrite Hq, option_bind_Some.
    assert (q = peer_zero) as -> by (apply (Hz i); [lia|done]).
    set (q' := init_peer _). destruct (zset_is_Some arr i q') as [arr1 E1]; [lia|].
    rewrite E1, option_bind_Some. pose proof (zset_length _ _ _ _ E1) as Hl1.
    destruct (IH (i + 1) arr1) as (arr' & -> & Hl & Hbelow & Hfresh); [lia|lia| |].
    { intros j x Hj Hx. rewrite (zget_zset_ne _ _ _ _ _ E1) in Hx by lia. apply (Hz j); [lia|done]. }
    exists arr'. split_and!; [f_equal; f_equal; lia|lia| |].
    + intros j Hj. rewrite Hbelow by lia. by rewrite (zget_zset_ne _ _ _ _ _ E1) by lia.
    + intros [|k] b Hb; [injection Hb as <-|].
      * exists q'. rewrite Z.add_0_r. split; [rewrite Hbelow by lia; by apply zget_zset_eq in E1|].
        split_and!; [done..|]. by apply init_linkedlist_rep.
      * destruct (Hfresh k b Hb) as (x & Hx & Hf). exists x. split; [|done].
        by replace (i + Z.of_nat (S k)) with (i + 1 + Z.of_nat k) by lia.
Qed.

(** ** The first line of the master chunk file *)

Section Specs.
Context `{Env}.

Lemma read_string_loop_spec x n : forall pos r str w (Q : option (list Z) -> World -> Prop),
  Forall (fun c => c <> 10) x -> 0 <= pos -> pos + Z.of_nat n = BUFFER -> zlen str = BUFFER ->
  (length x < n)%nat ->
  (forall str', zlen str' = BUFFER -> Q (Some str') w) ->
  wp (read_string_loop n pos (x ++ 10 :: r) str) Q w.
Proof.
  revert x. induction n as [|n IH]; intros x pos r str w Q Hx Hpos Hn Hs Hl HQ; [lia|].
  cbn [read_string_loop]. destruct x as [|c x].
  - cbn [app]. wp_go. destruct (zset_is_Some str pos 10) as [s1 E1]; [lia|]. eapply wp_lift; [exact E1|].
    pose proof (zset_length _ _ _ _ E1). change (10 =? 10) with true. cbv iota. wp_go.
    destruct (zset_is_Some s1 pos 0) as [s2 E2]; [lia|]. eapply wp_lift; [exact E2|]. wp_go.
    pose proof (zset_length _ _ _ _ E2). apply HQ. lia.
  - apply Forall_cons in Hx as [Hc Hx]. cbn [app tail]. wp_go.
    destruct (zset_is_Some str pos c) as [s1 E1]; [lia|]. eapply wp_lift; [exact E1|].
    pose proof (zset_length _ _ _ _ E1). destruct (Z.eqb_spec c 10); [done|]. cbn [length] in Hl.
    unfold BUFFER in *. rewrite Z.mod_small by lia. destruct (Z.eqb_spec pos (256 - 1)); [lia|].
    apply IH; [done|lia|lia|lia|lia|done].
Qed.

(** A master file as make-chunks users write it: the first line names the data. *)
Definition master_ok (f : list Z) : Prop :=
  exists x r, skip_File f = x ++ 10 :: r /\ Forall (fun c => c <> 10) x /\ zlen x < BUFFER.

Lemma readString_spec f w (Q : option (list Z) -> World -> Prop) :
  master_ok f -> (forall n, malloc_ok n = true) ->
  (forall r w', psvr w' = psvr w -> Q r w') -> wp (readString (skip_File f)) Q w.
Proof.
  intros (x & r & -> & Hx & Hl) Hm HQ. unfold readString. wp_go. apply wp_ask_any. intros bs. wp_go.
  apply wp_ask. rewrite Hm. cbn [negb]. apply read_string_loop_spec; [done|lia|done| |unfold BUFFER in *; lia|].
  - by rewrite length_fmap, length_resize.
  - intros str _. by apply HQ.
Qed.

(** ** The state after [peer_init] *)

Lemma zget_replicate {A} n (x y : A) i : zget (replicate n x) i = Some y -> y = x.
Proof. unfold zget. case_decide; [|done]. intros Hl%lookup_replicate. by destruct Hl as [-> _]. Qed.

Definition config_ok (fopen : list Z -> option (list Z)) (config : bt_config_t) : Prop :=
  zlen (others (cfg_identity config) (cfg_peers config)) <= MAX_PEER_NUM /\
  (forall f, fopen (cstr (cfg_chunk_file config)) = Some f -> master_ok f) /\
  (forall f, fopen (cstr (cfg_has_chunk_file config)) = Some f -> file_fits f).

(** The invariant of a server where nothing runs. *)
Lemma server_inv_idle s :
  0 <= pl_count (peerlist s) <= zlen (peers (peerlist s)) -> zlen (peers (peerlist s)) <= MAX_PEER_NUM ->
  (forall i p, peer_at s i p -> is_downloading p = false /\ is_uploading p = false /\ queue_ok (hasqueue p)) ->
  list_ok (haschunks s) -> list_ok (getchunks s) -> list_wf (ihavechunks s) ->
  name_ok (dl_filename s) /\ name_ok (getchunk_file s) -> dl_num s = 0 -> ul_num s = 0 -> server_inv s.
Proof.
  intros Hc Hx Hp ? ? ? ? Hd Hu.
  assert (forall f, (forall i p, peer_at s i p -> f p = false) -> running f s = 0) as Hrun.
  { intros f Hf. unfold running.
    destruct (filter _ _) as [|p l] eqn:E; [done|]. exfalso.
    assert (p ∈ p :: l) as Hp' by left. rewrite <- E in Hp'. apply list_elem_of_filter in Hp' as [Hp1 Hp2].
    apply list_elem_of_lookup in Hp2 as [k Hk]. apply lookup_take_Some in Hk as [Hk Hlt].
    rewrite (Hf (Z.of_nat k) p) in Hp1; [done|]. split; [|lia].
    unfold zget. rewrite decide_True by lia. by rewrite Nat2Z.id. }
  split.
  - split; try done. intros i p Hi. destruct (Hp i p Hi) as (E1 & E2 & Hq).
    split; [done|by rewrite E1|by rewrite E2].
  - split; [|lia]. rewrite Hrun; [done|]. intros i p Hi. by apply (Hp i p).
  - intros _. split; [|lia]. rewrite Hrun; [done|]. intros i p Hi. by apply (Hp i p).
Qed.

Lemma peer_init_inv fopen config no_out w (Q : Z -> World -> Prop) :
  config_ok fopen config -> (forall n, malloc_ok n = true) -> psvr w = server_zero no_out ->
  (forall r w', (r = 0 /\ server_inv (psvr w') /\ max_conn (psvr w') = cfg_max_conn config /\
       pl_count (peerlist (psvr w')) = zlen (others (cfg_identity config) (cfg_peers config)) \/ r = -1) ->
     Q r w') ->
  wp (peer_init fopen config) Q w.
Proof.
  intros (Hn & Hmaster & Hhas) Hmalloc Ew HQ. unfold peer_init. wp_go.
  apply (get_timestamp_now_spec (fun _ => False)). intros now w1 _ [Ew1 _]. wp_go.
  destruct (0 =? now); [wp_go; apply HQ; by right|]. wp_go.
  set (s1 := psvr (w1 .{ psvr := _ })). assert (s1 = (server_zero no_out) .{ start_ts := now }) as Es1.
  { unfold s1. simpl. by rewrite Ew1, Ew. }
  destruct (init_peerlist_loop_spec (cfg_peers config) (cfg_identity config) 0 (peers (peerlist s1)))
    as (arr & Earr & Hlarr & _ & Hfresh).
  { done. }
  { rewrite Es1. pose proof (server_zero_peers no_out) as El. change MAX_PEER_NUM with 1024 in *.
    change (peers (peerlist (_ .{ start_ts := now }))) with (peers (peerlist (server_zero no_out))). lia. }
  { intros j p _ Hj. rewrite Es1 in Hj. by apply zget_replicate in Hj. }
  assert (init_peerlist (peerlist s1) (cfg_peers config) (cfg_identity config) =
    Some {| pl_count := zlen (others (cfg_identity config) (cfg_peers config)); peers := arr |}) as Epl.
  { unfold init_peerlist. rewrite Earr, option_bind_Some. done. }
  eapply wp_lift; [exact Epl|]. wp_go.
  match goal with |- context [wp _ _ ?x] => set (w2 := x) end.
  assert (psvr w2 = (server_zero no_out) .{ start_ts := now }
    .{ peerlist := {| pl_count := zlen (others (cfg_identity config) (cfg_peers config)); peers := arr |} }) as Ew2.
  { unfold w2. simpl. by rewrite Ew1, Ew. }
  assert (zlen arr = MAX_PEER_NUM) as Hla by (rewrite Hlarr, Es1; apply (server_zero_peers no_out)).
  clearbody w2. clear s1 Es1 Hlarr Earr Epl.
  destruct (fopen (cstr (cfg_chunk_file config))) as [master|]; [|wp_go; apply HQ; by right]. wp_go.
  apply readString_spec; [by apply Hmaster|done|]. intros [file_str|] w3 Ew3; [|wp_go; apply HQ; by right].
  destruct (fopen (cstr file_str)) as [data|]; [|wp_go; apply HQ; by right].
  wp_go. apply (wp_mono _ (fun _ w4 => psvr w4 = psvr w3)).
  { destruct (no_output (psvr w3)); [by wp_go|]. by apply wp_ask_any. }
  intros out_ok w4 Ew4. destruct (negb out_ok); [wp_go; apply HQ; by right|]. wp_go.
  assert (list_ok (haschunks (psvr w4))) as Hhok by (rewrite Ew4, Ew3, Ew2; apply zero_list_ok).
  destruct (parse_chunk_ok _ (fopen (cstr (cfg_has_chunk_file config))) Hhok Hhas) as (r & cl & E & Hcl & _).
  eapply wp_lift; [exact E|]. wp_go. cbn [fst snd]. destruct (r <? 0); [wp_go; apply HQ; by right|]. wp_go.
  apply HQ. left. split; [done|]. simpl. rewrite Ew4, Ew3, Ew2. split; [|done].
  assert (forall n, 0 < n -> 0 ∈ zeros n) as Hz0.
  { intros n Hn0. unfold zeros. apply elem_of_replicate. split; [done|lia]. }
  apply server_inv_idle; simpl; try done; try (by apply zero_list_wf); try (by apply zero_list_ok).
  - lia.
  - lia.
  - intros i p [Hp Hi]. simpl in *.
    destruct (lookup_lt_is_Some_2 (others (cfg_identity config) (cfg_peers config)) (Z.to_nat i)) as [b Hb]; [lia|].
    destruct (Hfresh _ _ Hb) as (p' & Hp' & _ & _ & _ & Hd & Hu & Hq).
    rewrite Z2Nat.id, Z.add_0_l in Hp' by lia. rewrite Hp in Hp'. injection Hp' as <-.
    split_and!; [done|done|]. by exists [].
  - split; (split; [unfold name_ok, zeros; by rewrite length_replicate|by apply Hz0]).
Qed.
End Specs.

(** ** A small server where nothing runs, as the examples of the next files use it *)

Definition sample_idle : PeerServer :=
  sample_server .{ dl_filename := zeros BT_FILENAME_LEN } .{ getchunk_file := zeros BT_FILENAME_LEN }.

Lemma zeros_name_ok : name_ok (zeros BT_FILENAME_LEN).
Proof. split; [done|]. unfold zeros. by apply elem_of_replicate. Qed.

Lemma sample_idle_inv : @server_inv sample_env sample_idle.
Proof.
  apply server_inv_idle; try apply zero_list_wf; try apply zero_list_ok; try done.
  - intros i p [Hp Hi]. change (peers (peerlist sample_idle)) with [sample_peer] in Hp.
    change (pl_count (peerlist sample_idle)) with 1 in Hi. replace i with 0 in Hp by lia.
    injection Hp as <-. split_and!; [done|done|]. exists []. split; [apply empty_ll_rep|constructor].
  - split; apply zeros_name_ok.
Qed.

Lemma sample_mmap : @mmap_ok sample_env.
Proof. intros n off. exists zero_chunk. split; [done|apply zero_chunk_length]. Qed.
