(* ===== verification/EventLoop.v ===== *)
(** * EventLoop: the server's main loop (peer_run of peer.c)

    A turn of the loop handles a datagram and what the user typed, if there are
    any, and then checks the timeouts. From a state that satisfies [server_inv] no
    turn has undefined behaviour, and every state the loop goes through satisfies
    it, so that its counters are exact and its limits are kept. *)

From S2P Require Import Prelude RecvWin LinkedList Sha Chunk ChunkList Machine Util Packet Sending Hashes.
From S2P Require Import Upload Download SendHelper PeerServer ParsePacket ServerInv ServerOps ServerSafe Handlers UserInput CommandLine PeerInit.

(** ** The code *)

Section Code.
Context `{Env}.

(** What [select] reports at a turn: the datagram that [spiffy_recvfrom] returns,
    with its source, and the bytes that [read] returns. *)
Record turn := { t_udp : option (option (list Z) * sockaddr_in); t_stdin : option (option (list Z)) }.

(** The body of the [while(1)] loop, with the files of the host; [None] for [exit]. *)
Definition peer_run_body (fopen : list Z -> option (list Z)) (t : turn) (userbuf : user_iobuf)
    : M (option user_iobuf) :=
  match t_udp t with Some (dg, from) => process_inbound_udp dg from | None => ret tt end ;;;
  r <- match t_stdin t with
       | Some avail => process_user_input avail userbuf (handle_user_input fopen)
       | None => ret (Some userbuf)
       end ;;
  match r with
  | None => ret None
  | Some ub => check_all_timeout ;;; ret (Some ub)
  end.

(** The turns of a run, one for each element. *)
Fixpoint peer_run (fopen : list Z -> option (list Z)) (ts : list turn) (userbuf : user_iobuf)
    : M (option user_iobuf) :=
  match ts with
  | [] => ret (Some userbuf)
  | t :: ts' =>
    r <- peer_run_body fopen t userbuf ;;
    match r with None => ret None | Some ub => peer_run fopen ts' ub end
  end.
End Code.

(** ** Looking up the sender *)

Definition same_addr (p : Peer) (a : sockaddr_in) : Prop :=
  sin_port (addr p) = sin_port a /\ s_addr (addr p) = s_addr a.

Lemma addr2Index_loop_spec n a ps : forall i,
  0 <= i -> i + Z.of_nat n <= zlen ps ->
  exists r, addr2Index_loop n i ps a = Some r /\
    (r = -1 /\ (forall j p, i <= j < i + Z.of_nat n -> zget ps j = Some p -> ~ same_addr p a) \/
     i <= r < i + Z.of_nat n /\ (exists p, zget ps r = Some p /\ same_addr p a) /\
       forall j p, i <= j < r -> zget ps j = Some p -> ~ same_addr p a).
Proof.
  induction n as [|n IH]; intros i Hi Hn; cbn [addr2Index_loop].
  { exists (-1). split; [done|]. left. split; [done|]. intros; lia. }
  destruct (zget_is_Some ps i) as [p Hp]; [lia|]. rewrite Hp, option_bind_Some.
  destruct (_ && _) eqn:E.
  - apply andb_true_iff in E as [E1%Z.eqb_eq E2%Z.eqb_eq]. exists i. split; [done|]. right.
    split; [lia|]. split; [by exists p|]. intros; lia.
  - destruct (IH (i + 1)) as (r & Er & Hr); [lia|lia|]. exists r. split; [exact Er|].
    assert (forall j q, j = i -> zget ps j = Some q -> ~ same_addr q a) as Hnot.
    { intros j q -> Hq [E1 E2]. simplify_eq. rewrite E1, E2, !Z.eqb_refl in E. done. }
    destruct Hr as [[-> Hall]|(Hr & Hm & Hall)]; [left|right]; split_and!; try done; try lia;
      intros j q Hj; (destruct (decide (j = i)); [by apply Hnot|apply Hall; lia]).
Qed.

Section Safety.
Context `{Env}.

Lemma addr2Index_spec a w (Q : Z -> World -> Prop) :
  server_mem (psvr w) ->
  (forall r, (0 <= r -> exists p, peer_at (psvr w) r p /\ same_addr p a) -> Q r w) -> wp (addr2Index a) Q w.
Proof.
  intros Hm HQ. pose proof (sm_cnt _ Hm). unfold addr2Index. wp_go.
  destruct (addr2Index_loop_spec (Z.to_nat (pl_count (peerlist (psvr w)))) a (peers (peerlist (psvr w))) 0)
    as (r & Er & Hr); [lia|lia|].
  eapply wp_lift; [exact Er|]. apply HQ. intros Hr0.
  destruct Hr as [[-> _]|(Hr & (p & Hp & Ha) & _)]; [lia|]. exists p. split; [|done]. split; [done|lia].
Qed.

(** ** Packets and datagrams *)

Lemma parse_packet_inv pkt a w (Q : Z -> World -> Prop) :
  mmap_ok -> server_inv (psvr w) -> packet_valid pkt ->
  (forall r w', keeps w w' -> Q r w') -> wp (parse_packet pkt a) Q w.
Proof.
  intros Hmm Hs Hv HQ. unfold parse_packet. wp_go. apply addr2Index_spec; [apply Hs|]. intros i Hi.
  destruct (Z.ltb_spec i 0); [wp_go; by apply HQ, keeps_refl|]. destruct (Hi ltac:(lia)) as (p & Hp & _).
  destruct (Z.eqb_spec (type pkt) PACKET_TYPE_WHOHAS); [by eapply handle_WHOHAS_inv|].
  destruct (Z.eqb_spec (type pkt) PACKET_TYPE_IHAVE); [by eapply handle_IHAVE_inv|].
  destruct (Z.eqb_spec (type pkt) PACKET_TYPE_GET); [by eapply handle_GET_inv|].
  destruct (Z.eqb_spec (type pkt) PACKET_TYPE_DATA); [by eapply handle_DATA_inv|].
  destruct (Z.eqb_spec (type pkt) PACKET_TYPE_ACK); [by eapply handle_ACK_inv|].
  wp_go. by apply HQ, keeps_refl.
Qed.

Lemma u8_bytes l : Forall is_byte (u8 <$> l).
Proof. induction l; constructor; [apply u8_range|done]. Qed.

Lemma receive_datagram_spec dg w (Q : packet_t -> World -> Prop) :
  Forall is_byte dg ->
  (forall pkt w', packet_wf pkt -> payload_bytes pkt -> psvr w' = psvr w -> Q pkt w') ->
  wp (receive_datagram (Some dg)) Q w.
Proof.
  intros Hdg HQ. unfold receive_datagram. wp_go. apply wp_ask_any. intros bytes. wp_go.
  set (buf := u8 <$> resize (Z.to_nat BUFLEN) 0 bytes).
  assert (zlen buf = BUFLEN) as Hbuf by (unfold buf; by rewrite length_fmap, length_resize).
  assert (Forall is_byte buf) as Hbb by apply u8_bytes. clearbody buf.
  change (default [] (Some dg)) with dg. set (bs := take (Z.to_nat BUFLEN) dg).
  assert (zlen bs <= BUFLEN) as Hbs by (unfold bs; rewrite length_take; unfold BUFLEN; lia).
  assert (Forall is_byte bs) as Hbsb by (by apply Forall_take). clearbody bs.
  destruct (zwrite_is_Some buf 0 bs) as [buf' E]; [lia..|]. eapply wp_lift; [exact E|]. wp_go.
  apply (stack_packet_spec (fun _ => False)). intros pkt w1 Hraw Hem. pose proof (emits_psvr _ _ _ Hem) as Ew1.
  pose proof (zwrite_length _ _ _ _ E) as Hl. change BUFLEN with 1500 in *.
  destruct (DECODE_PKT_wf buf' pkt (zlen bs)) as (p & Ep & Hp1 & Hp2);
    [by eapply zwrite_Forall|done|lia|unfold PACKET_SIZE; lia|].
  eapply wp_lift; [exact Ep|]. by apply HQ.
Qed.

Lemma process_inbound_udp_inv dg a w (Q : unit -> World -> Prop) :
  mmap_ok -> server_inv (psvr w) -> Forall is_byte dg ->
  (forall w', keeps w w' -> Q tt w') -> wp (process_inbound_udp (Some dg) a) Q w.
Proof.
  intros Hmm Hs Hdg HQ. unfold process_inbound_udp. wp_go. apply receive_datagram_spec; [done|].
  intros pkt w1 Hwf _ Ew1. wp_go. destruct (valid_packet_spec pkt Hwf) as (b & Eb & Hb).
  eapply wp_lift; [exact Eb|]. wp_go. pose proof (keeps_same w w1 Hs Ew1) as Hk1.
  destruct b; [|wp_go; by apply HQ]. wp_go. apply parse_packet_inv; [done|apply Hk1|by apply Hb|].
  intros r w2 Hk2. wp_go. apply HQ. by eapply keeps_trans.
Qed.

(** ** Commands *)

Lemma strcpy_fits dst src :
  0 ∈ src -> zlen (cstr src) < zlen dst -> exists f, strcpy dst src = Some f /\ zlen f = zlen dst /\ 0 ∈ f.
Proof.
  intros H0 Hl. unfold strcpy. rewrite decide_True by done.
  destruct (zwrite_is_Some dst 0 (cstr src ++ [0])) as [f E]; [done|rewrite length_app; cbn [length]; lia|].
  exists f. split; [done|]. split; [by rewrite (zwrite_length _ _ _ _ E)|].
  unfold zwrite in E. case_decide; [|done]. injection E as <-. rewrite !elem_of_app. left. right. left.
Qed.

(** Well-formed chunk files. *)
Definition files_ok (fopen : list Z -> option (list Z)) : Prop :=
  forall name file, fopen name = Some file -> file_fits file.

Lemma process_get_inv cf outf file w (Q : unit -> World -> Prop) :
  server_inv (psvr w) -> 0 ∈ cf -> 0 ∈ outf -> (forall f, file = Some f -> file_fits f) ->
  (forall w', keeps w w' -> Q tt w') -> wp (process_get cf outf file) Q w.
Proof.
  intros Hs Hcf Hof Hfile HQ. unfold process_get. rewrite !Z.geb_leb.
  destruct (Z.leb_spec BT_FILENAME_LEN (zlen (cstr outf))); [wp_go; by apply HQ, keeps_refl|].
  destruct (Z.leb_spec BT_FILENAME_LEN (zlen (cstr cf))); [wp_go; by apply HQ, keeps_refl|]. wp_go. unfold id.
  destruct (sm_name _ (si_mem _ Hs)) as [[Hdl _] [Hgl _]].
  destruct (strcpy_fits (dl_filename (psvr w)) outf) as (df & Edf & Hdf); [done|lia|].
  destruct (strcpy_fits (getchunk_file (psvr w)) cf) as (gf & Egf & Hgf); [done|lia|].
  rewrite Hdl in Hdf. rewrite Hgl in Hgf.
  eapply wp_lift; [exact Edf|]. wp_go. eapply wp_lift; [exact Egf|]. wp_go.
  destruct (parse_chunk_ok (getchunks (psvr w)) file) as (r & cl & E & Hcl & _); [apply Hs|done|].
  eapply wp_lift; [exact E|]. wp_go. cbn [fst snd].
  match goal with |- context [wp _ _ ?x] => assert (keeps w x) as Hk; [|revert Hk; generalize x; intros w1 Hk] end.
  { split; [|done]. eapply server_inv_ext; [exact Hs|done..|apply Hs|done|apply Hs|done]. }
  destruct (r <? 0); [wp_go; by apply HQ|]. wp_go.
  match goal with |- context [wp _ _ ?x] => assert (keeps w x) as Hk2; [|revert Hk2; generalize x; intros w2 Hk2] end.
  { split; [|apply Hk]. pose proof (proj1 Hk) as Hs1. eapply server_inv_ext; [exact Hs1|done..|apply Hs1|apply Hs1|apply Hs1|apply Hs1]. }
  apply send_whohas_spec; [apply Hk2|]. intros evs w3 _ [Ew3 _]. wp_go.
  apply (get_timestamp_now_spec (fun _ => False)). intros now w4 _ [Ew4 _]. wp_go. apply HQ.
  pose proof (proj1 Hk2) as Hs2. eapply keeps_trans; [exact Hk2|].
  split; simpl; rewrite Ew4, Ew3; [|done]. eapply server_inv_ext; [exact Hs2|done..|apply Hs2|apply Hs2|apply Hs2|apply Hs2].
Qed.

(** The words that [sscanf] stores fit their buffers. *)
Lemma scan_word_fits inp w r : scan_word inp = Some (w, r) -> (length w <= 120)%nat.
Proof.
  unfold scan_word. destruct (skip_space inp) as [|c l]; [done|].
  destruct (span _ (take 120 (c :: l))) as [a b] eqn:E. apply span_split in E as [E _]. intros [= <- _].
  pose proof (f_equal length E) as El. rewrite length_take, length_app in El. cbn [fst]. lia.
Qed.

Lemma sscanf_GET_fits line r s1 s2 : sscanf_GET line = (r, s1, s2) ->
  (forall s, s1 = Some s -> (length s <= 120)%nat) /\ (forall s, s2 = Some s -> (length s <= 120)%nat).
Proof.
  unfold sscanf_GET. destruct (scan_literal _ _) as [k|inp]; [by intros [= <- <- <-]|].
  destruct (scan_word inp) as [[w1 inp1]|] eqn:E1; [|by intros [= <- <- <-]]. apply scan_word_fits in E1.
  destruct (scan_word inp1) as [[w2 inp2]|] eqn:E2; intros [= <- <- <-]; (split; [by intros s [= <-]|]).
  - apply scan_word_fits in E2. by intros s [= <-].
  - done.
Qed.

Lemma put_str_spec s : (forall x, s = Some x -> (length x <= 120)%nat) ->
  exists b, put_str (zeros 128) s = Some b /\ 0 ∈ b.
Proof.
  intros Hs. destruct s as [x|]; cbn [put_str].
  - specialize (Hs _ eq_refl).
    destruct (zwrite_is_Some (zeros 128) 0 (x ++ [0])) as [b E]; [done|rewrite length_app, zeros_length; cbn [length]; lia|].
    exists b. split; [done|]. unfold zwrite in E. case_decide; [|done]. injection E as <-.
    rewrite !elem_of_app. left. right. left.
  - eexists. split; [done|]. by left.
Qed.

Lemma handle_user_input_inv fopen line w (Q : unit -> World -> Prop) :
  server_inv (psvr w) -> files_ok fopen -> (forall w', keeps w w' -> Q tt w') ->
  wp (handle_user_input fopen line) Q w.
Proof.
  intros Hs Hf HQ. unfold handle_user_input. destruct (sscanf_GET line) as [[r s1] s2] eqn:E.
  destruct (sscanf_GET_fits _ _ _ _ E) as [H1 H2]. destruct (put_str_spec s1 H1) as (cf & E1 & H01).
  destruct (put_str_spec s2 H2) as (outf & E2 & H02). wp_go. eapply wp_lift; [exact E1|]. wp_go.
  eapply wp_lift; [exact E2|]. destruct (negb (r =? 0)); [|wp_go; by apply HQ, keeps_refl].
  destruct (_ >? 0); [|wp_go; by apply HQ, keeps_refl].
  apply process_get_inv; [done|done|done|by apply Hf|done].
Qed.

(** ** The loop *)

(** Datagrams are bytes, and [spiffy_recvfrom] does not fail. *)
Definition turn_ok (t : turn) : Prop :=
  match t_udp t with
  | Some (Some dg, _) => Forall is_byte dg
  | Some (None, _) => False
  | None => True
  end.

Lemma peer_run_body_inv fopen t ub w (Q : option user_iobuf -> World -> Prop) :
  mmap_ok -> files_ok fopen -> turn_ok t -> server_inv (psvr w) -> buf_ok ub ->
  (forall r w', keeps w w' -> (forall ub', r = Some ub' -> buf_ok ub') -> Q r w') ->
  wp (peer_run_body fopen t ub) Q w.
Proof.
  intros Hmm Hf Ht Hs Hub HQ. unfold peer_run_body. apply wp_bind. eapply (wp_mono _ (fun _ w1 => keeps w w1)).
  { unfold turn_ok in Ht. destruct (t_udp t) as [[[dg|] a]|]; [|done|].
    - by apply process_inbound_udp_inv.
    - wp_go. by apply keeps_refl. }
  intros _ w1 Hk1. apply wp_bind. eapply (wp_mono _ (fun r w2 => keeps w w2 /\ forall ub', r = Some ub' -> buf_ok ub')).
  { destruct (t_stdin t) as [avail|]; [|wp_go; split; [done|by intros ub' [= <-]]].
    apply (process_user_input_safe (keeps w)); [|done|done|done].
    intros b w2 Q' Hk2 _ HQ'. apply handle_user_input_inv; [apply Hk2|done|]. intros w3 Hk3. apply HQ'.
    by eapply keeps_trans. }
  intros r w2 [Hk2 Hr]. destruct r as [ub'|]; [|wp_go; by apply HQ].
  wp_go. apply check_all_timeout_inv; [apply Hk2|]. intros w3 Hk3. wp_go. apply HQ; [by eapply keeps_trans|].
  intros x [= <-]. by apply Hr.
Qed.

Lemma peer_run_inv fopen ts : forall ub w (Q : option user_iobuf -> World -> Prop),
  mmap_ok -> files_ok fopen -> Forall turn_ok ts -> server_inv (psvr w) -> buf_ok ub ->
  (forall r w', keeps w w' -> (forall ub', r = Some ub' -> buf_ok ub') -> Q r w') ->
  wp (peer_run fopen ts ub) Q w.
Proof.
  induction ts as [|t ts IH]; intros ub w Q Hmm Hf Hts Hs Hub HQ; cbn [peer_run].
  { wp_go. apply HQ; [by apply keeps_refl|]. by intros ub' [= <-]. }
  apply Forall_cons in Hts as [Ht Hts]. wp_go. apply peer_run_body_inv; [done..|]. intros r w1 Hk1 Hr.
  destruct r as [ub'|]; [|wp_go; by apply HQ].
  apply IH; [done..|apply Hk1|by apply Hr|]. intros r w2 Hk2 Hr2. apply HQ; [by eapply keeps_trans|done].
Qed.
End Safety.

(** ** Properties *)

(** Files which all hold ["File: a"]. *)
Definition sample_file : list Z := [70; 105; 108; 101; 58; 32; 97; 10].
Definition sample_fopen (name : list Z) : option (list Z) := Some sample_file.
(** A datagram that is too short and the command ["GET a b"], then silence. *)
Definition sample_turns : list turn :=
  [{| t_udp := Some (Some [60; 81; 1; 0], {| sin_port := 80; s_addr := 1 |});
      t_stdin := Some (Some [71; 69; 84; 32; 97; 32; 98; 10]) |};
   {| t_udp := None; t_stdin := None |}].

Lemma sample_file_fits : file_fits sample_file.
Proof. apply file_fits_word; [done|]. by repeat constructor. Qed.
Lemma sample_files_ok : files_ok sample_fopen.
Proof. intros name f [= <-]. exact sample_file_fits. Qed.

(** C11: at every turn of the main loop the counter of downloads is the number of peers
    being downloaded from and is at most the maximum of connections; with a working
    clock the same holds of uploads; so at most [max_conn] transfers run each way. *)
Theorem connection_limits `{Env} (fopen : list Z -> option (list Z)) (ts : list turn) (ub : user_iobuf) (w : World) :
  server_inv (psvr w) -> buf_ok ub -> files_ok fopen -> mmap_ok -> Forall turn_ok ts ->
  exists r w', peer_run fopen ts ub w = Some (r, w') /\
    dl_num (psvr w') = running is_downloading (psvr w') /\
    0 <= running is_downloading (psvr w') <= Z.max 0 (max_conn (psvr w)) /\
    (clock_ok -> ul_num (psvr w') = running is_uploading (psvr w') /\
       0 <= running is_uploading (psvr w') <= Z.max 0 (max_conn (psvr w))).
Proof.
  intros Hs Hub Hf Hmm Hts.
  assert (wp (peer_run fopen ts ub) (fun _ w' => keeps w w') w) as (r & w' & E & Hs' & _ & Hx & _)
    by (by apply peer_run_inv).
  exists r, w'. split; [exact E|]. destruct Hs' as [Hm' [Ed Hd] Hu]. pose proof (sm_cnt _ Hm').
  rewrite <- Hx. split; [done|]. split.
  - pose proof (running_range is_downloading (psvr w')). lia.
  - intros Hck. destruct (Hu Hck) as [Eu Hule]. split; [done|].
    pose proof (running_range is_uploading (psvr w')). lia.
Qed.

Lemma connection_limits_witness :
  exists r w', @peer_run sample_env sample_fopen sample_turns (ub_of []) {| psvr := sample_idle; tick := 0; out := [] |} = Some (r, w') /\
    dl_num (psvr w') = running is_downloading (psvr w') /\
    0 <= running is_downloading (psvr w') <= Z.max 0 (max_conn sample_idle) /\
    (@clock_ok sample_env -> ul_num (psvr w') = running is_uploading (psvr w') /\
       0 <= running is_uploading (psvr w') <= Z.max 0 (max_conn sample_idle)).
Proof.
  apply (@connection_limits sample_env sample_fopen sample_turns (ub_of []) {| psvr := sample_idle; tick := 0; out := [] |}).
  - exact sample_idle_inv.
  - split; [done|]. exists (zeros USERBUF_SIZE). by split.
  - exact sample_files_ok.
  - exact sample_mmap.
  - repeat constructor; unfold is_byte; lia.
Defined.
