(* ===== verification/Main.v ===== *)
(** * Main: the whole program (main and the start of peer_run, peer.c)

    [main] configures the peer from its command line, starts the server, opens its
    socket and runs the main loop. The files of the host are [fopen], its names
    [gethostbyname]; [socket] and [bind] are given by their results. *)

From S2P Require Import Prelude RecvWin LinkedList Sha Chunk ChunkList Machine Util Packet Sending Hashes.
From S2P Require Import Upload Download SendHelper PeerServer ParsePacket ServerInv ServerOps ServerSafe Handlers UserInput CommandLine PeerInit EventLoop.

(** ** The code *)

Section Code.
Context `{Env}.

(** [peer_run] before its loop; [None] for [exit]. [spiffy_init] only sets the state of
    the shim (Spiffy.v), and its result is not used. *)
Definition peer_run_start (socket : option Z) (bind_ok : bool) : M (option user_iobuf) :=
  u <- create_userbuf ;;
  match u with
  | None => ret None
  | Some userbuf =>
    modify (fun s => s .{ sock := default (-1) socket }) ;;;
    match socket with
    | None => ret None
    | Some _ => if negb bind_ok then ret None else ret (Some userbuf)
    end
  end.

(** [config] is [psvr.config]: of it the model of [psvr] holds the field [no_output]. *)
Definition main (testing : bool) (opts : list opt) (fopen : list Z -> option (list Z)) (gethostbyname : list Z -> option Z)
    (socket : option Z) (bind_ok : bool) (ts : list turn) : M (option user_iobuf) :=
  config <- lift (start_config testing) ;;
  r <- bt_parse_command_line opts fopen gethostbyname config ;;
  match r with
  | None => ret None
  | Some config =>
    modify (fun s => s .{ no_output := negb (cfg_no_output config =? 0) }) ;;;
    r <- peer_init fopen config ;;
    if r <? 0 then ret None else
    u <- peer_run_start socket bind_ok ;;
    match u with
    | None => ret None
    | Some userbuf => peer_run fopen ts userbuf
    end
  end.
End Code.

(** ** Lemmas *)

Section Specs.
Context `{Env}.

(** The socket's number is no part of the invariant. *)
Lemma server_inv_sock s k : server_inv s -> server_inv (s .{ sock := k }).
Proof.
  intros [Hm Hd Hu]. split; [|exact Hd|exact Hu]. destruct Hm as [? ? Hp ? ? ? ?]. by split.
Qed.

Lemma peer_run_start_spec socket bind_ok w (Q : option user_iobuf -> World -> Prop) :
  server_inv (psvr w) ->
  (forall r w', server_inv (psvr w') -> pl_count (peerlist (psvr w')) = pl_count (peerlist (psvr w)) /\
       max_conn (psvr w') = max_conn (psvr w) -> (forall ub, r = Some ub -> buf_ok ub) -> Q r w') ->
  wp (peer_run_start socket bind_ok) Q w.
Proof.
  intros Hs HQ. unfold peer_run_start, create_userbuf. wp_go. apply wp_ask_any. intros b1.
  destruct (negb b1); [wp_go; by apply HQ|]. wp_go. apply wp_ask_any. intros b2.
  destruct (negb b2); [wp_go; by apply HQ|]. wp_go.
  destruct socket as [k|]; [destruct (negb bind_ok)|]; wp_go;
    (apply HQ; [by apply server_inv_sock|done|]); try (by intros).
  intros ub [= <-]. split; [done|]. by exists (zeros USERBUF_SIZE).
Qed.

(** The peers are at most the lines of the list. *)
Lemma others_length gethostbyname me ls :
  zlen (others me (reverse (omap (line_node gethostbyname) ls))) <= zlen ls.
Proof.
  unfold others. etransitivity; [apply inj_le, length_filter|]. rewrite length_reverse. apply inj_le.
  induction ls as [|l ls IH]; [done|]. cbn [omap list_omap]. destruct (line_node _ l); simpl; lia.
Qed.
End Specs.

(** ** Properties *)

(** What the program is started with: its options, its list of nodes, the master chunk
    file. *)
Definition startup_ok (testing : bool) (opts : list opt) (ls : list list_line) (fopen : list Z -> option (list Z))
    (gethostbyname : list Z -> option Z) : Prop :=
  Forall opt_ok opts /\
  fopen (last_arg 112 opts default_nodes) = Some (mjoin (print_list_line <$> ls)) /\
  Forall list_line_ok ls /\ Forall (resolves gethostbyname) ls /\ zlen ls <= MAX_PEER_NUM /\
  (forall f, fopen (last_arg 102 opts (preset_chunks testing)) = Some f -> master_ok f).

(** C9: in both builds ([TESTING] or not) the program has no undefined behaviour from
    its first instruction, for all input and all datagrams the shim takes ([turn_ok]),
    given [startup_ok], [files_ok], memory and mappings; its count of downloads
    (uploads: with a working clock) is exact and at most [-m]. *)
Theorem main_safe `{Env} (testing : bool) (opts : list opt) (ls : list list_line) (fopen : list Z -> option (list Z))
    (gethostbyname : list Z -> option Z) (socket : option Z) (bind_ok : bool) (ts : list turn) (w : World) :
  psvr w = server_zero false -> startup_ok testing opts ls fopen gethostbyname -> files_ok fopen ->
  (forall n, malloc_ok n = true) -> mmap_ok -> Forall turn_ok ts ->
  exists r w', main testing opts fopen gethostbyname socket bind_ok ts w = Some (r, w') /\
    forall ub, r = Some ub ->
      max_conn (psvr w') = atoi (last_arg 109 opts []) /\
      pl_count (peerlist (psvr w')) =
        zlen (others (s16 (atoi (last_arg 105 opts (preset_me testing)))) (reverse (omap (line_node gethostbyname) ls))) /\
      dl_num (psvr w') = running is_downloading (psvr w') /\ dl_num (psvr w') <= Z.max 0 (max_conn (psvr w')) /\
      (clock_ok -> ul_num (psvr w') = running is_uploading (psvr w') /\ ul_num (psvr w') <= Z.max 0 (max_conn (psvr w'))).
Proof.
  intros Ew (Hopts & Hlist & Hls & Hres & Hmax & Hmaster) Hf Hm Hmm Hts.
  match goal with |- exists r w', _ = Some (r, w') /\ @?P r w' =>
    enough (wp (main testing opts fopen gethostbyname socket bind_ok ts) P w) as (r & w' & ?) by (by exists r, w') end.
  destruct (start_config_configured testing) as (c0 & E0 & _).
  unfold main. wp_go. eapply wp_lift; [exact E0|]. wp_go.
  eapply bt_parse_command_line_spec; [exact E0|exact Hopts|exact Hlist|done..|]. intros r w1 Hout Ew1 _.
  destruct r as [config|]; [|wp_go; by intros]. destruct Hout as ([Hcf Hhf _ Hmc Hme _ Hps] & _). wp_go.
  eapply (peer_init_inv _ _ (negb (cfg_no_output config =? 0))); [|done| |].
  - split; [rewrite Hps; etransitivity; [apply others_length|done]|].
    destruct Hcf as (_ & _ & ->). split; [exact Hmaster|]. intros f. apply Hf.
  - simpl. by rewrite Ew1, Ew.
  - intros r w2 Hr. destruct Hr as [(-> & Hs & Hx & Hc)| ->]; [|change (-1 <? 0) with true; cbv iota; wp_go; by intros]. change (0 <? 0) with false. cbv iota.
    wp_go. apply peer_run_start_spec; [done|]. intros u w3 Hs3 Hset Hub. destruct u as [ub|]; [|wp_go; by intros].
    apply peer_run_inv; [done|done|done|done|by apply Hub|]. intros r w4 [Hs4 Hset4] _ ub' _.
    destruct Hset as [Ec Ex], Hset4 as (Ec4 & Ex4 & _), (si_dl _ Hs4) as [Ed Hd]. pose proof (si_ul _ Hs4) as Hul.
    unfold counts_ul in Hul. rewrite Ex4, Ex, Hx, Hmc in *. rewrite Ec4, Ec, Hc, Hme, Hps. done.
Qed.

(** A list of two nodes, and the other files, which hold ["File: a"]. *)
Definition sample_nodes : list list_line :=
  [comment_line [32; 110]; node_line 1 [97; 98] 1111; node_line 2 [99] 1112].
Definition sample_files (name : list Z) : option (list Z) :=
  if bool_decide (name = [110]) then Some (mjoin (print_list_line <$> sample_nodes)) else Some sample_file.
(** [-p n -m 4]: the rest is preset with [TESTING]. *)
Definition sample_opts : list opt := [(112, [110]); (109, [52])].

Lemma main_safe_witness :
  exists r w', @main sample_env true sample_opts sample_files (fun _ => Some 1) (Some 3) true sample_turns
      {| psvr := server_zero false; tick := 0; out := [] |} = Some (r, w') /\
    forall ub, r = Some ub -> max_conn (psvr w') = 4 /\ pl_count (peerlist (psvr w')) = 1 /\
      dl_num (psvr w') = running is_downloading (psvr w') /\ dl_num (psvr w') <= Z.max 0 (max_conn (psvr w')) /\
      (@clock_ok sample_env -> ul_num (psvr w') = running is_uploading (psvr w') /\ ul_num (psvr w') <= Z.max 0 (max_conn (psvr w'))).
Proof.
  apply (@main_safe sample_env true sample_opts sample_nodes sample_files (fun _ => Some 1) (Some 3) true sample_turns).
  - reflexivity.
  - split; [|split; [reflexivity|split; [|split; [|split]]]].
    + repeat constructor; try lia; try (by vm_compute).
    + repeat constructor; try lia; try discriminate; try (by vm_compute).
    + repeat constructor; by eexists.
    + discriminate.
    + intros f E. change (Some sample_file = Some f) in E. injection E as <-.
      exists [97], []. split; [reflexivity|]. split; [repeat constructor; lia|reflexivity].
  - intros name f. unfold sample_files. case_bool_decide; intros [= <-]; [|exact sample_file_fits].
    split; [by apply words_fit_word|vm_compute; constructor].
  - reflexivity.
  - exact sample_mmap.
  - repeat constructor; unfold is_byte; lia.
Defined.
