(* ===== verification/Requests.v ===== *)
(** * Requests: what the server answers and asks for (parse_packet.c)

    A [WHOHAS] is answered by an [IHAVE] with the asked chunks the server has; an
    [IHAVE] starts the download of the first announced chunk that is wanted. *)

From S2P Require Import Prelude RecvWin LinkedList Sha Chunk ChunkList Machine Util Packet Sending Hashes.
From S2P Require Import Upload Download SendHelper PeerServer ParsePacket ServerInv ServerOps ServerSafe Handlers.
From S2P Require Import CommandLine PeerInit.

(** An event to a peer only depends on its address. *)
Lemma ihave_answer_upd s i p p' ts evs :
  zget (peers (peerlist s)) i = Some p -> addr p' = addr p ->
  ihave_answer (upd_peer s i p') i ts evs -> ihave_answer s i ts evs.
Proof.
  intros Hp Ha. unfold ihave_answer. destruct ts as [|t ts]; [done|].
  intros (q & lines & dg & Hq & Ht & Hl & Hdg & ->). rewrite (upd_peer_get _ _ p' _ Hp) in Hq.
  injection Hq as <-. rewrite Ha. by exists p, lines, dg.
Qed.

Lemma get_event_upd s i p p' c e :
  zget (peers (peerlist s)) i = Some p -> addr p' = addr p -> get_event (upd_peer s i p') i c e -> get_event s i c e.
Proof.
  intros Hp Ha (q & dg & Hq & Hdg & ->). rewrite (upd_peer_get _ _ p' _ Hp) in Hq. injection Hq as <-.
  rewrite Ha. by exists p, dg.
Qed.

(** A [WHOHAS]: what the server becomes, and what it sends. *)
Lemma whohas_run `{Env} (pkt : packet_t) (i : Z) (p : Peer) (w : World) :
  server_mem (psvr w) -> peer_at (psvr w) i p -> packet_valid pkt -> type pkt = PACKET_TYPE_WHOHAS ->
  exists w' evs, handle_WHOHAS pkt i w = Some (0, w') /\ out w' = out w ++ evs /\
    if ul_num (psvr w) >=? max_conn (psvr w) then evs = [] /\ psvr w' = psvr w
    else (exists ih, psvr w' = (upd_peer (psvr w) i (p .{ is_alive := true })) .{ ihavechunks := ih }) /\
      if is_uploading p then evs = []
      else exists cnt, GET_CHUNK_CNT pkt = Some cnt /\
        ihave_answer (psvr w) i (kept (haschunks (psvr w)) pkt 0 cnt) evs.
Proof.
  intros Hm Hp Hv Hty.
  match goal with |- exists w' evs, _ = Some (0, w') /\ @?P w' evs =>
    enough (wp (handle_WHOHAS pkt i) (fun r w' => r = 0 /\ exists evs, P w' evs) w) as (r & w' & E & -> & evs & HP)
      by (exists w', evs; exact (conj E HP)) end.
  unfold handle_WHOHAS. wp_go. destruct (ul_num (psvr w) >=? max_conn (psvr w)).
  { wp_go. split; [done|]. exists []. by rewrite app_nil_r. }
  wp_go. eapply set_alive_spec; [exact Hp|]. intros p1 w1 Ew1 Ho1.
  pose proof (upd_peer_get _ _ p1 _ (proj1 Hp)) as Hp1. rewrite <- Ew1 in Hp1.
  wp_go. eapply wp_get_peer; [exact Hp1|]. change (is_uploading p1) with (is_uploading p).
  destruct (is_uploading p).
  { wp_go. split; [done|]. exists []. rewrite app_nil_r. split; [done|]. split; [|done].
    exists (ihavechunks (psvr w1)). rewrite Ew1. by destruct (psvr w). }
  pose proof Hv as (_ & _ & _ & _ & _ & Hcnt & _). destruct Hcnt as (cnt & Hcnt & H1 & Hd); [by left|].
  wp_go. eapply send_ihave_spec; [done|exact Hcnt|done|done|rewrite Ew1; apply Hm|rewrite Ew1; apply Hm|by eapply zget_Some_range|].
  intros ih evs w2 _ Ew2 Ho2 Hans. wp_go. split; [done|]. exists evs. split; [by rewrite Ho2, Ho1|].
  split; [exists ih; by rewrite Ew2, Ew1|]. exists cnt. split; [done|]. rewrite Ew1 in Hans.
  by eapply ihave_answer_upd; [apply Hp| |exact Hans].
Qed.

(** C24: a valid [WHOHAS] is ignored while all the uploads are taken; otherwise its
    sender is alive from now on, nothing else of the server but [ihavechunks] changes,
    and unless it is being served it is sent one [IHAVE] with exactly the hashes it asked
    for that the server has, or nothing. *)
Theorem whohas_answered `{Env} (pkt : packet_t) (i : Z) (p : Peer) (w : World) :
  server_mem (psvr w) -> peer_at (psvr w) i p -> packet_valid pkt -> type pkt = PACKET_TYPE_WHOHAS ->
  exists w' evs, handle_WHOHAS pkt i w = Some (0, w') /\ out w' = out w ++ evs /\
    if ul_num (psvr w) >=? max_conn (psvr w) then evs = [] /\ psvr w' = psvr w
    else (exists ih, psvr w' = (upd_peer (psvr w) i (p .{ is_alive := true })) .{ ihavechunks := ih }) /\
      if is_uploading p then evs = []
      else exists cnt, GET_CHUNK_CNT pkt = Some cnt /\
        ihave_answer (psvr w) i (kept (haschunks (psvr w)) pkt 0 cnt) evs.
Proof. apply whohas_run. Qed.

(** The three outcomes of an [IHAVE] from an idle peer; [ts] are the announced hashes. *)
Inductive ihave_outcome `{Env} (w : World) (i : Z) (ts : list (list Z)) : Z -> World -> Prop :=
  | ihave_no_memory n dq w' :
      malloc_ok n = false -> out w' = out w -> queue_holds dq [] ->
      (exists p', zget (peers (peerlist (psvr w'))) i = Some p' /\ hasqueue p' = dq) ->
      ihave_outcome w i ts (-1) w'
  | ihave_nothing_wanted p' w' :
      Forall (no_fetchable (getchunks (psvr w))) ts -> out w' = out w ->
      zget (peers (peerlist (psvr w'))) i = Some p' -> queue_holds (hasqueue p') ts ->
      is_downloading p' = false -> dl_num (psvr w') = dl_num (psvr w) ->
      ihave_outcome w i ts 0 w'
  | ihave_get p ts1 t ts2 k c cs e dq d w' :
      peer_at (psvr w) i p -> ts = ts1 ++ t :: ts2 -> Forall (no_fetchable (getchunks (psvr w))) ts1 ->
      0 <= k < cl_count (getchunks (psvr w)) -> zget (chunks (getchunks (psvr w))) k = Some c ->
      state c = unfetched -> line_text c = t -> marked (psvr w) k fetching cs ->
      get_event (psvr w) i c e -> out w' = out w ++ [e] ->
      queue_holds dq (ts1 ++ ts2) -> fresh d -> get_index d = k ->
      psvr w' = (with_chunks (upd_peer (psvr w) i
          (p .{ is_alive := true } .{ hasqueue := dq } .{ is_downloading := true } .{ dl := d })) cs)
        .{ dl_num := dl_num (psvr w) + 1 } ->
      ihave_outcome w i ts 0 w'.

(** An [IHAVE], with the result of the handler. *)
Lemma ihave_run `{Env} (pkt : packet_t) (i : Z) (p : Peer) (w : World) :
  server_mem (psvr w) -> peer_at (psvr w) i p -> packet_valid pkt -> type pkt = PACKET_TYPE_IHAVE ->
  is_downloading p = false -> 0 <= dl_num (psvr w) <= MAX_PEER_NUM -> dl_num (psvr w) < max_conn (psvr w) ->
  exists cnt r w', GET_CHUNK_CNT pkt = Some cnt /\ handle_IHAVE pkt i w = Some (r, w') /\
    ihave_outcome w i (asked pkt <$> seqZ 0 cnt) r w'.
Proof.
  intros Hm Hp Hv Hty Hidle Hn Hlim. pose proof Hv as (_ & _ & _ & _ & _ & Hcnt & _).
  destruct Hcnt as (cnt & Hcnt & H1 & Hd); [by right|]. exists cnt.
  enough (wp (handle_IHAVE pkt i) (ihave_outcome w i (asked pkt <$> seqZ 0 cnt)) w) as (r & w' & E & Ho)
    by (by exists r, w').
  unfold handle_IHAVE. wp_go. eapply set_alive_spec; [exact Hp|]. intros p1 w1 Ew1 Ho1.
  pose proof (upd_peer_at _ _ p1 _ Hp) as Hp1. rewrite <- Ew1 in Hp1.
  wp_go. eapply wp_get_peer; [apply Hp1|]. change (is_downloading p1) with (is_downloading p). rewrite Hidle. wp_go.
  pose proof (sm_peers _ Hm _ _ Hp) as [Hq _ Hul].
  eapply parse_download_spec; [done|exact Hcnt|done|done|apply Hp1|exact Hq|].
  intros r dq w2 Hr Ew2 Ho2. rewrite Ew1 in Ew2. set (p2 := p1 .{ hasqueue := dq }) in *.
  assert (psvr w2 = upd_peer (psvr w) i p2) as Ew2' by (by rewrite Ew2, upd_peer_twice). clear Ew2.
  pose proof (upd_peer_at _ _ p2 _ Hp) as Hp2. rewrite <- Ew2' in Hp2.
  destruct Hr as [[-> Hqh]|(-> & Hqh & n & Hno)].
  2: { change (-1 <? 0) with true. wp_go. apply (ihave_no_memory _ _ _ n dq); [done|congruence|done|]. by exists p2; split; [apply Hp2|]. }
  change (0 <? 0) with false. wp_go. rewrite Z.geb_leb.
  assert (max_conn (psvr w2) = max_conn (psvr w) /\ dl_num (psvr w2) = dl_num (psvr w) /\
    getchunks (psvr w2) = getchunks (psvr w)) as (Ex & Ed & Eg) by (by rewrite Ew2').
  rewrite Ex, Ed. destruct (Z.leb_spec (max_conn (psvr w)) (dl_num (psvr w))); [lia|]. wp_go.
  assert (server_mem (psvr w2)) as Hm2.
  { rewrite Ew2'. eapply server_mem_upd; [done|exact Hp|]. split; [by eapply queue_holds_ok| |exact Hul].
    change (is_downloading p2) with (is_downloading p). by rewrite Hidle. }
  eapply (try_send_get_spec i p2); [done|done|exact Hqh|by rewrite Ed| |].
  { rewrite Eg. intros Hno. wp_go. apply (ihave_nothing_wanted _ _ _ p2); try done; try congruence. apply Hp2. }
  rewrite Eg, Ed. intros k dq' d cs c e ts1 t ts2 w3 Ets Hno Hq' Hk Hc Hst Htx Hmk _ He _ Hgi Hdf Ew3 Ho3. wp_go.
  rewrite Ew2' in He. pose proof (get_event_upd _ _ _ p2 _ _ (proj1 Hp) eq_refl He) as He'.
  apply (ihave_get _ _ _ p ts1 t ts2 k c cs e dq' d w3); try done.
  - by rewrite Ew2' in Hmk.
  - congruence.
  - rewrite Ew3, Ew2'. by rewrite upd_peer_twice.
Qed.

(** C23: a valid [IHAVE] from a peer that is not being downloaded from, while a download
    is free, replaces its queue by the announced hashes; the first of them that is an
    unfetched chunk leaves the queue, is asked for by a [GET] and becomes fetching. *)
Theorem ihave_starts_download `{Env} (pkt : packet_t) (i : Z) (p : Peer) (w : World) :
  server_mem (psvr w) -> peer_at (psvr w) i p -> packet_valid pkt -> type pkt = PACKET_TYPE_IHAVE ->
  is_downloading p = false -> 0 <= dl_num (psvr w) <= MAX_PEER_NUM -> dl_num (psvr w) < max_conn (psvr w) ->
  exists cnt r w', GET_CHUNK_CNT pkt = Some cnt /\ handle_IHAVE pkt i w = Some (r, w') /\
    ihave_outcome w i (asked pkt <$> seqZ 0 cnt) r w'.
Proof. apply ihave_run. Qed.

(** *** Examples *)

(** A packet that lists one hash, from the only peer of a server that has that chunk,
    and the same server when it wants it. *)
Definition one_hash : list Z := replicate 20 171.
Definition ask_one (ty : Z) : packet_t :=
  hash_packet ty [0; 0; 0] [one_hash] (replicate 1460 0).
Lemma ask_one_valid ty : ty = PACKET_TYPE_WHOHAS \/ ty = PACKET_TYPE_IHAVE ->
  packet_valid (ask_one ty) /\ type (ask_one ty) = ty.
Proof.
  intros Hty. split; [|done]. apply hash_packet_valid; [|done|by repeat constructor|done|by destruct Hty as [-> | ->]].
  destruct Hty as [-> | ->]; [by left|right; by left].
Qed.

Definition one_list : ChunkList :=
  {| cl_count := 1; chunks := <[0%nat := read_line 0 one_hash]> (chunks zero_list) |}.
Lemma one_list_ok : list_ok one_list.
Proof.
  apply (list_ok_zset zero_list 0 (read_line 0 one_hash)); [apply zero_list_ok|done| |done|done].
  split; [done|]. apply elem_of_app. right. by left.
Qed.

Definition sample_one : PeerServer := sample_idle .{ haschunks := one_list } .{ getchunks := one_list }.
Lemma sample_one_mem : server_mem sample_one.
Proof.
  pose proof (@si_mem _ _ sample_idle_inv) as [? ? ? ? ? ? ?]. by split; try apply one_list_ok.
Qed.
Lemma sample_one_peer : peer_at sample_one 0 sample_peer.
Proof. by split. Qed.

Lemma whohas_answered_witness :
  exists w' evs, @handle_WHOHAS sample_env (ask_one PACKET_TYPE_WHOHAS) 0 {| psvr := sample_one; tick := 0; out := [] |}
      = Some (0, w') /\ out w' = [] ++ evs /\
    (exists ih, psvr w' = (upd_peer sample_one 0 (sample_peer .{ is_alive := true })) .{ ihavechunks := ih }) /\
    exists cnt, GET_CHUNK_CNT (ask_one PACKET_TYPE_WHOHAS) = Some cnt /\
      ihave_answer sample_one 0 (kept one_list (ask_one PACKET_TYPE_WHOHAS) 0 cnt) evs.
Proof.
  destruct (ask_one_valid PACKET_TYPE_WHOHAS) as [Hv Ht]; [by left|].
  apply (@whohas_answered sample_env (ask_one PACKET_TYPE_WHOHAS) 0 sample_peer {| psvr := sample_one; tick := 0; out := [] |}).
  - exact sample_one_mem.
  - exact sample_one_peer.
  - exact Hv.
  - exact Ht.
Defined.

Lemma ihave_starts_download_witness :
  exists cnt r w', GET_CHUNK_CNT (ask_one PACKET_TYPE_IHAVE) = Some cnt /\
    @handle_IHAVE sample_env (ask_one PACKET_TYPE_IHAVE) 0 {| psvr := sample_one; tick := 0; out := [] |} = Some (r, w') /\
    @ihave_outcome sample_env {| psvr := sample_one; tick := 0; out := [] |} 0 (asked (ask_one PACKET_TYPE_IHAVE) <$> seqZ 0 cnt) r w'.
Proof.
  destruct (ask_one_valid PACKET_TYPE_IHAVE) as [Hv Ht]; [by right|].
  apply (@ihave_starts_download sample_env (ask_one PACKET_TYPE_IHAVE) 0 sample_peer
    {| psvr := sample_one; tick := 0; out := [] |}).
  - exact sample_one_mem.
  - exact sample_one_peer.
  - exact Hv.
  - exact Ht.
  - reflexivity.
  - split; discriminate.
  - reflexivity.
Defined.
