(* ===== verification/Integrity.v ===== *)
(** * Integrity: only verified data is written (send_helper.c, parse_packet.c)

    Partial correctness of runs, and the events each operation can emit: whatever
    arrives, the bytes written to a file are those of a chunk whose SHA-1 is the
    wanted one. *)

From S2P Require Import Prelude RecvWin LinkedList Sha Chunk ChunkList Machine Util Packet Sending Hashes.
From S2P Require Import Upload Download SendHelper PeerServer ParsePacket ServerInv ServerOps ServerSafe Handlers.
From S2P Require Import Transfer CommandLine PeerInit Requests.

(** ** Runs that end *)

Definition wlp {A} (m : M A) (Q : A -> World -> Prop) (w : World) : Prop :=
  forall a w', m w = Some (a, w') -> Q a w'.

Lemma wp_wlp {A} (m : M A) Q w : wp m Q w -> wlp m Q w.
Proof. intros Hm a w'. by apply wp_run. Qed.
Lemma wlp_mono {A} (m : M A) (P Q : A -> World -> Prop) w :
  wlp m P w -> (forall a w', P a w' -> Q a w') -> wlp m Q w.
Proof. intros Hm H a w' E. by apply H, Hm. Qed.
Lemma wlp_ret {A} (a : A) Q w : Q a w -> wlp (ret a) Q w.
Proof. by intros H b w' [= <- <-]. Qed.
Lemma wlp_bind {A B} (m : M A) (k : A -> M B) Q w :
  wlp m (fun a w' => wlp (k a) Q w') w -> wlp (bind m k) Q w.
Proof.
  intros Hm b w'. unfold bind. destruct (m w) as [[a w1]|] eqn:E; [|done]. by apply (Hm a w1).
Qed.
Lemma wlp_lift {A} (o : option A) Q w : (forall a, o = Some a -> Q a w) -> wlp (lift o) Q w.
Proof. intros H b w'. unfold lift. destruct o; [|done]. intros [= <- <-]. by apply H. Qed.
Lemma wlp_gets {A} (f : PeerServer -> A) Q w : Q (f (psvr w)) w -> wlp (gets f) Q w.
Proof. by intros H b w' [= <- <-]. Qed.
Lemma wlp_modify f (Q : unit -> World -> Prop) w : Q tt (w .{ psvr := f (psvr w) }) -> wlp (modify f) Q w.
Proof. by intros H b w' [= <- <-]. Qed.
Lemma wlp_ask {A} (f : nat -> A) Q w : (forall a, Q a (w .{ tick := S (tick w) })) -> wlp (ask f) Q w.
Proof. by intros H b w' [= <- <-]. Qed.
Lemma wlp_emit e (Q : unit -> World -> Prop) w : Q tt (w .{ out := out w ++ [e] }) -> wlp (emit e) Q w.
Proof. by intros H b w' [= <- <-]. Qed.

(** The call number is known. *)
Lemma wlp_ask_at {A} (f : nat -> A) (Q : A -> World -> Prop) w :
  Q (f (tick w)) (w .{ tick := S (tick w) }) -> wlp (ask f) Q w.
Proof. by intros H b w' [= <- <-]. Qed.
Lemma wp_and_wlp {A} (m : M A) (P Q : A -> World -> Prop) w : wp m P w -> wlp m Q w -> wp m (fun a w' => P a w' /\ Q a w') w.
Proof. intros (a & w' & E & HP) HQ. exists a, w'. split; [done|]. split; [done|by apply HQ]. Qed.

(** ** The events of an operation *)

Definition appends (P : event -> Prop) (w w' : World) : Prop :=
  exists evs, out w' = out w ++ evs /\ Forall P evs.
Definition only {A} (P : event -> Prop) (m : M A) : Prop := forall w, wlp m (fun _ w' => appends P w w') w.

Lemma appends_refl P w w' : out w' = out w -> appends P w w'.
Proof. intros E. exists []. by rewrite app_nil_r. Qed.
Lemma appends_trans P w1 w2 w3 : appends P w1 w2 -> appends P w2 w3 -> appends P w1 w3.
Proof.
  intros (e1 & E1 & H1) (e2 & E2 & H2). exists (e1 ++ e2). split; [by rewrite E2, E1, app_assoc|]. by apply Forall_app.
Qed.
Lemma emits_appends P w w' : emits P w w' -> appends P w w'.
Proof. by intros [_ ?]. Qed.

Section Only.
Context (P : event -> Prop).

Lemma only_ret {A} (a : A) : only P (ret a).
Proof. intros w. by apply wlp_ret, appends_refl. Qed.
Lemma only_gets {A} (f : PeerServer -> A) : only P (gets f).
Proof. intros w. by apply wlp_gets, appends_refl. Qed.
Lemma only_modify f : only P (modify f).
Proof. intros w. by apply wlp_modify, appends_refl. Qed.
Lemma only_ask {A} (f : nat -> A) : only P (ask f).
Proof. intros w. apply wlp_ask. intros. by apply appends_refl. Qed.
Lemma only_lift {A} (o : option A) : only P (lift o).
Proof. intros w. apply wlp_lift. intros. by apply appends_refl. Qed.
Lemma only_emit e : P e -> only P (emit e).
Proof. intros He w. apply wlp_emit. exists [e]. split; [done|]. by repeat constructor. Qed.
Lemma only_bind {A B} (m : M A) (k : A -> M B) : only P m -> (forall a, only P (k a)) -> only P (bind m k).
Proof.
  intros Hm Hk w. apply wlp_bind. eapply wlp_mono; [apply Hm|]. intros a w1 H1.
  eapply wlp_mono; [apply Hk|]. intros b w2. by apply appends_trans.
Qed.
End Only.

Create HintDb only_db.
#[export] Hint Resolve only_ret only_gets only_modify only_ask only_lift : only_db.

(** [only_go] follows the structure of a program. *)
Ltac only_go :=
  repeat first
    [ solve [auto with only_db]
    | apply only_bind; [|intros ?]
    | apply only_emit; done
    | match goal with
      | |- only _ (match ?x with _ => _ end) => destruct x
      | |- only _ (let '(_, _) := ?x in _) => destruct x
      end
    | progress cbn beta zeta ].

(** Nothing but datagrams and lines of the window-size log. *)
Definition quiet (e : event) : Prop :=
  match e with EvWrite _ _ _ | EvGot _ => False | EvSend _ _ _ | EvWinsize _ _ _ => True end.

Section Quiet.
Context `{Env}.

Lemma only_get_timestamp_now : only quiet get_timestamp_now.
Proof. unfold get_timestamp_now. only_go. Qed.
Lemma only_get_peer i : only quiet (get_peer i).
Proof. unfold get_peer. only_go. Qed.
Lemma only_set_peer i p : only quiet (set_peer i p).
Proof. unfold set_peer. only_go. Qed.
Lemma only_mark_chunk i st : only quiet (mark_chunk i st).
Proof. unfold mark_chunk. only_go. Qed.
Lemma only_stack_packet : only quiet stack_packet.
Proof. unfold stack_packet. only_go. Qed.
Hint Resolve only_get_timestamp_now only_get_peer only_set_peer only_mark_chunk only_stack_packet : only_db.

Lemma only_send_udp_loop sk pi buf n : forall i, only quiet (send_udp_loop n i sk pi buf).
Proof. induction n; intros i; cbn [send_udp_loop]; only_go. Qed.
Hint Resolve only_send_udp_loop : only_db.
Lemma only_send_udp sk pi pc buf : only quiet (send_udp sk pi pc buf).
Proof. unfold send_udp. only_go. Qed.
Lemma only_hash_loop ty ci c n : forall j cnt pkt, only quiet (hash_loop n ty ci j cnt c pkt).
Proof. induction n; intros j cnt pkt; cbn [hash_loop]; only_go. Qed.
Hint Resolve only_send_udp only_hash_loop : only_db.
Lemma only_fill_packet pp cc i j pkt : only quiet (fill_packet pp cc i j pkt).
Proof. unfold fill_packet. only_go. Qed.
Hint Resolve only_fill_packet : only_db.
Lemma only_send_packet_loop pp pc cc n : forall i j pkt, only quiet (send_packet_loop n pp pc cc i j pkt).
Proof. induction n; intros i j pkt; cbn [send_packet_loop]; only_go. Qed.
Hint Resolve only_send_packet_loop : only_db.
Lemma only_send_packet pp : only quiet (send_packet pp).
Proof. unfold send_packet. only_go. Qed.
Hint Resolve only_send_packet : only_db.
Lemma only_send_whohas : only quiet send_whohas.
Proof. unfold send_whohas. only_go. Qed.
Lemma only_send_get i k : only quiet (send_get i k).
Proof. unfold send_get. only_go. Qed.
Lemma only_start_download i k f : only quiet (start_download i k f).
Proof. unfold start_download, dl_init. only_go. Qed.
Lemma only_find_unfetched_chunk i : only quiet (find_unfetched_chunk i).
Proof. unfold find_unfetched_chunk. only_go. Qed.
Hint Resolve only_send_whohas only_send_get only_start_download only_find_unfetched_chunk : only_db.
Lemma only_try_send_get i : only quiet (try_send_get i).
Proof. unfold try_send_get. only_go. Qed.
Hint Resolve only_try_send_get : only_db.
Lemma only_refresh_loop n : forall i, only quiet (refresh_loop n i).
Proof. induction n; intros i; cbn [refresh_loop]; only_go. Qed.
Hint Resolve only_refresh_loop : only_db.
Lemma only_refresh_chunk_download : only quiet refresh_chunk_download.
Proof. unfold refresh_chunk_download. only_go. Qed.
End Quiet.
#[export] Hint Resolve only_get_timestamp_now only_get_peer only_set_peer only_mark_chunk
  only_refresh_chunk_download : only_db.

(** ** What the end of a download writes *)

(** Where [lseek] leaves a file that was just opened: at the place of the line, or, when
    it fails, at the start. *)
Definition write_pos `{Env} (line : ChunkLine) (off : Z) : Prop :=
  off = place_of line \/ off = 0 /\ exists n, lseek_ok n = false.

(** Bytes of a chunk at that position. *)
Definition write_of `{Env} (line : ChunkLine) (d : download_t) (e : event) : Prop :=
  match e with
  | EvWrite f off bytes =>
      f = cstr (filename d) /\ write_pos line off /\ exists n, bytes = take n (buffer d)
  | _ => True
  end.
(** The line of a verified chunk, and the file of the download [d0]. *)
Definition verified `{Env} (s : PeerServer) (d0 : download_t) (e : event) : Prop :=
  match e with
  | EvWrite f off bytes =>
      exists line d, zget (chunks (getchunks s)) (get_index d0) = Some line /\
        filename d = filename d0 /\ line_text line = sha1_text (buffer d) /\
        zlen (buffer d) = BT_CHUNK_SIZE /\ write_of line d e
  | _ => True
  end.

(** The write is of the buffer of [d]. *)
Definition from_buffer `{Env} (s : PeerServer) (d : download_t) (e : event) : Prop :=
  match e with
  | EvWrite f off bytes =>
      exists line, zget (chunks (getchunks s)) (get_index d) = Some line /\ line_text line = sha1_text (buffer d) /\
        zlen (buffer d) = BT_CHUNK_SIZE /\ write_of line d e
  | _ => True
  end.

Lemma quiet_from_buffer `{Env} s d e : quiet e -> from_buffer s d e.
Proof. by destruct e. Qed.
Lemma from_buffer_verified `{Env} s d0 d e :
  get_index d = get_index d0 -> filename d = filename d0 -> from_buffer s d e -> verified s d0 e.
Proof. intros Ei Ef. destruct e; try done. cbn. rewrite Ei. intros (line & ? & ? & ? & ?). by exists line, d. Qed.
Lemma appends_mono (P Q : event -> Prop) w w' : (forall e, P e -> Q e) -> appends P w w' -> appends Q w w'.
Proof. intros H (evs & E & Hall). exists evs. split; [done|]. by eapply Forall_impl. Qed.

Ltac wlp_go :=
  repeat (cbn beta iota; lazymatch goal with
  | |- wlp (bind _ _) _ _ => apply wlp_bind
  | |- wlp (ret _) _ _ => apply wlp_ret
  | |- wlp (gets _) _ _ => apply wlp_gets
  | |- wlp (modify _) _ _ => apply wlp_modify
  | |- wlp (emit _) _ _ => apply wlp_emit
  | |- wlp (ask _) _ _ => apply wlp_ask; intros ?
  end); cbn beta iota.

Section Written.
Context `{Env}.

Lemma wlp_get_peer i w (Q : Peer -> World -> Prop) :
  (forall p, zget (peers (peerlist (psvr w))) i = Some p -> Q p w) -> wlp (get_peer i) Q w.
Proof. intros HQ. unfold get_peer. wlp_go. by apply wlp_lift. Qed.
Lemma wlp_set_peer i p w (Q : unit -> World -> Prop) :
  Q tt (w .{ psvr := upd_peer (psvr w) i p }) -> wlp (set_peer i p) Q w.
Proof.
  intros HQ. unfold set_peer. wlp_go. apply wlp_lift. intros ps E. wlp_go.
  unfold zset in E. case_decide; [|done]. by injection E as <-.
Qed.

Lemma write_to_file_writes d line w :
  zget (chunks (getchunks (psvr w))) (get_index d) = Some line ->
  wlp (write_to_file d) (fun _ w' => appends (write_of line d) w w') w.
Proof.
  intros Hline. unfold write_to_file, dl_save_buffer. wlp_go. destruct a; cbn [negb].
  2: { wlp_go. by apply appends_refl. }
  apply wlp_bind, wlp_gets. cbv beta. apply wlp_bind, wlp_lift. intros l Hl. change (psvr (_ .{ tick := _ })) with (psvr w) in Hl.
  simplify_eq. apply wlp_bind, wlp_lift. intros place Eplace. apply wlp_bind, wlp_ask_at. cbv zeta.
  match goal with |- context [lseek_ok ?n] => set (off := if lseek_ok n then place else 0); assert (write_pos line off) as Hoff end.
  { unfold off. unfold int_mul in Eplace. case_decide; [|done]. injection Eplace as <-.
    match goal with |- context [lseek_ok ?n] => destruct (lseek_ok n) eqn:El end; [by left|right; split; [done|by eexists]]. }
  clearbody off. wlp_go.
  apply (wlp_mono _ (fun _ w1 => appends (write_of line d) w w1)).
  { destruct (a >? 0); wlp_go; [|by apply appends_refl].
    exists [EvWrite (cstr (filename d)) off (take (Z.to_nat a) (buffer d))]. split; [done|].
    apply Forall_singleton. split; [done|]. split; [done|]. by eexists. }
  intros _ w1 H1. destruct (a =? BT_CHUNK_SIZE); wlp_go; [|done]. apply wlp_lift. intros s' _. wlp_go.
  destruct (dl_remain _ =? 0); wlp_go; [|done]. destruct H1 as (evs & E & Hall). exists (evs ++ [EvGot (cstr (getchunk_file (id (psvr
     (w1 .{ psvr := s' .{ dl_remain := s32 (dl_remain s' - 1) } })))))]).
  split; [simpl; rewrite E; by rewrite <- app_assoc|]. apply Forall_app. split; [done|]. by repeat constructor.
Qed.

Lemma end_download_writes i p w :
  server_mem (psvr w) -> peer_at (psvr w) i p -> is_downloading p = true ->
  wlp (end_download i) (fun _ w' => appends (from_buffer (psvr w) (dl p)) w w') w.
Proof.
  intros Hm Hp Hd. pose proof (sm_peers _ Hm _ _ Hp) as [_ Hdl _]. destruct (Hdl Hd) as ([_ Hbuf _ _ _] & _ & Hget).
  unfold end_download. wlp_go. apply wlp_get_peer. intros p' Hp'. change (psvr (_ .{ psvr := _ })) with
    ((psvr w) .{ dl_num := s32 (dl_num (psvr w) - 1) }) in Hp'. pose proof (proj1 Hp) as Hp0.
  change (zget (peers (peerlist (psvr w))) i = Some p') in Hp'. assert (p' = p) as -> by congruence. wlp_go. apply wlp_set_peer. wlp_go.
  match goal with |- wlp _ _ ?x => set (w1 := x) end.
  assert (getchunks (psvr w1) = getchunks (psvr w) /\ out w1 = out w) as [Eg Eo] by done. clearbody w1.
  pose proof (sm_get _ Hm) as Hwf. destruct (zget_is_Some (chunks (getchunks (psvr w))) (get_index (dl p))) as [line Hline].
  { destruct Hwf as [(-> & _) _]. done. }
  apply (wlp_mono _ (fun ok w2 => ok = bool_decide (line_text line = sha1_text (buffer (dl p))) /\ emitted [] w1 w2)).
  { apply wp_wlp. apply (check_hash_succeed_spec _ line); [exact Hbuf|by rewrite Eg|eapply list_wf_line; [apply Hwf|done]|done]. }
  intros ok w2 [-> [Ew2 Eo2]]. rewrite app_nil_r in Eo2. wlp_go.
  apply (wlp_mono _ (fun _ w3 => appends (from_buffer (psvr w) (dl p)) w w3)).
  { case_bool_decide as Htext; wlp_go; [|apply appends_refl; congruence].
    eapply wlp_mono; [apply (write_to_file_writes _ line); by rewrite Ew2, Eg|]. intros r w3 (evs & E & Hall). wlp_go.
    exists evs. split; [congruence|]. eapply Forall_impl; [exact Hall|]. intros [] He; try done.
    by exists line. }
  intros _ w3 H3. match goal with |- wlp ?m _ _ => assert (only quiet m) as Ho by only_go end.
  eapply wlp_mono; [apply Ho|]. intros [] w4 H4. eapply appends_trans; [exact H3|]. eapply appends_mono; [|exact H4]. intros e. apply quiet_from_buffer.
Qed.

Lemma handle_DATA_writes pkt i p w :
  server_mem (psvr w) -> peer_at (psvr w) i p -> packet_valid pkt ->
  wlp (handle_DATA pkt i) (fun _ w' => appends (verified (psvr w) (dl p)) w w') w.
Proof.
  intros Hm Hp Hv. pose proof (sm_peers _ Hm _ _ Hp) as [Hq Hdl Hul]. unfold handle_DATA. wlp_go.
  apply wlp_get_peer. intros p' Hp'. assert (p' = p) as -> by (destruct Hp; congruence).
  destruct (negb (is_alive p) || negb (is_downloading p)) eqn:E; [wlp_go; by apply appends_refl|].
  apply orb_false_iff in E as [_ Ed%negb_false_iff]. destruct (Hdl Ed) as (Hsafe & Hidx & Hget). wlp_go.
  apply wp_wlp. eapply (print_download_progress_total i p); [by apply Hdl|apply Hm|]. intros _.
  apply wlp_bind, wp_wlp.
  apply dl_recv_safe; [done|done|rewrite Hidx; by eapply peer_at_ok|].
  intros r d w1 Hsafe' (Eg & Ei & Ef) Hem. wlp_go. pose proof (emits_psvr _ _ _ Hem) as Ew1.
  apply wlp_get_peer. intros p1 Hp1. assert (p1 = p) as -> by (rewrite Ew1 in Hp1; destruct Hp; congruence).
  wlp_go. apply wlp_set_peer. wlp_go. cbn [fst snd]. rewrite Ew1. set (p2 := p .{ dl := d }).
  pose proof (emits_appends _ _ _ Hem) as Ha. apply (appends_mono _ (verified (psvr w) (dl p))) in Ha.
  2: { intros e He. unfold ack_event in He. naive_solver. }
  assert (server_mem (upd_peer (psvr w) i p2)) as Hm2.
  { eapply server_mem_upd; [done|exact Hp|]. split; [done| |exact Hul]. intros _. split; [done|]. simpl. by rewrite Ei, Eg. }
  assert (peer_at (upd_peer (psvr w) i p2) i p2) as Hp2 by (by eapply upd_peer_at).
  destruct (is_download_finished d); wlp_go; [|exact Ha].
  eapply wlp_mono; [apply (end_download_writes i p2); done|]. intros [] w3 H3. wlp_go.
  eapply appends_trans; [exact Ha|]. eapply appends_mono; [|exact H3]. intros e He. by eapply from_buffer_verified; [| |exact He].
Qed.
End Written.

(** C10: the bytes that the handling of a [DATA] writes begin a buffer of one chunk
    whose SHA-1 is the hash of the line being downloaded, and go to the output file of
    that download: at the place of that line or, only when an [lseek] failed, at the
    start of the file. *)
Theorem data_written_verified `{Env} (pkt : packet_t) (i : Z) (p : Peer) (w w' : World) (r : Z) :
  server_mem (psvr w) -> peer_at (psvr w) i p -> packet_valid pkt -> handle_DATA pkt i w = Some (r, w') ->
  exists evs, out w' = out w ++ evs /\
    forall f off bytes, EvWrite f off bytes ∈ evs ->
      f = cstr (filename (dl p)) /\
      exists line buf n, zget (chunks (getchunks (psvr w))) (get_index (dl p)) = Some line /\
        zlen buf = BT_CHUNK_SIZE /\ line_text line = sha1_text buf /\ bytes = take n buf /\
        (off = place_of line \/ off = 0 /\ exists n, lseek_ok n = false).
Proof.
  intros Hm Hp Hv E. destruct (handle_DATA_writes pkt i p w Hm Hp Hv r w' E) as (evs & Eo & Hall).
  exists evs. split; [done|]. intros f off bytes Hin. rewrite Forall_forall in Hall.
  destruct (Hall _ Hin) as (line & d & Hl & Ef & Ht & Hb & -> & Hoff & n & ->). split; [by rewrite Ef|].
  by exists line, (buffer d), n.
Qed.

(** *** The last packet of a chunk *)

(** When it arrives, and the disk works, the chunk is written. *)
Lemma last_packet_written `{Env} b line pkt i p s win w :
  server_inv (psvr w) -> peer_at (psvr w) i p -> is_alive p = true -> is_downloading p = true ->
  receiver_inv (dl p) b win -> carries pkt s (pkt_slice b s) -> 1 <= s <= CHUNK_PKTS -> zlen b = BT_CHUNK_SIZE ->
  (forall t, 1 <= t <= CHUNK_PKTS -> received win t \/ t = s) ->
  zget (chunks (getchunks (psvr w))) (get_index (dl p)) = Some line -> line_text line = sha1_text b ->
  (forall n, open_ok n = true) -> (forall n, write_file n = BT_CHUNK_SIZE) ->
  wp (handle_DATA pkt i) (fun _ w' => exists off, EvWrite (cstr (filename (dl p))) off b ∈ out w') w.
Proof.
  intros Hs Hp Hal Hdl Hinv Hpkt Hsq Hb Hall Hline Htext Hopen Hwrite. unfold handle_DATA. wp_go.
  eapply wp_get_peer; [apply Hp|]. rewrite Hal, Hdl. cbn [negb orb]. wp_go.
  destruct (ps_dl _ _ (sm_peers _ (si_mem _ Hs) _ _ Hp) Hdl) as (Hsafe & Hidx & Hget).
  eapply (print_download_progress_total i p); [by split|apply Hs|]. intros _. wp_go.
  eapply (dl_recv_ok _ b win _ s); [done..|rewrite Hidx; apply Hp|].
  intros r d w1 win' Hinv' (Eg & Ei & Ef) _ Hrec [Ew1 _]. wp_go. cbn [fst snd].
  eapply wp_get_peer; [rewrite Ew1; apply Hp|]. wp_go. eapply wp_set_peer; [rewrite Ew1; apply Hp|]. rewrite Ew1. wp_go.
  assert (dl_finished d = true) as Efin.
  { destruct Hinv' as (Hok' & _ & Hnot & Hfin). apply Hfin. pose proof (ro_next _ _ _ Hok').
    destruct (decide (w_next win' = CHUNK_PKTS + 1)) as [|Hne]; [done|].
    pose proof (ro_rep _ _ _ Hok') as (_ & _ & _ & [H1 _] & _).
    destruct (Hrec (w_next win')) as [_ [_ [?|?]]]; [apply Hall; lia|lia|done]. }
  assert (buffer d = b) as Eb by (by eapply receiver_complete).
  unfold is_download_finished. rewrite Efin. set (p1 := p .{ dl := d }).
  match goal with |- wp _ _ ?x => set (w2 := x) end.
  assert (psvr w2 = upd_peer (psvr w) i p1) as Ew2 by done. clearbody w2.
  assert (peer_safe i p1) as Hsafe1.
  { destruct (sm_peers _ (si_mem _ Hs) _ _ Hp) as [Hq _ Hul]. split; [done| |exact Hul]. intros _. simpl.
    split; [apply Hinv'|]. by rewrite Ei, Eg. }
  assert (server_inv (psvr w2)) as Hs2 by (rewrite Ew2; by eapply server_inv_upd).
  assert (peer_at (psvr w2) i p1) as Hp2 by (rewrite Ew2; by eapply upd_peer_at).
  eapply (end_download_spec i p1); [done|done|done|]. intros l w3 evs Hl Hout Eo Hk3.
  rewrite Ew2 in Hl. change (dl p1) with d in Hl. rewrite Eg in Hl. change (getchunks (upd_peer (psvr w) i p1)) with (getchunks (psvr w)) in Hl.
  assert (l = line) as -> by congruence.
  assert (exists off, EvWrite (cstr (filename (dl p))) off b ∈ evs) as (off & Hin).
  { remember (psvr w3) as s3. destruct Hout as [off cs Htx Hmk|evs s1 Hev Hst]; [exists off; rewrite <- Ef, <- Eb; by left|].
    exfalso. change (dl p1) with d in Hev. rewrite Eb, decide_True in Hev by done.
    destruct Hev as (_ & n & [Hn|Hn]); [by rewrite Hopen in Hn|by rewrite Hwrite in Hn]. }
  eapply (wp_mono _ (fun _ w4 => appends quiet w3 w4)).
  { eapply wp_mono; [eapply wp_and_wlp|intros a w4 [_ Hq]; exact Hq].
    - instantiate (1 := fun _ _ => True). destruct (_ >? 0); [|by wp_go]. by apply refresh_chunk_download_inv; [apply Hk3|].
    - match goal with |- wlp ?m _ _ => assert (only quiet m) as Ho by only_go end. apply Ho. }
  intros [] w4 (evs' & Eo' & _). wp_go. exists off. rewrite Eo', Eo, !elem_of_app. left. by right.
Qed.

(** A server that downloads chunk 0 from its only peer. *)
Definition loading_peer : Peer := sample_peer .{ is_downloading := true } .{ dl := sample_dl }.
Definition sample_loading : PeerServer := (upd_peer sample_idle 0 loading_peer) .{ dl_num := 1 }.

Lemma loading_safe : peer_safe 0 loading_peer.
Proof.
  destruct (sample_dl_inv zero_chunk) as [Hr _]. split.
  - exists []. split; [apply empty_ll_rep|constructor].
  - intros _. split; [exact (ro_safe _ _ _ Hr)|]. split; [reflexivity|]. split; [discriminate|reflexivity].
  - intros Hu. discriminate Hu.
Qed.

Lemma sample_loading_inv : @server_inv sample_env sample_loading.
Proof.
  assert (peer_at sample_idle 0 sample_peer) as Hp by (split; [reflexivity|split; [discriminate|reflexivity]]).
  apply (server_inv_change sample_idle sample_loading 0 sample_peer loading_peer).
  - exact sample_idle_inv.
  - exact Hp.
  - exact loading_safe.
  - reflexivity.
  - reflexivity.
  - reflexivity.
  - reflexivity.
  - exact zero_list_ok.
  - reflexivity.
  - reflexivity.
  - reflexivity.
  - discriminate.
  - intros _. split; [reflexivity|discriminate].
Qed.

(** The same server when it wants a chunk of zeros and only the last packet is missing. *)
Definition ending_dl : download_t :=
  sample_dl .{ rwin := init_recvwin .{ next_seq := CHUNK_PKTS } } .{ next_pkt_expected := CHUNK_PKTS }
            .{ started := true } .{ data_length := PAYLOAD_SIZE }.
Definition ending_line : ChunkLine := read_line 0 (sha1_spec zero_chunk).
Definition ending_peer : Peer := sample_peer .{ is_downloading := true } .{ dl := ending_dl }.
Definition sample_ending : PeerServer :=
  (upd_peer sample_idle 0 ending_peer) .{ dl_num := 1 }
    .{ getchunks := {| cl_count := 1; chunks := <[0%nat := ending_line]> (chunks zero_list) |} }.
Definition last_data : packet_t := data_pkt CHUNK_PKTS (pkt_slice zero_chunk CHUNK_PKTS) (zeros 460).

Lemma ending_receiver : receiver_inv ending_dl zero_chunk {| w_next := CHUNK_PKTS; w_got := ∅ |}.
Proof.
  destruct (sample_dl_inv zero_chunk) as [[Hsafe Hrep _ _ _ _] _].
  assert (buffer sample_dl = zero_chunk) as Eb by reflexivity.
  split; [|split; [reflexivity|split; [by apply not_elem_of_empty|]]].
  2: { change (dl_finished ending_dl) with false. cbn [w_next]. split; [by intros ?|]. rewrite CHUNK_PKTS_eq. by intros ?. }
  split.
  - destruct Hsafe as [H1 H2 H3 H4 H5]. split; [exact H1|exact H2|exact H3|exact H4|]. split; discriminate.
  - destruct Hrep as (Hbm & Hf & _ & _ & _). split; [exact Hbm|]. split; [exact Hf|]. split; [reflexivity|].
    split; [cbn [w_next]; rewrite CHUNK_PKTS_eq; unfold W_LIMIT, RECV_WINDOW_SIZE; lia|]. intros t. split; [intros Ht; destruct (not_elem_of_empty t Ht)|]. intros [_ Ht].
    exfalso. change (bm (rwin ending_dl)) with BM_CLR in Ht. rewrite bmbit_clear in Ht. discriminate Ht.
  - cbn [w_next]. lia.
  - intros t Ht. destruct (not_elem_of_empty t Ht).
  - reflexivity.
  - intros t [Ht1 [Ht2|Ht2]]; [|destruct (not_elem_of_empty t Ht2)]. change (buffer ending_dl) with zero_chunk.
    apply pkt_slice_at; [exact zero_chunk_length|]. cbn [w_next] in Ht2. lia.
Qed.

Lemma ending_list_ok : list_ok (getchunks sample_ending).
Proof.
  apply (list_ok_zset zero_list 0 ending_line); [apply zero_list_ok|reflexivity| |done|done].
  split; [|apply elem_of_app; right; by left].
  change (zlen (hexstring (sha1_spec zero_chunk) ++ [0]) = SHA1_BUF_SIZE).
  pose proof (sha1_spec_length zero_chunk) as Hl. rewrite length_app, Nat2Z.inj_add, hexstring_length, Hl. done.
Qed.

Lemma sample_ending_inv : @server_inv sample_env sample_ending.
Proof.
  assert (peer_at sample_idle 0 sample_peer) as Hp by (split; [reflexivity|split; [discriminate|reflexivity]]).
  apply (server_inv_change sample_idle sample_ending 0 sample_peer ending_peer).
  - exact sample_idle_inv.
  - exact Hp.
  - split.
    + exists []. split; [apply empty_ll_rep|constructor].
    + intros _. split; [exact (ro_safe _ _ _ (proj1 ending_receiver))|]. split; [reflexivity|]. split; [discriminate|reflexivity].
    + intros Hu. discriminate Hu.
  - reflexivity.
  - reflexivity.
  - reflexivity.
  - reflexivity.
  - exact ending_list_ok.
  - reflexivity.
  - reflexivity.
  - reflexivity.
  - discriminate.
  - intros _. split; [reflexivity|discriminate].
Qed.

Lemma last_data_carries : carries last_data CHUNK_PKTS (pkt_slice zero_chunk CHUNK_PKTS).
Proof.
  apply data_pkt_carries; [rewrite CHUNK_PKTS_eq; split; reflexivity || lia|].
  pose proof (pkt_slice_length zero_chunk CHUNK_PKTS zero_chunk_length) as Hl. rewrite CHUNK_PKTS_eq in *. specialize (Hl ltac:(lia)).
  rewrite length_app. change (length (zeros 460)) with 460%nat.
  unfold PAYLOAD_SIZE, MAX_PAYLOAD_SIZE, PACKET_SIZE, HEADER_SIZE in *. lia.
Qed.

(** The last packet arrives, and the chunk is written at its place. *)
Lemma data_written_verified_witness :
  exists r w', @handle_DATA sample_env last_data 0 {| psvr := sample_ending; tick := 0; out := [] |} = Some (r, w') /\
    EvWrite (cstr (filename ending_dl)) 0 zero_chunk ∈ out w' /\
    exists evs, out w' = [] ++ evs /\
    forall f off bytes, EvWrite f off bytes ∈ evs ->
      f = cstr (filename ending_dl) /\
      exists line buf n, zget (chunks (getchunks sample_ending)) 0 = Some line /\
        zlen buf = BT_CHUNK_SIZE /\ line_text line = sha1_text buf /\ bytes = take n buf /\
        (off = place_of line \/ off = 0 /\ exists n, @lseek_ok sample_env n = false).
Proof.
  set (w := {| psvr := sample_ending; tick := 0; out := [] |}).
  assert (peer_at sample_ending 0 ending_peer) as Hp by (split; [reflexivity|split; [discriminate|reflexivity]]).
  pose proof last_data_carries as Hpkt. assert (packet_valid last_data) as Hv by apply Hpkt.
  destruct (@last_packet_written sample_env zero_chunk ending_line last_data 0 ending_peer CHUNK_PKTS
    {| w_next := CHUNK_PKTS; w_got := ∅ |} w sample_ending_inv Hp) as (r & w' & E & off & Hin).
  - reflexivity.
  - reflexivity.
  - exact ending_receiver.
  - exact Hpkt.
  - rewrite CHUNK_PKTS_eq. lia.
  - exact zero_chunk_length.
  - intros t Ht. destruct (decide (t = CHUNK_PKTS)) as [|Hne]; [by right|]. left. split; [lia|]. left. cbn [w_next]. lia.
  - reflexivity.
  - apply cstr_plain, hexdigit_nonzero, hexstring_digits, sha1_spec_bytes.
  - reflexivity.
  - reflexivity.
  - destruct (@data_written_verified sample_env last_data 0 ending_peer w w' r
      (@si_mem _ _ sample_ending_inv) Hp Hv E) as (evs & Eo & Hevs).
    exists r, w'. split; [exact E|]. rewrite Eo in Hin. cbn [out w app] in Hin.
    destruct (Hevs _ _ _ Hin) as (_ & line & buf & n & Hl & _ & _ & _ & Hoff).
    assert (ending_line = line) as <- by (injection Hl as <-; reflexivity).
    assert (off = 0) as -> by (destruct Hoff as [->|[-> _]]; reflexivity).
    split; [rewrite Eo; exact Hin|]. exists evs. split; [exact Eo|exact Hevs].
Defined.
