(* ===== verification/Outcomes.v ===== *)
(** * Outcomes: how transfers start and end (parse_packet.c, send_helper.c, peer_server.c)

    A [GET] starts an upload; the last packet of a chunk settles it, saved or to be
    fetched again; a peer that stays silent is given up, and its chunk with it. *)

From S2P Require Import Prelude RecvWin LinkedList Sha Chunk ChunkList Machine Util Packet Sending Hashes.
From S2P Require Import Upload Download SendHelper PeerServer ParsePacket ServerInv ServerOps ServerSafe Handlers.
From S2P Require Import CommandLine PeerInit Requests Integrity.

Section Specs.
Context `{Env}.

(** The upload of line [h], mapped as [b], after its first packet. *)
Definition upload_started (i h : Z) (b : list Z) (u : upload_t) : Prop :=
  ul_run i u /\ has_index u = h /\ ul_data u = data_mapped b /\ status u = UL_STATUS_SLOW_START /\
  window_size u = 1 /\ last_pkt_acked u = 0 /\ last_pkt_sent u = 1 /\ max_pkt_sent u = 1 /\ ul_finished u = false.

Lemma start_upload_full i p h line w (Q : Z * upload_t -> World -> Prop) :
  clock_ok -> mmap_ok -> zget (peers (peerlist (psvr w))) i = Some p ->
  zget (chunks (haschunks (psvr w))) h = Some line -> is_place (cl_id line) ->
  (forall n b u' w' evs, mmap n (place_of line) = Some b -> upload_started i h b u' ->
     psvr w' = (psvr w) .{ ul_num := s32 (ul_num (psvr w) + 1) } ->
     Forall (winsize_any (psvr w) i) evs -> out w' = out w ++ evs ++ data_events (sock (psvr w)) (addr p) b 1 1 ->
     Q (0, u') w') -> wp (start_upload i h) Q w.
Proof.
  intros Hck Hmm Hp Hline Hpl HQ. unfold start_upload. wp_go.
  eapply ul_init_spec; [by eapply zget_Some_range|exact Hline|done|]. intros n w1 [Ew1 (evs & Eo1 & Hevs)].
  destruct (Hmm n (place_of line)) as (b & Eb & Hb). rewrite Eb. cbn [fst snd]. change (0 <? 0) with false. wp_go.
  apply (ul_send_spec b _ _ _ p); [apply ul_start_wf|by split|by rewrite Ew1|].
  intros ok u' w2 Hwf' _ Hok Hmv Hem. destruct ok; [|by destruct Hok as [_ ?]].
  assert (sent_target ((ul_start i h) .{ ul_data := data_mapped b }) = 1) as Et by reflexivity. rewrite Et in Hok.
  destruct Hmv as (ts & to & rx & _ & _ & Eu). rewrite Hok in Eu, Hem. cbn [fst snd]. change (0 <? 0) with false. wp_go.
  destruct Hem as [Ew2 Eo2]. rewrite Ew1 in Eo2. change (last_pkt_sent _) with 0 in Eo2.
  apply (HQ n b u' _ evs); [done| | |done|]; simpl.
  - clear Et Eo2. split; [|by rewrite Eu]. split_and!; [done|by rewrite Eu|by rewrite Eu|exists b; split; [by rewrite Eu|done]].
  - by rewrite Ew2, Ew1.
  - by rewrite Eo2, Eo1, <- app_assoc.
Qed.
End Specs.

(** The first line of the chunks of the server with a text. *)
Definition first_line (cl : ChunkList) (t : list Z) (h : Z) (line : ChunkLine) : Prop :=
  0 <= h < cl_count cl /\ zget (chunks cl) h = Some line /\ line_text line = t /\
  forall j l, 0 <= j < h -> zget (chunks cl) j = Some l -> line_text l <> t.

Lemma first_line_of_hash cl hash h : list_wf cl -> 0 ∈ hash -> hash2Index cl hash = Some h ->
  (h = -1 /\ forall j l, 0 <= j < cl_count cl -> zget (chunks cl) j = Some l -> line_text l <> cstr hash) \/
  exists line, first_line cl (cstr hash) h line.
Proof.
  intros Hwf Hh Eh. pose proof Hwf as (_ & Hc & _).
  destruct (hash2Index_loop_spec cl hash (Z.to_nat (cl_count cl)) 0 Hwf Hh) as (r & Hr & Hcase); [lia..|].
  rewrite Z2Nat.id, Z.add_0_l in Hcase by lia. unfold hash2Index in Eh. assert (r = h) as -> by congruence.
  destruct Hcase as [[-> Hno]|(Hr1 & (line & El & Et) & Hno)].
  - left. split; [done|]. intros j l Hj Hl Ht. apply (Hno j Hj). by exists l.
  - right. exists line. split_and!; [lia|lia|done|done|]. intros j l Hj Hl Ht. apply (Hno j Hj). by exists l.
Qed.

(** What a [GET] of the hash with text [t] leads to. *)
Inductive get_outcome `{Env} (w : World) (i : Z) (p : Peer) (t : list Z) : World -> Prop :=
  | get_ignored w' :
      is_alive p = false \/ max_conn (psvr w) <= ul_num (psvr w) \/
        (forall j l, 0 <= j < cl_count (haschunks (psvr w)) -> zget (chunks (haschunks (psvr w))) j = Some l -> line_text l <> t) ->
      psvr w' = psvr w -> out w' = out w -> get_outcome w i p t w'
  | get_started h line n b u evs w' :
      is_alive p = true -> ul_num (psvr w) < max_conn (psvr w) -> first_line (haschunks (psvr w)) t h line ->
      mmap n (place_of line) = Some b -> upload_started i h b u ->
      psvr w' = (upd_peer (psvr w) i (p .{ ul := u } .{ is_uploading := true }))
        .{ ul_num := ul_num (psvr w) + bool_int (negb (is_uploading p)) } ->
      Forall (winsize_any (psvr w) i) evs ->
      out w' = out w ++ evs ++ data_events (sock (psvr w)) (addr p) b 1 1 -> get_outcome w i p t w'.

(** A [GET], with what the server becomes. *)
Lemma get_run `{Env} (pkt : packet_t) (i : Z) (p : Peer) (w : World) :
  clock_ok -> mmap_ok -> server_inv (psvr w) -> peer_at (psvr w) i p -> packet_valid pkt -> type pkt = PACKET_TYPE_GET ->
  exists w', handle_GET pkt i w = Some (0, w') /\ get_outcome w i p (asked pkt 0) w'.
Proof.
  intros Hck Hmm Hs Hp Hv Hty.
  enough (wp (handle_GET pkt i) (fun r w' => r = 0 /\ get_outcome w i p (asked pkt 0) w') w) as (r & w' & E & -> & Ho)
    by (by exists w').
  unfold handle_GET. wp_go. eapply wp_get_peer; [apply Hp|]. destruct (is_alive p) eqn:Ea; cbn [negb].
  2: { wp_go. split; [done|]. apply get_ignored; [by left|done..]. }
  wp_go. rewrite Z.geb_leb. destruct (Z.leb_spec (max_conn (psvr w)) (ul_num (psvr w))) as [|Hlim].
  { wp_go. split; [done|]. apply get_ignored; [by right; left|done..]. }
  wp_go. pose proof Hv as (_ & _ & _ & _ & _ & _ & Hlen). specialize (Hlen Hty).
  destruct (GET_HASH_text pkt 0 (replicate (Z.to_nat SHA1_BUF_SIZE) 0) Hv Hlen) as (hb & Ehb & _ & Hh0 & Etx); [done..|].
  eapply wp_lift; [exact Ehb|]. wp_go. pose proof (sm_has _ (si_mem _ Hs)) as [Hhas Hpl].
  destruct (hash2Index_total (haschunks (psvr w)) hb Hhas Hh0) as (h & Eh). eapply wp_lift; [exact Eh|]. wp_go.
  destruct (first_line_of_hash _ _ _ Hhas Hh0 Eh) as [[-> Hno]|(line & Hfl)]; rewrite Etx in *.
  { change (-1 <? 0) with true. wp_go. split; [done|]. apply get_ignored; [by right; right|done..]. }
  pose proof Hfl as (Hh & Hline & _). destruct (Z.ltb_spec h 0); [lia|]. wp_go.
  pose proof (sm_peers _ (si_mem _ Hs) _ _ Hp) as Hsafe.
  eapply (stop_upload_spec i p); [done|done|]. intros dm w1 Ew1 Eo1. wp_go. set (p1 := p .{ ul := _ }) in Ew1.
  assert (zget (peers (peerlist (psvr w1))) i = Some p1) as Hp1
    by (rewrite Ew1; exact (upd_peer_get _ _ p1 _ (proj1 Hp))).
  eapply (start_upload_full i p1); [done|done|exact Hp1|rewrite Ew1; exact Hline|by eapply places_line|].
  intros n b u w2 evs Eb Hu Ew2 Hevs Eo2. wp_go. cbn [fst snd].
  assert (zget (peers (peerlist (psvr w2))) i = Some p1) as Hp2 by (by rewrite Ew2).
  eapply wp_get_peer; [exact Hp2|]. wp_go. eapply wp_set_peer; [exact Hp2|]. wp_go. split; [done|].
  eapply (get_started w i p _ h line n b u evs); [done|done|done|done|done| | |].
  - pose proof (si_ul _ Hs Hck) as Hcu. pose proof (ul_num_range _ Hs Hcu). change MAX_PEER_NUM with 1024 in *.
    assert (s32 (ul_num (psvr w1) + 1) = ul_num (psvr w) + bool_int (negb (is_uploading p))) as En.
    { rewrite Ew1. simpl. destruct (is_uploading p) eqn:Eu; simpl.
      - destruct (ul_num_dec _ _ _ Hs Hcu Hp Eu) as [-> ?]. rewrite s32_small by lia. lia.
      - rewrite s32_small by lia. lia. }
    rewrite <- En. simpl. rewrite Ew2. simpl. rewrite Ew1. unfold upd_peer. simpl. by rewrite list_insert_insert_eq.
  - eapply Forall_impl; [exact Hevs|]. intros e (win & q & ms & Hq & ->). rewrite Hp1 in Hq. injection Hq as <-.
    exists win, p, ms. split; [apply Hp|done].
  - simpl. by rewrite Eo2, Eo1, Ew1.
Qed.

(** C19: a valid [GET] of a living peer, while an upload is free, for a hash the server
    has, stops that peer's upload and starts the one of the first line with the hash:
    the chunk is mapped and its first packet sent; any other [GET] changes nothing. *)
Theorem get_starts_upload `{Env} (pkt : packet_t) (i : Z) (p : Peer) (w : World) :
  clock_ok -> mmap_ok -> server_inv (psvr w) -> peer_at (psvr w) i p -> packet_valid pkt -> type pkt = PACKET_TYPE_GET ->
  exists w', handle_GET pkt i w = Some (0, w') /\ get_outcome w i p (asked pkt 0) w'.
Proof. apply get_run. Qed.

(** C20: when the last packet of a chunk is in, the chunk is saved: written whole, marked
    fetched and counted, if its SHA-1 is the wanted one and the file takes it; otherwise
    it is to be fetched again. Then, while chunks are missing, the next are chosen. *)
Theorem download_settled `{Env} (i : Z) (p : Peer) (w : World) :
  server_inv (psvr w) -> peer_at (psvr w) i p -> is_downloading p = true ->
  exists line evs w1 w', zget (chunks (getchunks (psvr w))) (get_index (dl p)) = Some line /\
    end_outcome (psvr w) i p line (psvr w1) evs /\ out w1 = out w ++ evs /\
    end_download i w = Some (tt, w') /\
    (if dl_remain (psvr w1) >? 0 then refresh_chunk_download else ret tt) w1 = Some (tt, w').
Proof.
  intros Hs Hp Hd.
  enough (wp (end_download i) (fun _ w' => exists line evs w1,
    zget (chunks (getchunks (psvr w))) (get_index (dl p)) = Some line /\
    end_outcome (psvr w) i p line (psvr w1) evs /\ out w1 = out w ++ evs /\
    (if dl_remain (psvr w1) >? 0 then refresh_chunk_download else ret tt) w1 = Some (tt, w')) w)
    as ([] & w' & E & line & evs & w1 & ? & ? & ? & ?) by (by exists line, evs, w1, w').
  eapply end_download_spec; [done|exact Hp|done|]. intros line w1 evs El Ho Eo Hk.
  assert (wp (if dl_remain (psvr w1) >? 0 then refresh_chunk_download else ret tt) (fun _ _ => True) w1)
    as ([] & w' & E & _).
  { destruct (_ >? 0); [|by wp_go]. by apply refresh_chunk_download_inv; [apply Hk|]. }
  exists tt, w'. split; [exact E|]. by exists line, evs, w1.
Qed.

(** C21: a peer whose download has counted more than five timeouts is given up: it is
    dead, its transfers are over and uncounted, its chunk is to be fetched again, and no
    other peer or chunk changes. *)
Theorem silent_peer_given_up `{Env} (i : Z) (p : Peer) (r : Z) (d : download_t) (w w1 : World) :
  server_inv (psvr w) -> peer_at (psvr w) i p -> is_downloading p = true ->
  dl_check_timeout (dl p) w = Some ((r, d), w1) -> r > MAX_TIMEOUT_CNT ->
  exists w' q line, check_dl_timeout i w = Some (tt, w') /\ out w' = out w1 /\
    zget (peers (peerlist (psvr w'))) i = Some q /\ is_alive q = false /\ is_downloading q = false /\ is_uploading q = false /\
    (forall j, j <> i -> zget (peers (peerlist (psvr w'))) j = zget (peers (peerlist (psvr w))) j) /\
    dl_num (psvr w') = dl_num (psvr w) - 1 /\
    (clock_ok -> ul_num (psvr w') = ul_num (psvr w) - bool_int (is_uploading p)) /\
    dl_remain (psvr w') = dl_remain (psvr w) /\
    zget (chunks (getchunks (psvr w))) (get_index (dl p)) = Some line /\
    zget (chunks (getchunks (psvr w'))) (get_index (dl p)) = Some (line .{ state := unfetched }) /\
    forall j, j <> get_index (dl p) -> zget (chunks (getchunks (psvr w'))) j = zget (chunks (getchunks (psvr w))) j.
Proof.
  intros Hs Hp Edl Er Hr. pose proof (sm_peers _ (si_mem _ Hs) _ _ Hp) as Hsafe.
  destruct (ps_dl _ _ Hsafe Edl) as (Hds & Hidx & Hget).
  assert (wp (dl_check_timeout (dl p)) (fun rd w' => dl_safe (snd rd) /\ dl_frame (dl p) (snd rd) /\ psvr w' = psvr w) w) as Hd.
  { apply dl_check_timeout_safe; [done|rewrite Hidx; by eapply peer_at_ok|]. intros r' d' w' H1 H2 Hem.
    split_and!; [done|done|by eapply emits_psvr]. }
  destruct (wp_run _ _ _ _ _ Hd Er) as (Hd' & (Eg & Ei & _) & Ew1). cbn [snd] in *.
  match goal with |- exists w' q line, _ = Some (tt, w') /\ @?P w' q line =>
    enough (wp (check_dl_timeout i) (fun _ w' => exists q line, P w' q line) w) as ([] & w' & E & q & line & HP)
      by (exists w', q, line; exact (conj E HP)) end.
  unfold check_dl_timeout. wp_go. eapply wp_get_peer; [apply Hp|]. rewrite Edl. wp_go.
  exists (r, d), w1. split; [exact Er|]. cbn [fst snd]. wp_go.
  eapply wp_get_peer; [rewrite Ew1; apply Hp|]. wp_go. eapply wp_set_peer; [rewrite Ew1; apply Hp|]. wp_go.
  destruct (Z.gtb_spec r MAX_TIMEOUT_CNT); [|lia]. wp_go.
  set (p1 := p .{ dl := d }). set (s1 := upd_peer (psvr w) i p1).
  assert (peer_at s1 i p1) as Hp1 by (by eapply upd_peer_at).
  match goal with |- wp _ _ ?x => set (w2 := x) end. assert (psvr w2 = s1 /\ out w2 = out w1) as [Ew2 Eo2].
  { unfold w2. simpl. by rewrite Ew1. }
  clearbody w2. eapply wp_get_peer; [rewrite Ew2; apply Hp1|]. unfold kill_download. wp_go.
  apply mark_chunk_spec; [rewrite Ew2; apply Hs|change (dl p1) with d; by rewrite Eg|].
  change (dl p1) with d. rewrite Eg, Ew2. intros cs (line & Hline & Hset) _. wp_go.
  assert (peer_safe i p1) as Hsafe1.
  { destruct Hsafe as [? _ ?]. split; [done| |done]. intros _. split; [done|]. simpl. by rewrite Ei, Eg. }
  apply (stop_upload_spec i p1); [exact Hp1|done|]. intros dm w3 Ew3 Eo3. wp_go.
  set (p2 := p1 .{ ul := (ul p1) .{ ul_data := dm } }) in Ew3. simpl in Eo3.
  assert (psvr w3 = (with_chunks (upd_peer s1 i p2) cs) .{ dl_num := dl_num (psvr w) - 1 }
    .{ ul_num := if is_uploading p then s32 (ul_num (psvr w) - 1) else ul_num (psvr w) }) as Ew3'.
  { rewrite Ew3. destruct (dl_num_dec _ _ _ Hs Hp Edl) as [<- _]. done. }
  clear Ew3.
  assert (zget (peers (peerlist (psvr w3))) i = Some p2) as Hp3 by (rewrite Ew3'; exact (upd_peer_get s1 i p2 p1 (proj1 Hp1))).
  eapply wp_get_peer; [exact Hp3|]. wp_go. eapply wp_set_peer; [exact Hp3|].
  exists (die p2), line. rewrite Ew3'. pose proof (proj2 Hp1) as Hi.
  split; [simpl; congruence|]. split; [rewrite <- Ew3'; exact (upd_peer_get _ _ (die p2) _ Hp3)|].
  do 3 (split; [done|]). split.
  { intros j Hj. etransitivity; [apply (upd_peer_get_ne _ i j (die p2)); lia|].
    etransitivity; [exact (upd_peer_get_ne s1 i j p2 ltac:(lia) Hj)|]. apply (upd_peer_get_ne (psvr w)); lia. }
  split; [done|]. split; [|split; [done|split; [exact Hline|split; [by eapply zget_zset_eq|]]]].
  - intros Hck. simpl. pose proof (si_ul _ Hs Hck) as Hcu. destruct (is_uploading p) eqn:Eu; simpl; [|lia].
    by destruct (ul_num_dec _ _ _ Hs Hcu Hp Eu) as [-> _].
  - intros j Hj. simpl. by eapply zget_zset_ne.
Qed.

(** *** Examples *)

(** A request for the only chunk of the server. *)
Definition get_one : packet_t := hash_packet PACKET_TYPE_GET [0; 0; 0] [one_hash] (replicate 1464 0).
Lemma get_one_valid : packet_valid get_one.
Proof. apply hash_packet_valid; [by right; right|done|by repeat constructor|done|done]. Qed.

Lemma sample_one_inv : @server_inv sample_env sample_one.
Proof.
  pose proof sample_idle_inv as Hs. pose proof one_list_ok.
  by apply (server_inv_ext sample_idle); try done; apply Hs.
Qed.

Lemma get_starts_upload_witness :
  exists w', @handle_GET sample_env get_one 0 {| psvr := sample_one; tick := 0; out := [] |} = Some (0, w') /\
    @get_outcome sample_env {| psvr := sample_one; tick := 0; out := [] |} 0 sample_peer (asked get_one 0) w'.
Proof.
  apply (@get_starts_upload sample_env get_one 0 sample_peer {| psvr := sample_one; tick := 0; out := [] |}).
  - exact sample_clock.
  - exact sample_mmap.
  - exact sample_one_inv.
  - exact sample_one_peer.
  - exact get_one_valid.
  - reflexivity.
Defined.

Lemma download_settled_witness :
  exists line evs w1 w', zget (chunks (getchunks sample_loading)) (get_index (dl loading_peer)) = Some line /\
    @end_outcome sample_env sample_loading 0 loading_peer line (psvr w1) evs /\ out w1 = [] ++ evs /\
    @end_download sample_env 0 {| psvr := sample_loading; tick := 0; out := [] |} = Some (tt, w') /\
    (if dl_remain (psvr w1) >? 0 then @refresh_chunk_download sample_env else ret tt) w1 = Some (tt, w').
Proof.
  apply (@download_settled sample_env 0 loading_peer {| psvr := sample_loading; tick := 0; out := [] |}).
  - exact sample_loading_inv.
  - split; [reflexivity|split; [discriminate|reflexivity]].
  - reflexivity.
Defined.

(** The same peer after five timeouts. *)
Definition silent_peer : Peer := loading_peer .{ dl := sample_dl .{ dl_timeout_cnt := 5 } }.
Definition sample_silent : PeerServer := upd_peer sample_loading 0 silent_peer.

Lemma sample_silent_inv : @server_inv sample_env sample_silent.
Proof.
  assert (peer_at sample_loading 0 loading_peer) as Hp by (split; [reflexivity|split; [discriminate|reflexivity]]).
  apply (server_inv_upd sample_loading 0 loading_peer); [exact sample_loading_inv|exact Hp| |reflexivity|reflexivity].
  destruct loading_safe as [Hq Hd Hu]. split; [exact Hq| |exact Hu]. intros _.
  destruct (Hd eq_refl) as ([H1 H2 H3 H4 H5] & H6 & H7).
  split; [split; [exact H1|exact H2|exact H3|exact H4|exact H5]|split; [exact H6|exact H7]].
Qed.

Lemma silent_peer_given_up_witness :
  exists w' q line, @check_dl_timeout sample_env 0 {| psvr := sample_silent; tick := 9; out := [] |} = Some (tt, w') /\
    zget (peers (peerlist (psvr w'))) 0 = Some q /\ is_alive q = false /\ is_downloading q = false /\
    dl_num (psvr w') = 0 /\ zget (chunks (getchunks (psvr w'))) 0 = Some (line .{ state := unfetched }).
Proof.
  set (w := {| psvr := sample_silent; tick := 9; out := [] |}).
  assert (match @dl_check_timeout sample_env (dl silent_peer) w with Some ((r, _), _) => r >? MAX_TIMEOUT_CNT | None => false end
    = true) as E by (vm_compute; reflexivity).
  destruct (@dl_check_timeout sample_env (dl silent_peer) w) as [[[r d] w1]|] eqn:Er; [|discriminate E].
  destruct (@silent_peer_given_up sample_env 0 silent_peer r d w w1) as
    (w' & q & line & E1 & _ & E2 & E3 & E4 & _ & _ & E5 & _ & _ & _ & E6 & _).
  - exact sample_silent_inv.
  - split; [reflexivity|split; [discriminate|reflexivity]].
  - reflexivity.
  - exact Er.
  - rewrite Z.gtb_ltb in E. apply Z.ltb_lt in E. lia.
  - exists w', q, line. exact (conj E1 (conj E2 (conj E3 (conj E4 (conj E5 E6))))).
Defined.
