(* ===== verification/Schedule.v ===== *)
(** * Schedule: fetching a list of chunks, abstractly

    What peer_server.c, send_helper.c and parse_packet.c together do with the list of
    wanted chunks, as a transition system: which line each peer is fetching, the state
    of the lines and what is written. A step starts a fetch, gives one up or saves a
    chunk. The invariants of the system are proved here; that the server's operations
    are such steps is in ScheduleSteps.v. *)

From S2P Require Import Prelude RecvWin LinkedList Sha Chunk ChunkList Machine Util Packet Sending.
From S2P Require Import ServerInv ServerOps ServerSafe Handlers Integrity.

(** ** The system *)

(** A line of the list: its state, its place in the file and the text of its hash. *)
Record want := { w_state : ChunkState; w_id : Z; w_text : list Z }.
#[export] Instance want_settable : Settable want := fun l => Build_want (w_state l) (w_id l) (w_text l).

(** The lines, of which the first [f_count] are wanted; for each peer, the line it
    fetches and the file that line is for; the number of chunks left; the names of the
    output file and of the list; the writes and the reports so far. *)
Record fetch := {
  f_lines : list want; f_count : Z; f_jobs : list (option (Z * list Z)); f_left : Z;
  f_output : list Z; f_list : list Z; f_log : list event }.
#[export] Instance fetch_settable : Settable fetch := fun s => Build_fetch
  (f_lines s) (f_count s) (f_jobs s) (f_left s) (f_output s) (f_list s) (f_log s).

Definition set_line (k : Z) (st : ChunkState) (l : want) (s : fetch) : fetch :=
  s .{ f_lines := <[Z.to_nat k := l .{ w_state := st }]> (f_lines s) }.
Definition set_job (i : Z) (j : option (Z * list Z)) (s : fetch) : fetch :=
  s .{ f_jobs := <[Z.to_nat i := j]> (f_jobs s) }.

Section Steps.
Context `{Env}.

(** Where the bytes of a line go: its place, or the start when [lseek] fails. *)
Definition placed (l : want) (off : Z) : Prop :=
  off = w_id l * BT_CHUNK_SIZE \/ off = 0 /\ exists n, lseek_ok n = false.
(** The bytes of a line. *)
Definition bytes_of (l : want) (buf : list Z) : Prop :=
  zlen buf = BT_CHUNK_SIZE /\ w_text l = sha1_text buf.

(** A write that was cut short. *)
Definition cut_short (l : want) (name : list Z) (evs : list event) : Prop :=
  evs = [] \/ exists off buf n, placed l off /\ bytes_of l buf /\ evs = [EvWrite name off (take n buf)].

Inductive fetch_step (s : fetch) : fetch -> Prop :=
  | step_start i k l :
      zget (f_jobs s) i = Some None -> zget (f_lines s) k = Some l -> k < f_count s -> w_state l = unfetched ->
      fetch_step s (set_job i (Some (k, f_output s)) (set_line k fetching l s))
  | step_drop i k name l evs st :
      zget (f_jobs s) i = Some (Some (k, name)) -> zget (f_lines s) k = Some l ->
      st = unfetched \/ st = fetched /\ w_state l = fetched -> cut_short l name evs ->
      fetch_step s ((set_job i None (set_line k st l s)) .{ f_log := f_log s ++ evs })
  | step_save i k name l off buf :
      zget (f_jobs s) i = Some (Some (k, name)) -> zget (f_lines s) k = Some l ->
      placed l off -> bytes_of l buf ->
      fetch_step s ((set_job i None (set_line k fetched l s))
        .{ f_left := s32 (f_left s - 1) }
        .{ f_log := f_log s ++ EvWrite name off buf ::
             (if s32 (f_left s - 1) =? 0 then [EvGot (f_list s)] else []) }).

(** The [GET] command renames the files, and loads a list of unfetched lines when
    its file can be opened. *)
Inductive command_step (s : fetch) : fetch -> Prop :=
  | step_rename o g : command_step s (s .{ f_output := o } .{ f_list := g })
  | step_load o g new :
      Forall (fun l => w_state l = unfetched) new -> zlen new <= MAX_CHUNK_NUM ->
      command_step s (s .{ f_output := o } .{ f_list := g }
        .{ f_lines := new ++ drop (length new) (f_lines s) } .{ f_count := zlen new }
        .{ f_left := zlen new }).

Definition any_step (s t : fetch) : Prop := fetch_step s t \/ command_step s t.
End Steps.

(** ** The books are kept

    Between two commands a line that is being fetched has exactly one peer that
    fetches it, and the counter counts the lines that are not there yet. *)

Definition not_there (l : want) : bool := negb (bool_decide (w_state l = fetched)).
Definition wanted (s : fetch) : list want := take (Z.to_nat (f_count s)) (f_lines s).
Definition missing (s : fetch) : Z := zlen (filter (fun l => not_there l = true) (wanted s)).

Record books (s : fetch) : Prop := {
  bk_count : 0 <= f_count s <= zlen (f_lines s) /\ zlen (f_lines s) <= MAX_CHUNK_NUM;
  bk_left : f_left s = missing s;
  bk_job : forall i k name, zget (f_jobs s) i = Some (Some (k, name)) ->
    name = f_output s /\ k < f_count s /\ exists l, zget (f_lines s) k = Some l /\ w_state l = fetching;
  bk_one : forall i j k n1 n2, zget (f_jobs s) i = Some (Some (k, n1)) -> zget (f_jobs s) j = Some (Some (k, n2)) -> i = j;
  bk_line : forall k l, k < f_count s -> zget (f_lines s) k = Some l -> w_state l = fetching ->
    exists i name, zget (f_jobs s) i = Some (Some (k, name)) }.

Lemma zget_insert {A} (l : list A) i j x y : zget l i = Some y ->
  zget (<[Z.to_nat i := x]> l) j = if decide (j = i) then Some x else zget l j.
Proof.
  intros Hy. pose proof (zget_Some_range _ _ _ Hy) as Hi.
  assert (zset l i x = Some (<[Z.to_nat i := x]> l)) as E by (unfold zset; by rewrite decide_True).
  by rewrite (zget_zset _ _ j _ _ E).
Qed.

(** How a change of a line's state moves the count. *)
Lemma missing_set_line s k l st : zget (f_lines s) k = Some l -> 0 <= f_count s -> k < f_count s ->
  missing (set_line k st l s) =
    missing s - bool_int (not_there l) + bool_int (not_there (l .{ w_state := st })).
Proof.
  intros Hl Hc Hk. pose proof (zget_Some_range _ _ _ Hl) as Hr. unfold missing, wanted. simpl.
  rewrite take_insert_lt by lia. apply filter_insert_length. rewrite lookup_take_lt by lia.
  unfold zget in Hl. by rewrite decide_True in Hl by lia.
Qed.

Lemma missing_ext s t : f_lines t = f_lines s -> f_count t = f_count s -> missing s = missing t.
Proof. intros El Ec. unfold missing, wanted. by rewrite El, Ec. Qed.

Lemma missing_range s : 0 <= missing s <= zlen (f_lines s).
Proof.
  unfold missing, wanted. pose proof (length_filter (fun l => not_there l = true) (take (Z.to_nat (f_count s)) (f_lines s))) as Hl.
  rewrite length_take in Hl. lia.
Qed.

(** A wanted line that is not there is counted. *)
Lemma missing_pos s k l : zget (f_lines s) k = Some l -> 0 <= f_count s -> k < f_count s -> w_state l <> fetched ->
  0 < missing s.
Proof.
  intros Hl Hc Hk Hst. pose proof (missing_set_line s k l fetched Hl Hc Hk) as E.
  pose proof (missing_range (set_line k fetched l s)). unfold not_there in E.
  rewrite (bool_decide_eq_false_2 (w_state l = fetched)), bool_decide_eq_true_2 in E by done. simpl in E. lia.
Qed.

(** When something is counted, a wanted line is not there. *)
Lemma missing_line s : 0 < missing s -> exists k l, 0 <= k < f_count s /\ zget (f_lines s) k = Some l /\ w_state l <> fetched.
Proof.
  unfold missing. destruct (filter (fun l => not_there l = true) (wanted s)) as [|l ls] eqn:E; [simpl; lia|]. intros _.
  assert (l ∈ filter (fun l => not_there l = true) (wanted s)) as Hl by (rewrite E; left).
  apply list_elem_of_filter in Hl as [Hn Hl]. apply list_elem_of_lookup in Hl as [k Hk]. unfold wanted in Hk.
  apply lookup_take_Some in Hk as [Hk Hlt]. exists (Z.of_nat k), l. split; [lia|]. split.
  - unfold zget. by rewrite decide_True, Nat2Z.id by lia.
  - unfold not_there in Hn. by apply negb_true_iff, bool_decide_eq_false in Hn.
Qed.

(** A peer takes a line that nobody fetches. *)
Lemma books_take s i k l : books s -> zget (f_jobs s) i = Some None -> zget (f_lines s) k = Some l ->
  k < f_count s -> w_state l = unfetched -> books (set_job i (Some (k, f_output s)) (set_line k fetching l s)).
Proof.
  intros [[Hc Hmax] Hleft Hjob Hone Hline] Hi Hl Hk Hu.
  assert (forall j n, zget (f_jobs s) j = Some (Some (k, n)) -> False) as Hno.
  { intros j n Hj. destruct (Hjob _ _ _ Hj) as (_ & _ & l' & Hl' & Hf). congruence. }
  assert (f_left s = missing (set_line k fetching l s)) as Hleft'.
  { rewrite (missing_set_line _ _ _ _ Hl), Hleft by lia. unfold not_there. rewrite !bool_decide_eq_false_2; simpl; [lia|done|by rewrite Hu]. }
  split; simpl.
  - by rewrite length_insert.
  - exact Hleft'.
  - intros j k' name. rewrite (zget_insert _ _ j _ _ Hi), (zget_insert _ _ k' _ _ Hl).
    destruct (decide (j = i)) as [->|Hj]; [intros [= <- <-]; rewrite decide_True by done; by eauto|].
    intros Hk'. destruct (Hjob _ _ _ Hk') as (? & ? & l' & Hl' & Hf). split_and!; [done..|].
    destruct (decide (k' = k)) as [->|]; [by eauto|]. by exists l'.
  - intros j1 j2 k' n1 n2. rewrite !(zget_insert _ _ _ _ _ Hi).
    destruct (decide (j1 = i)) as [->|], (decide (j2 = i)) as [->|]; intros H1 H2; simplify_eq; [done| | |].
    + by destruct (Hno _ _ H2).
    + by destruct (Hno _ _ H1).
    + by eapply Hone.
  - intros k' l' Hk'. rewrite (zget_insert _ _ k' _ _ Hl). destruct (decide (k' = k)) as [->|Hne].
    { intros _ _. exists i, (f_output s). rewrite (zget_insert _ _ i _ _ Hi). by rewrite decide_True. }
    intros Hl' Hf. destruct (Hline _ _ Hk' Hl' Hf) as (j & name & Hj). exists j, name.
    rewrite (zget_insert _ _ j _ _ Hi). destruct (decide (j = i)); [congruence|done].
Qed.

(** A peer gives its line back, in a state [st]. *)
Lemma books_release s t i k name l st : books s -> zget (f_jobs s) i = Some (Some (k, name)) ->
  zget (f_lines s) k = Some l -> st <> fetching ->
  f_lines t = f_lines (set_line k st l s) -> f_jobs t = f_jobs (set_job i None s) -> f_count t = f_count s ->
  f_output t = f_output s -> f_left t = missing (set_line k st l s) -> books t.
Proof.
  intros [[Hc Hmax] Hleft Hjob Hone Hline] Hi Hl Hst El Ej Ec Eo Eleft. simpl in El, Ej.
  split; rewrite ?El, ?Ej, ?Ec, ?Eo.
  - by rewrite length_insert.
  - rewrite Eleft. by apply missing_ext.
  - intros j k' nm. rewrite (zget_insert _ _ j _ _ Hi), (zget_insert _ _ k' _ _ Hl).
    destruct (decide (j = i)) as [->|Hj]; [done|]. intros Hk'. destruct (Hjob _ _ _ Hk') as (? & ? & ?).
    split_and!; [done..|]. rewrite decide_False; [done|]. intros ->. by apply Hj, (Hone _ _ _ _ _ Hk' Hi).
  - intros j1 j2 k' n1 n2. rewrite !(zget_insert _ _ _ _ _ Hi).
    destruct (decide (j1 = i)), (decide (j2 = i)); try done. apply Hone.
  - intros k' l' Hk'. rewrite (zget_insert _ _ k' _ _ Hl). destruct (decide (k' = k)) as [->|Hne]; [by intros [= <-]|].
    intros Hl' Hf'. destruct (Hline _ _ Hk' Hl' Hf') as (j & nm & Hj). exists j, nm.
    rewrite (zget_insert _ _ j _ _ Hi). destruct (decide (j = i)); [congruence|done].
Qed.

Section Books.
Context `{Env}.

Lemma books_step s t : books s -> fetch_step s t -> books t.
Proof.
  intros Hs. pose proof Hs as [[Hc Hmax] Hleft Hjob _ _].
  intros [i k l Hi Hl Hk Hu|i k name l evs st Hi Hl Hs' _|i k name l off buf Hi Hl Hoff Hb].
  - by apply books_take.
  - destruct (Hjob _ _ _ Hi) as (-> & Hk & l' & Hl' & Hf). rewrite Hl in Hl'. injection Hl' as <-.
    assert (st = unfetched) as -> by (destruct Hs' as [|[_ ?]]; [done|congruence]).
    eapply (books_release s _ i k _ l unfetched); try done. simpl.
    rewrite (missing_set_line _ _ _ _ Hl) by lia. unfold not_there.
    rewrite !bool_decide_eq_false_2 by (done || by rewrite Hf). simpl. lia.
  - destruct (Hjob _ _ _ Hi) as (-> & Hk & l' & Hl' & Hf). rewrite Hl in Hl'. injection Hl' as <-.
    eapply (books_release s _ i k _ l fetched); try done. simpl.
    rewrite (missing_set_line _ _ _ _ Hl) by lia. unfold not_there.
    rewrite bool_decide_eq_false_2, bool_decide_eq_true_2 by (done || by rewrite Hf). simpl.
    pose proof (missing_range s). change MAX_CHUNK_NUM with 4096 in *. rewrite s32_small by lia. lia.
Qed.

Lemma books_steps s t : books s -> rtc fetch_step s t -> books t.
Proof. intros Hs. induction 1 as [|s t u Hst _ IH]; [done|]. by apply IH, (books_step s). Qed.
End Books.

(** ** The file *)

(** [write] at a position: what lies before it and is not there yet is zero. *)
Definition write_at (f : list Z) (off : Z) (bs : list Z) : list Z :=
  take (Z.to_nat off) (f ++ zeros (off - zlen f)) ++ bs ++ drop (Z.to_nat (off + zlen bs)) f.
(** The contents of the file [name] after these events. *)
Definition replay_event (name : list Z) (f : list Z) (e : event) : list Z :=
  match e with EvWrite nm off bs => if decide (nm = name) then write_at f off bs else f | _ => f end.
Definition replay (name : list Z) : list Z -> list event -> list Z := foldl (replay_event name).

Lemma zeros_len n : 0 <= n -> zlen (zeros n) = n.
Proof. intros. unfold zeros. rewrite length_replicate. lia. Qed.

Lemma write_at_before f off : 0 <= off -> length (take (Z.to_nat off) (f ++ zeros (off - zlen f))) = Z.to_nat off.
Proof.
  intros Ho. rewrite length_take, length_app. destruct (Z.leb_spec 0 (off - zlen f)) as [Hl|Hl]; [|lia].
  pose proof (zeros_len _ Hl). lia.
Qed.

Lemma range_write_same f off bs : 0 <= off -> range (write_at f off bs) off (zlen bs) = bs.
Proof.
  intros Ho. unfold range, write_at. rewrite drop_app_length' by (symmetry; by apply write_at_before).
  by rewrite take_app_length' by lia.
Qed.

Lemma lookup_write_other f off bs x : 0 <= off -> Z.of_nat x < zlen f ->
  Z.of_nat x < off \/ off + zlen bs <= Z.of_nat x -> write_at f off bs !! x = f !! x.
Proof.
  intros Ho Hx Hout. unfold write_at. pose proof (write_at_before f off Ho) as Hl. destruct Hout as [Hb|Ha].
  - rewrite lookup_app_l by lia. rewrite lookup_take_lt by lia. by rewrite lookup_app_l by lia.
  - rewrite lookup_app_r by lia. rewrite lookup_app_r by lia. rewrite lookup_drop. f_equal. lia.
Qed.

Lemma range_write_other f off bs a n : 0 <= off -> 0 <= a -> 0 <= n -> a + n <= zlen f ->
  a + n <= off \/ off + zlen bs <= a -> range (write_at f off bs) a n = range f a n.
Proof.
  intros Ho Ha Hn Hf Hout. unfold range. apply list_eq. intros x. destruct (decide (x < Z.to_nat n)%nat) as [Hx|Hx].
  - rewrite !lookup_take_lt, !lookup_drop by done. apply lookup_write_other; lia.
  - by rewrite !lookup_take_ge by lia.
Qed.

(** Pieces of the same length at different places. *)
Lemma range_place_other f C a b bs : 0 < C -> 0 <= a -> 0 <= b -> b <> a -> zlen bs <= C ->
  zlen (range f (a * C) C) = C -> range (write_at f (b * C) bs) (a * C) C = range f (a * C) C.
Proof.
  intros Hpos Ha Hb Hne Hbs Hl. unfold range in Hl. rewrite length_take, length_drop in Hl.
  apply range_write_other; [nia|nia|nia|nia|].
  destruct (Z.lt_total b a) as [|[|]]; [right|done|left]; nia.
Qed.

Section File.
Context `{Env}.

(** Where the bytes that are written come from. *)
Definition wrote (G : list Z -> Prop) (e : event) : Prop := match e with EvWrite _ _ bs => G bs | _ => True end.

(** The place of a line holds its chunk, which [G] knows. *)
Definition stored (G : list Z -> Prop) (f : list Z) (l : want) : Prop :=
  bytes_of l (range f (w_id l * BT_CHUNK_SIZE) BT_CHUNK_SIZE) /\ G (range f (w_id l * BT_CHUNK_SIZE) BT_CHUNK_SIZE).

Lemma stored_same G f l l' : w_id l' = w_id l -> w_text l' = w_text l -> stored G f l -> stored G f l'.
Proof. unfold stored, bytes_of. by intros -> ->. Qed.

Lemma stored_here (G : list Z -> Prop) f l buf : 0 <= w_id l -> bytes_of l buf -> G buf ->
  stored G (write_at f (w_id l * BT_CHUNK_SIZE) buf) l.
Proof.
  unfold stored, bytes_of. remember BT_CHUNK_SIZE as C eqn:EC. assert (C = 524288) as HC by (by rewrite EC). clear EC.
  intros Hid [Hb Ht] HG. pose proof (range_write_same f (w_id l * C) buf ltac:(nia)) as E.
  rewrite Hb in E. by rewrite E.
Qed.

Lemma stored_elsewhere G f l id bs : stored G f l -> 0 <= w_id l -> 0 <= id -> id <> w_id l -> zlen bs <= BT_CHUNK_SIZE ->
  stored G (write_at f (id * BT_CHUNK_SIZE) bs) l.
Proof.
  unfold stored, bytes_of. assert (0 < BT_CHUNK_SIZE) as Hpos by done. revert Hpos. generalize BT_CHUNK_SIZE. intros C Hpos.
  intros [[Hl Ht] HG] Hid Hid' Hne Hb. by rewrite range_place_other.
Qed.

(** The lines have places of their own, whose offsets are [int]s. *)
Record own_places (s : fetch) : Prop := {
  op_range : forall k l, k < f_count s -> zget (f_lines s) k = Some l -> 0 <= w_id l < MAX_CHUNK_NUM;
  op_own : forall k1 k2 l1 l2, k1 < f_count s -> k2 < f_count s -> zget (f_lines s) k1 = Some l1 ->
    zget (f_lines s) k2 = Some l2 -> w_id l1 = w_id l2 -> k1 = k2 }.

(** Since the log was [log0], every line that was fetched has been stored, and the
    report is made when no line is left. *)
Definition filed (log0 : list event) (s : fetch) : Prop :=
  exists evs, f_log s = log0 ++ evs /\
    (forall G f0 k l, Forall (wrote G) evs -> k < f_count s -> zget (f_lines s) k = Some l -> w_state l = fetched ->
       stored G (replay (f_output s) f0 evs) l) /\
    (forall g, EvGot g ∈ evs -> f_left s = 0 /\ g = f_list s) /\
    (f_left s = 0 -> 0 < f_count s -> EvGot (f_list s) ∈ evs).

Lemma own_places_lines s t : f_count t = f_count s ->
  (forall k l, zget (f_lines t) k = Some l -> exists l0, zget (f_lines s) k = Some l0 /\ w_id l0 = w_id l) ->
  own_places s -> own_places t.
Proof.
  intros Ec Hl [Hr Ho]. split; rewrite Ec.
  - intros k l Hk Hget. destruct (Hl _ _ Hget) as (l0 & H0 & <-). by apply (Hr k).
  - intros k1 k2 l1 l2 H1 H2 G1 G2 E. destruct (Hl _ _ G1) as (a & Ha & Ea), (Hl _ _ G2) as (b & Hb & Eb).
    apply (Ho k1 k2 a b); congruence.
Qed.

Lemma own_places_step s t : fetch_step s t -> own_places s -> own_places t.
Proof.
  assert (forall k st l t', zget (f_lines s) k = Some l -> f_count t' = f_count s ->
    f_lines t' = <[Z.to_nat k := l .{ w_state := st }]> (f_lines s) -> own_places s -> own_places t') as Hset.
  { intros k st l t' Hl Ec El. apply own_places_lines; [done|]. intros k' l'. rewrite El, (zget_insert _ _ _ _ _ Hl).
    destruct (decide (k' = k)) as [->|]; [intros [= <-]; by exists l|by exists l']. }
  intros [i k l ? Hl|i k name l evs st ? Hl|i k name l off buf ? Hl]; by eapply (Hset k _ l).
Qed.

Lemma placed_here l off : (forall n, lseek_ok n = true) -> placed l off -> off = w_id l * BT_CHUNK_SIZE.
Proof. intros Hs [->|[_ [n Hn]]]; [done|by rewrite Hs in Hn]. Qed.

Lemma replay_app name f e1 e2 : replay name f (e1 ++ e2) = replay name (replay name f e1) e2.
Proof. apply foldl_app. Qed.
Lemma replay_got name f l : replay name f (EvGot <$> l) = f.
Proof. unfold replay. induction l; [done|exact IHl]. Qed.

(** What other lines hold survives the write of a line. *)
Lemma stored_after_write G s f k k' l l' off bs :
  (forall n, lseek_ok n = true) -> own_places s -> k < f_count s -> k' < f_count s -> k' <> k ->
  zget (f_lines s) k = Some l -> zget (f_lines s) k' = Some l' -> placed l off -> zlen bs <= BT_CHUNK_SIZE ->
  stored G f l' -> stored G (replay (f_output s) f [EvWrite (f_output s) off bs]) l'.
Proof.
  intros Hseek [Hr Ho] Hk Hk' Hne Hl Hl' Hoff Hb Hst. cbn. rewrite decide_True by done.
  pose proof (Hr _ _ Hk Hl). pose proof (Hr _ _ Hk' Hl'). rewrite (placed_here l off) by done.
  apply stored_elsewhere; [done|lia|lia| |done]. intros E. apply Hne. by eapply Ho.
Qed.

Lemma filed_step log0 s t : (forall n, lseek_ok n = true) -> books s -> own_places s -> fetch_step s t ->
  filed log0 s -> filed log0 t.
Proof.
  intros Hseek Hbk Hown Hstep (evs & Elog & Hst & Hgot1 & Hgot2). pose proof Hbk as [[Hc Hmax] Hleft Hjob _ _].
  destruct Hstep as [i k l Hi Hl Hk Hu|i k name l es st Hi Hl Hs' Hcut|i k name l off buf Hi Hl Hoff Hb].
  - exists evs. split_and!; [done| |done|done]. intros G f0 k' l' HG Hk'. simpl. rewrite (zget_insert _ _ _ _ _ Hl).
    destruct (decide (k' = k)); [by intros [= <-]|]. by apply Hst.
  - destruct (Hjob _ _ _ Hi) as (-> & Hk & l1 & Hl1 & Hf). rewrite Hl in Hl1. injection Hl1 as <-.
    exists (evs ++ es). split_and!; [by simpl; rewrite Elog, app_assoc| | |].
    + intros G f0 k' l' [HG _]%Forall_app Hk'. simpl. rewrite (zget_insert _ _ _ _ _ Hl). destruct (decide (k' = k)) as [->|Hne].
      { intros [= <-]. simpl. destruct Hs' as [->|[_ ?]]; congruence. }
      intros Hl' Hf'. pose proof (Hst G f0 _ _ HG Hk' Hl' Hf') as Hold. rewrite replay_app.
      destruct Hcut as [->|(off & buf & n & Hoff & [Hb _] & ->)]; [done|].
      eapply (stored_after_write G s _ k k'); try done. rewrite length_take. lia.
    + intros g Hg. apply Hgot1. apply elem_of_app in Hg as [Hg|Hg]; [done|].
      destruct Hcut as [->|(off & buf & n & _ & _ & ->)]; [by apply elem_of_nil in Hg|by apply list_elem_of_singleton in Hg].
    + intros H0 Hpos. apply elem_of_app. left. by apply Hgot2.
  - destruct (Hjob _ _ _ Hi) as (-> & Hk & l1 & Hl1 & Hf). rewrite Hl in Hl1. injection Hl1 as <-.
    assert (f_left s <> 0) as Hpos.
    { rewrite Hleft. assert (0 < missing s); [|lia]. apply (missing_pos s k l); [done|lia|done|by rewrite Hf]. }
    set (got := if s32 (f_left s - 1) =? 0 then [EvGot (f_list s)] else []).
    assert (got = EvGot <$> (if s32 (f_left s - 1) =? 0 then [f_list s] else [])) as Egot by (unfold got; by destruct (_ =? 0)).
    exists (evs ++ EvWrite (f_output s) off buf :: got). split_and!; [by simpl; rewrite Elog, app_assoc| | |].
    + intros G f0 k' l' [HG [HG1 _]%Forall_cons]%Forall_app Hk'. simpl. rewrite (zget_insert _ _ _ _ _ Hl), replay_app.
      change (EvWrite (f_output s) off buf :: got) with ([EvWrite (f_output s) off buf] ++ got).
      rewrite (replay_app _ _ [_]), Egot, replay_got. pose proof Hb as [Hlb _]. destruct (decide (k' = k)) as [->|Hne].
      * intros [= <-] _. pose proof (op_range _ Hown _ _ Hk Hl). cbn. rewrite decide_True by done.
        rewrite (placed_here l off) by done.
        apply (stored_same _ _ l); [done|done|]. apply stored_here; [lia|exact Hb|exact HG1].
      * intros Hl' Hf'. eapply (stored_after_write G s _ k k'); try done; [by rewrite Hlb|]. by apply (Hst G f0 k').
    + intros g Hg. apply elem_of_app in Hg as [Hg|Hg]; [by destruct (Hgot1 _ Hg)|].
      apply elem_of_cons in Hg as [?|Hg]; [done|]. unfold got in Hg. destruct (Z.eqb_spec (s32 (f_left s - 1)) 0); [|by apply elem_of_nil in Hg].
      apply list_elem_of_singleton in Hg. injection Hg as ->. done.
    + intros H0 _. simpl in H0. unfold got. rewrite H0. apply elem_of_app. right. right. left.
Qed.

Lemma filed_steps log0 s t : (forall n, lseek_ok n = true) -> rtc fetch_step s t -> books s -> own_places s ->
  filed log0 s -> books t /\ own_places t /\ filed log0 t.
Proof.
  intros Hseek. induction 1 as [|s t u Hst _ IH]; [done|]. intros Hb Ho Hf.
  apply IH; [by eapply books_step|by eapply own_places_step|by eapply filed_step].
Qed.
End File.
