(* ===== verification/ScheduleSteps.v ===== *)
(** * ScheduleSteps: the server's operations are steps of the schedule

    [abs] reads the abstract state of Schedule.v off the server. Sending, uploads,
    queues and timestamps leave it alone ([still]); choosing a chunk is [step_start],
    a timeout [step_drop], the end of a download [step_drop] or [step_save], and the
    [GET] command a [command_step]. *)

From S2P Require Import Prelude RecvWin LinkedList Sha Chunk ChunkList Machine Util Packet Sending.
From S2P Require Import Upload Download SendHelper PeerServer ParsePacket ServerInv ServerOps ServerSafe Handlers.
From S2P Require Import UserInput CommandLine EventLoop Integrity Schedule.

(** ** The abstract state *)

Definition want_of (l : ChunkLine) : want := {| w_state := state l; w_id := cl_id l; w_text := line_text l |}.
Definition job (p : Peer) : option (Z * list Z) :=
  if is_downloading p then Some (get_index (dl p), cstr (filename (dl p))) else None.
Definition loud (e : event) : bool :=
  match e with EvWrite _ _ _ | EvGot _ => true | EvSend _ _ _ | EvWinsize _ _ _ => false end.
Definition loud_of (evs : list event) : list event := filter (fun e => loud e = true) evs.

Definition view (s : PeerServer) (log : list event) : fetch :=
  {| f_lines := want_of <$> chunks (getchunks s); f_count := cl_count (getchunks s);
     f_jobs := job <$> peers (peerlist s); f_left := dl_remain s; f_output := cstr (dl_filename s);
     f_list := cstr (getchunk_file s); f_log := log |}.
Definition abs (w : World) : fetch := view (psvr w) (loud_of (out w)).

Lemma loud_app a b : loud_of (a ++ b) = loud_of a ++ loud_of b.
Proof. apply filter_app. Qed.
Lemma loud_quiet evs : Forall quiet evs -> loud_of evs = [].
Proof.
  induction 1 as [|e evs He _ IH]; [done|]. unfold loud_of. rewrite filter_cons_False; [exact IH|]. by destruct e.
Qed.

Lemma zget_fmap {A B} (f : A -> B) (l : list A) i : zget (f <$> l) i = f <$> zget l i.
Proof. unfold zget. case_decide; [apply list_lookup_fmap|done]. Qed.

Lemma abs_appends w w' : psvr w' = psvr w -> appends quiet w w' -> abs w' = abs w.
Proof. intros Ep (evs & Eo & Hq). unfold abs. by rewrite Ep, Eo, loud_app, (loud_quiet _ Hq), app_nil_r. Qed.
Lemma abs_emits P w w' : (forall e, P e -> quiet e) -> emits P w w' -> abs w' = abs w.
Proof. intros HP Hem. apply abs_appends; [by eapply emits_psvr|]. eapply appends_mono; [exact HP|by eapply emits_appends]. Qed.

Lemma view_upd_peer s i p p' log : zget (peers (peerlist s)) i = Some p ->
  view (upd_peer s i p') log = set_job i (job p') (view s log).
Proof. intros _. unfold view, set_job. simpl. by rewrite list_fmap_insert. Qed.

Lemma set_job_same s i j : zget (f_jobs s) i = Some j -> set_job i j s = s.
Proof.
  intros Hj. unfold zget in Hj. case_decide; [|done]. destruct s. unfold set_job. simpl in *. f_equal.
  by apply list_insert_id.
Qed.

Lemma abs_job w i p : zget (peers (peerlist (psvr w))) i = Some p -> zget (f_jobs (abs w)) i = Some (job p).
Proof. intros Hp. simpl. by rewrite zget_fmap, Hp. Qed.

(** ** Operations that leave it alone *)

Definition still {A} (m : M A) : Prop := forall w, wlp m (fun _ w' => abs w' = abs w) w.

Section Still.
Lemma still_ret {A} (a : A) : still (ret a).
Proof. intros w. by apply wlp_ret. Qed.
Lemma still_gets {A} (f : PeerServer -> A) : still (gets f).
Proof. intros w. by apply wlp_gets. Qed.
Lemma still_ask {A} (f : nat -> A) : still (ask f).
Proof. intros w. by apply wlp_ask. Qed.
Lemma still_lift {A} (o : option A) : still (lift o).
Proof. intros w. by apply wlp_lift. Qed.
Lemma still_emit e : quiet e -> still (emit e).
Proof. intros He w. apply wlp_emit. apply abs_appends; [done|]. exists [e]. by rewrite Forall_singleton. Qed.
Lemma still_modify f : (forall s log, view (f s) log = view s log) -> still (modify f).
Proof. intros Hf w. apply wlp_modify. apply Hf. Qed.
Lemma still_bind {A B} (m : M A) (k : A -> M B) : still m -> (forall a, still (k a)) -> still (bind m k).
Proof.
  intros Hm Hk w. apply wlp_bind. eapply wlp_mono; [apply Hm|]. intros a w1 E1.
  eapply wlp_mono; [apply Hk|]. intros b w2 E2. congruence.
Qed.
End Still.

Create HintDb still_db.
#[export] Hint Resolve still_ret still_gets still_ask still_lift : still_db.

(** [still_go] follows the structure of a program. *)
Ltac still_go :=
  repeat first
    [ solve [auto with still_db]
    | lazymatch goal with |- still (bind _ _) => apply still_bind; [|intros ?] end
    | apply still_emit; done
    | apply still_modify; intros; reflexivity
    | match goal with
      | |- still (match ?x with _ => _ end) => destruct x
      | |- still (let '(_, _) := ?x in _) => destruct x
      end
    | progress cbn beta zeta ].

Section Quiet.
Context `{Env}.

Lemma still_get_timestamp_now : still get_timestamp_now.
Proof. unfold get_timestamp_now. still_go. Qed.
Lemma still_get_peer i : still (get_peer i).
Proof. unfold get_peer. still_go. Qed.
Lemma still_stack_packet : still stack_packet.
Proof. unfold stack_packet. still_go. Qed.
Hint Resolve still_get_timestamp_now still_get_peer still_stack_packet : still_db.
Lemma still_write_winsize i x : still (write_winsize i x).
Proof. unfold write_winsize. still_go. Qed.
Hint Resolve still_write_winsize : still_db.

Lemma still_send_udp_loop sk pi buf n : forall i, still (send_udp_loop n i sk pi buf).
Proof. induction n; intros i; cbn [send_udp_loop]; still_go. Qed.
Hint Resolve still_send_udp_loop : still_db.
Lemma still_send_udp sk pi pc buf : still (send_udp sk pi pc buf).
Proof. unfold send_udp. still_go. Qed.
Lemma still_hash_loop ty ci c n : forall j cnt pkt, still (hash_loop n ty ci j cnt c pkt).
Proof. induction n; intros j cnt pkt; cbn [hash_loop]; still_go. Qed.
Hint Resolve still_send_udp still_hash_loop : still_db.
Lemma still_fill_packet pp cc i j pkt : still (fill_packet pp cc i j pkt).
Proof. unfold fill_packet. still_go. Qed.
Hint Resolve still_fill_packet : still_db.
Lemma still_send_packet_loop pp pc cc n : forall i j pkt, still (send_packet_loop n pp pc cc i j pkt).
Proof. induction n; intros i j pkt; cbn [send_packet_loop]; still_go. Qed.
Hint Resolve still_send_packet_loop : still_db.
Lemma still_send_packet pp : still (send_packet pp).
Proof. unfold send_packet. still_go. Qed.
Hint Resolve still_send_packet : still_db.
Lemma still_send_whohas : still send_whohas.
Proof. unfold send_whohas. still_go. Qed.
Lemma still_ihave_loop pkt n : forall i k, still (ihave_loop n i k pkt).
Proof. induction n; intros i k; cbn [ihave_loop]; still_go. Qed.
Hint Resolve still_send_whohas still_ihave_loop : still_db.
Lemma still_send_ihave pkt i : still (send_ihave pkt i).
Proof. unfold send_ihave. still_go. Qed.
Lemma still_addr2Index a : still (addr2Index a).
Proof. unfold addr2Index. still_go. Qed.
Lemma still_receive_datagram dg : still (receive_datagram dg).
Proof. unfold receive_datagram. still_go. Qed.
End Quiet.
#[export] Hint Resolve still_get_timestamp_now still_get_peer still_write_winsize still_send_packet still_send_whohas
  still_send_ihave still_addr2Index still_receive_datagram : still_db.

(** *** Uploads *)

Section Uploads.
Context `{Env}.

Lemma still_update_rtt rtt dev ts : still (update_rtt rtt dev ts).
Proof. unfold update_rtt. still_go. Qed.
Hint Resolve still_update_rtt : still_db.
Lemma still_ul_send_loop n : forall pp u, still (ul_send_loop n pp u).
Proof. induction n; intros pp u; cbn [ul_send_loop]; still_go. Qed.
Hint Resolve still_ul_send_loop : still_db.
Lemma still_ul_send u : still (ul_send u).
Proof. unfold ul_send. still_go. Qed.
Lemma still_ul_loss u : still (ul_loss u).
Proof. unfold ul_loss. still_go. Qed.
Lemma still_ul_grow u a : still (ul_grow u a).
Proof. unfold ul_grow. still_go. Qed.
Hint Resolve still_ul_send still_ul_loss still_ul_grow : still_db.
Lemma still_ul_new_ack u a : still (ul_new_ack u a).
Proof. unfold ul_new_ack. still_go. Qed.
Lemma still_ul_note_ack u a : still (ul_note_ack u a).
Proof. unfold ul_note_ack. still_go. Qed.
Lemma still_ul_count_ack u a : still (ul_count_ack u a).
Proof. unfold ul_count_ack. still_go. Qed.
Hint Resolve still_ul_new_ack still_ul_note_ack still_ul_count_ack : still_db.
Lemma still_ul_handle_ack u a : still (ul_handle_ack u a).
Proof. unfold ul_handle_ack. still_go. Qed.
Lemma still_ul_ca_grow u now : still (ul_ca_grow u now).
Proof. unfold ul_ca_grow. still_go. Qed.
Hint Resolve still_ul_handle_ack still_ul_ca_grow : still_db.
Lemma still_ul_check_timeout u : still (ul_check_timeout u).
Proof. unfold ul_check_timeout. still_go. Qed.
Lemma still_update_upload u pkt : still (update_upload u pkt).
Proof. unfold update_upload. still_go. Qed.
Lemma still_finish_upload u : still (finish_upload u).
Proof. unfold finish_upload, ul_deinit, unload_data. still_go. Qed.
Lemma still_start_upload i h : still (start_upload i h).
Proof. unfold start_upload, ul_init, load_data. still_go. Qed.
Lemma still_print_download_progress p : still (print_download_progress p).
Proof. unfold print_download_progress. still_go. Qed.
End Uploads.
#[export] Hint Resolve still_update_rtt still_ul_check_timeout still_update_upload still_finish_upload still_start_upload
  still_print_download_progress : still_db.

(** *** Peers *)

Lemma wlp_still {A} (m : M A) (Q : A -> World -> Prop) w :
  still m -> (forall a w', abs w' = abs w -> Q a w') -> wlp m Q w.
Proof. intros Hm HQ. eapply wlp_mono; [apply Hm|]. exact HQ. Qed.

Section Peers.
Context `{Env}.

(** Writing a peer that fetches the same. *)
Lemma wlp_set_same i p w (Q : unit -> World -> Prop) :
  zget (f_jobs (abs w)) i = Some (job p) -> (forall w', abs w' = abs w -> Q tt w') -> wlp (set_peer i p) Q w.
Proof.
  intros Hj HQ. apply wlp_set_peer, HQ. pose proof Hj as Hj'. simpl in Hj'. rewrite zget_fmap in Hj'.
  apply fmap_Some in Hj' as (q & Hq & _). unfold abs. simpl. rewrite (view_upd_peer _ _ _ _ _ Hq).
  by apply set_job_same.
Qed.
(** Writing a peer with another job. *)
Lemma wlp_set_job i p j w (Q : unit -> World -> Prop) :
  zget (f_jobs (abs w)) i = Some j -> (forall w', abs w' = set_job i (job p) (abs w) -> Q tt w') -> wlp (set_peer i p) Q w.
Proof.
  intros Hj HQ. apply wlp_set_peer, HQ. simpl in Hj. rewrite zget_fmap in Hj.
  apply fmap_Some in Hj as (q & Hq & _). unfold abs. simpl. by rewrite (view_upd_peer _ _ _ _ _ Hq).
Qed.

(** A peer is read, something is computed, the peer is written. *)
Lemma still_update {A B} i (m : Peer -> M A) (f : Peer -> A -> Peer) (k : Peer -> A -> M B) :
  (forall p, still (m p)) -> (forall p a, job (f p a) = job p) -> (forall p a, still (k p a)) ->
  still (p <- get_peer i ;; a <- m p ;; set_peer i (f p a) ;;; k p a).
Proof.
  intros Hm Hf Hk w. apply wlp_bind, wlp_get_peer. intros p Hp. apply wlp_bind, wlp_still; [apply Hm|].
  intros a w1 E1. apply wlp_bind, wlp_set_same; [rewrite E1, Hf; by apply abs_job|]. intros w2 E2.
  eapply wlp_mono; [apply Hk|]. intros b w3 E3. congruence.
Qed.

(** The same, when the peer written is read after the computation. *)
Lemma still_rewrite {B} i (f : Peer -> Peer) (k : M B) :
  (forall p, job (f p) = job p) -> still k -> still (p <- get_peer i ;; set_peer i (f p) ;;; k).
Proof.
  intros Hf Hk. apply (still_update i (fun _ => ret tt) (fun p _ => f p) (fun _ _ => k)); [|done|done].
  intros p. apply still_ret.
Qed.
Lemma still_rewrite_end i (f : Peer -> Peer) :
  (forall p, job (f p) = job p) -> still (p <- get_peer i ;; set_peer i (f p)).
Proof.
  intros Hf w. apply wlp_bind, wlp_get_peer. intros p Hp. apply wlp_set_same; [rewrite Hf; by apply abs_job|done].
Qed.

Lemma still_kill_upload_of i : still (kill_upload_of i).
Proof.
  unfold kill_upload_of. apply still_bind; [apply still_get_peer|]. intros p. apply still_bind; [apply still_finish_upload|].
  intros r. by apply (still_rewrite_end i (fun p => p .{ ul := snd r })).
Qed.
Lemma still_set_alive i : still (set_alive i).
Proof.
  intros w. unfold set_alive. apply wlp_bind, wlp_get_peer. intros p Hp. destruct (is_alive p); [by apply wlp_ret|].
  apply wlp_set_same; [|done]. by apply (abs_job _ _ p).
Qed.
Hint Resolve still_kill_upload_of still_set_alive : still_db.

Lemma still_handle_WHOHAS pkt i : still (handle_WHOHAS pkt i).
Proof. unfold handle_WHOHAS. still_go. Qed.

Lemma still_handle_GET pkt i : still (handle_GET pkt i).
Proof.
  unfold handle_GET. apply still_bind; [still_go|intros p]. destruct (is_alive p); cbn [negb]; [|still_go].
  do 2 (apply still_bind; [still_go|intros ?]). destruct (_ >=? _); [still_go|].
  do 3 (apply still_bind; [still_go|intros ?]). destruct (_ <? 0); [still_go|].
  do 2 (apply still_bind; [still_go|intros ?]). apply still_rewrite; [done|still_go].
Qed.

Lemma still_handle_ACK pkt i : still (handle_ACK pkt i).
Proof.
  unfold handle_ACK. apply still_bind; [still_go|intros p]. destruct (_ || _); [still_go|].
  apply still_bind; [still_go|intros r]. apply still_rewrite; [done|]. apply still_bind; [|still_go].
  destruct (is_upload_finished (snd r)); [|still_go]. apply still_bind; [still_go|intros ?]. by apply still_rewrite_end.
Qed.

Lemma still_parse_download_loop pkt n : forall i dq, still (parse_download_loop n i pkt dq).
Proof. induction n; intros i dq; cbn [parse_download_loop]; unfold new_chunkline; still_go. Qed.
Lemma still_parse_download pkt i : still (parse_download pkt i).
Proof.
  intros w. unfold parse_download. apply wlp_bind, wlp_get_peer. intros p Hp.
  apply wlp_bind, wlp_lift. intros dq _. apply wlp_bind, wlp_lift. intros cnt _.
  apply wlp_bind, wlp_still; [apply still_parse_download_loop|]. intros [fail dq1] w1 E1.
  apply wlp_bind, wlp_lift. intros dq2 _. apply wlp_bind, wlp_set_same; [rewrite E1; by apply (abs_job _ _ p)|].
  intros w2 E2. apply wlp_ret. congruence.
Qed.
End Peers.
#[export] Hint Resolve still_kill_upload_of still_set_alive still_handle_WHOHAS still_handle_GET still_handle_ACK
  still_parse_download : still_db.

(** ** The end of a fetch and the start of the next *)

Lemma set_job_twice s i j j' : set_job i j' (set_job i j s) = set_job i j' s.
Proof. unfold set_job. simpl. by rewrite list_insert_insert_eq. Qed.

(** A string that is copied can be read back. *)
Lemma cstr_nonzero src : Forall (fun c => c <> 0) (cstr src).
Proof. induction src as [|x src IH]; simpl; [constructor|]. destruct (Z.eqb_spec x 0); [constructor|by constructor]. Qed.
Lemma strcpy_cstr dst src f : strcpy dst src = Some f -> cstr f = cstr src.
Proof.
  unfold strcpy, zwrite. do 2 (case_decide; [|done]). intros [= <-]. cbn [Z.to_nat take app].
  rewrite <- app_assoc. apply cstr_plain, cstr_nonzero.
Qed.

Section Starts.
Context `{Env}.

Lemma wlp_mark_chunk i st w (Q : unit -> World -> Prop) :
  (forall l w', zget (f_lines (abs w)) i = Some l -> abs w' = set_line i st l (abs w) -> Q tt w') ->
  wlp (mark_chunk i st) Q w.
Proof.
  intros HQ. unfold mark_chunk, set_get_state. apply wlp_bind, wlp_gets, wlp_bind, wlp_lift. intros s' E.
  unfold id in E. destruct (zget (chunks (getchunks (psvr w))) i) as [c|] eqn:Ec; [|by cbn in E]. rewrite option_bind_Some in E.
  unfold zset in E. case_decide; [|by cbn in E]. rewrite option_bind_Some in E. injection E as <-. apply wlp_modify.
  apply (HQ (want_of c)); [simpl; by rewrite zget_fmap, Ec|].
  unfold abs, view, set_line. simpl. by rewrite list_fmap_insert.
Qed.

Lemma find_get_loop_some n : forall i gc sha j, find_get_loop n i gc sha = Some (Some j) -> 0 <= i ->
  i <= j < i + Z.of_nat n /\ exists c, zget (chunks gc) j = Some c /\ state c = unfetched.
Proof.
  induction n as [|n IH]; intros i gc sha j; cbn [find_get_loop]; [done|]. intros E Hi.
  destruct (zget (chunks gc) i) as [c|] eqn:Ec; [|by cbn in E]. rewrite option_bind_Some in E.
  assert (find_get_loop n (i + 1) gc sha = Some (Some j) -> i <= j < i + Z.of_nat (S n) /\
    exists c, zget (chunks gc) j = Some c /\ state c = unfetched) as Hrec.
  { intros E'. apply IH in E' as [? ?]; [|lia]. split; [lia|done]. }
  destruct (decide (state c = unfetched)) as [Hu|Hu]; [|by apply Hrec].
  destruct (strcmp _ _) as [d|]; [|by cbn in E]. rewrite option_bind_Some in E.
  destruct (d =? 0); [|by apply Hrec]. injection E as <-. split; [lia|]. by exists c.
Qed.

Lemma find_loop_some fuel : forall gc dq iter node j, find_loop fuel gc dq iter = Some (Some (node, j)) ->
  0 <= j < cl_count gc /\ exists c, zget (chunks gc) j = Some c /\ state c = unfetched.
Proof.
  induction fuel as [|fuel IH]; intros gc dq iter node j; cbn [find_loop]; (destruct (iter =? ll_end); [done|]); [done|].
  destruct (ll_item dq iter) as [cl|]; [|by cbn]. rewrite option_bind_Some.
  destruct (find_get_loop _ _ _ _) as [[i|]|] eqn:E; [| |by cbn]; rewrite option_bind_Some.
  - intros [= <- <-]. apply find_get_loop_some in E as [? ?]; [|done]. split; [lia|done].
  - destruct (ll_next dq iter) as [it|]; [|by cbn]. rewrite option_bind_Some. apply IH.
Qed.

(** The chooser gives a wanted line that is not fetched. *)
Lemma wlp_find_unfetched_chunk i w (Q : Z -> World -> Prop) :
  zget (f_jobs (abs w)) i = Some None ->
  (forall r w', abs w' = abs w -> (0 <= r -> r < f_count (abs w) /\
     exists l, zget (f_lines (abs w)) r = Some l /\ w_state l = unfetched) -> Q r w') ->
  wlp (find_unfetched_chunk i) Q w.
Proof.
  intros Hidle HQ. unfold find_unfetched_chunk. destruct (i <? 0); [apply wlp_ret, HQ; [done|lia]|].
  apply wlp_bind, wlp_get_peer. intros p Hp. apply wlp_bind, wlp_gets, wlp_bind, wlp_lift. intros iter _.
  apply wlp_bind, wlp_lift. intros [[node r]|] E; [|apply wlp_ret, HQ; [done|lia]].
  apply find_loop_some in E as (Hr & c & Hc & Hu). apply wlp_bind, wlp_lift. intros dq _.
  assert (is_downloading p = false) as Hd.
  { rewrite (abs_job _ _ _ Hp) in Hidle. unfold job in Hidle. by destruct (is_downloading p). }
  apply wlp_bind, wlp_set_same; [rewrite Hidle; unfold job; simpl; by rewrite Hd|]. intros w' E. apply wlp_ret, HQ; [done|].
  intros _. split; [apply Hr|]. exists (want_of c). simpl. rewrite zget_fmap, Hc. done.
Qed.

Lemma wlp_start_download i k fname w (Q : Z * download_t -> World -> Prop) :
  (forall d w', abs w' = abs w -> get_index d = k -> cstr (filename d) = cstr fname -> Q (0, d) w') ->
  wlp (start_download i k fname) Q w.
Proof.
  intros HQ. unfold start_download, dl_init. apply wlp_bind, wlp_bind, wlp_still; [apply still_get_timestamp_now|].
  intros now w1 E1. apply wlp_bind, wlp_lift. intros f Ef. apply wlp_ret. cbn [fst snd]. change (0 <? 0) with false.
  apply wlp_bind, wlp_modify, wlp_ret. apply HQ; [exact E1|done|]. simpl. by eapply strcpy_cstr.
Qed.

(** [try_send_get] starts a fetch, or does nothing. *)
Lemma try_send_get_steps i w : zget (f_jobs (abs w)) i = Some None ->
  wlp (try_send_get i) (fun _ w' => rtc fetch_step (abs w) (abs w')) w.
Proof.
  intros Hidle. unfold try_send_get. apply wlp_bind, wlp_find_unfetched_chunk; [done|]. intros r w1 E1 Hr.
  rewrite Z.geb_leb. destruct (Z.leb_spec 0 r) as [Hr0|]; [|apply wlp_ret; by rewrite E1].
  destruct (Hr Hr0) as (Hcnt & l & Hl & Hu). unfold send_get.
  apply wlp_bind, wlp_bind, wlp_mark_chunk. intros l' w2 Hl' E2. rewrite E1, Hl in Hl'. injection Hl' as <-. rewrite E1 in E2.
  apply wlp_bind, wlp_gets, wlp_bind, wlp_gets, wlp_bind, wlp_still; [apply still_send_packet|]. intros _ w3 E3.
  apply wlp_ret, wlp_bind, wlp_get_peer. intros p Hp.
  apply wlp_bind, (wlp_set_job _ _ None); [by rewrite E3, E2|]. intros w4 E4.
  apply wlp_bind, wlp_gets, wlp_bind, wlp_start_download. intros d w5 E5 Ek Ef. cbn [snd].
  apply wlp_bind, wlp_get_peer. intros p5 Hp5. pose proof (abs_job _ _ _ Hp5) as Hj5.
  assert (is_downloading p5 = true) as Hd5.
  { rewrite E5, E4 in Hj5. simpl in Hj5. assert (zget (f_jobs (abs w3)) i = Some None) as H3 by (by rewrite E3, E2).
    rewrite (zget_insert _ _ i _ _ H3), decide_True in Hj5 by done. injection Hj5 as Hj5. unfold job in Hj5.
    by destruct (is_downloading p5). }
  eapply wlp_set_job; [exact Hj5|]. intros w6 E6. apply rtc_once. rewrite E6, E5, E4, set_job_twice, E3, E2.
  assert (job (p5 .{ dl := d }) = Some (r, f_output (abs w))) as ->.
  { unfold job. simpl. rewrite Hd5, Ek, Ef. do 2 f_equal. change (f_output (abs w4) = f_output (abs w)).
    by rewrite E4, E3, E2. }
  by apply step_start.
Qed.
End Starts.

(** ** Sequences of steps *)

Definition goes {A} (R : fetch -> fetch -> Prop) (m : M A) : Prop :=
  forall w, wlp m (fun _ w' => rtc R (abs w) (abs w')) w.

Section Goes.
Context (R : fetch -> fetch -> Prop).

Lemma goes_still {A} (m : M A) : still m -> goes R m.
Proof. intros Hm w. eapply wlp_mono; [apply Hm|]. intros a w' ->. reflexivity. Qed.
Lemma goes_bind {A B} (m : M A) (k : A -> M B) : goes R m -> (forall a, goes R (k a)) -> goes R (bind m k).
Proof.
  intros Hm Hk w. apply wlp_bind. eapply wlp_mono; [apply Hm|]. intros a w1 H1.
  eapply wlp_mono; [apply Hk|]. intros b w2 H2. by transitivity (abs w1).
Qed.
Lemma wlp_goes {A} (m : M A) (Q : A -> World -> Prop) s w :
  goes R m -> rtc R s (abs w) -> (forall a w', rtc R s (abs w') -> Q a w') -> wlp m Q w.
Proof. intros Hm Hs HQ. eapply wlp_mono; [apply Hm|]. intros a w' H'. apply HQ. by transitivity (abs w). Qed.
End Goes.

Section Ends.
Context `{Env}.

Lemma refresh_loop_goes n : forall i, goes fetch_step (refresh_loop n i).
Proof.
  induction n as [|n IH]; intros i; cbn [refresh_loop]; [apply goes_still, still_ret|].
  do 2 (apply goes_bind; [apply goes_still; still_go|intros ?]). destruct (_ >=? _); [apply goes_still, still_ret|].
  intros w. apply wlp_bind, wlp_get_peer. intros p Hp. destruct (negb (is_alive p) || is_downloading p) eqn:E; [apply IH|].
  apply orb_false_iff in E as [_ Ed]. apply wlp_bind. eapply wlp_mono.
  { apply try_send_get_steps. rewrite (abs_job _ _ _ Hp). unfold job. by rewrite Ed. }
  intros ? w1 H1. by eapply wlp_goes; [apply IH|exact H1|].
Qed.

Lemma refresh_goes : goes fetch_step refresh_chunk_download.
Proof.
  unfold refresh_chunk_download. apply goes_bind; [apply goes_still; still_go|intros cnt].
  apply goes_bind; [apply refresh_loop_goes|intros _]. apply goes_still. still_go.
Qed.

(** Writing the chunk of a finished download: it is cut short, or it is all there and
    the line is fetched. *)
Lemma wlp_write_to_file d l w (Q : Z -> World -> Prop) :
  zget (f_lines (abs w)) (get_index d) = Some l -> bytes_of l (buffer d) ->
  (forall r w' evs, cut_short l (cstr (filename d)) evs ->
     abs w' = (abs w) .{ f_log := f_log (abs w) ++ evs } -> Q r w') ->
  (forall r w' off, placed l off ->
     abs w' = (set_line (get_index d) fetched l (abs w)) .{ f_left := s32 (f_left (abs w) - 1) }
       .{ f_log := f_log (abs w) ++ EvWrite (cstr (filename d)) off (buffer d) ::
            if s32 (f_left (abs w) - 1) =? 0 then [EvGot (f_list (abs w))] else [] } -> Q r w') ->
  wlp (write_to_file d) Q w.
Proof.
  intros Hl Hb Hcut Hsave. unfold write_to_file, dl_save_buffer.
  apply wlp_bind, wlp_ask. intros [|]; cbn [negb]; [|apply wlp_ret, (Hcut _ _ []); [by left|]].
  2: { unfold abs, view. simpl. by rewrite app_nil_r. }
  apply wlp_bind, wlp_gets, wlp_bind, wlp_lift. intros line Eline.
  simpl in Hl. rewrite zget_fmap in Hl. change (zget (chunks (getchunks (psvr w))) (get_index d) = Some line) in Eline.
  rewrite Eline in Hl. injection Hl as <-. apply wlp_bind, wlp_lift. intros place Eplace.
  unfold int_mul in Eplace. case_decide; [|done]. injection Eplace as <-. apply wlp_bind, wlp_ask_at, wlp_bind, wlp_ask. intros n.
  set (off := if lseek_ok _ then _ else 0). assert (placed (want_of line) off) as Hoff.
  { unfold off, placed. destruct (lseek_ok _) eqn:E; [by left|]. right. eauto. }
  clearbody off. match goal with |- context [wlp _ _ ?x] => assert (psvr x = psvr w /\ out x = out w) as [Ep Eo];
    [done|revert Ep Eo; generalize x; intros w1 Ep Eo] end.
  set (evs := if n >? 0 then [EvWrite (cstr (filename d)) off (take (Z.to_nat n) (buffer d))] else []).
  apply wlp_bind, (wlp_mono _ (fun _ w2 => psvr w2 = psvr w /\ out w2 = out w ++ evs)).
  { unfold evs. destruct (n >? 0); [apply wlp_emit|apply wlp_ret]; simpl; rewrite Eo; [done|]. by rewrite app_nil_r. }
  intros _ w2 [Ep2 Eo2]. assert (loud_of evs = evs) as Eevs by (unfold evs; by destruct (n >? 0)).
  destruct (Z.eqb_spec n BT_CHUNK_SIZE) as [En|_].
  2: { apply wlp_ret, (Hcut _ _ evs).
       - unfold evs, cut_short. destruct (n >? 0); [right|by left]. by exists off, (buffer d), (Z.to_nat n).
       - unfold abs. by rewrite Ep2, Eo2, loud_app, Eevs. }
  apply wlp_bind, wlp_gets, wlp_bind, wlp_lift. intros s' E. apply wlp_bind, wlp_modify, wlp_bind, wlp_gets.
  assert (evs = [EvWrite (cstr (filename d)) off (buffer d)]) as Ee.
  { unfold evs. rewrite En. change (BT_CHUNK_SIZE >? 0) with true. cbv iota. rewrite take_ge; [done|]. destruct Hb as [Hlb _]. lia. }
  unfold id in *. rewrite Ep2 in E. unfold set_get_state in E. rewrite Eline, option_bind_Some in E.
  unfold zset in E. case_decide; [|by cbn in E]. rewrite option_bind_Some in E. injection E as <-. simpl.
  assert (forall o, view ((psvr w) .{ getchunks := (getchunks (psvr w)) .{ chunks :=
      <[Z.to_nat (get_index d) := line .{ state := fetched }]> (chunks (getchunks (psvr w))) } }
      .{ dl_remain := s32 (dl_remain (psvr w) - 1) }) (loud_of o) =
    (set_line (get_index d) fetched (want_of line) (abs w)) .{ f_left := s32 (f_left (abs w) - 1) } .{ f_log := loud_of o }) as Ev.
  { intros o. unfold abs, view, set_line. simpl. by rewrite list_fmap_insert. }
  destruct (s32 (dl_remain (psvr w) - 1) =? 0) eqn:E0; [apply wlp_bind, wlp_emit|apply wlp_bind, wlp_ret];
    apply wlp_ret, (Hsave _ _ off Hoff); unfold abs at 1; simpl; (rewrite Ev || (etransitivity; [apply Ev|])); f_equal;
    rewrite Eo2, Ee, !loud_app; simpl; rewrite ?E0; by rewrite <- ?app_assoc.
Qed.

Lemma set_line_same s k l : zget (f_lines s) k = Some l -> set_line k (w_state l) l s = s.
Proof.
  intros Hl. unfold zget in Hl. case_decide; [|done]. destruct s. unfold set_line. simpl in *. f_equal.
  apply list_insert_id. rewrite Hl. by destruct l.
Qed.
Lemma zget_set_line s k l st : zget (f_lines s) k = Some l -> zget (f_lines (set_line k st l s)) k = Some (l .{ w_state := st }).
Proof. intros Hl. simpl. rewrite (zget_insert _ _ k _ _ Hl). by rewrite decide_True. Qed.

(** The line of a download that ended: fetched, or to be fetched again. *)
Lemma wlp_settle_line {B} k l (rest : M B) w (Q : B -> World -> Prop) : zget (f_lines (abs w)) k = Some l ->
  (forall w' st, (st = unfetched \/ st = fetched /\ w_state l = fetched) -> (w_state l = fetched -> st = fetched) ->
     abs w' = set_line k st l (abs w) -> wlp rest Q w') ->
  wlp (gc <- gets (fun s => chunks (getchunks s)) ;; line <- lift (zget gc k) ;;
       (if decide (state line = fetched) then ret tt else mark_chunk k unfetched) ;;; rest) Q w.
Proof.
  intros Hl HQ. apply wlp_bind, wlp_gets, wlp_bind, wlp_lift. intros line Eline.
  assert (l = want_of line) as -> by (simpl in Hl; rewrite zget_fmap, Eline in Hl; by injection Hl).
  apply wlp_bind. destruct (decide (state line = fetched)) as [E|E].
  - apply wlp_ret, (HQ _ fetched); [by right|done|]. rewrite <- E at 1. symmetry. by apply (set_line_same _ _ (want_of line)).
  - apply wlp_mark_chunk. intros l' w' Hl' E'. rewrite Hl in Hl'. injection Hl' as <-. apply (HQ _ unfetched); [by left|done|done].
Qed.

(** [end_download] is one step, and then what the next choices are. *)
Lemma end_download_steps i p line w :
  zget (peers (peerlist (psvr w))) i = Some p -> is_downloading p = true -> zlen (buffer (dl p)) = BT_CHUNK_SIZE ->
  zget (chunks (getchunks (psvr w))) (get_index (dl p)) = Some line -> line_wf line ->
  wlp (end_download i) (fun _ w' => rtc fetch_step (abs w) (abs w')) w.
Proof.
  intros Hp Hd Hbuf Hline Hwf. pose proof (abs_job _ _ _ Hp) as Hj. unfold job in Hj. rewrite Hd in Hj.
  assert (zget (f_lines (abs w)) (get_index (dl p)) = Some (want_of line)) as Hl by (simpl; by rewrite zget_fmap, Hline).
  assert (goes fetch_step (remain <- gets dl_remain ;; if remain >? 0 then refresh_chunk_download else ret tt)) as Hrest.
  { apply goes_bind; [apply goes_still; still_go|]. intros r. destruct (_ >? 0); [apply refresh_goes|apply goes_still; still_go]. }
  assert (forall st w3, fetch_step (abs w) st -> abs w3 = st ->
    wlp (remain <- gets dl_remain ;; if remain >? 0 then refresh_chunk_download else ret tt)
      (fun _ w' => rtc fetch_step (abs w) (abs w')) w3) as Hfin.
  { intros st w3 Hst E3. eapply wlp_goes; [exact Hrest|apply rtc_once; rewrite E3; exact Hst|done]. }
  unfold end_download. apply wlp_bind, wlp_modify, wlp_bind, wlp_get_peer. intros p' Hp'.
  change (zget (peers (peerlist (psvr w))) i = Some p') in Hp'. assert (p' = p) as -> by congruence.
  apply wlp_bind, wlp_set_peer. match goal with |- wlp _ _ ?x => assert (abs x = set_job i None (abs w) /\
    getchunks (psvr x) = getchunks (psvr w)) as [E1 G1]; [|revert E1 G1; generalize x; intros w1 E1 G1] end.
  { split; [|done]. unfold abs, view, set_job. simpl. by rewrite list_fmap_insert. }
  apply wlp_bind, wp_wlp, (check_hash_succeed_spec _ line); [done|by rewrite G1|done|]. intros w2 Hem.
  assert (abs w2 = abs w1) as E2 by (eapply abs_emits; [|eapply (emitted_emits (fun _ => False)); [exact Hem|constructor]]; done).
  rewrite E1 in E2. clear w1 E1 G1 Hem.
  assert (zget (f_lines (abs w2)) (get_index (dl p)) = Some (want_of line)) as Hl2 by (by rewrite E2).
  assert (forall evs w3, cut_short (want_of line) (cstr (filename (dl p))) evs ->
    abs w3 = (abs w2) .{ f_log := f_log (abs w2) ++ evs } ->
    wlp (gc <- gets (fun s => chunks (getchunks s)) ;; line <- lift (zget gc (get_index (dl p))) ;;
       (if decide (state line = fetched) then ret tt else mark_chunk (get_index (dl p)) unfetched) ;;;
       remain <- gets dl_remain ;; if remain >? 0 then refresh_chunk_download else ret tt)
      (fun _ w' => rtc fetch_step (abs w) (abs w')) w3) as Hagain.
  { intros evs w3 Hcut E3. apply (wlp_settle_line _ (want_of line)); [by rewrite E3|]. intros w4 st Hst _ E4.
    eapply Hfin; [by eapply step_drop|]. by rewrite E4, E3, E2. }
  apply wlp_bind. case_bool_decide as Htx.
  2: { apply wlp_ret, (Hagain []); [by left|]. by destruct (abs w2); simpl; rewrite app_nil_r. }
  assert (bytes_of (want_of line) (buffer (dl p))) as Hbytes by done.
  apply wlp_bind, (wlp_write_to_file _ (want_of line)); [done|done| |].
  { intros r w3 evs Hcut E3. by apply wlp_ret, (Hagain evs). }
  intros r w3 off Hoff E3. apply wlp_ret. eapply (wlp_settle_line _ ((want_of line) .{ w_state := fetched })).
  { rewrite E3. exact (zget_set_line _ _ _ fetched Hl2). }
  intros w4 st _ Hst E4. eapply Hfin; [eapply (step_save (abs w) i _ _ _ off); [exact Hj|exact Hl|exact Hoff|exact Hbytes]|].
  rewrite E4, (Hst eq_refl). transitivity (abs w3); [|by rewrite E3, E2].
  assert (zget (f_lines (abs w3)) (get_index (dl p)) = Some ((want_of line) .{ w_state := fetched })) as Hl3.
  { rewrite E3. exact (zget_set_line _ _ _ fetched Hl2). }
  exact (set_line_same _ _ _ Hl3).
Qed.
End Ends.

(** ** Timeouts *)

Section Timeouts.
Context `{Env}.

Lemma wlp_dl_loss_loop n : forall d w (Q : download_t -> World -> Prop),
  (forall d' w', abs w' = abs w -> dl_frame d d' -> Q d' w') -> wlp (dl_loss_loop n d) Q w.
Proof.
  induction n as [|n IH]; intros d w Q HQ; cbn [dl_loss_loop]; [by apply wlp_ret, HQ|].
  apply wlp_bind, wlp_lift. intros [a d1] E. unfold get_ack in E. destruct (recvwin_slideack (rwin d)) as [r|]; [|by cbn in E].
  rewrite option_bind_Some in E. injection E as _ <-. unfold send_ack.
  apply wlp_bind, wlp_still; [still_go|]. intros _ w1 E1. apply IH. intros d' w2 E2 Hf. by apply HQ; [congruence|].
Qed.

Lemma wlp_dl_check_timeout d w (Q : Z * download_t -> World -> Prop) :
  (forall r d' w', abs w' = abs w -> dl_frame d d' -> Q (r, d') w') -> wlp (dl_check_timeout d) Q w.
Proof.
  intros HQ. unfold dl_check_timeout. destruct (dl_finished d); [by apply wlp_ret, HQ|].
  apply wlp_bind, wlp_still; [apply still_get_timestamp_now|]. intros now w1 E1.
  destruct (_ && _); [by apply wlp_ret, HQ|]. destruct (_ <? _); [by apply wlp_ret, HQ|]. unfold dl_loss.
  apply wlp_bind, wlp_bind, wlp_dl_loss_loop. intros d2 w2 E2 Hf.
  apply wlp_bind, wlp_still; [apply still_get_timestamp_now|]. intros now' w3 E3. apply wlp_ret, wlp_ret, HQ; [congruence|].
  exact Hf.
Qed.

Lemma wlp_kill_download d w (Q : Z -> World -> Prop) :
  (forall l w', zget (f_lines (abs w)) (get_index d) = Some l ->
     abs w' = set_line (get_index d) unfetched l (abs w) -> Q 0 w') -> wlp (kill_download d) Q w.
Proof.
  intros HQ. unfold kill_download. apply wlp_bind, wlp_mark_chunk. intros l w1 Hl E1. apply wlp_bind, wlp_modify, wlp_ret.
  by apply (HQ l).
Qed.
Lemma wlp_die i w (Q : unit -> World -> Prop) :
  (forall w', abs w' = set_job i None (abs w) -> Q tt w') -> wlp (p <- get_peer i ;; set_peer i (die p)) Q w.
Proof.
  intros HQ. apply wlp_bind, wlp_get_peer. intros p Hp. eapply wlp_set_job; [by apply abs_job|]. exact HQ.
Qed.

(** A dead peer has given its line back. *)
Lemma dropped s i k name l : zget (f_jobs s) i = Some (Some (k, name)) -> zget (f_lines s) k = Some l ->
  fetch_step s (set_job i None (set_line k unfetched l s)).
Proof.
  intros Hj Hl. eapply (step_drop _ _ _ _ _ []) in Hl as Hst; [|exact Hj|by left|by left].
  rewrite app_nil_r in Hst. exact Hst.
Qed.

Lemma check_dl_timeout_goes i : goes fetch_step (check_dl_timeout i).
Proof.
  intros w. unfold check_dl_timeout. apply wlp_bind, wlp_get_peer. intros p Hp. destruct (is_downloading p) eqn:Ed; [|by apply wlp_ret].
  assert (zget (f_jobs (abs w)) i = Some (Some (get_index (dl p), cstr (filename (dl p))))) as Hj
    by (rewrite (abs_job _ _ _ Hp); unfold job; by rewrite Ed).
  apply wlp_bind, wlp_dl_check_timeout. intros r d w1 E1 (Eg & _ & Ef). cbn [fst snd].
  apply wlp_bind, wlp_get_peer. intros p1 Hp1. pose proof (abs_job _ _ _ Hp1) as Hj1. rewrite E1, Hj in Hj1.
  assert (is_downloading p1 = true) as Ed1 by (unfold job in Hj1; by destruct (is_downloading p1)).
  apply wlp_bind, wlp_set_same. { rewrite E1, Hj. unfold job. simpl. by rewrite Ed1, Eg, Ef. }
  intros w2 E2. rewrite E1 in E2. destruct (r >? MAX_TIMEOUT_CNT); [|apply wlp_ret; by rewrite E2].
  apply wlp_bind, wlp_get_peer. intros p2 Hp2. pose proof (abs_job _ _ _ Hp2) as Hj2. rewrite E2, Hj in Hj2.
  assert (get_index (dl p2) = get_index (dl p)) as Eg2 by (unfold job in Hj2; destruct (is_downloading p2); congruence).
  apply wlp_bind, wlp_kill_download. intros l w3 Hl E3. rewrite E2, Eg2 in Hl, E3.
  apply wlp_bind, wlp_still; [destruct (is_uploading p2); still_go|]. intros _ w4 E4. apply wlp_die. intros w5 E5.
  apply rtc_once. rewrite E5, E4, E3. by eapply dropped.
Qed.

Lemma check_ul_timeout_goes i : goes fetch_step (check_ul_timeout i).
Proof.
  intros w. unfold check_ul_timeout. apply wlp_bind, wlp_get_peer. intros p Hp. destruct (is_uploading p); [|by apply wlp_ret].
  apply wlp_bind, wlp_still; [still_go|]. intros r w1 E1. apply wlp_bind, wlp_get_peer. intros p1 Hp1.
  apply wlp_bind, wlp_set_same; [by apply (abs_job _ _ p1)|]. intros w2 E2. rewrite E1 in E2.
  destruct (fst r >? MAX_TIMEOUT_CNT); [|apply wlp_ret; by rewrite E2].
  apply wlp_bind, wlp_still; [still_go|]. intros _ w3 E3. rewrite E2 in E3. apply wlp_bind, wlp_get_peer. intros p3 Hp3.
  pose proof (abs_job _ _ _ Hp3) as Hj. rewrite E3 in Hj. unfold job in Hj. apply wlp_bind. destruct (is_downloading p3).
  - apply wlp_bind, wlp_kill_download. intros l w4 Hl E4. rewrite E3 in Hl, E4. apply wlp_ret, wlp_die. intros w5 E5.
    apply rtc_once. rewrite E5, E4. by eapply dropped.
  - apply wlp_ret, wlp_die. intros w5 E5. rewrite E5, E3, set_job_same by done. reflexivity.
Qed.

Lemma timeout_loop_goes n : forall i, goes fetch_step (timeout_loop n i).
Proof.
  induction n as [|n IH]; intros i; cbn [timeout_loop]; [apply goes_still, still_ret|].
  apply goes_bind; [apply goes_still; still_go|]. intros p. apply goes_bind; [|intros _; apply IH].
  destruct (is_alive p); [|apply goes_still, still_ret]. apply goes_bind; [apply check_dl_timeout_goes|intros _; apply check_ul_timeout_goes].
Qed.

Lemma check_all_timeout_goes : goes fetch_step check_all_timeout.
Proof.
  unfold check_all_timeout. apply goes_bind; [apply goes_still; still_go|intros cnt].
  apply goes_bind; [apply timeout_loop_goes|intros _]. apply goes_bind; [apply goes_still; still_go|intros r].
  apply goes_bind; [|intros _; apply goes_still, still_ret]. destruct (_ >? 0); [apply refresh_goes|apply goes_still, still_ret].
Qed.
End Timeouts.

(** ** Packets and commands *)

Section Packets.
Context `{Env}.

Lemma handle_IHAVE_goes pkt i : goes fetch_step (handle_IHAVE pkt i).
Proof.
  intros w. unfold handle_IHAVE. apply wlp_bind, wlp_still; [still_go|]. intros _ w1 E1.
  apply wlp_bind, wlp_get_peer. intros p Hp. destruct (is_downloading p) eqn:Ed; [apply wlp_ret; by rewrite E1|].
  pose proof (abs_job _ _ _ Hp) as Hj. unfold job in Hj. rewrite Ed in Hj.
  apply wlp_bind, wlp_still; [still_go|]. intros r w2 E2. destruct (r <? 0); [apply wlp_ret; by rewrite E2, E1|].
  apply wlp_bind, wlp_gets, wlp_bind, wlp_gets. destruct (_ >=? _); [apply wlp_ret; by rewrite E2, E1|].
  apply wlp_bind. eapply wlp_mono; [apply try_send_get_steps; by rewrite E2|]. intros ? w3 H3. apply wlp_ret.
  by rewrite E2, E1 in H3.
Qed.

Lemma handle_DATA_steps pkt i p w :
  server_mem (psvr w) -> peer_at (psvr w) i p -> packet_valid pkt ->
  wlp (handle_DATA pkt i) (fun _ w' => rtc fetch_step (abs w) (abs w')) w.
Proof.
  intros Hm Hp Hv. pose proof (sm_peers _ Hm _ _ Hp) as [Hq Hdl Hul]. unfold handle_DATA.
  apply wlp_bind, wlp_get_peer. intros p' Hp'. assert (p' = p) as -> by (destruct Hp; congruence).
  destruct (negb (is_alive p) || negb (is_downloading p)) eqn:E; [by apply wlp_ret|].
  apply orb_false_iff in E as [_ Ed%negb_false_iff]. destruct (Hdl Ed) as (Hsafe & Hidx & Hget).
  apply wlp_bind, wp_wlp. eapply (print_download_progress_total i p); [by apply Hdl|apply Hm|]. intros _.
  apply wlp_bind, wp_wlp. apply dl_recv_safe; [done|done|rewrite Hidx; by eapply peer_at_ok|].
  intros r d w1 Hsafe' (Eg & Ei & Ef) Hem. pose proof (emits_psvr _ _ _ Hem) as Ew1.
  assert (abs w1 = abs w) as E1 by (eapply abs_emits; [|exact Hem]; intros e (? & ? & _ & _ & ->); done).
  apply wlp_bind, wlp_get_peer. intros p1 Hp1. assert (p1 = p) as -> by (rewrite Ew1 in Hp1; destruct Hp; congruence).
  assert (zget (f_jobs (abs w)) i = Some (job (p .{ dl := d }))) as Hj.
  { rewrite (abs_job _ _ _ (proj1 Hp)). unfold job. simpl. by rewrite Eg, Ef. }
  apply wlp_bind, wlp_set_peer. match goal with |- wlp _ _ ?x =>
    assert (abs x = abs w /\ psvr x = upd_peer (psvr w) i (p .{ dl := d })) as [E2 P2]; [|revert E2 P2; generalize x; intros w2 E2 P2] end.
  { simpl. rewrite Ew1. split; [|done]. rewrite <- (set_job_same _ _ _ Hj), <- E1. unfold abs. simpl. rewrite Ew1.
    by apply (view_upd_peer _ _ p), Hp. }
  apply wlp_bind. cbn [fst snd]. destruct (is_download_finished d); [|apply wlp_ret, wlp_ret; by rewrite E2].
  pose proof (sm_get _ Hm) as Hwf. destruct (zget_is_Some (chunks (getchunks (psvr w))) (get_index d)) as [line Hline].
  { rewrite Eg. destruct Hwf as [(-> & _) _]. lia. }
  eapply wlp_mono; [apply (end_download_steps i (p .{ dl := d }) line)|].
  - rewrite P2. eapply upd_peer_get, Hp.
  - done.
  - apply Hsafe'.
  - rewrite P2. exact Hline.
  - eapply list_wf_line; [apply Hwf|done].
  - intros ? w3 H3. apply wlp_ret. by rewrite E2 in H3.
Qed.

Lemma parse_packet_steps pkt a w : server_mem (psvr w) -> packet_valid pkt ->
  wlp (parse_packet pkt a) (fun _ w' => rtc fetch_step (abs w) (abs w')) w.
Proof.
  intros Hm Hv. unfold parse_packet. apply wlp_bind, wp_wlp, addr2Index_spec; [done|]. intros i Hi.
  assert (forall (m : M Z), still m -> wlp m (fun _ w' => rtc fetch_step (abs w) (abs w')) w) as Hstill
    by (intros m Hs; by apply goes_still).
  destruct (Z.ltb_spec i 0) as [|Hi0]; [apply Hstill; still_go|]. destruct (Hi Hi0) as (p & Hp & _).
  destruct (_ =? _); [apply Hstill; still_go|]. destruct (_ =? _); [apply handle_IHAVE_goes|].
  destruct (_ =? _); [apply Hstill; still_go|]. destruct (_ =? _); [by eapply handle_DATA_steps|].
  destruct (_ =? _); apply Hstill; still_go.
Qed.

Lemma wlp_and {A} (m : M A) (P Q : A -> World -> Prop) w : wlp m P w -> wlp m Q w -> wlp m (fun a w' => P a w' /\ Q a w') w.
Proof. intros HP HQ a w' E. split; [by apply HP|by apply HQ]. Qed.

Lemma process_inbound_udp_steps dg a w : server_mem (psvr w) -> Forall is_byte dg ->
  wlp (process_inbound_udp (Some dg) a) (fun _ w' => rtc fetch_step (abs w) (abs w')) w.
Proof.
  intros Hm Hdg. unfold process_inbound_udp. apply wlp_bind. eapply wlp_mono.
  { apply wlp_and; [apply (still_receive_datagram (Some dg))|]. apply wp_wlp.
    apply (receive_datagram_spec _ _ (fun pkt w' => packet_wf pkt /\ psvr w' = psvr w)); [done|]. by intros. }
  intros pkt w1 (E1 & Hwf & Ep). apply wlp_bind, wlp_lift. intros v Ev.
  destruct v; [|apply wlp_ret; by rewrite E1]. destruct (valid_packet_spec pkt Hwf) as (b & Eb & Hb).
  assert (b = true) as -> by congruence. apply wlp_bind. eapply wlp_mono.
  { apply parse_packet_steps; [by rewrite Ep|by apply Hb]. }
  intros ? w2 H2. apply wlp_ret. by rewrite E1 in H2.
Qed.

(** Reading a list: the lines read are unfetched, the others stay. *)
Lemma parse_loop_lines n : forall inp i cs k cs', parse_loop n inp i cs = Some (k, cs') -> 0 <= i ->
  i <= k <= i + Z.of_nat n /\ length cs' = length cs /\
  (forall j, i <= j < k -> exists l, zget cs' j = Some l /\ state l = unfetched) /\
  (forall j, j < i \/ k <= j -> zget cs' j = zget cs j).
Proof.
  induction n as [|n IH]; intros inp i cs k cs'; cbn [parse_loop].
  { intros [= <- <-] Hi. split_and!; [lia|lia|done|intros j Hj; lia|done]. }
  destruct (_ =? EOF). { intros [= <- <-] Hi. split_and!; [lia|lia|done|intros j Hj; lia|done]. }
  intros E Hi. destruct (zget cs i) as [line|]; [|by cbn in E]. rewrite option_bind_Some in E.
  match type of E with (?x ≫= _) = _ => destruct x as [buf|]; [|by cbn in E] end. rewrite option_bind_Some in E.
  destruct (zset cs i _) as [cs1|] eqn:Es; [|by cbn in E]. rewrite option_bind_Some in E.
  apply IH in E as ([H1 H2] & Hlen & Hnew & Hold); [|lia].
  assert (forall j, zget cs1 j = if decide (j = i) then Some {| state := unfetched;
    cl_id := default (cl_id line) (sc_id (fscanf_d_s inp)); sha1_buf := buf |} else zget cs j) as Hget
    by (intros j; by apply zget_zset).
  split_and!; [lia|lia|by rewrite Hlen, (zset_length _ _ _ _ Es)| |].
  - intros j Hj. destruct (decide (j = i)) as [->|Hne]; [|apply Hnew; lia].
    rewrite (Hold i) by lia. rewrite Hget, decide_True by done. by eexists.
  - intros j Hj. rewrite Hold, Hget, decide_False by lia. done.
Qed.

Lemma parse_chunk_lines cl file r cl' : parse_chunk cl (Some file) = Some (r, cl') ->
  r = 0 /\ exists new, Forall (fun l => state l = unfetched) new /\ zlen new <= MAX_CHUNK_NUM /\
    chunks cl' = new ++ drop (length new) (chunks cl) /\ cl_count cl' = zlen new.
Proof.
  unfold parse_chunk. destruct (parse_loop _ _ _ _) as [[k cs]|] eqn:E; [|by cbn]. rewrite option_bind_Some.
  intros [= <- <-]. split; [done|]. apply parse_loop_lines in E as ([H0 Hk] & Hlen & Hnew & Hold); [|done].
  rewrite Z2Nat.id in Hk by done. cbn [fst snd cl_count chunks].
  assert (k <= zlen cs) as Hks.
  { destruct (decide (k = 0)); [lia|]. destruct (Hnew (k - 1)) as (l & Hl & _); [lia|]. apply zget_Some_range in Hl. lia. }
  assert (length (take (Z.to_nat k) cs) = Z.to_nat k) as Hl by (rewrite length_take; lia).
  exists (take (Z.to_nat k) cs). rewrite Hl. split_and!; [|lia| |lia].
  - apply Forall_lookup. intros j l Hj. apply lookup_take_Some in Hj as [Hj Hjk].
    destruct (Hnew (Z.of_nat j)) as (l' & Hl' & Hu); [lia|]. unfold zget in Hl'. rewrite decide_True, Nat2Z.id in Hl' by lia. congruence.
  - rewrite <- (take_drop (Z.to_nat k) cs) at 1. f_equal. apply list_eq. intros j. rewrite !lookup_drop.
    specialize (Hold (Z.of_nat (Z.to_nat k + j)) ltac:(lia)). unfold zget in Hold. by rewrite !decide_True, Nat2Z.id in Hold by lia.
Qed.

Lemma still_last_whohas t : still (modify (fun s => s .{ last_whohas := t })).
Proof. still_go. Qed.

(** The state after a list has been loaded. *)
Definition loaded (s : fetch) (o g : list Z) (new : list want) : fetch :=
  s .{ f_output := o } .{ f_list := g } .{ f_lines := new ++ drop (length new) (f_lines s) }
    .{ f_count := zlen new } .{ f_left := zlen new }.

Lemma process_get_loads cf outf file w :
  zlen (cstr outf) < BT_FILENAME_LEN -> zlen (cstr cf) < BT_FILENAME_LEN ->
  wlp (process_get cf outf (Some file)) (fun _ w' => exists new, Forall (fun l => w_state l = unfetched) new /\
    zlen new <= MAX_CHUNK_NUM /\ abs w' = loaded (abs w) (cstr outf) (cstr cf) new /\
    exists cl, parse_chunk (getchunks (psvr w)) (Some file) = Some (0, cl) /\
      f_lines (abs w') = want_of <$> chunks cl /\ f_count (abs w') = cl_count cl) w.
Proof.
  intros Hof Hcf. unfold process_get. rewrite !Z.geb_leb.
  destruct (Z.leb_spec BT_FILENAME_LEN (zlen (cstr outf))); [lia|]. destruct (Z.leb_spec BT_FILENAME_LEN (zlen (cstr cf))); [lia|].
  apply wlp_bind, wlp_gets, wlp_bind, wlp_lift. intros df Edf. apply wlp_bind, wlp_lift. intros gf Egf.
  apply wlp_bind, wlp_modify, wlp_bind, wlp_lift. intros [r cl] E. apply wlp_bind, wlp_modify. cbn [fst snd].
  change (parse_chunk (getchunks (psvr w)) (Some file) = Some (r, cl)) in E. pose proof E as Ep.
  apply parse_chunk_lines in E as (-> & new & Hnew & Hlen & Hcs & Hcnt). change (0 <? 0) with false. cbv iota.
  apply wlp_bind, wlp_modify. match goal with |- wlp _ _ ?x => assert (abs x = loaded (abs w) (cstr outf) (cstr cf) (want_of <$> new) /\
    f_lines (abs x) = want_of <$> chunks cl /\ f_count (abs x) = cl_count cl) as (E1 & L1 & C1);
    [|revert E1 L1 C1; generalize x; intros w1 E1 L1 C1] end.
  { split; [|done]. unfold abs, view, loaded. simpl. rewrite (strcpy_cstr _ _ _ Edf), (strcpy_cstr _ _ _ Egf), length_fmap.
    simpl in Hcs. by rewrite Hcs, Hcnt, fmap_app, fmap_drop. }
  apply wlp_bind, wlp_still; [still_go|]. intros _ w2 E2. apply wlp_bind, wlp_still; [still_go|]. intros now w3 E3.
  eapply wlp_mono; [apply still_last_whohas|]. intros ? w4 E4. exists (want_of <$> new). rewrite length_fmap.
  assert (abs w4 = abs w1) as -> by congruence. split_and!; [by apply Forall_fmap|done|done|by exists cl].
Qed.

(** [process_get] is a command, or nothing when a name is too long. *)
Lemma process_get_goes cf outf file : goes command_step (process_get cf outf file).
Proof.
  intros w. destruct (decide (zlen (cstr outf) < BT_FILENAME_LEN /\ zlen (cstr cf) < BT_FILENAME_LEN)) as [[Ho Hc]|Hlong].
  - destruct file as [file|].
    + eapply wlp_mono; [by apply process_get_loads|]. intros ? w' (new & Hnew & Hlen & -> & _). by apply rtc_once, step_load.
    + unfold process_get. destruct (_ >=? _); [by apply wlp_ret|]. destruct (_ >=? _); [by apply wlp_ret|].
      apply wlp_bind, wlp_gets, wlp_bind, wlp_lift. intros df _. apply wlp_bind, wlp_lift. intros gf _.
      apply wlp_bind, wlp_modify, wlp_bind, wlp_lift. intros [r cl] [= <- <-]. apply wlp_bind, wlp_modify.
      change (-1 <? 0) with true. cbv iota. apply wlp_ret, rtc_once. exact (step_rename (abs w) (cstr df) (cstr gf)).
  - unfold process_get. rewrite !Z.geb_leb. destruct (Z.leb_spec BT_FILENAME_LEN (zlen (cstr outf))); [by apply wlp_ret|].
    destruct (Z.leb_spec BT_FILENAME_LEN (zlen (cstr cf))); [by apply wlp_ret|]. lia.
Qed.

Lemma handle_user_input_goes fopen line : goes command_step (handle_user_input fopen line).
Proof.
  unfold handle_user_input. destruct (sscanf_GET line) as [[r s1] s2].
  do 2 (apply goes_bind; [apply goes_still; still_go|intros ?]). destruct (negb _); [|apply goes_still; still_go].
  destruct (_ >? 0); [apply process_get_goes|apply goes_still; still_go].
Qed.

Lemma input_loop_goes R hl n : (forall b, goes R (hl b)) -> forall buf cur, goes R (input_loop n hl buf cur).
Proof.
  intros Hhl. induction n as [|n IH]; intros buf cur; cbn [input_loop].
  - apply goes_bind; [apply goes_still; still_go|]. intros []; apply goes_still; still_go.
  - apply goes_bind; [apply goes_still; still_go|]. intros [off|]; [|apply goes_still; still_go].
    apply goes_bind; [apply goes_still; still_go|intros b1]. apply goes_bind; [apply Hhl|intros _].
    do 2 (apply goes_bind; [apply goes_still; still_go|intros ?]). apply IH.
Qed.

Lemma process_user_input_goes R avail ub hl : (forall b, goes R (hl b)) -> goes R (process_user_input avail ub hl).
Proof.
  intros Hhl. unfold process_user_input. destruct (_ >=? _); [apply goes_still; still_go|].
  apply goes_bind; [apply goes_still; still_go|intros ?]. apply goes_bind; [by apply input_loop_goes|intros ?].
  apply goes_still; still_go.
Qed.
End Packets.
