(* ===== verification/GotFile.v ===== *)
(** * GotFile: from the list of chunks to the file

    Runs of the main loop as sequences of steps of the schedule, and what follows for
    a list that the [GET] command loads: the books are kept, and when the server
    reports that it got the list, the output file holds its chunks. *)

From S2P Require Import Prelude RecvWin LinkedList Sha Chunk ChunkList Machine Util Packet Sending Hashes.
From S2P Require Import Upload Download SendHelper PeerServer ParsePacket ServerInv ServerOps ServerSafe Handlers.
From S2P Require Import UserInput CommandLine PeerInit EventLoop Requests Integrity Schedule ScheduleSteps.

(** ** Runs are sequences of steps *)

Lemma goes_mono {A} (R S : fetch -> fetch -> Prop) (m : M A) : (forall s t, R s t -> S s t) -> goes R m -> goes S m.
Proof. intros HRS Hm w. eapply wlp_mono; [apply Hm|]. intros a w' H'. by eapply rtc_subrel. Qed.

Section Runs.
Context `{Env}.

(** The steps of a run: with commands when something is typed. *)
Definition steps_of (R : fetch -> fetch -> Prop) (ts : list turn) : Prop :=
  (forall s t, fetch_step s t -> R s t) /\ (Forall (fun t => t_stdin t = None) ts \/ forall s t, command_step s t -> R s t).

Lemma peer_run_body_steps R fopen t ub w :
  steps_of R [t] -> turn_ok t -> server_mem (psvr w) ->
  wlp (peer_run_body fopen t ub) (fun _ w' => rtc R (abs w) (abs w')) w.
Proof.
  intros [Hf Hc] Ht Hm. unfold peer_run_body.
  assert (forall A (m : M A), goes fetch_step m -> goes R m) as Hgo by (intros A m; by apply goes_mono).
  apply wlp_bind, (wlp_mono _ (fun _ w1 => rtc R (abs w) (abs w1))).
  { unfold turn_ok in Ht. destruct (t_udp t) as [[[dg|] a]|]; [|done|by apply wlp_ret].
    eapply wlp_mono; [by apply process_inbound_udp_steps|]. intros ? w1 H1. by eapply rtc_subrel. }
  intros _ w1 H1. apply wlp_bind. eapply (wlp_goes R); [|exact H1|].
  { destruct (t_stdin t) as [avail|] eqn:Es; [|apply goes_still, still_ret].
    destruct Hc as [Hnone|Hc]; [apply Forall_cons in Hnone as [? _]; congruence|].
    apply process_user_input_goes. intros b. eapply goes_mono; [exact Hc|apply handle_user_input_goes]. }
  intros [ub'|] w2 H2; [|by apply wlp_ret]. apply wlp_bind. eapply (wlp_goes R); [apply Hgo, check_all_timeout_goes|exact H2|].
  intros ? w3 H3. by apply wlp_ret.
Qed.

Lemma peer_run_steps R fopen ts : forall ub w,
  mmap_ok -> files_ok fopen -> Forall turn_ok ts -> steps_of R ts -> server_inv (psvr w) -> buf_ok ub ->
  wp (peer_run fopen ts ub) (fun _ w' => keeps w w' /\ rtc R (abs w) (abs w')) w.
Proof.
  induction ts as [|t ts IH]; intros ub w Hmm Hf Hts [HR1 HR2] Hs Hub; cbn [peer_run].
  { wp_go. by split; [apply keeps_refl|]. }
  apply Forall_cons in Hts as [Ht Hts].
  assert (steps_of R [t] /\ steps_of R ts) as [HRt HRts].
  { split; (split; [done|]); destruct HR2 as [H2|]; [|by right| |by right]; apply Forall_cons in H2 as [? ?]; left; [by constructor|done]. }
  wp_go. eapply wp_mono; [apply wp_and_wlp|].
  { apply (peer_run_body_inv fopen t ub w (fun r w' => keeps w w' /\ forall ub', r = Some ub' -> buf_ok ub')); by eauto. }
  { apply (peer_run_body_steps R); [done|done|apply Hs]. }
  intros r w1 ((Hk1 & Hr) & H1). destruct r as [ub'|]; [|wp_go; by split].
  eapply wp_mono; [apply IH; [done..|apply Hk1|by apply Hr]|]. intros r w2 [Hk2 H2].
  split; [by eapply keeps_trans|by transitivity (abs w1)].
Qed.

(** ** The list a command loads *)

(** Nothing is being downloaded. *)
Definition idle (s : PeerServer) : Prop := Forall (fun p => is_downloading p = false) (peers (peerlist s)).

(** [GET cf outf], of a list that is read as [cl], on an idle server. *)
Record gets_list (w : World) (cf outf file : list Z) (cl : ChunkList) : Prop := {
  gl_inv : server_inv (psvr w);
  gl_idle : idle (psvr w);
  gl_names : 0 ∈ cf /\ 0 ∈ outf /\ zlen (cstr cf) < BT_FILENAME_LEN /\ zlen (cstr outf) < BT_FILENAME_LEN;
  gl_fit : file_fits file;
  gl_list : parse_chunk (getchunks (psvr w)) (Some file) = Some (0, cl) }.

(** Turns without typed text, on a buffer in order. *)
Record turns_ok (fopen : list Z -> option (list Z)) (ts : list turn) (ub : user_iobuf) : Prop := {
  to_mmap : mmap_ok; to_files : files_ok fopen; to_turns : Forall turn_ok ts;
  to_quiet : Forall (fun t => t_stdin t = None) ts; to_buf : buf_ok ub }.

Lemma idle_jobs s log i j : idle s -> zget (f_jobs (view s log)) i = Some j -> j = None.
Proof.
  intros Hi. simpl. rewrite zget_fmap. intros (p & Hp & ->)%fmap_Some. unfold job.
  assert (is_downloading p = false) as ->; [|done]. unfold zget in Hp. case_decide; [|done].
  unfold idle in Hi. rewrite Forall_lookup in Hi. by eapply Hi.
Qed.

(** Loading a list on an idle server opens new books. *)
Lemma loaded_books w o g new : idle (psvr w) -> Forall (fun l => w_state l = unfetched) new ->
  zlen new <= zlen (f_lines (abs w)) -> zlen (f_lines (abs w)) <= MAX_CHUNK_NUM -> books (loaded (abs w) o g new).
Proof.
  intros Hi Hnew Hlen Hmax. assert (forall i j, zget (f_jobs (abs w)) i = Some j -> j = None) as Hno
    by (intros i j; by apply idle_jobs).
  assert (forall k l, k < zlen new -> zget (new ++ drop (length new) (f_lines (abs w))) k = Some l -> w_state l = unfetched) as Hun.
  { intros k l Hk Hl. unfold zget in Hl. case_decide; [|done]. rewrite lookup_app_l in Hl by lia.
    rewrite Forall_lookup in Hnew. by eapply Hnew. }
  split; cbn [loaded f_count f_left f_jobs f_lines f_output upd setter_of].
  - rewrite length_app, length_drop. lia.
  - unfold missing, wanted. simpl. rewrite Nat2Z.id, take_app_length. clear -Hnew. induction Hnew as [|l new Hl _ IH]; [done|].
    rewrite filter_cons_True; [simpl; lia|]. unfold not_there. by rewrite Hl.
  - intros i k name Hk. by apply Hno in Hk.
  - intros i j k n1 n2 Hk. by apply Hno in Hk.
  - intros k l Hk Hl Hf. pose proof (Hun _ _ Hk Hl). congruence.
Qed.
End Runs.

(** ** What a run keeps *)

Definition place_text (l : want) : Z * list Z := (w_id l, w_text l).

Record same_wants (s t : fetch) : Prop := {
  sw_count : f_count t = f_count s; sw_list : f_list t = f_list s; sw_output : f_output t = f_output s;
  sw_lines : place_text <$> f_lines t = place_text <$> f_lines s }.
#[export] Instance same_wants_preorder : PreOrder same_wants.
Proof. split; [by split|]. intros s t u [? ? ? ?] [? ? ? ?]. split; congruence. Qed.

(** The books of the server, in its own terms. *)
Record chunk_books (s : PeerServer) : Prop := {
  cb_left : dl_remain s =
    zlen (filter (fun l => state l <> fetched) (take (Z.to_nat (cl_count (getchunks s))) (chunks (getchunks s))));
  cb_peer : forall i p, zget (peers (peerlist s)) i = Some p -> is_downloading p = true ->
    get_index (dl p) < cl_count (getchunks s) /\ cstr (filename (dl p)) = cstr (dl_filename s) /\
    exists line, zget (chunks (getchunks s)) (get_index (dl p)) = Some line /\ state line = fetching;
  cb_line : forall k line, k < cl_count (getchunks s) -> zget (chunks (getchunks s)) k = Some line -> state line = fetching ->
    exists! i, exists p, zget (peers (peerlist s)) i = Some p /\ is_downloading p = true /\ get_index (dl p) = k }.

Lemma missing_lines ls : zlen (filter (fun l => not_there l = true) (want_of <$> ls)) = zlen (filter (fun l => state l <> fetched) ls).
Proof.
  assert (forall l, not_there (want_of l) = true <-> state l <> fetched) as Hiff.
  { intros l. unfold not_there. by rewrite negb_true_iff, bool_decide_eq_false. }
  induction ls as [|l ls IH]; [done|]. rewrite fmap_cons, !filter_cons. specialize (Hiff l).
  repeat case_decide; try tauto. simpl. lia.
Qed.

Lemma job_Some s log i k name : zget (f_jobs (view s log)) i = Some (Some (k, name)) <->
  exists p, zget (peers (peerlist s)) i = Some p /\ is_downloading p = true /\ get_index (dl p) = k /\ cstr (filename (dl p)) = name.
Proof.
  simpl. rewrite zget_fmap, fmap_Some. unfold job. split.
  - intros (p & Hp & E). exists p. destruct (is_downloading p); [|done]. by injection E as <- <-.
  - intros (p & Hp & Hd & <- & <-). exists p. by rewrite Hd.
Qed.

Lemma books_server s log : books (view s log) -> chunk_books s.
Proof.
  intros [_ Hleft Hjob Hone Hline]. split.
  - etransitivity; [exact Hleft|]. unfold missing, wanted. simpl. by rewrite <- fmap_take, missing_lines.
  - intros i p Hp Hd. destruct (Hjob i (get_index (dl p)) (cstr (filename (dl p)))) as (E & Hk & l & Hl & Hf).
    { apply job_Some. by exists p. }
    split; [exact Hk|]. split; [exact E|]. simpl in Hl. rewrite zget_fmap in Hl. apply fmap_Some in Hl as (line & Hl & ->).
    by exists line.
  - intros k line Hk Hl Hf. destruct (Hline k (want_of line)) as (i & name & Hi); [done|simpl; by rewrite zget_fmap, Hl|done|].
    pose proof Hi as (p & Hp & Hd & Eg & _)%job_Some. exists i. split; [by exists p|].
    intros j (q & Hq & Hdq & Egq). eapply (Hone i j k); [exact Hi|]. apply job_Some. by exists q.
Qed.

Section Keeps.
Context `{Env}.

Lemma fetch_step_wants s t : fetch_step s t -> same_wants s t.
Proof.
  assert (forall k st l, zget (f_lines s) k = Some l ->
    place_text <$> <[Z.to_nat k := l .{ w_state := st }]> (f_lines s) = place_text <$> f_lines s) as Hset.
  { intros k st l Hl. rewrite list_fmap_insert. apply list_insert_id. rewrite list_lookup_fmap.
    unfold zget in Hl. case_decide; [|done]. by rewrite Hl. }
  intros [i k l ? Hl|i k name l evs st ? Hl|i k name l off buf ? Hl]; (split; [done..|]); by apply Hset.
Qed.
Lemma fetch_steps_wants s t : rtc fetch_step s t -> same_wants s t.
Proof. induction 1 as [|s t u Hst _ IH]; [done|]. etransitivity; [by apply fetch_step_wants|exact IH]. Qed.

(** A [GET] command on an idle server opens the books of its list. *)
Lemma get_loads w cf outf file cl : gets_list w cf outf file cl ->
  exists w1, process_get cf outf (Some file) w = Some (tt, w1) /\ keeps w w1 /\ books (abs w1) /\ filed (f_log (abs w1)) (abs w1) /\
    f_lines (abs w1) = want_of <$> chunks cl /\ f_count (abs w1) = cl_count cl /\
    f_output (abs w1) = cstr outf /\ f_list (abs w1) = cstr cf.
Proof.
  intros [Hs Hi (Hcf & Hof & Hlc & Hlo) Hfit Hcl].
  assert (wp (process_get cf outf (Some file)) (fun _ w' => keeps w w') w) as Hinv.
  { apply process_get_inv; [done..|by intros f [= <-]|done]. }
  destruct (wp_and_wlp _ _ _ _ Hinv (process_get_loads cf outf file w Hlo Hlc))
    as ([] & w1 & E1 & Hk1 & new & Hnew & Hlen & Eabs & cl' & Ecl & El & Ec). assert (cl' = cl) as -> by congruence.
  exists w1. split_and!; [exact E1|exact Hk1| | |exact El|exact Ec|by rewrite Eabs|by rewrite Eabs].
  - rewrite Eabs. destruct (sm_get _ (si_mem _ Hs)) as [(Hl & _) _]. change MAX_CHUNK_NUM with 4096 in *.
    apply loaded_books; [done|done|simpl; rewrite length_fmap; lia|simpl; rewrite length_fmap; change MAX_CHUNK_NUM with 4096; lia].
  - exists []. rewrite app_nil_r. split; [done|]. rewrite Eabs. split_and!.
    + intros G f0 k l _ Hk Hl Hfd. simpl in Hk, Hl. unfold zget in Hl. case_decide; [|done]. rewrite lookup_app_l in Hl by lia.
      rewrite Forall_lookup in Hnew. specialize (Hnew _ _ Hl). cbn in Hnew. congruence.
    + intros g Hg. by apply elem_of_nil in Hg.
    + simpl. lia.
Qed.

(** The same, and a run. *)
Lemma get_and_run w cf outf file cl fopen ts ub : gets_list w cf outf file cl -> turns_ok fopen ts ub ->
  exists w1 r w2, process_get cf outf (Some file) w = Some (tt, w1) /\ peer_run fopen ts ub w1 = Some (r, w2) /\
    rtc fetch_step (abs w1) (abs w2) /\ books (abs w1) /\ filed (f_log (abs w1)) (abs w1) /\
    f_lines (abs w1) = want_of <$> chunks cl /\ f_count (abs w1) = cl_count cl /\
    f_output (abs w1) = cstr outf /\ f_list (abs w1) = cstr cf.
Proof.
  intros Hg [Hmm Hf Hts Hq Hub]. destruct (get_loads _ _ _ _ _ Hg) as (w1 & E1 & Hk1 & H1).
  destruct (peer_run_steps fetch_step fopen ts ub w1) as (r & w2 & E2 & _ & Hst); [done|done|done|by split; [|left]|apply Hk1|done|].
  by exists w1, r, w2.
Qed.
End Keeps.

(** ** Lists whose chunks have places of their own *)

Definition places_ok (cl : ChunkList) : Prop :=
  (forall k l, 0 <= k < cl_count cl -> zget (chunks cl) k = Some l -> 0 <= cl_id l < MAX_CHUNK_NUM) /\
  (forall k1 k2 l1 l2, 0 <= k1 < cl_count cl -> 0 <= k2 < cl_count cl -> zget (chunks cl) k1 = Some l1 ->
     zget (chunks cl) k2 = Some l2 -> cl_id l1 = cl_id l2 -> k1 = k2).

(** The file holds the chunk of a line at its place. *)
Definition chunk_in (f : list Z) (line : ChunkLine) : Prop :=
  let d := range f (cl_id line * BT_CHUNK_SIZE) BT_CHUNK_SIZE in zlen d = BT_CHUNK_SIZE /\ line_text line = sha1_text d.

Lemma places_own s cl : places_ok cl -> f_lines s = want_of <$> chunks cl -> f_count s = cl_count cl -> own_places s.
Proof.
  intros [Hr Ho] El Ec. split; rewrite El, Ec.
  - intros k l Hk Hl. pose proof (zget_Some_range _ _ _ Hl). rewrite zget_fmap in Hl. apply fmap_Some in Hl as (line & Hl & ->).
    by apply (Hr k); [lia|].
  - intros k1 k2 l1 l2 H1 H2 G1 G2 E. pose proof (zget_Some_range _ _ _ G1). pose proof (zget_Some_range _ _ _ G2).
    rewrite zget_fmap in G1, G2. apply fmap_Some in G1 as (a & G1 & ->), G2 as (b & G2 & ->). by apply (Ho k1 k2 a b); [lia|lia|..].
Qed.

Section Complete.
Context `{Env}.

(** Once no line of a list is left, the file is there, and is made of the chunks written. *)
Lemma steps_complete s t cl : (forall n, lseek_ok n = true) -> rtc fetch_step s t -> books s -> filed (f_log s) s ->
  f_lines s = want_of <$> chunks cl -> f_count s = cl_count cl -> places_ok cl -> 0 < cl_count cl ->
  exists evs, f_log t = f_log s ++ evs /\ (EvGot (f_list s) ∈ evs <-> f_left t = 0) /\
    (EvGot (f_list s) ∈ evs -> forall G f0 k line, Forall (wrote G) evs -> 0 <= k < cl_count cl ->
       zget (chunks cl) k = Some line -> chunk_in (replay (f_output s) f0 evs) line /\
       G (range (replay (f_output s) f0 evs) (cl_id line * BT_CHUNK_SIZE) BT_CHUNK_SIZE)).
Proof.
  intros Hseek Hst Hb1 Hf1 El Ec Hp Hpos.
  pose proof (places_own _ _ Hp El Ec) as Hown. pose proof (fetch_steps_wants _ _ Hst) as [Wc Wl Wo Wls].
  destruct (filed_steps _ _ _ Hseek Hst Hb1 Hown Hf1) as (Hb2 & _ & evs & Elog & Hstored & Hgot1 & Hgot2).
  rewrite Wl in *. rewrite Wo in *. rewrite Wc, Ec in *. exists evs. split_and!; [exact Elog| |].
  - split; [by intros [? _]%Hgot1|intros E; by apply Hgot2].
  - intros [Hzero _]%Hgot1 G f0 k line HG Hk Hl.
    assert (place_text <$> zget (f_lines t) k = Some (place_text (want_of line))) as Hpl.
    { rewrite <- zget_fmap, Wls, zget_fmap, El, zget_fmap, Hl. done. }
    apply fmap_Some in Hpl as (l & Hl2 & Epl). injection Epl as Eid Etx.
    assert (w_state l = fetched) as Hfd.
    { destruct (decide (w_state l = fetched)); [done|]. exfalso. pose proof (bk_left _ Hb2) as Hleft.
      assert (0 < missing t); [|lia]. apply (missing_pos _ k l); [done|rewrite Wc; lia|rewrite Wc; lia|done]. }
    destruct (Hstored G f0 k l) as [[Hlen Htx] HGd]; [done|lia|done|done|]. unfold chunk_in. simpl in Eid, Etx. rewrite Eid, Etx. done.
Qed.

Lemma got_complete w cf outf file cl fopen ts ub :
  gets_list w cf outf file cl -> turns_ok fopen ts ub -> places_ok cl -> 0 < cl_count cl -> (forall n, lseek_ok n = true) ->
  exists w1 r w2 evs, process_get cf outf (Some file) w = Some (tt, w1) /\ peer_run fopen ts ub w1 = Some (r, w2) /\
    loud_of (out w2) = loud_of (out w1) ++ evs /\
    (EvGot (cstr cf) ∈ evs <-> dl_remain (psvr w2) = 0) /\
    (EvGot (cstr cf) ∈ evs -> forall f0 k line, 0 <= k < cl_count cl -> zget (chunks cl) k = Some line ->
       chunk_in (replay (cstr outf) f0 evs) line).
Proof.
  intros Hg Ht Hp Hpos Hseek. destruct (get_and_run _ _ _ _ _ _ _ _ Hg Ht)
    as (w1 & r & w2 & E1 & E2 & Hst & Hb1 & Hf1 & El & Ec & Eo & Eg).
  destruct (steps_complete _ _ cl Hseek Hst Hb1 Hf1) as (evs & H1 & H2 & H3); [done..|]. rewrite Eg in H2, H3. rewrite Eo in H3.
  exists w1, r, w2, evs. split_and!; try done. intros Hin f0 k line Hk Hl.
  eapply (H3 Hin (fun _ => True)); [|done|done]. apply Forall_forall. by intros [].
Qed.
End Complete.

(** ** Properties *)

(** C6: the main loop implements the abstract schedule: whatever arrives and is typed,
    a run is a sequence of starts, give-ups and saves of single lines and of [GET]
    commands, with exactly the writes and reports of those steps. *)
Theorem server_refines_schedule `{Env} (fopen : list Z -> option (list Z)) (ts : list turn) (ub : user_iobuf) (w : World) :
  server_inv (psvr w) -> buf_ok ub -> files_ok fopen -> mmap_ok -> Forall turn_ok ts ->
  exists r w', peer_run fopen ts ub w = Some (r, w') /\ rtc any_step (abs w) (abs w').
Proof.
  intros Hs Hub Hf Hmm Hts. destruct (peer_run_steps any_step fopen ts ub w) as (r & w' & E & _ & Hst); [done..| |done|done|].
  - split; [by left|right; by right].
  - by exists r, w'.
Qed.

(** C8: after a [GET] on an idle server, at every moment of the run that follows, each
    line being fetched has exactly one peer that downloads it, into the output file, no
    peer downloads another line, and [dl_remain] counts the lines not fetched yet. *)
Theorem download_books_kept `{Env} (w : World) (cf outf file : list Z) (cl : ChunkList)
    (fopen : list Z -> option (list Z)) (ts : list turn) (ub : user_iobuf) :
  gets_list w cf outf file cl -> turns_ok fopen ts ub ->
  exists w1 r w2, process_get cf outf (Some file) w = Some (tt, w1) /\ peer_run fopen ts ub w1 = Some (r, w2) /\
    cl_count (getchunks (psvr w2)) = cl_count cl /\ chunk_books (psvr w2).
Proof.
  intros Hg Ht. destruct (get_and_run _ _ _ _ _ _ _ _ Hg Ht) as (w1 & r & w2 & E1 & E2 & Hst & Hb1 & _ & _ & Ec & _).
  exists w1, r, w2. split_and!; [done|done| |].
  - rewrite <- Ec. exact (sw_count _ _ (fetch_steps_wants _ _ Hst)).
  - eapply books_server, books_steps; [exact Hb1|exact Hst].
Qed.

(** C5: the server reports that it got a list exactly when no chunk is left, and then
    the output file, whatever it held before, has at the place of every line of the list
    a whole chunk whose SHA-1 is the line's hash. *)
Theorem got_file_complete `{Env} (w : World) (cf outf file : list Z) (cl : ChunkList)
    (fopen : list Z -> option (list Z)) (ts : list turn) (ub : user_iobuf) :
  gets_list w cf outf file cl -> turns_ok fopen ts ub -> places_ok cl -> 0 < cl_count cl -> (forall n, lseek_ok n = true) ->
  exists w1 r w2 evs, process_get cf outf (Some file) w = Some (tt, w1) /\ peer_run fopen ts ub w1 = Some (r, w2) /\
    loud_of (out w2) = loud_of (out w1) ++ evs /\
    (EvGot (cstr cf) ∈ evs <-> dl_remain (psvr w2) = 0) /\
    (EvGot (cstr cf) ∈ evs -> forall f0 k line, 0 <= k < cl_count cl -> zget (chunks cl) k = Some line ->
       chunk_in (replay (cstr outf) f0 evs) line).
Proof. apply got_complete. Qed.

(** *** Examples *)

Lemma server_refines_schedule_witness :
  exists r w', @peer_run sample_env sample_fopen sample_turns (ub_of []) {| psvr := sample_idle; tick := 0; out := [] |} = Some (r, w') /\
    rtc (@any_step sample_env) (abs {| psvr := sample_idle; tick := 0; out := [] |}) (abs w').
Proof.
  apply (@server_refines_schedule sample_env sample_fopen sample_turns (ub_of []) {| psvr := sample_idle; tick := 0; out := [] |}).
  - exact sample_idle_inv.
  - split; [done|]. exists (zeros USERBUF_SIZE). by split.
  - exact sample_files_ok.
  - exact sample_mmap.
  - repeat constructor; unfold is_byte; lia.
Defined.

(** The command ["GET g o"] with a printed list of one hash; then the only peer says that
    it has the chunk, and is silent. *)
Definition one_get : World := {| psvr := sample_idle; tick := 0; out := [] |}.
Definition one_read : ChunkList := {| cl_count := 1; chunks := read_line 0 one_hash :: drop 1 (chunks zero_list) |}.
Definition one_turns : list turn :=
  [{| t_udp := Some (Some (datagram PACKET_TYPE_IHAVE 0 0 (hash_body PACKET_TYPE_IHAVE [0; 0; 0] [one_hash])),
        {| sin_port := 80; s_addr := 1 |}); t_stdin := None |};
   {| t_udp := None; t_stdin := None |}].

Lemma one_gets : @gets_list sample_env one_get [103; 0] [111; 0] (make_chunks_output [one_hash]) one_read.
Proof.
  assert (Forall good_hash [one_hash]) as Hg by (constructor; [split; [done|by apply Forall_replicate]|constructor]).
  split.
  - exact sample_idle_inv.
  - repeat constructor.
  - split_and!; [by right; left|by right; left|done|done].
  - by apply make_chunks_file_fits.
  - apply (parse_printed zero_list [one_hash]); [done|done|done|by apply Forall_replicate].
Qed.
Lemma one_turns_ok : @turns_ok sample_env sample_fopen one_turns (ub_of []).
Proof.
  split.
  - exact sample_mmap.
  - exact sample_files_ok.
  - constructor; [|repeat constructor]. cbv -[Z.le Z.lt]. repeat constructor; lia.
  - repeat constructor.
  - split; [done|]. exists (zeros USERBUF_SIZE). by split.
Qed.
Lemma one_places : places_ok one_read.
Proof.
  split.
  - intros k l Hk Hl. change (cl_count one_read) with 1 in Hk. assert (k = 0) as -> by lia. injection Hl as <-. done.
  - intros k1 k2 l1 l2 H1 H2. change (cl_count one_read) with 1 in H1, H2. lia.
Qed.

Lemma download_books_kept_witness :
  exists w1 r w2, @process_get sample_env [103; 0] [111; 0] (Some (make_chunks_output [one_hash])) one_get = Some (tt, w1) /\
    @peer_run sample_env sample_fopen one_turns (ub_of []) w1 = Some (r, w2) /\
    cl_count (getchunks (psvr w2)) = 1 /\ chunk_books (psvr w2).
Proof.
  apply (@download_books_kept sample_env one_get [103; 0] [111; 0] (make_chunks_output [one_hash]) one_read
    sample_fopen one_turns (ub_of []) one_gets one_turns_ok).
Defined.

Lemma got_file_complete_witness :
  exists w1 r w2 evs, @process_get sample_env [103; 0] [111; 0] (Some (make_chunks_output [one_hash])) one_get = Some (tt, w1) /\
    @peer_run sample_env sample_fopen one_turns (ub_of []) w1 = Some (r, w2) /\ loud_of (out w2) = loud_of (out w1) ++ evs /\
    (EvGot [103] ∈ evs <-> dl_remain (psvr w2) = 0) /\
    (EvGot [103] ∈ evs -> forall f0 k line, 0 <= k < 1 -> zget (chunks one_read) k = Some line ->
       chunk_in (replay [111] f0 evs) line).
Proof.
  apply (@got_file_complete sample_env one_get [103; 0] [111; 0] (make_chunks_output [one_hash]) one_read
    sample_fopen one_turns (ub_of []) one_gets one_turns_ok one_places).
  - reflexivity.
  - reflexivity.
Defined.
