(* ===== verification/MakeChunks.v ===== *)
(** * MakeChunks: from a file to its list of chunks, and back (make_chunks.c)

    The [main] of make_chunks.c prints the list of the chunks of a file. A peer that is
    given this list by [GET] and reports that it got it has written a file with the same
    hashes. *)

From S2P Require Import Prelude RecvWin LinkedList Sha Chunk ChunkList Machine Util Packet Sending Hashes.
From S2P Require Import Upload Download SendHelper PeerServer ParsePacket ServerInv ServerOps ServerSafe Handlers.
From S2P Require Import UserInput CommandLine PeerInit EventLoop Requests Integrity Schedule ScheduleSteps GotFile.

(** ** The code *)

Definition INT_MAX : Z := 2 ^ 31 - 1.

(** [ceil(length / BT_CHUNK_SIZE)] of the size that [stat] gives, as an [int]. The
    division of a [double] by a power of two is exact, and a size that a [double] does
    not hold exactly gives a number out of range: that conversion is undefined. *)
Definition get_numchunks (st_size : option Z) : option Z :=
  match st_size with
  | None => Some (-1)
  | Some length =>
    let n := (length + (BT_CHUNK_SIZE - 1)) / BT_CHUNK_SIZE in
    if n <=? INT_MAX then Some n else None
  end.

(** The loop that prints, in the buffer [ascii] of the stack. *)
Fixpoint print_loop (n : nat) (i : Z) (hashes : list (list Z)) (ascii : list Z) : option (list Z) :=
  match n with
  | O => Some []
  | S n' =>
    h ← zget hashes i;
    ascii ← binary2hex h SHA1_HASH_SIZE ascii;
    rest ← print_loop n' (i + 1) hashes ascii;
    Some ((printf_d i ++ [32] ++ cstr ascii ++ [10]) ++ rest)
  end.

(** The exit status and what is printed. [fp] is the content of the file, if it can be
    opened; [malloc] tells which allocations succeed; the last is the buffer of
    [make_chunks]. Nothing relates the number of
    chunks that are read to the length of the array: a chunk too many is written past
    its end. *)
Definition make_chunks_main (argc : Z) (fp : option (list Z)) (st_size : option Z) (malloc : nat -> bool)
    (junk ascii : list Z) : option (Z * list Z) :=
  if argc <? 2 then Some (-1, []) else
  numchunks ← get_numchunks st_size;
  match fp with
  | None => Some (-1, [])
  | Some file =>
    if numchunks <? 0 then Some (-1, []) else
    if negb (malloc 0%nat) then Some (-1, []) else
    if negb (forallb malloc (List.seq 1 (Z.to_nat numchunks))) then Some (-1, []) else
    r ← make_chunks (malloc (S (Z.to_nat numchunks))) junk file;
    if fst r >? numchunks then None else
    text ← print_loop (Z.to_nat (fst r)) 0 (snd r) ascii;
    Some (0, text)
  end.

(** ** What it prints *)

(** The pieces of a file: all of the size of a chunk but the last. *)
Definition pieces (file : list Z) (cs : list (list Z)) : Prop :=
  mjoin cs = file /\ forall i c, cs !! i = Some c ->
    0 < zlen c <= BT_CHUNK_SIZE /\ (S i < length cs -> zlen c = BT_CHUNK_SIZE)%nat.

Lemma pieces_number C cs : 0 < C ->
  (forall i c, cs !! i = Some c -> 0 < zlen c <= C /\ (S i < length cs -> zlen c = C)%nat) ->
  zlen cs = (zlen (mjoin cs : list Z) + (C - 1)) / C.
Proof.
  intros HC. induction cs as [|c cs IH]; intros Hcs; [simpl; rewrite Z.div_small; lia|].
  destruct (Hcs 0%nat c eq_refl) as [Hc Hfull]. change (mjoin (c :: cs)) with (c ++ mjoin cs). rewrite length_app.
  destruct cs as [|c' cs].
  - simpl. change (Z.of_nat 1) with 1. apply (Z.div_unique_pos _ _ 1 (zlen c - 1)); lia.
  - specialize (Hfull ltac:(simpl; lia)). remember (mjoin (c' :: cs)) as m eqn:Em.
    replace (Z.of_nat (length c + length m) + (C - 1)) with (zlen m + (C - 1) + 1 * C) by lia.
    rewrite Z.div_add by lia. rewrite <- IH; [cbn [length]; lia|].
    intros i d Hd. destruct (Hcs (S i) d Hd) as [? Hf]. split; [done|]. intros. apply Hf. simpl in *. lia.
Qed.

Lemma print_loop_spec hs2 : forall hs1 ascii, Forall good_hash hs2 -> zlen ascii = SHA1_BUF_SIZE ->
  print_loop (length hs2) (zlen hs1) (hs1 ++ hs2) ascii =
    Some (mjoin (imap (fun i h => print_line (Z.of_nat (length hs1 + i)) h) hs2)).
Proof.
  induction hs2 as [|h hs2 IH]; intros hs1 ascii Hg Ha; cbn [print_loop length]; [done|].
  apply Forall_cons in Hg as [[Hl Hb] Hg].
  assert (zget (hs1 ++ h :: hs2) (zlen hs1) = Some h) as ->.
  { unfold zget. rewrite decide_True by lia. by rewrite Nat2Z.id, list_lookup_middle. }
  rewrite option_bind_Some. pose proof (binary2hex_spec h ascii) as Hhex. rewrite Hl in Hhex.
  change SHA1_BUF_SIZE with 41 in Ha. rewrite Hhex, option_bind_Some by (rewrite ?Ha; done || (change SHA1_HASH_SIZE with 20; lia)).
  rewrite (cstr_plain (hexstring h)) by (by apply hexdigit_nonzero, hexstring_digits).
  specialize (IH (hs1 ++ [h])). rewrite <- app_assoc in IH. cbn [app] in IH.
  replace (zlen hs1 + 1) with (zlen (hs1 ++ [h])) by (rewrite length_app; simpl; lia).
  rewrite IH, option_bind_Some; [|done|].
  - rewrite imap_cons. change (mjoin (?a :: ?b)) with (a ++ mjoin b). rewrite Nat.add_0_r. unfold print_line at 2.
    rewrite <- !app_assoc. do 6 f_equal. apply imap_ext. intros j x _. simpl. rewrite length_app. simpl. do 2 f_equal. lia.
  - rewrite length_app. cbn [length]. rewrite length_drop. change SHA1_BUF_SIZE with 41.
    pose proof (hexstring_length h). rewrite Hl in *. change SHA1_HASH_SIZE with 20 in *. lia.
Qed.

Lemma sha1_good m : good_hash (sha1_spec m).
Proof. split; [by rewrite sha1_spec_length|apply sha1_spec_bytes]. Qed.

Lemma pieces_range n C : 0 < C -> 0 < n <= MAX_CHUNK_NUM * C -> 0 < (n + (C - 1)) / C <= MAX_CHUNK_NUM.
Proof. intros HC Hn. split; [apply Z.div_str_pos; lia|]. apply Z.lt_succ_r, Z.div_lt_upper_bound; lia. Qed.
Lemma size_range n C : 0 < C -> 0 <= n <= INT_MAX * C -> 0 <= (n + (C - 1)) / C <= INT_MAX.
Proof. intros HC Hn. split; [apply Z.div_pos; lia|]. apply Z.lt_succ_r, Z.div_lt_upper_bound; lia. Qed.

(** The run of [main] on a file, whatever size [stat] gave. *)
Lemma make_chunks_main_run (file : list Z) (size : Z) (malloc : nat -> bool) (junk ascii : list Z) :
  length junk = 64%nat -> zlen ascii = SHA1_BUF_SIZE -> (forall n, malloc n = true) -> 0 <= size <= INT_MAX * BT_CHUNK_SIZE ->
  exists cs, pieces file cs /\ make_chunks_main 2 (Some file) (Some size) malloc junk ascii =
    (if zlen cs >? (size + (BT_CHUNK_SIZE - 1)) / BT_CHUNK_SIZE then None
     else Some (0, make_chunks_output (sha1_spec <$> cs))).
Proof.
  intros Hj Ha Hm Hsize. destruct (make_chunks_loop_spec junk (length file) file 0 [] Hj) as (n & cs & Hrun & Hcat & <- & Hcs); [done|].
  exists cs. split; [done|]. unfold make_chunks_main, get_numchunks. change (2 <? 2) with false. cbv iota.
  assert (0 <= (size + (BT_CHUNK_SIZE - 1)) / BT_CHUNK_SIZE <= INT_MAX) as [H0 Hmax].
  { by apply size_range. }
  destruct (Z.leb_spec ((size + (BT_CHUNK_SIZE - 1)) / BT_CHUNK_SIZE) INT_MAX); [|lia]. rewrite option_bind_Some.
  destruct (Z.ltb_spec ((size + (BT_CHUNK_SIZE - 1)) / BT_CHUNK_SIZE) 0); [lia|]. rewrite Hm.
  replace (forallb malloc _) with true by (symmetry; apply forallb_forall; intros; apply Hm). cbn [negb].
  unfold make_chunks. rewrite Hm. cbn [negb]. rewrite Hrun, option_bind_Some. cbn [fst snd]. rewrite Z.add_0_l. destruct (_ >? _); [done|].
  pose proof (print_loop_spec (sha1_spec <$> cs) [] ascii) as Hp. rewrite length_fmap in Hp. cbn [app length] in Hp.
  rewrite Nat2Z.id. cbn [app]. change (Z.of_nat 0) with 0 in Hp. rewrite Hp, option_bind_Some; [done| |done].
  apply Forall_fmap, Forall_true. intros x. apply sha1_good.
Qed.

Lemma hexstring_inj a b : Forall is_byte a -> Forall is_byte b -> zlen a = zlen b -> hexstring a = hexstring b -> a = b.
Proof.
  intros Ha Hb Hl E. pose proof (hex2binary_spec a [] a Ha ltac:(lia)) as E1.
  pose proof (hex2binary_spec b [] a Hb ltac:(lia)) as E2. rewrite Hl, E, E2 in E1. injection E1 as E1.
  rewrite !drop_ge in E1 by lia. by rewrite !app_nil_r in E1.
Qed.

(** The list of a file, once read over the list [l]. *)
Definition printed (hs : list (list Z)) (l : ChunkList) : ChunkList :=
  {| cl_count := zlen hs; chunks := imap (fun i h => read_line (Z.of_nat i) h) hs ++ drop (length hs) (chunks l) |}.

Lemma printed_read hs l : Forall good_hash hs -> zlen hs <= MAX_CHUNK_NUM -> list_wf l ->
  parse_chunk l (Some (make_chunks_output hs)) = Some (0, printed hs l).
Proof.
  intros Hg Hmax (Hl & _ & Hwf). apply parse_printed; [done|done|done|]. eapply Forall_impl; [exact Hwf|]. by intros c [? _].
Qed.

Lemma printed_line hs l k h : hs !! k = Some h -> zget (chunks (printed hs l)) (Z.of_nat k) = Some (read_line (Z.of_nat k) h).
Proof.
  intros Hk. pose proof (lookup_lt_Some _ _ _ Hk). unfold zget, printed. cbn [chunks]. rewrite decide_True, Nat2Z.id by lia.
  rewrite lookup_app_l by (by rewrite length_imap). by rewrite list_lookup_imap, Hk.
Qed.

Lemma printed_line_inv hs l k c : 0 <= k < zlen hs -> zget (chunks (printed hs l)) k = Some c ->
  exists h, hs !! Z.to_nat k = Some h /\ c = read_line k h.
Proof.
  intros Hk Hc. destruct (lookup_lt_is_Some_2 hs (Z.to_nat k)) as [h Hh]; [lia|]. exists h. split; [done|].
  apply (printed_line _ l) in Hh. rewrite Z2Nat.id in Hh by lia. congruence.
Qed.

Lemma printed_places hs l : zlen hs <= MAX_CHUNK_NUM -> places_ok (printed hs l).
Proof.
  intros Hmax. assert (forall k c, 0 <= k < zlen hs -> zget (chunks (printed hs l)) k = Some c -> cl_id c = k) as Hid.
  { intros k c Hk Hc. by destruct (printed_line_inv _ _ _ _ Hk Hc) as (h & _ & ->). }
  split; change (cl_count (printed hs l)) with (zlen hs).
  - intros k c Hk Hc. rewrite (Hid k c Hk Hc). lia.
  - intros k1 k2 l1 l2 H1 H2 G1 G2 E. by rewrite <- (Hid k1 l1 H1 G1), E, (Hid k2 l2 H2 G2).
Qed.

(** The chunk of a printed line has the line's hash. *)
Lemma chunk_in_printed f k h : good_hash h -> chunk_in f (read_line k h) ->
  sha1_spec (range f (k * BT_CHUNK_SIZE) BT_CHUNK_SIZE) = h.
Proof.
  intros [Hl Hb] [_ Htx]. cbn [cl_id read_line] in Htx. revert Htx. generalize (range f (k * BT_CHUNK_SIZE) BT_CHUNK_SIZE).
  intros d. unfold line_text, sha1_text. cbn [sha1_buf read_line].
  rewrite cstr_plain by (by apply hexdigit_nonzero, hexstring_digits). intros E. symmetry.
  apply hexstring_inj; [done|apply sha1_spec_bytes|by rewrite Hl, sha1_spec_length|exact E].
Qed.

(** A [GET] with a printed list, and a run. *)
Lemma got_printed `{Env} hs w cf outf fopen ts ub :
  Forall good_hash hs -> 0 < zlen hs <= MAX_CHUNK_NUM ->
  server_inv (psvr w) -> idle (psvr w) -> 0 ∈ cf -> 0 ∈ outf -> zlen (cstr cf) < BT_FILENAME_LEN ->
  zlen (cstr outf) < BT_FILENAME_LEN -> turns_ok fopen ts ub -> (forall n, lseek_ok n = true) ->
  exists w1 r w2 evs,
    process_get cf outf (Some (make_chunks_output hs)) w = Some (tt, w1) /\ peer_run fopen ts ub w1 = Some (r, w2) /\
    loud_of (out w2) = loud_of (out w1) ++ evs /\
    (EvGot (cstr cf) ∈ evs -> forall f0 k h, hs !! k = Some h ->
       sha1_spec (range (replay (cstr outf) f0 evs) (Z.of_nat k * BT_CHUNK_SIZE) BT_CHUNK_SIZE) = h).
Proof.
  intros Hg [Hpos Hmax] Hs Hi Hcf Hof Hlc Hlo Hts Hseek. set (cl := printed hs (getchunks (psvr w))).
  assert (gets_list w cf outf (make_chunks_output hs) cl) as Hgl.
  { split; [done|done|done|by apply make_chunks_file_fits|]. by apply printed_read, list_ok_wf, (sm_get _ (si_mem _ Hs)). }
  destruct (got_complete _ _ _ _ _ _ _ _ Hgl Hts) as (w1 & r & w2 & evs & E1 & E2 & Eo & _ & Hgot);
    [by apply printed_places|exact Hpos|done|].
  exists w1, r, w2, evs. split_and!; [done|done|done|]. intros Hin f0 k h Hk. pose proof (lookup_lt_Some _ _ _ Hk) as Hlt.
  rewrite Forall_lookup in Hg. apply chunk_in_printed; [by eapply Hg|]. apply (Hgot Hin f0 (Z.of_nat k)).
  - change (cl_count cl) with (zlen hs). lia.
  - by apply printed_line.
Qed.

(** ** Properties *)

(** C28: [main] of make_chunks prints one numbered line for the SHA-1 of each piece of the
    file, provided [stat] gave its size; for a file that has grown since by a piece, a
    hash is written past the array. *)
Theorem make_chunks_prints (file : list Z) (size : Z) (malloc : nat -> bool) (junk ascii : list Z) :
  length junk = 64%nat -> zlen ascii = SHA1_BUF_SIZE -> (forall n, malloc n = true) -> 0 <= size <= INT_MAX * BT_CHUNK_SIZE ->
  exists cs, pieces file cs /\ make_chunks_main 2 (Some file) (Some size) malloc junk ascii =
    (if (zlen file + (BT_CHUNK_SIZE - 1)) / BT_CHUNK_SIZE >? (size + (BT_CHUNK_SIZE - 1)) / BT_CHUNK_SIZE then None
     else Some (0, make_chunks_output (sha1_spec <$> cs))).
Proof.
  intros Hj Ha Hm Hs. destruct (make_chunks_main_run file size malloc junk ascii Hj Ha Hm Hs) as (cs & Hp & E).
  exists cs. split; [done|]. rewrite E. destruct Hp as [Hcat Hcs]. by rewrite (pieces_number BT_CHUNK_SIZE cs), Hcat.
Qed.

(** C7: from a file to its copy: make-chunks prints a list; a peer that gets that list and
    reports it has written a file whose [k]-th chunk has, for every [k], the SHA-1 of the
    [k]-th piece of the original. *)
Theorem made_list_fetched `{Env} (original junk ascii : list Z) (malloc : nat -> bool) (w : World) (cf outf : list Z)
    (fopen : list Z -> option (list Z)) (ts : list turn) (ub : user_iobuf) :
  length junk = 64%nat -> zlen ascii = SHA1_BUF_SIZE -> (forall n, malloc n = true) ->
  0 < zlen original <= MAX_CHUNK_NUM * BT_CHUNK_SIZE ->
  server_inv (psvr w) -> idle (psvr w) -> 0 ∈ cf -> 0 ∈ outf -> zlen (cstr cf) < BT_FILENAME_LEN ->
  zlen (cstr outf) < BT_FILENAME_LEN -> turns_ok fopen ts ub -> (forall n, lseek_ok n = true) ->
  exists text cs w1 r w2 evs,
    make_chunks_main 2 (Some original) (Some (zlen original)) malloc junk ascii = Some (0, text) /\ pieces original cs /\
    process_get cf outf (Some text) w = Some (tt, w1) /\ peer_run fopen ts ub w1 = Some (r, w2) /\
    loud_of (out w2) = loud_of (out w1) ++ evs /\
    (EvGot (cstr cf) ∈ evs -> forall f0 k c, cs !! k = Some c ->
       sha1_spec (range (replay (cstr outf) f0 evs) (Z.of_nat k * BT_CHUNK_SIZE) BT_CHUNK_SIZE) = sha1_spec c).
Proof.
  intros Hj Ha Hm Hlen Hs Hi Hcf Hof Hlc Hlo Hts Hseek.
  assert (0 <= zlen original <= INT_MAX * BT_CHUNK_SIZE) as Hsize.
  { split; [lia|]. etransitivity; [apply Hlen|]. apply Z.mul_le_mono_nonneg_r; done. }
  destruct (make_chunks_main_run original (zlen original) malloc junk ascii Hj Ha Hm Hsize) as (cs & Hp & E).
  pose proof Hp as [Hcat Hcs]. pose proof (pieces_number BT_CHUNK_SIZE cs eq_refl Hcs) as Hn. rewrite Hcat in Hn.
  pose proof (pieces_range _ BT_CHUNK_SIZE eq_refl Hlen) as Hcl. rewrite <- Hn in E, Hcl. rewrite Z.gtb_ltb, Z.ltb_irrefl in E.
  destruct (got_printed (sha1_spec <$> cs) w cf outf fopen ts ub) as (w1 & r & w2 & evs & E1 & E2 & Eo & Hgot); try done.
  - apply Forall_fmap, Forall_true. intros x. apply sha1_good.
  - by rewrite length_fmap.
  - exists (make_chunks_output (sha1_spec <$> cs)), cs, w1, r, w2, evs. split_and!; [done|done|done|done|done|].
    intros Hin f0 k c Hc. apply (Hgot Hin f0 k). by rewrite list_lookup_fmap, Hc.
Qed.

(** *** Examples *)

Lemma make_chunks_prints_witness :
  exists cs, pieces [97; 98; 99] cs /\
    make_chunks_main 2 (Some [97; 98; 99]) (Some 3) (fun _ => true) (replicate 64 0) (replicate 41 0) =
      Some (0, make_chunks_output (sha1_spec <$> cs)).
Proof.
  apply (make_chunks_prints [97; 98; 99] 3 (fun _ => true) (replicate 64 0) (replicate 41 0)).
  - reflexivity.
  - reflexivity.
  - reflexivity.
  - split; discriminate.
Defined.

Lemma made_list_fetched_witness :
  exists text cs w1 r w2 evs,
    make_chunks_main 2 (Some [97; 98; 99]) (Some 3) (fun _ => true) (replicate 64 0) (replicate 41 0) = Some (0, text) /\
    pieces [97; 98; 99] cs /\ @process_get sample_env [103; 0] [111; 0] (Some text) one_get = Some (tt, w1) /\
    @peer_run sample_env sample_fopen one_turns (ub_of []) w1 = Some (r, w2) /\
    loud_of (out w2) = loud_of (out w1) ++ evs /\
    (EvGot [103] ∈ evs -> forall f0 k c, cs !! k = Some c ->
       sha1_spec (range (replay [111] f0 evs) (Z.of_nat k * BT_CHUNK_SIZE) BT_CHUNK_SIZE) = sha1_spec c).
Proof.
  apply (@made_list_fetched sample_env [97; 98; 99] (replicate 64 0) (replicate 41 0) (fun _ => true) one_get [103; 0] [111; 0]
    sample_fopen one_turns (ub_of [])).
  - reflexivity.
  - reflexivity.
  - reflexivity.
  - split; [reflexivity|discriminate].
  - exact sample_idle_inv.
  - repeat constructor.
  - right. left.
  - right. left.
  - reflexivity.
  - reflexivity.
  - exact one_turns_ok.
  - reflexivity.
Defined.
