(* ===== verification/ServerTransfer.v ===== *)
(** * ServerTransfer: the server runs the transfers of Transfer.v

    A datagram that arrives from a peer with a running transfer is handled by the
    server exactly as [sender_input] and [receiver_input] handle it: the peer's transfer
    gets the new state, the same datagrams are sent, and nothing else happens unless the
    transfer is over. So the theorems about transfers are about the server. *)

From S2P Require Import Prelude RecvWin LinkedList Sha Chunk ChunkList Machine Util Packet Sending Hashes.
From S2P Require Import Upload Download SendHelper PeerServer ParsePacket Transfer ServerInv ServerOps ServerSafe Handlers.
From S2P Require Import UserInput CommandLine PeerInit EventLoop Requests Integrity Outcomes.

Section Server.
Context `{Env}.

(** Peer [i] is the first with its address. *)
Definition known (s : PeerServer) (i : Z) (p : Peer) : Prop :=
  peer_at s i p /\ forall j q, 0 <= j < i -> zget (peers (peerlist s)) j = Some q -> ~ same_addr q (addr p).

Lemma addr2Index_known i p w : server_mem (psvr w) -> known (psvr w) i p -> addr2Index (addr p) w = Some (i, w).
Proof.
  intros Hm [[Hp Hi] Hfirst]. pose proof (sm_cnt _ Hm). unfold addr2Index, bind, gets, lift.
  destruct (addr2Index_loop_spec (Z.to_nat (pl_count (peerlist (psvr w)))) (addr p) (peers (peerlist (psvr w))) 0)
    as (r & -> & Hr); [lia|lia|]. do 2 f_equal.
  destruct Hr as [[-> Hno]|(Hr & (q & Hq & Hqa) & Hno)].
  - exfalso. apply (Hno i p); [lia|done|by split].
  - destruct (Z.lt_total r i) as [Hlt|[->|Hgt]]; [|done|].
    + exfalso. apply (Hfirst r q); [lia|done|done].
    + exfalso. apply (Hno i p); [lia|done|by split].
Qed.

(** A datagram of a transfer, decoded. *)
Lemma receive_transfer ty sq ak body w :
  ty = PACKET_TYPE_DATA \/ ty = PACKET_TYPE_ACK -> 0 <= sq < 2 ^ 32 -> 0 <= ak < 2 ^ 32 -> zlen body <= MAX_PAYLOAD_SIZE ->
  exists pkt w0, receive_datagram (Some (datagram ty sq ak body)) w = Some (pkt, w0) /\
    packet_valid pkt /\ valid_packet pkt = Some true /\ type pkt = ty /\ psvr w0 = psvr w.
Proof.
  intros Hty Hs Ha Hb.
  enough (wp (receive_datagram (Some (datagram ty sq ak body)))
    (fun pkt w0 => packet_valid pkt /\ valid_packet pkt = Some true /\ type pkt = ty /\ psvr w0 = psvr w) w)
    as (pkt & w0 & ? & ?) by (by exists pkt, w0).
  apply receive_own; [destruct Hty as [-> | ->]; done|done|done|done|]. intros rest w0 Hlen [Ep _].
  by destruct (own_valid ty sq ak body rest Hty Hs Ha Hlen).
Qed.

(** The world after the transfer of a peer has its new state. *)
Definition with_peer (w : World) (i : Z) (p : Peer) : World := w .{ psvr := upd_peer (psvr w) i p }.

Lemma set_peer_run i p q w : zget (peers (peerlist (psvr w))) i = Some q -> set_peer i p w = Some (tt, with_peer w i p).
Proof.
  intros Hq. pose proof (zget_Some_range _ _ _ Hq) as Hi. unfold set_peer, bind, gets, lift, zset.
  by rewrite decide_True by lia.
Qed.
Lemma get_peer_run i p w : zget (peers (peerlist (psvr w))) i = Some p -> get_peer i w = Some (p, w).
Proof. intros Hp. unfold get_peer, bind, gets, lift. by rewrite Hp. Qed.

(** A valid packet from a peer that is known reaches the handler of its type. *)
Definition handle (pkt : packet_t) (i : Z) : M Z :=
  if type pkt =? PACKET_TYPE_WHOHAS then handle_WHOHAS pkt i
  else if type pkt =? PACKET_TYPE_IHAVE then handle_IHAVE pkt i
  else if type pkt =? PACKET_TYPE_GET then handle_GET pkt i
  else if type pkt =? PACKET_TYPE_DATA then handle_DATA pkt i
  else if type pkt =? PACKET_TYPE_ACK then handle_ACK pkt i
  else ret 0.

Lemma process_handled dg i p w pkt w0 r w' :
  server_mem (psvr w) -> known (psvr w) i p -> receive_datagram (Some dg) w = Some (pkt, w0) -> psvr w0 = psvr w ->
  valid_packet pkt = Some true -> handle pkt i w0 = Some (r, w') ->
  process_inbound_udp (Some dg) (addr p) w = Some (tt, w').
Proof.
  intros Hm Hk Er Ep Ev Eh. unfold process_inbound_udp, bind. rewrite Er. unfold lift. rewrite Ev.
  rewrite <- Ep in Hk, Hm. unfold parse_packet, bind. rewrite (addr2Index_known i p w0 Hm Hk).
  destruct Hk as [[_ Hi] _]. destruct (Z.ltb_spec i 0); [lia|]. fold (handle pkt i). by rewrite Eh.
Qed.

(** What is left of an upload that is over. *)
Definition upload_over (i : Z) (w w' : World) : Prop :=
  exists p d, zget (peers (peerlist (psvr w))) i = Some p /\ out w' = out w /\
    psvr w' = (upd_peer (psvr w) i (p .{ ul := (ul p) .{ ul_data := d } } .{ is_uploading := false }))
      .{ ul_num := s32 (ul_num (psvr w) - 1) }.

Lemma upload_over_run i p w : peer_at (psvr w) i p -> ul_data (ul p) <> data_unmapped ->
  exists w', (kill_upload_of i ;;; p <- get_peer i ;; set_peer i (p .{ is_uploading := false })) w = Some (tt, w') /\ upload_over i w w'.
Proof.
  intros Hp Hd. enough (wp (kill_upload_of i ;;; p <- get_peer i ;; set_peer i (p .{ is_uploading := false }))
    (fun _ w' => upload_over i w w') w) as ([] & w' & E & Ho) by (by exists w').
  wp_go. eapply kill_upload_of_spec; [exact Hp|exact Hd|]. intros d w1 Ew1 Eo1. wp_go. set (q := p .{ ul := _ }) in Ew1.
  assert (zget (peers (peerlist (psvr w1))) i = Some q) as Hq by (rewrite Ew1; eapply upd_peer_get, Hp).
  eapply wp_get_peer; [exact Hq|]. wp_go. eapply wp_set_peer; [exact Hq|].
  exists p, d. split; [apply Hp|]. split; [exact Eo1|]. fold q. unfold upd_peer. simpl. rewrite Ew1. unfold upd_peer. simpl.
  by rewrite list_insert_insert_eq.
Qed.
End Server.

(** An acknowledgement of a running upload: [handle_ACK] is [sender_input] on the peer. *)
Lemma upload_ack_run `{Env} (i a : Z) (p : Peer) (w : World) :
  server_mem (psvr w) -> known (psvr w) i p -> is_alive p = true -> is_uploading p = true -> 0 <= a < 2 ^ 32 ->
  exists u w1 w', sender_input (ack_datagram a) (ul p) w = Some (u, w1) /\ psvr w1 = psvr w /\
    process_inbound_udp (Some (ack_datagram a)) (addr p) w = Some (tt, w') /\
    if ul_finished u then upload_over i (with_peer w1 i (p .{ ul := u })) w' else w' = with_peer w1 i (p .{ ul := u }).
Proof.
  intros Hm Hk Ha Hu Hack. pose proof Hk as [Hp _]. pose proof (sm_peers _ Hm _ _ Hp) as [_ _ Hul].
  destruct (receive_transfer PACKET_TYPE_ACK 0 a [] w) as (pkt & w0 & Er & Hv & Ev & Et & Ep); [by right|done|done|done|].
  assert (zget (peers (peerlist (psvr w0))) i = Some p) as Hp0 by (rewrite Ep; apply Hp).
  enough (wp (update_upload (ul p) pkt) (fun ru w1 => ul_run i (snd ru) /\ psvr w1 = psvr w) w0) as ([r u] & w1 & Eu & Hrun & Ew1).
  2: { eapply (update_upload_spec i p); [by apply Hul|done|]. intros r u w1 Hrun Ew1. split; [done|]. by rewrite Ew1. }
  cbn [snd] in Hrun. exists u, w1. assert (sender_input (ack_datagram a) (ul p) w = Some (u, w1)) as Es.
  { unfold sender_input, bind, ack_datagram. rewrite Er. unfold lift. rewrite Ev, Et. cbv iota. cbn [andb].
    change (PACKET_TYPE_ACK =? PACKET_TYPE_ACK) with true. cbv beta iota. by rewrite Eu. }
  assert (zget (peers (peerlist (psvr w1))) i = Some p) as Hp1 by (rewrite Ew1; apply Hp).
  assert (peer_at (psvr (with_peer w1 i (p .{ ul := u }))) i (p .{ ul := u })) as Hp2.
  { simpl. apply (upd_peer_at _ _ _ p). split; [done|]. rewrite Ew1. apply Hp. }
  assert (forall w', (if is_upload_finished u
      then kill_upload_of i ;;; p <- get_peer i ;; set_peer i (p .{ is_uploading := false }) else ret tt)
      (with_peer w1 i (p .{ ul := u })) = Some (tt, w') ->
    process_inbound_udp (Some (ack_datagram a)) (addr p) w = Some (tt, w')) as Hrest.
  { intros w' Erest. unfold ack_datagram. eapply (process_handled _ i p _ pkt w0 0); [done|done|exact Er|done|done|]. unfold handle. rewrite Et.
    change (handle_ACK pkt i w0 = Some (0, w')). unfold handle_ACK, bind.
    rewrite (get_peer_run i p w0 Hp0), Ha, Hu. cbn [negb orb]. rewrite Eu, (get_peer_run i p w1 Hp1). cbn [snd].
    rewrite (set_peer_run i _ p w1 Hp1). unfold bind in Erest. by rewrite Erest. }
  unfold is_upload_finished in Hrest. destruct (ul_finished u) eqn:Ef.
  - destruct (upload_over_run i _ _ Hp2) as (w' & E & Ho); [by eapply ul_run_mapped|]. exists w'.
    split_and!; [exact Es|exact Ew1|by apply Hrest|exact Ho].
  - exists (with_peer w1 i (p .{ ul := u })). split_and!; [exact Es|exact Ew1|by apply Hrest|done].
Qed.


(** A packet of a running download: [handle_DATA] is [receiver_input] on the peer. *)
Lemma download_data_run `{Env} (i sq : Z) (body : list Z) (p : Peer) (w : World) :
  server_inv (psvr w) -> known (psvr w) i p -> is_alive p = true -> is_downloading p = true ->
  0 <= sq < 2 ^ 32 -> zlen body <= MAX_PAYLOAD_SIZE ->
  exists d w1 w', receiver_input (data_datagram sq body) (dl p) w = Some (d, w1) /\ psvr w1 = psvr w /\
    dl_frame (dl p) d /\ server_inv (upd_peer (psvr w) i (p .{ dl := d })) /\
    process_inbound_udp (Some (data_datagram sq body)) (addr p) w = Some (tt, w') /\
    if dl_finished d then end_download i (with_peer w1 i (p .{ dl := d })) = Some (tt, w')
    else w' = with_peer w1 i (p .{ dl := d }).
Proof.
  intros Hs Hk Ha Hd Hsq Hb. pose proof Hk as [Hp _]. pose proof (si_mem _ Hs) as Hm. pose proof (sm_peers _ Hm _ _ Hp) as [Hq Hdl Hul].
  destruct (Hdl Hd) as (Hsafe & Hidx & Hget).
  destruct (receive_transfer PACKET_TYPE_DATA sq 0 body w) as (pkt & w0 & Er & Hv & Ev & Et & Ep); [by left|done|done|done|].
  assert (zget (peers (peerlist (psvr w0))) i = Some p) as Hp0 by (rewrite Ep; apply Hp).
  enough (wp (update_download (dl p) pkt) (fun rd w1 => dl_safe (snd rd) /\ dl_frame (dl p) (snd rd) /\ psvr w1 = psvr w) w0)
    as ([r d] & w1 & Eu & Hsafe1 & Hframe & Ew1).
  2: { apply dl_recv_safe; [done|done|rewrite Hidx, Ep; by eapply peer_at_ok|]. intros r d w1 H1 H2 Hem.
       split_and!; [done|done|]. by rewrite (emits_psvr _ _ _ Hem). }
  cbn [snd] in *. pose proof Hframe as (Eg & Ei & _). exists d, w1. assert (receiver_input (data_datagram sq body) (dl p) w = Some (d, w1)) as Es.
  { unfold receiver_input, bind, data_datagram. rewrite Er. unfold lift. rewrite Ev, Et. cbv iota. cbn [andb].
    change (PACKET_TYPE_DATA =? PACKET_TYPE_DATA) with true. cbv beta iota. by rewrite Eu. }
  assert (exists pr, print_download_progress p w0 = Some (pr, w0)) as [pr Epr].
  { enough (wp (print_download_progress p) (fun _ w' => w' = w0) w0) as (pr & ? & E & ->) by (by exists pr).
    eapply (print_download_progress_total i); [by apply Hdl|rewrite Ep; apply Hm|done]. }
  assert (zget (peers (peerlist (psvr w1))) i = Some p) as Hp1 by (rewrite Ew1; apply Hp).
  set (w2 := with_peer w1 i (p .{ dl := d })).
  assert (server_inv (upd_peer (psvr w) i (p .{ dl := d }))) as Hinv2.
  { eapply server_inv_upd; [done|exact Hp| |done|done].
    split; [done| |exact Hul]. intros _. split; [done|]. simpl. by rewrite Ei, Eg. }
  assert (forall w', (if is_download_finished d then end_download i else ret tt) w2 = Some (tt, w') ->
    process_inbound_udp (Some (data_datagram sq body)) (addr p) w = Some (tt, w')) as Hrest.
  { intros w' Erest. unfold data_datagram. eapply (process_handled _ i p _ pkt w0 0); [done|done|exact Er|done|done|]. unfold handle. rewrite Et.
    change (handle_DATA pkt i w0 = Some (0, w')). unfold handle_DATA, bind.
    rewrite (get_peer_run i p w0 Hp0), Ha, Hd. cbn [negb orb]. rewrite Epr, Eu, (get_peer_run i p w1 Hp1). cbn [snd].
    rewrite (set_peer_run i _ p w1 Hp1). fold w2. by rewrite Erest. }
  unfold is_download_finished in Hrest. destruct (dl_finished d).
  - assert (exists w', end_download i w2 = Some (tt, w')) as [w' E].
    { enough (wp (end_download i) (fun _ _ => True) w2) as ([] & w' & E & _) by (by exists w').
      eapply (end_download_inv i (p .{ dl := d })); [|unfold w2; simpl; rewrite Ew1; by eapply upd_peer_at|done|done].
      unfold w2. simpl. by rewrite Ew1. }
    exists w'. split_and!; [exact Es|exact Ew1|exact Hframe|exact Hinv2|by apply Hrest|exact E].
  - exists w2. split_and!; [exact Es|exact Ew1|exact Hframe|exact Hinv2|by apply Hrest|done].
Qed.


(** ** Properties *)

(** C13: an acknowledgement from a peer that the server uploads to is handled as
    [sender_input] does on the peer's upload, which gets its new value, with the same
    datagrams sent; if it is over, it is unmapped, uncounted and stopped. *)
Theorem server_runs_uploads `{Env} (i a : Z) (p : Peer) (w : World) :
  server_mem (psvr w) -> known (psvr w) i p -> is_alive p = true -> is_uploading p = true -> 0 <= a < 2 ^ 32 ->
  exists u w1 w', sender_input (ack_datagram a) (ul p) w = Some (u, w1) /\ psvr w1 = psvr w /\
    process_inbound_udp (Some (ack_datagram a)) (addr p) w = Some (tt, w') /\
    if ul_finished u then upload_over i (with_peer w1 i (p .{ ul := u })) w' else w' = with_peer w1 i (p .{ ul := u }).
Proof. apply upload_ack_run. Qed.

(** C14: a packet of data from a peer that the server downloads from is handled as
    [receiver_input] does on the peer's download, which gets its new value, with the
    same acknowledgement sent; if it is over, [end_download] settles the chunk. *)
Theorem server_runs_downloads `{Env} (i sq : Z) (body : list Z) (p : Peer) (w : World) :
  server_inv (psvr w) -> known (psvr w) i p -> is_alive p = true -> is_downloading p = true ->
  0 <= sq < 2 ^ 32 -> zlen body <= MAX_PAYLOAD_SIZE ->
  exists d w1 w', receiver_input (data_datagram sq body) (dl p) w = Some (d, w1) /\ psvr w1 = psvr w /\
    dl_frame (dl p) d /\ server_inv (upd_peer (psvr w) i (p .{ dl := d })) /\
    process_inbound_udp (Some (data_datagram sq body)) (addr p) w = Some (tt, w') /\
    if dl_finished d then end_download i (with_peer w1 i (p .{ dl := d })) = Some (tt, w')
    else w' = with_peer w1 i (p .{ dl := d }).
Proof. apply download_data_run. Qed.

(** *** Examples *)

(** The only peer of a small server, being served its first chunk. *)
Definition served_peer : Peer :=
  sample_peer .{ is_uploading := true } .{ ul := (ul_start 0 0) .{ ul_data := data_mapped zero_chunk } }.
Definition sample_serving : PeerServer := upd_peer sample_idle 0 served_peer.

Lemma sample_idle_peer : peer_at sample_idle 0 sample_peer.
Proof. split; [reflexivity|split; [discriminate|reflexivity]]. Qed.
Lemma served_run : ul_run 0 (ul served_peer).
Proof.
  split; [exact (ul_start_wf 0 0 _)|]. split; [reflexivity|]. split; [discriminate|].
  exists zero_chunk. split; [reflexivity|exact zero_chunk_length].
Qed.
Lemma sample_serving_mem : server_mem sample_serving.
Proof.
  apply (server_mem_upd sample_idle 0 sample_peer); [exact (@si_mem _ _ sample_idle_inv)|exact sample_idle_peer|].
  split; [exists []; split; [apply empty_ll_rep|constructor]|intros Hd; discriminate Hd|intros _; exact served_run].
Qed.

Lemma server_runs_uploads_witness :
  exists u w1 w', @sender_input sample_env (ack_datagram 0) (ul served_peer) {| psvr := sample_serving; tick := 0; out := [] |} = Some (u, w1) /\
    psvr w1 = sample_serving /\
    @process_inbound_udp sample_env (Some (ack_datagram 0)) {| sin_port := 80; s_addr := 1 |}
      {| psvr := sample_serving; tick := 0; out := [] |} = Some (tt, w') /\
    if ul_finished u then upload_over 0 (with_peer w1 0 (served_peer .{ ul := u })) w'
    else w' = with_peer w1 0 (served_peer .{ ul := u }).
Proof.
  apply (@server_runs_uploads sample_env 0 0 served_peer {| psvr := sample_serving; tick := 0; out := [] |}).
  - exact sample_serving_mem.
  - split; [split; [reflexivity|split; [discriminate|reflexivity]]|]. intros j q Hj. lia.
  - reflexivity.
  - reflexivity.
  - split; [discriminate|reflexivity].
Defined.

Lemma server_runs_downloads_witness :
  exists d w1 w', @receiver_input sample_env (data_datagram 1 [7]) (dl loading_peer) {| psvr := sample_loading; tick := 0; out := [] |} = Some (d, w1) /\
    psvr w1 = sample_loading /\ dl_frame (dl loading_peer) d /\ @server_inv sample_env (upd_peer sample_loading 0 (loading_peer .{ dl := d })) /\
    @process_inbound_udp sample_env (Some (data_datagram 1 [7])) {| sin_port := 80; s_addr := 1 |}
      {| psvr := sample_loading; tick := 0; out := [] |} = Some (tt, w') /\
    if dl_finished d then @end_download sample_env 0 (with_peer w1 0 (loading_peer .{ dl := d })) = Some (tt, w')
    else w' = with_peer w1 0 (loading_peer .{ dl := d }).
Proof.
  apply (@server_runs_downloads sample_env 0 1 [7] loading_peer {| psvr := sample_loading; tick := 0; out := [] |}).
  - exact sample_loading_inv.
  - split; [split; [reflexivity|split; [discriminate|reflexivity]]|]. intros j q Hj. lia.
  - reflexivity.
  - reflexivity.
  - split; [discriminate|reflexivity].
  - discriminate.
Defined.
