(* ===== verification/Alike.v ===== *)
(** * Alike: what a transfer depends on

    The operations of a transfer read little of the server: the socket, the addresses of
    the peers, and what the window log needs. Two worlds that agree on this, one of which
    has sent [pre] before, run them alike: the same result, the same datagrams, and [psvr]
    untouched. So a theorem about a transfer on hosts that do nothing else (Transfer.v)
    is one about the transfer inside a server. *)

From S2P Require Import Prelude RecvWin LinkedList Sha Chunk ChunkList Machine Util Packet Sending.
From S2P Require Import Upload Download SendHelper PeerServer ParsePacket Transfer.

(** ** Worlds that agree *)

(** The same host, but for what its transfers have made of the peers. *)
Record same_host (s t : PeerServer) : Prop := {
  sh_rest : s = t .{ peerlist := peerlist s };
  sh_count : pl_count (peerlist s) = pl_count (peerlist t);
  sh_peers : Forall2 (fun p q => addr p = addr q /\ p_id p = p_id q) (peers (peerlist s)) (peers (peerlist t)) }.

Record alike (pre : list event) (w v : World) : Prop := {
  al_host : same_host (psvr w) (psvr v);
  al_tick : tick w = tick v;
  al_out : out w = pre ++ out v }.

Definition uniform {A} (m : M A) : Prop := forall pre w v a v', alike pre w v -> m v = Some (a, v') ->
  exists w', m w = Some (a, w') /\ alike pre w' v' /\ psvr w' = psvr w /\ psvr v' = psvr v.

(** A part of the server that is not its peers. *)
Definition of_host {A} (f : PeerServer -> A) : Prop := forall s pl, f (s .{ peerlist := pl }) = f s.

Lemma of_host_same {A} (f : PeerServer -> A) s t : of_host f -> same_host s t -> f s = f t.
Proof. intros Hf [-> _ _]. apply Hf. Qed.

Lemma same_host_peer s t i q : same_host s t -> zget (peers (peerlist t)) i = Some q ->
  exists p, zget (peers (peerlist s)) i = Some p /\ addr p = addr q /\ p_id p = p_id q.
Proof.
  intros Hs Hq. pose proof (sh_peers _ _ Hs) as HF. unfold zget in *. case_decide; [|done].
  destruct (Forall2_lookup_r _ _ _ _ _ HF Hq) as (p & Hp & Ha & Hi). by exists p.
Qed.

Section Uniform.
Lemma uniform_ret {A} (a : A) : uniform (ret a).
Proof. intros pre w v b v' Hal [= <- <-]. by exists w. Qed.
Lemma uniform_lift {A} (o : option A) : uniform (lift o).
Proof. intros pre w v b v' Hal. unfold lift. destruct o; [|done]. intros [= <- <-]. by exists w. Qed.
Lemma uniform_ask {A} (f : nat -> A) : uniform (ask f).
Proof.
  intros pre w v b v' [Hh Ht Ho] [= <- <-]. exists (w .{ tick := S (tick w) }). unfold ask. rewrite Ht.
  split; [done|]. split; [|done]. by split.
Qed.
Lemma uniform_emit e : uniform (emit e).
Proof.
  intros pre w v b v' [Hh Ht Ho] [= <- <-]. eexists. split; [reflexivity|]. split; [|done].
  split; simpl; [done|done|]. by rewrite Ho, app_assoc.
Qed.
Lemma uniform_gets {A} (f : PeerServer -> A) : of_host f -> uniform (gets f).
Proof.
  intros Hf pre w v b v' Hal [= <- <-]. exists w. split; [|done]. unfold gets. do 2 f_equal. apply of_host_same; [done|apply Hal].
Qed.
Lemma uniform_gets_count : uniform (gets (fun s => pl_count (peerlist s))).
Proof. intros pre w v b v' Hal [= <- <-]. exists w. split; [|done]. unfold gets. do 2 f_equal. apply Hal. Qed.
Lemma uniform_bind {A B} (m : M A) (k : A -> M B) : uniform m -> (forall a, uniform (k a)) -> uniform (bind m k).
Proof.
  intros Hm Hk pre w v b v2 Hal. unfold bind. destruct (m v) as [[a v1]|] eqn:E; [|done]. intros Ek.
  destruct (Hm _ _ _ _ _ Hal E) as (w1 & -> & Hal1 & Hw1 & Hv1). destruct (Hk a _ _ _ _ _ Hal1 Ek) as (w2 & -> & Hal2 & Hw2 & Hv2).
  exists w2. split_and!; [done|done|congruence|congruence].
Qed.
(** A peer is read for its address or its identity. *)
Lemma uniform_peer {B} (j : Z) (k : Peer -> M B) :
  (forall p q, addr p = addr q -> p_id p = p_id q -> k p = k q) -> (forall p, uniform (k p)) ->
  uniform (ps <- gets (fun s => peers (peerlist s)) ;; p <- lift (zget ps j) ;; k p).
Proof.
  intros Hk Hu pre w v b v' Hal. unfold bind, gets, lift. destruct (zget (peers (peerlist (psvr v))) j) as [q|] eqn:Hq; [|done].
  intros E. destruct (same_host_peer _ _ _ _ (al_host _ _ _ Hal) Hq) as (p & -> & Ha & Hi).
  rewrite (Hk p q) by done. by apply (Hu q pre w v).
Qed.
End Uniform.

Create HintDb uniform_db.
#[export] Hint Resolve uniform_ret uniform_lift uniform_ask uniform_emit uniform_gets_count : uniform_db.

(** [uniform_go] follows the structure of a program. *)
Ltac uniform_go :=
  repeat first
    [ solve [auto with uniform_db]
    | apply uniform_gets; intros ? ?; reflexivity
    | apply uniform_peer; [intros ? ? Ha Hi; rewrite ?Ha, ?Hi; reflexivity|intros ?]
    | lazymatch goal with |- uniform (bind _ _) => apply uniform_bind; [|intros ?] end
    | match goal with
      | |- uniform (match ?x with _ => _ end) => destruct x
      | |- uniform (let '(_, _) := ?x in _) => destruct x
      end
    | progress cbn beta zeta ].

(** ** The operations of a transfer *)

Section Operations.
Context `{Env}.

Lemma uniform_get_timestamp_now : uniform get_timestamp_now.
Proof. unfold get_timestamp_now. uniform_go. Qed.
Lemma uniform_stack_packet : uniform stack_packet.
Proof. unfold stack_packet. uniform_go. Qed.
Hint Resolve uniform_get_timestamp_now uniform_stack_packet : uniform_db.
Lemma uniform_write_winsize i x : uniform (write_winsize i x).
Proof. unfold write_winsize. uniform_go. Qed.
Hint Resolve uniform_write_winsize : uniform_db.
Lemma uniform_send_udp_loop sk pi buf n : forall i, uniform (send_udp_loop n i sk pi buf).
Proof. induction n; intros i; cbn [send_udp_loop]; uniform_go. Qed.
Hint Resolve uniform_send_udp_loop : uniform_db.
Lemma uniform_send_udp sk pi pc buf : uniform (send_udp sk pi pc buf).
Proof. unfold send_udp. uniform_go. Qed.
Lemma uniform_hash_loop ty ci c n : forall j cnt pkt, uniform (hash_loop n ty ci j cnt c pkt).
Proof. induction n; intros j cnt pkt; cbn [hash_loop]; uniform_go. Qed.
Hint Resolve uniform_send_udp uniform_hash_loop : uniform_db.
Lemma uniform_fill_packet pp cc i j pkt : uniform (fill_packet pp cc i j pkt).
Proof. unfold fill_packet. uniform_go. Qed.
Hint Resolve uniform_fill_packet : uniform_db.
Lemma uniform_send_packet_loop pp pc cc n : forall i j pkt, uniform (send_packet_loop n pp pc cc i j pkt).
Proof. induction n; intros i j pkt; cbn [send_packet_loop]; uniform_go. Qed.
Hint Resolve uniform_send_packet_loop : uniform_db.
Lemma uniform_send_packet pp : uniform (send_packet pp).
Proof. unfold send_packet. uniform_go. Qed.
Lemma uniform_receive_datagram dg : uniform (receive_datagram dg).
Proof. unfold receive_datagram. uniform_go. Qed.
Lemma uniform_update_rtt rtt dev ts : uniform (update_rtt rtt dev ts).
Proof. unfold update_rtt. uniform_go. Qed.
Hint Resolve uniform_send_packet uniform_receive_datagram uniform_update_rtt : uniform_db.

Lemma uniform_ul_send_loop n : forall pp u, uniform (ul_send_loop n pp u).
Proof. induction n; intros pp u; cbn [ul_send_loop]; uniform_go. Qed.
Hint Resolve uniform_ul_send_loop : uniform_db.
Lemma uniform_ul_send u : uniform (ul_send u).
Proof. unfold ul_send. uniform_go. Qed.
Lemma uniform_ul_loss u : uniform (ul_loss u).
Proof. unfold ul_loss. uniform_go. Qed.
Lemma uniform_ul_grow u a : uniform (ul_grow u a).
Proof. unfold ul_grow. uniform_go. Qed.
Hint Resolve uniform_ul_send uniform_ul_loss uniform_ul_grow : uniform_db.
Lemma uniform_ul_new_ack u a : uniform (ul_new_ack u a).
Proof. unfold ul_new_ack. uniform_go. Qed.
Lemma uniform_ul_note_ack u a : uniform (ul_note_ack u a).
Proof. unfold ul_note_ack. uniform_go. Qed.
Lemma uniform_ul_count_ack u a : uniform (ul_count_ack u a).
Proof. unfold ul_count_ack. uniform_go. Qed.
Hint Resolve uniform_ul_new_ack uniform_ul_note_ack uniform_ul_count_ack : uniform_db.
Lemma uniform_ul_handle_ack u a : uniform (ul_handle_ack u a).
Proof. unfold ul_handle_ack. uniform_go. Qed.
Hint Resolve uniform_ul_handle_ack : uniform_db.
Lemma uniform_sender_input dg u : uniform (sender_input dg u).
Proof. unfold sender_input, update_upload. uniform_go. Qed.

Lemma uniform_send_ack i a : uniform (send_ack i a).
Proof. unfold send_ack. uniform_go. Qed.
Lemma uniform_dl_note_pkt d pkt : uniform (dl_note_pkt d pkt).
Proof. unfold dl_note_pkt. uniform_go. Qed.
Hint Resolve uniform_send_ack uniform_dl_note_pkt : uniform_db.
Lemma uniform_dl_recv d pkt : uniform (dl_recv d pkt).
Proof. unfold dl_recv. uniform_go. Qed.
Hint Resolve uniform_dl_recv : uniform_db.
Lemma uniform_receiver_input dg d : uniform (receiver_input dg d).
Proof. unfold receiver_input, update_download. uniform_go. Qed.
Lemma uniform_dl_init i k fname : uniform (dl_init i k fname).
Proof. unfold dl_init. uniform_go. Qed.
End Operations.
