(* ===== verification/Network.v ===== *)
(** * Network: two servers that exchange datagrams

    Two hosts run the whole server and get each other's datagrams. A chunk that one
    asked the other for is fetched: the runs of Transfer.v and Liveness.v, in which
    a sender and a receiver do nothing else, are runs of the two servers. *)

From S2P Require Import Prelude RecvWin LinkedList Sha Chunk ChunkList Machine Util Packet Sending Hashes.
From S2P Require Import Upload Download SendHelper PeerServer ParsePacket Transfer Liveness ServerInv ServerOps ServerSafe.
From S2P Require Import Handlers UserInput CommandLine PeerInit EventLoop Requests Integrity Outcomes ServerTransfer Alike.

(** ** The network *)

Record net := { host_a : World; host_b : World }.

Section Net.
Context (EA EB : Env) (a_addr b_addr : sockaddr_in).

(** A datagram that one host sent to the address of the other arrives there. *)
Inductive delivery (n : net) : net -> Prop :=
  | to_a dg w' :
      sent_to (host_b n) a_addr dg -> @process_inbound_udp EA (Some dg) b_addr (host_a n) = Some (tt, w') ->
      delivery n {| host_a := w'; host_b := host_b n |}
  | to_b dg w' :
      sent_to (host_a n) b_addr dg -> @process_inbound_udp EB (Some dg) a_addr (host_b n) = Some (tt, w') ->
      delivery n {| host_a := host_a n; host_b := w' |}.
End Net.

(** ** A peer's transfer inside its server *)

(** Receiving writes no file. *)
Lemma receiver_input_quiet `{Env} dg d : only quiet (receiver_input dg d).
Proof.
  pose proof only_send_packet. pose proof only_stack_packet.
  unfold receiver_input, receive_datagram, update_download, dl_recv, dl_note_pkt, send_ack, update_rtt. only_go.
Qed.

Lemma known_upd s i p p' : known s i p -> addr p' = addr p -> known (upd_peer s i p') i p'.
Proof.
  intros [Hp Hf] Ha. split; [by eapply upd_peer_at|]. intros j q Hj. destruct Hp.
  rewrite upd_peer_get_ne by lia. rewrite Ha. by apply Hf.
Qed.

Lemma same_host_upd s i p p' : zget (peers (peerlist s)) i = Some p -> addr p' = addr p -> p_id p' = p_id p ->
  same_host (upd_peer s i p') s.
Proof.
  intros Hp Ha Hid. split; [by destruct s|done|]. unfold upd_peer. simpl.
  unfold zget in Hp. case_decide; [|done]. rewrite <- (list_insert_id _ _ _ Hp) at 2.
  apply Forall2_insert; [|done]. apply Forall_Forall2_diag, Forall_true. done.
Qed.

Lemma datagram_bytes ty sq ak body : 0 <= ty < 2 ^ 8 -> Forall is_byte body -> Forall is_byte (datagram ty sq ak body).
Proof.
  intros Hty Hb. assert (forall n z, Forall is_byte (store_be n z)) as Hbe.
  { intros n z. unfold store_be. apply Forall_reverse, store_le_bytes. }
  unfold datagram, wire. rewrite !Forall_app. split_and!; try done. apply Forall_cons_2; [done|]. by apply Forall_singleton.
Qed.

(** The downloading host, [s] with peer [i] downloading, and the receiver it stands for. *)
Record a_side `{Env} (s : PeerServer) (i : Z) (p : Peer) (pre : list event) (c : config) (w : World) : Prop := {
  as_psvr : psvr w = upd_peer s i (p .{ dl := r_dl c });
  as_host : psvr (r_host c) = s;
  as_frame : dl_frame (dl p) (r_dl c);
  as_inv : server_inv (psvr w);
  as_tick : tick w = tick (r_host c);
  as_out : out w = pre ++ out (r_host c);
  as_quiet : Forall quiet (out (r_host c)) }.
(** The uploading host, and the sender. *)
Record b_side `{Env} (s : PeerServer) (i : Z) (p : Peer) (pre : list event) (c : config) (w : World) : Prop := {
  bs_psvr : psvr w = upd_peer s i (p .{ ul := s_ul c });
  bs_host : psvr (s_host c) = s;
  bs_inv : server_inv (psvr w);
  bs_tick : tick w = tick (s_host c);
  bs_out : out w = pre ++ out (s_host c) }.

Section Sides.
Context `{Env} (s : PeerServer) (i : Z) (p : Peer) (pre : list event) (b : list Z).
Context (Hk : known s i p) (Halive : is_alive p = true).

Lemma a_side_alike c w : a_side s i p pre c w -> alike pre w (r_host c).
Proof.
  intros [Ew Eh _ _ Et Eo _]. split; [|done|done]. rewrite Ew, Eh. eapply same_host_upd; [apply Hk|done|done].
Qed.
Lemma b_side_alike c w : b_side s i p pre c w -> alike pre w (s_host c).
Proof.
  intros [Ew Eh _ Et Eo]. split; [|done|done]. rewrite Ew, Eh. eapply same_host_upd; [apply Hk|done|done].
Qed.

(** An acknowledgement arrives at the uploading host. *)
Lemma b_side_ack c w a u' v' : mmap_ok -> is_uploading p = true ->
  b_side s i p pre c w -> 0 <= a < 2 ^ 32 -> sender_input (ack_datagram a) (s_ul c) (s_host c) = Some (u', v') ->
  exists w', process_inbound_udp (Some (ack_datagram a)) (addr p) w = Some (tt, w') /\ server_inv (psvr w') /\
    if ul_finished u' then exists w1, psvr w1 = upd_peer s i (p .{ ul := u' }) /\ out w1 = pre ++ out v' /\ upload_over i w1 w'
    else b_side s i p pre (with_sender c u' v') w'.
Proof.
  intros Hmm Hu Hs Ha Hrun. pose proof (b_side_alike _ _ Hs) as Hal. destruct Hs as [Ew Eh Hinv Et Eo].
  set (q := p .{ ul := s_ul c }) in *. assert (known (psvr w) i q) as Hq by (rewrite Ew; by eapply known_upd).
  destruct (uniform_sender_input _ _ _ _ _ _ _ Hal Hrun) as (w1 & Erun & Hal1 & Ep1 & Ev).
  destruct (upload_ack_run i a q w) as (u & w2 & w' & E2 & _ & Eproc & Hcase); [apply Hinv|done|done|done|done|].
  change (ul q) with (s_ul c) in E2. rewrite Erun in E2. injection E2 as <- <-.
  assert (server_inv (psvr w')) as Hinv'.
  { assert (wp (process_inbound_udp (Some (ack_datagram a)) (addr p)) (fun _ x => server_inv (psvr x)) w) as Hwp.
    { apply process_inbound_udp_inv; [done|done|by apply datagram_bytes|]. by intros x []. }
    exact (wp_run _ _ _ _ _ Hwp Eproc). }
  exists w'. split; [exact Eproc|]. split; [exact Hinv'|].
  assert (psvr (with_peer w1 i (q .{ ul := u' })) = upd_peer s i (p .{ ul := u' })) as Ew1.
  { simpl. by rewrite Ep1, Ew, upd_peer_twice. }
  destruct (ul_finished u'); [exists (with_peer w1 i (q .{ ul := u' })); split; [done|]; split; [apply Hal1|done]|].
  subst w'. split; cbn [s_ul s_host with_sender]; [exact Ew1|congruence|exact Hinv'|apply Hal1|apply Hal1].
Qed.

(** A packet of data arrives at the downloading host. *)
Lemma a_side_data c w sq body d' v' : is_downloading p = true ->
  a_side s i p pre c w -> 0 <= sq < 2 ^ 32 -> zlen body <= MAX_PAYLOAD_SIZE ->
  receiver_input (data_datagram sq body) (r_dl c) (r_host c) = Some (d', v') ->
  exists w', process_inbound_udp (Some (data_datagram sq body)) (addr p) w = Some (tt, w') /\
    if dl_finished d' then exists w1, a_side s i p pre (with_receiver c d' v') w1 /\ end_download i w1 = Some (tt, w')
    else a_side s i p pre (with_receiver c d' v') w'.
Proof.
  intros Hd Hs Hsq Hb Hrun. pose proof (a_side_alike _ _ Hs) as Hal. destruct Hs as [Ew Eh Hfr Hinv Et Eo Hqu].
  set (q := p .{ dl := r_dl c }) in *. assert (known (psvr w) i q) as Hq by (rewrite Ew; by eapply known_upd).
  destruct (uniform_receiver_input _ _ _ _ _ _ _ Hal Hrun) as (w1 & Erun & Hal1 & Ep1 & Ev).
  destruct (download_data_run i sq body q w) as (d & w2 & w' & E2 & _ & Hfr' & Hinv' & Eproc & Hcase); [done..|].
  change (dl q) with (r_dl c) in E2. rewrite Erun in E2. injection E2 as <- <-.
  exists w'. split; [exact Eproc|].
  assert (psvr (with_peer w1 i (q .{ dl := d' })) = upd_peer s i (p .{ dl := d' })) as Ew1.
  { simpl. by rewrite Ep1, Ew, upd_peer_twice. }
  assert (a_side s i p pre (with_receiver c d' v') (with_peer w1 i (q .{ dl := d' }))) as Hside.
  { split; cbn [r_dl r_host with_receiver]; [exact Ew1|congruence|by eapply dl_frame_trans| |apply Hal1|apply Hal1|].
    - simpl. by rewrite Ep1.
    - destruct (receiver_input_quiet _ _ _ _ _ Hrun) as (evs & -> & Hevs). by apply Forall_app. }
  destruct (dl_finished d'); [by exists (with_peer w1 i (q .{ dl := d' }))|by subst w'].
Qed.
End Sides.

(** ** A chunk is fetched *)

Section Joined.
Context (EA EB : Env) (a_addr b_addr : sockaddr_in) (b : list Z).
Context (sA sB : PeerServer) (i j : Z) (pA pB : Peer) (preA preB : list event).
Context (HkA : known sA i pA) (HkB : known sB j pB) (HaA : addr pA = b_addr) (HaB : addr pB = a_addr).
Context (HlA : is_alive pA = true) (HlB : is_alive pB = true).
Context (Hdl : is_downloading pA = true) (Hul : is_uploading pB = true) (HmB : @mmap_ok EB).

Abbreviation delivery := (delivery EA EB a_addr b_addr).
Abbreviation arrival := (arrival EB EA b_addr a_addr).
Abbreviation a_side := (@a_side EA sA i pA preA).
Abbreviation b_side := (@b_side EB sB j pB preB).

Lemma arrival_inv c c' win : inv b c win -> arrival c c' -> exists win', inv b c' win' /\ w_next win <= w_next win'.
Proof.
  intros Hinv Hst%arrival_step. destruct (step_inv _ _ _ _ _ _ _ _ Hinv Hst) as (win' & ? & ? & _). by exists win'.
Qed.

(** The deliveries until the downloading host has the chunk. *)
Lemma lift_until_received c c' : rtc arrival c c' -> forall n win,
  a_side c (host_a n) -> b_side c (host_b n) -> inv b c win ->
  dl_finished (r_dl c) = false -> ul_finished (s_ul c') = true ->
  exists c1 w1 n1 win1, rtc delivery n n1 /\ rtc arrival c1 c' /\ inv b c1 win1 /\ dl_finished (r_dl c1) = true /\
    ul_finished (s_ul c1) = false /\ a_side c1 w1 /\ b_side c1 (host_b n1) /\ @end_download EA i w1 = Some (tt, host_a n1).
Proof.
  induction 1 as [c|c c1 c' Hst Hrest IH]; intros n win Ha Hb Hinv Hd Hu.
  { rewrite (inv_finished _ _ _ Hinv Hu) in Hd. done. }
  assert (ul_finished (s_ul c) = false) as Hu0.
  { destruct (ul_finished (s_ul c)) eqn:E; [|done]. rewrite (inv_finished _ _ _ Hinv E) in Hd. done. }
  destruct (arrival_inv _ _ _ Hinv Hst) as (win1 & Hinv1 & _).
  destruct Hst as [dg u' v' [sk Hin] Hrun|dg d' v' [sk Hin] Hrun].
  - destruct (inv_acks _ _ _ Hinv _ Hin) as (a & Hran & ->).
    pose proof (ro_next _ _ _ (proj1 (inv_dl _ _ _ Hinv))) as Hnx. rewrite CHUNK_PKTS_eq in Hnx.
    assert (0 <= a < 2 ^ 32) as Ha32 by lia.
    destruct (@b_side_ack EB _ _ _ _ HkB HlB _ _ _ _ _ HmB Hul Hb Ha32 Hrun) as (w' & E & _ & Hcase).
    assert (ul_finished u' = false) as Hu'.
    { destruct (ul_finished u') eqn:Ef; [|done]. pose proof (inv_finished _ _ _ Hinv1 Ef) as Hd1. cbn in Hd1. congruence. }
    rewrite Hu' in Hcase. rewrite HaB in E.
    destruct (IH {| host_a := host_a n; host_b := w' |} win1) as (c2 & w1 & n1 & win2 & Hr & H2); [|done|done|done|done|].
    + destruct Ha. by split.
    + exists c2, w1, n1, win2. split; [|exact H2]. eapply rtc_l; [|exact Hr]. eapply to_b; [|exact E].
      exists sk. rewrite (as_out _ _ _ _ _ _ Ha). apply elem_of_app. by right.
  - destruct (inv_sent _ _ _ Hinv _ Hin) as (k & Hran & ->). pose proof Hran as Hran'. rewrite CHUNK_PKTS_eq in Hran'.
    assert (zlen (pkt_slice b k) <= MAX_PAYLOAD_SIZE) as Hlen by (by rewrite (pkt_slice_length b k (inv_len _ _ _ Hinv) Hran)).
    assert (0 <= k < 2 ^ 32) as Hk32 by lia.
    destruct (@a_side_data EA _ _ _ _ HkA HlA _ _ _ _ _ _ Hdl Ha Hk32 Hlen Hrun) as (w' & E & Hcase). rewrite HaA in E.
    assert (delivery n {| host_a := w'; host_b := host_b n |}) as Hstep.
    { eapply to_a; [|exact E]. exists sk. rewrite (bs_out _ _ _ _ _ _ Hb). apply elem_of_app. by right. }
    assert (b_side (with_receiver c d' v') (host_b n)) as Hb' by (destruct Hb; by split).
    destruct (dl_finished d') eqn:Hd'.
    + destruct Hcase as (w1 & Ha1 & Eend). exists (with_receiver c d' v'), w1, {| host_a := w'; host_b := host_b n |}, win1.
      split_and!; try done. by apply rtc_once.
    + destruct (IH {| host_a := w'; host_b := host_b n |} win1) as (c2 & w1 & n1 & win2 & Hr & H2); [done..|].
      exists c2, w1, n1, win2. split; [by eapply rtc_l|exact H2].
Qed.

(** A receiver that has the chunk sends nothing more. *)
Lemma finished_receiver_quiet c win k d' v' : inv b c win -> dl_finished (r_dl c) = true -> 1 <= k <= CHUNK_PKTS ->
  @receiver_input EA (data_datagram k (pkt_slice b k)) (r_dl c) (r_host c) = Some (d', v') -> out v' = out (r_host c).
Proof.
  intros Hinv Hd Hk Hrun. destruct (inv_rpeer _ _ _ Hinv) as (p & Hp).
  assert (@wp download_t (@receiver_input EA (data_datagram k (pkt_slice b k)) (r_dl c))
    (fun _ w => out w = out (r_host c)) (r_host c)) as Hwp.
  { eapply (receiver_input_full b k); [apply Hinv|apply Hinv|done|exact Hp|]. intros d w win' _ _ _ _ [_ Ho].
    by rewrite Hd, app_nil_r in Ho. }
  exact (wp_run _ _ _ _ _ Hwp Hrun).
Qed.

(** The acknowledgements that end the upload. *)
Lemma lift_acks c c' : rtc arrival c c' -> forall n win,
  b_side c (host_b n) -> inv b c win -> dl_finished (r_dl c) = true ->
  (forall dg, sent_to (r_host c) b_addr dg -> sent_to (host_a n) b_addr dg) ->
  ul_finished (s_ul c) = false -> ul_finished (s_ul c') = true ->
  exists n' u w1, rtc delivery n n' /\ host_a n' = host_a n /\ @server_inv EB (psvr (host_b n')) /\
    psvr w1 = upd_peer sB j (pB .{ ul := u }) /\ upload_over j w1 (host_b n').
Proof.
  induction 1 as [c|c c1 c' Hst Hrest IH]; intros n win Hb Hinv Hd Hsent Hu Hu'; [congruence|].
  destruct (arrival_inv _ _ _ Hinv Hst) as (win1 & Hinv1 & Hle).
  pose proof (ro_next _ _ _ (proj1 (inv_dl _ _ _ Hinv))) as Hnx. rewrite CHUNK_PKTS_eq in Hnx.
  destruct Hst as [dg u' v' Hin Hrun|dg d' v' [sk Hin] Hrun].
  - pose proof (Hsent _ Hin) as Hin'. destruct Hin as [sk Hin]. destruct (inv_acks _ _ _ Hinv _ Hin) as (a & Hran & ->).
    assert (0 <= a < 2 ^ 32) as Ha32 by lia.
    destruct (@b_side_ack EB _ _ _ _ HkB HlB _ _ _ _ _ HmB Hul Hb Ha32 Hrun) as (w' & E & Hs & Hcase). rewrite HaB in E.
    assert (delivery n {| host_a := host_a n; host_b := w' |}) as Hstep by (by eapply to_b).
    destruct (ul_finished u') eqn:Ef.
    + destruct Hcase as (w1 & Ew1 & _ & Hover). exists {| host_a := host_a n; host_b := w' |}, u', w1.
      split_and!; try done. by apply rtc_once.
    + destruct (IH {| host_a := host_a n; host_b := w' |} win1) as (n' & u & w1 & Hr & H2); [done..|].
      exists n', u, w1. split; [by eapply rtc_l|exact H2].
  - destruct (inv_sent _ _ _ Hinv _ Hin) as (k & Hran & ->).
    pose proof (finished_receiver_quiet _ _ _ _ _ Hinv Hd Hran Hrun) as Ho.
    apply (IH n win1); [destruct Hb; by split|done| | |done|done].
    + destruct (inv_dl _ _ _ Hinv) as (_ & _ & _ & Hf), (inv_dl _ _ _ Hinv1) as (Hok1 & _ & _ & Hf1).
      apply Hf in Hd. apply Hf1. pose proof (ro_next _ _ _ Hok1). lia.
    + intros dg' [sk' Hin']. apply Hsent. exists sk'. cbn [r_host with_receiver] in Hin'. by rewrite Ho in Hin'.
Qed.
End Joined.

Section Chunk.
Context (EA EB : Env) (a_addr b_addr : sockaddr_in).

Abbreviation delivery := (delivery EA EB a_addr b_addr).

(** The sender and the receiver that the two servers stand for. *)
Lemma round_starts b i j h p q u sA sB tA tB sk :
  zget (peers (peerlist sA)) i = Some p -> addr p = b_addr -> dl_p_index (dl p) = i -> fresh (dl p) ->
  zget (peers (peerlist sB)) j = Some q -> addr q = a_addr -> upload_started j h b u ->
  live_inv b_addr a_addr b
    {| s_host := {| psvr := sB; tick := tB; out := data_events sk a_addr b 1 1 |}; s_ul := u;
       r_host := {| psvr := sA; tick := tA; out := [] |}; r_dl := dl p |} {| w_next := 1; w_got := ∅ |} 0.
Proof.
  intros Hp Hpa Hpi Hfr Hq Hqa ((Hwf & Hui & Hst & b' & Hb) & _ & Eb & Ess & Ew & Ea & El & Em & Ef).
  assert (b' = b) as -> by (destruct Hb; congruence).
  assert (all_sent a_addr b {| psvr := sB; tick := tB; out := data_events sk a_addr b 1 1 |} 1) as Hsent.
  { split.
    - intros n Hn. exists sk. replace n with 1 by lia. by left.
    - intros sk' to dg. cbn [out]. intros [= -> -> ->]%list_elem_of_singleton. by exists 1. }
  split; cbn [s_host s_ul r_host r_dl psvr].
  - split; cbn [s_host s_ul r_host r_dl psvr w_next]; try done.
    + apply Hb.
    + exists q. by rewrite Hui.
    + exists p. by rewrite Hpi.
    + by eapply all_sent_data_only.
    + intros e. by intros ?%elem_of_nil.
    + lia.
  - exists q. by rewrite Hui.
  - exists p. by rewrite Hpi.
  - by rewrite Em.
  - lia.
  - intros _. lia.
  - intros t [Ht [Hlt|Hin]]; cbn [w_next w_got] in *; [lia|by apply elem_of_empty in Hin].
  - intros Hgt. cbn [w_next] in Hgt. lia.
  - lia.
Qed.

(** When B has just begun to send the chunk that A waits for, deliveries exist that
    bring it to A whole, and end the upload at B. *)
Lemma chunk_arrives b i j h p q n o sk :
  @clock_ok EB -> @mmap_ok EB ->
  @server_inv EA (psvr (host_a n)) -> known (psvr (host_a n)) i p -> addr p = b_addr -> is_alive p = true ->
  is_downloading p = true -> fresh (dl p) ->
  @server_inv EB (psvr (host_b n)) -> known (psvr (host_b n)) j q -> addr q = a_addr -> is_alive q = true ->
  is_uploading q = true -> upload_started j h b (ul q) -> out (host_b n) = o ++ data_events sk a_addr b 1 1 ->
  exists n' d w1 u w2, rtc delivery n n' /\
    psvr w1 = upd_peer (psvr (host_a n)) i (p .{ dl := d }) /\ @server_inv EA (psvr w1) /\
    dl_frame (dl p) d /\ buffer d = b /\ @end_download EA i w1 = Some (tt, host_a n') /\
    (exists evs, out w1 = out (host_a n) ++ evs /\ Forall quiet evs) /\
    @server_inv EB (psvr (host_b n')) /\ psvr w2 = upd_peer (psvr (host_b n)) j (q .{ ul := u }) /\ upload_over j w2 (host_b n').
Proof.
  intros Hck Hmm HsA HkA HaA HlA Hdl Hfr HsB HkB HaB HlB Hul Hst Ho. pose proof HkA as [HpA _]. pose proof HkB as [HpB _].
  pose proof (ps_dl _ _ (sm_peers _ (si_mem _ HsA) _ _ HpA) Hdl) as (_ & Hpi & _).
  set (c0 := {| s_host := {| psvr := psvr (host_b n); tick := tick (host_b n); out := data_events sk a_addr b 1 1 |};
    s_ul := ul q; r_host := {| psvr := psvr (host_a n); tick := tick (host_a n); out := [] |}; r_dl := dl p |}).
  pose proof (round_starts b i j h p q (ul q) (psvr (host_a n)) (psvr (host_b n)) (tick (host_a n)) (tick (host_b n)) sk
    (proj1 HpA) HaA Hpi Hfr (proj1 HpB) HaB Hst) as Hlive. fold c0 in Hlive.
  pose proof Hst as (_ & _ & _ & _ & _ & Ea & _ & _ & Ef).
  destruct (completes EB EA b_addr a_addr b Hck 1024 c0 _ _ Hlive) as (c' & Hr & Hf); [done|lia|cbn [s_ul c0 w_next]; lia|].
  assert (@a_side EA (psvr (host_a n)) i p (out (host_a n)) c0 (host_a n)) as Ha0.
  { split; try done; cbn [r_dl r_host c0 out].
    - assert (p .{ dl := dl p } = p) as -> by (by destruct p). symmetry. apply upd_peer_id, HpA.
    - by rewrite app_nil_r. }
  assert (@b_side EB (psvr (host_b n)) j q o c0 (host_b n)) as Hb0.
  { split; try done. cbn [s_ul c0].
    assert (q .{ ul := ul q } = q) as -> by (by destruct q). symmetry. apply upd_peer_id, HpB. }
  destruct (lift_until_received EA EB a_addr b_addr b _ _ i j p q _ _ HkA HkB HaA HaB HlA HlB Hdl Hul Hmm c0 c' Hr n _ Ha0 Hb0
    (li_inv _ _ _ _ _ _ Hlive) (fresh_unfinished _ Hfr) Hf)
    as (c1 & w1 & n1 & win1 & Hr1 & Hr1' & Hinv1 & Hd1 & Hu1 & [Ew1 Eh1 Hfr1 Hs1 _ Eo1 Hqu1] & Hb1 & Eend).
  assert (exists evs, out (host_a n1) = out w1 ++ evs) as [evs Eout].
  { assert (peer_at (psvr w1) i (p .{ dl := r_dl c1 })) as Hp1 by (rewrite Ew1; by eapply upd_peer_at).
    destruct (@end_download_writes EA i _ w1 (si_mem _ Hs1) Hp1 Hdl _ _ Eend) as (evs & E & _). by exists evs. }
  destruct (lift_acks EA EB a_addr b_addr b _ j q o HkB HaB HlB Hul Hmm c1 c' Hr1' n1 win1 Hb1 Hinv1 Hd1)
    as (n' & u & w2 & Hr2 & Ea2 & Hs2 & Ew2 & Hover); [|done|done|].
  { intros dg [sk' Hin]. exists sk'. rewrite Eout, Eo1. apply elem_of_app. left. apply elem_of_app. by right. }
  exists n', (r_dl c1), w1, u, w2. rewrite Ea2. split_and!; try done.
  - by etransitivity.
  - apply (receiver_complete b _ win1); [apply Hinv1|apply Hinv1|done].
  - by eexists.
Qed.
End Chunk.
