(* ===== verification/Exchange.v ===== *)
(** * Exchange: a whole list is fetched from another server

    From the user's [GET] to the last chunk: the announcements that the two servers of
    Network.v exchange, the chunks one after the other, and what is left at the end. *)

From S2P Require Import Prelude RecvWin LinkedList Sha Chunk ChunkList Machine Util Packet Sending Hashes.
From S2P Require Import Upload Download SendHelper PeerServer ParsePacket Transfer Liveness ServerInv ServerOps ServerSafe.
From S2P Require Import Handlers UserInput CommandLine PeerInit EventLoop Requests Integrity Outcomes Schedule ScheduleSteps.
From S2P Require Import GotFile MakeChunks ServerTransfer Alike Network.

(** ** Packets of hashes *)

Definition hash_of (l : ChunkLine) : list Z := hash_bin (sha1_buf l).
(** The text of a line is a hash. *)
Definition good_text (t : list Z) : Prop := Forall is_hexdigit t /\ zlen t = SHA1_HASH_STR_SIZE.
Definition good_line (l : ChunkLine) : Prop := line_wf l /\ good_text (line_text l).

Lemma good_text_sha1 m : good_text (sha1_text m).
Proof. apply sha1_text_digits. Qed.

Lemma cstr_rest (l : list Z) : 0 ∈ l -> exists r, l = cstr l ++ 0 :: r.
Proof.
  induction l as [|x l IH]; [by intros ?%elem_of_nil|]. cbn [cstr]. destruct (Z.eqb_spec x 0) as [->|Hx].
  - intros _. by exists l.
  - intros [?|H0]%elem_of_cons; [done|]. destruct (IH H0) as [r Er]. exists r. cbn [app]. by rewrite <- Er.
Qed.

Lemma hash_of_text l : good_line l -> hexstring (hash_of l) = line_text l /\ length (hash_of l) = 20%nat.
Proof.
  intros [[_ H0] [Hd Hl]]. destruct (cstr_rest _ H0) as [r Er]. unfold hash_of, line_text in *. rewrite Er at 1 3.
  assert (hexstring (hash_bin (cstr (sha1_buf l) ++ 0 :: r)) = cstr (sha1_buf l)) as E by (by apply hash_bin_text).
  split; [exact E|]. pose proof (hexstring_length (hash_bin (cstr (sha1_buf l) ++ 0 :: r))) as Hlen.
  rewrite E in Hlen. change SHA1_HASH_STR_SIZE with 40 in Hl. lia.
Qed.

Section Arrives.
Context `{Env}.

Lemma asked_hash ty junk hs rest (k : nat) h : lists_chunks ty -> length junk = 3%nat ->
  Forall (fun h => length h = 20%nat) hs -> 1 <= zlen hs <= HASH_NUM_PKT ->
  zlen (hash_body ty junk hs ++ rest) = MAX_PAYLOAD_SIZE -> hs !! k = Some h -> Forall is_hexdigit (hexstring h) ->
  asked (hash_packet ty junk hs rest) (Z.of_nat k) = hexstring h.
Proof.
  intros Hty Hj Hhs Hcnt Hrest Hk Hd. set (buf := replicate (Z.to_nat SHA1_BUF_SIZE) 0).
  pose proof (hash_packet_valid ty junk hs rest Hty Hj Hhs Hcnt Hrest) as Hv.
  pose proof (hash_packet_len ty junk hs rest Hj Hhs) as Hlen.
  destruct (GET_HASH_text (hash_packet ty junk hs rest) (Z.of_nat k) buf Hv) as (hb & E & _ & _ & Hx); [|lia|done|].
  { pose proof (hash_start_range ty). change SHA1_HASH_SIZE with 20. lia. }
  rewrite (hash_packet_hash ty junk hs rest Hj Hhs k h buf Hk) in E by done.
  injection E as <-. rewrite <- Hx. by apply cstr_plain, hexdigit_nonzero.
Qed.

(** A datagram of the hashes of lines, as the host that it reaches reads it. *)
Lemma hashes_arrive ty lines dg w : lists_chunks ty -> Forall good_line lines -> 1 <= zlen lines <= HASH_NUM_PKT ->
  hash_datagram ty (hash_of <$> lines) dg ->
  exists pkt w0, receive_datagram (Some dg) w = Some (pkt, w0) /\ psvr w0 = psvr w /\ out w0 = out w /\
    packet_valid pkt /\ valid_packet pkt = Some true /\ type pkt = ty /\
    (asked pkt <$> seqZ 0 (zlen lines) = line_text <$> lines) /\
    (ty <> PACKET_TYPE_GET -> GET_CHUNK_CNT pkt = Some (zlen lines)).
Proof.
  intros Hty Hg Hn (junk & Hj & ->). set (hs := hash_of <$> lines). assert (zlen hs = zlen lines) as Hlen by (unfold hs; by rewrite length_fmap).
  assert (Forall (fun h => length h = 20%nat) hs) as Hhs.
  { apply Forall_fmap. eapply Forall_impl; [exact Hg|]. intros l Hl. by apply hash_of_text. }
  assert (zlen (hash_body ty junk hs) <= MAX_PAYLOAD_SIZE) as Hb.
  { rewrite hash_body_length, mjoin_length, Hlen by done. pose proof (hash_start_range ty).
    change MAX_PAYLOAD_SIZE with 1484. change HASH_NUM_PKT with 74 in Hn. lia. }
  assert (wp (receive_datagram (Some (datagram ty 0 0 (hash_body ty junk hs)))) (fun pkt w0 =>
    (exists rest, pkt = hash_packet ty junk hs rest /\ zlen (hash_body ty junk hs ++ rest) = MAX_PAYLOAD_SIZE) /\ emitted [] w w0) w)
    as (pkt & w0 & E & (rest & -> & Hrest) & [Ep Eo]).
  { apply receive_own; [by destruct Hty as [->|[->| ->]]|done|done|done|]. intros rest w0 Hl He. split; [by exists rest|done]. }
  rewrite <- Hlen in Hn. pose proof (hash_packet_valid ty junk hs rest Hty Hj Hhs Hn Hrest) as Hv.
  exists (hash_packet ty junk hs rest), w0. split; [exact E|]. split; [done|]. split; [by rewrite Eo, app_nil_r|].
  split; [exact Hv|]. split; [|split; [done|split]].
  - pose proof Hv as (Hwf & _). destruct (valid_packet_spec _ Hwf) as (v & -> & Hiff). f_equal. by apply Hiff.
  - apply list_eq. intros k. rewrite !list_lookup_fmap. destruct (lines !! k) as [l|] eqn:El.
    + pose proof (lookup_lt_Some _ _ _ El) as Hk. rewrite lookup_seqZ_lt by lia. cbn. f_equal. rewrite Z.add_0_l.
      assert (good_line l) as Hl by (by rewrite Forall_lookup in Hg; eapply Hg). destruct (hash_of_text l Hl) as [Et _].
      rewrite <- Et. apply asked_hash; try done; [unfold hs; by rewrite list_lookup_fmap, El|]. rewrite Et. apply Hl.
    + apply lookup_ge_None in El. by rewrite lookup_seqZ_ge by lia.
  - intros Hng. rewrite <- Hlen. by apply hash_packet_cnt.
Qed.
End Arrives.

(** ** The state of the asking host *)

(** Only one peer is worth asking. *)
Definition alone (s : PeerServer) (i : Z) : Prop :=
  forall j q, j <> i -> zget (peers (peerlist s)) j = Some q -> is_alive q = false /\ is_downloading q = false.

Lemma alone_ext s s' i : (forall j, j <> i -> zget (peers (peerlist s')) j = zget (peers (peerlist s)) j) -> alone s i -> alone s' i.
Proof. intros E Ha j q Hj Hq. rewrite E in Hq by done. by eapply Ha. Qed.
Lemma alone_upd s i p : 0 <= i -> alone s i -> alone (upd_peer s i p) i.
Proof. intros Hi. apply alone_ext. intros j Hj. by apply upd_peer_get_ne. Qed.

(** What is asked for: the first hash of the queue that is wanted. *)
Definition next_asked (s : PeerServer) (i : Z) (p : Peer) (ts : list (list Z)) (s' : PeerServer) (e : event) : Prop :=
  exists ts1 t ts2 k c cs dq d, ts = ts1 ++ t :: ts2 /\ 0 <= k < cl_count (getchunks s) /\
    zget (chunks (getchunks s)) k = Some c /\ state c = unfetched /\ line_text c = t /\ marked s k fetching cs /\
    get_event s i c e /\ queue_holds dq (ts1 ++ ts2) /\ fresh d /\ get_index d = k /\
    s' = (with_chunks (upd_peer s i (p .{ hasqueue := dq } .{ is_downloading := true } .{ dl := d })) cs)
      .{ dl_num := dl_num s + 1 }.

Lemma next_asked_wrote s i p ts s' e G : next_asked s i p ts s' e -> wrote G e.
Proof. intros (? & ? & ? & ? & ? & ? & ? & ? & _ & _ & _ & _ & _ & _ & (? & ? & _ & _ & ->) & _). done. Qed.

(** ** One datagram, at the host that it reaches *)

Section Reached.
Context `{Env} (i : Z) (p : Peer) (w : World).
Context (Hs : server_inv (psvr w)) (Hk : known (psvr w) i p).

(** A [WHOHAS] for chunks that the server has. *)
Lemma whohas_reaches lines dg : Forall good_line lines -> 1 <= zlen lines <= HASH_NUM_PKT ->
  hash_datagram PACKET_TYPE_WHOHAS (hash_of <$> lines) dg -> Forall (fun l => line_text l ∈ texts (haschunks (psvr w))) lines ->
  is_uploading p = false -> ul_num (psvr w) < max_conn (psvr w) ->
  exists w' ih lines' dg' sk, process_inbound_udp (Some dg) (addr p) w = Some (tt, w') /\ server_inv (psvr w') /\
    psvr w' = (upd_peer (psvr w) i (p .{ is_alive := true })) .{ ihavechunks := ih } /\
    out w' = out w ++ [EvSend sk (addr p) dg'] /\
    hash_datagram PACKET_TYPE_IHAVE (hash_of <$> lines') dg' /\ Forall line_wf lines' /\
    line_text <$> lines' = line_text <$> lines.
Proof.
  intros Hg Hn Hdg Hall Hu Hroom. pose proof Hk as [Hp _].
  destruct (hashes_arrive PACKET_TYPE_WHOHAS lines dg w) as (pkt & w0 & Er & Ep & Eo & Hv & Ev & Ety & Eas & Ecnt);
    [by left|done|done|done|].
  destruct (whohas_run pkt i p w0) as (w' & evs & Eh & Eo' & Hc); [by rewrite Ep; apply Hs|by rewrite Ep|done|done|].
  rewrite Ep, Z.geb_leb in Hc. destruct (Z.leb_spec (max_conn (psvr w)) (ul_num (psvr w))); [lia|]. rewrite Hu in Hc.
  destruct Hc as ((ih & Ew') & cnt & Ec & Hans). rewrite Ecnt in Ec by done. injection Ec as <-.
  assert (kept (haschunks (psvr w)) pkt 0 (zlen lines) = line_text <$> lines) as Ek.
  { unfold kept. rewrite Eas. clear -Hall. induction Hall as [|l ls Hl _ IH]; [done|]. rewrite fmap_cons, filter_cons_True by done.
    by rewrite IH. }
  rewrite Ek in Hans. destruct lines as [|l ls]; [cbn in Hn; lia|].
  destruct Hans as (q & lines' & dg' & Hq & Et & Hwf & Hdg' & ->). assert (q = p) as -> by (destruct Hp; congruence).
  exists w', ih, lines', dg', (sock (psvr w)). split_and!; try done.
  - eapply (process_handled dg i p w pkt w0 0); [apply Hs|done|done|done|done|]. unfold handle. by rewrite Ety.
  - assert (wp (handle_WHOHAS pkt i) (fun _ x => server_inv (psvr x)) w0) as Hwp.
    { eapply (handle_WHOHAS_inv pkt i p); [by rewrite Ep|by rewrite Ep|done|done|]. by intros ? x []. }
    exact (wp_run _ _ _ _ _ Hwp Eh).
  - by rewrite Eo', Eo.
Qed.

(** An [IHAVE] with chunks of which one is wanted, while none is fetched from the peer. *)
Lemma ihave_reaches lines dg : (forall n, malloc_ok n = true) -> Forall good_line lines -> 1 <= zlen lines <= HASH_NUM_PKT ->
  hash_datagram PACKET_TYPE_IHAVE (hash_of <$> lines) dg -> is_downloading p = false -> dl_num (psvr w) < max_conn (psvr w) ->
  (exists l k, l ∈ lines /\ fetchable (getchunks (psvr w)) (line_text l) k) ->
  exists w' e, process_inbound_udp (Some dg) (addr p) w = Some (tt, w') /\ server_inv (psvr w') /\
    rtc fetch_step (abs w) (abs w') /\ out w' = out w ++ [e] /\
    next_asked (psvr w) i (p .{ is_alive := true }) (line_text <$> lines) (psvr w') e.
Proof.
  intros Hmem Hg Hn Hdg Hd Hroom (l & kl & Hl & Hf). pose proof Hk as [Hp _].
  destruct (hashes_arrive PACKET_TYPE_IHAVE lines dg w) as (pkt & w0 & Er & Ep & Eo & Hv & Ev & Ety & Eas & Ecnt);
    [by right; left|done|done|done|].
  destruct (ihave_run pkt i p w0) as (cnt & r & w' & Ec & Eh & Ho); rewrite ?Ep;
    [apply Hs|done|done|done|done|by apply server_inv_dl_max|done|].
  rewrite Ecnt in Ec by done. injection Ec as <-. rewrite Eas in Ho.
  assert (rtc fetch_step (abs w) (abs w')) as Hst.
  { rewrite <- (still_receive_datagram (Some dg) w _ _ Er). exact (handle_IHAVE_goes pkt i w0 _ _ Eh). }
  assert (server_inv (psvr w')) as Hs'.
  { assert (wp (handle_IHAVE pkt i) (fun _ x => server_inv (psvr x)) w0) as Hwp.
    { eapply (handle_IHAVE_inv pkt i p); [by rewrite Ep|by rewrite Ep|done|done|]. by intros ? x []. }
    exact (wp_run _ _ _ _ _ Hwp Eh). }
  assert (process_inbound_udp (Some dg) (addr p) w = Some (tt, w')) as Eproc.
  { eapply (process_handled dg i p w pkt w0 r); [apply Hs|done|done|done|done|]. unfold handle. by rewrite Ety. }
  destruct Ho as [n dq w' Hbad|p' w' Hno|q ts1 t ts2 k c cs e dq d w' Hq Ets _ Hkr Hc Hu Ht Hmk He Eo' Hqh Hfr Hi Ew'];
    [by rewrite Hmem in Hbad| |].
  { exfalso. rewrite Ep in Hno. rewrite Forall_forall in Hno. eapply Hno; [|exact Hf]. by apply list_elem_of_fmap_2. }
  rewrite Ep in *. assert (q = p) as -> by (destruct Hq, Hp; congruence).
  exists w', e. split_and!; try done; [by rewrite Eo', Eo|]. exists ts1, t, ts2, k, c, cs, dq, d. split_and!; try done; lia.
Qed.

(** A [GET] for a chunk of the server, while an upload is free. *)
Lemma get_reaches l dg h line b : clock_ok -> mmap_ok -> good_line l ->
  hash_datagram PACKET_TYPE_GET [hash_of l] dg -> is_alive p = true -> is_uploading p = false ->
  ul_num (psvr w) < max_conn (psvr w) -> first_line (haschunks (psvr w)) (line_text l) h line ->
  (forall n, mmap n (place_of line) = Some b) ->
  exists w' u evs, process_inbound_udp (Some dg) (addr p) w = Some (tt, w') /\ server_inv (psvr w') /\ upload_started i h b u /\
    psvr w' = (upd_peer (psvr w) i (p .{ ul := u } .{ is_uploading := true })) .{ ul_num := ul_num (psvr w) + 1 } /\
    out w' = out w ++ evs ++ data_events (sock (psvr w)) (addr p) b 1 1.
Proof.
  intros Hck Hmm Hg Hdg Ha Hu Hroom Hfl Hmap. pose proof Hk as [Hp _].
  destruct (hashes_arrive PACKET_TYPE_GET [l] dg w) as (pkt & w0 & Er & Ep & Eo & Hv & Ev & Ety & Eas & _);
    [by right; right|by apply Forall_singleton|done|done|].
  assert (asked pkt 0 = line_text l) as Et.
  { change (seqZ 0 (zlen [l])) with [0] in Eas. by injection Eas. }
  destruct (get_run pkt i p w0) as (w' & Eh & Ho); rewrite ?Ep; [done|done|done|done|done|done|].
  rewrite Et in Ho. assert (server_inv (psvr w')) as Hs'.
  { assert (wp (handle_GET pkt i) (fun _ x => server_inv (psvr x)) w0) as Hwp.
    { eapply (handle_GET_inv pkt i p); [done|by rewrite Ep|by rewrite Ep|done|done|]. by intros ? x []. }
    exact (wp_run _ _ _ _ _ Hwp Eh). }
  assert (process_inbound_udp (Some dg) (addr p) w = Some (tt, w')) as Eproc.
  { eapply (process_handled dg i p w pkt w0 0); [apply Hs|done|done|done|done|]. unfold handle. by rewrite Ety. }
  pose proof Hfl as (Hh & Hline & Htx & Hfirst).
  destruct Ho as [w' [Hx|[Hx|Hx]]|h' line' n b' u evs w' _ _ (Hh' & Hline' & Htx' & Hfirst') Hmp Hst Ew' _ Eo'].
  - congruence.
  - rewrite Ep in Hx. lia.
  - exfalso. rewrite Ep in Hx. by apply (Hx h line).
  - rewrite Ep in *. assert (h' = h) as ->.
    { destruct (Z.lt_total h' h) as [Hlt|[?|Hlt]]; [|done|].
      - exfalso. eapply (Hfirst h' line'); [lia|done|done].
      - exfalso. eapply (Hfirst' h line); [lia|done|done]. }
    assert (line' = line) as -> by congruence. rewrite Hmap in Hmp. injection Hmp as <-.
    rewrite Hu in Ew'. exists w', u, evs. split_and!; try done. by rewrite Eo', Eo.
Qed.
End Reached.

(** ** The next chunk is asked for *)

Section Next.
Context `{Env}.

Lemma refresh_loop_skip n : forall j w (Q : unit -> World -> Prop), server_mem (psvr w) ->
  0 <= j -> j + Z.of_nat n <= pl_count (peerlist (psvr w)) ->
  (forall j' q, j <= j' < j + Z.of_nat n -> zget (peers (peerlist (psvr w))) j' = Some q -> is_alive q = false) ->
  Q tt w -> wp (refresh_loop n j) Q w.
Proof.
  induction n as [|n IH]; intros j w Q Hm Hj Hn Hd HQ; cbn [refresh_loop]; [by wp_go|]. wp_go.
  destruct (_ >=? _); [by wp_go|]. destruct (server_mem_at _ j Hm) as (q & [Hq _] & _); [lia|]. wp_go.
  eapply wp_get_peer; [exact Hq|]. rewrite (Hd j q) by (done || lia). cbn [negb orb].
  apply IH; [done|lia|lia| |done]. intros j' q' Hj'. apply Hd. lia.
Qed.

Lemma refresh_loop_alone i p ts n : forall j w (Q : unit -> World -> Prop), server_inv (psvr w) -> peer_at (psvr w) i p ->
  alone (psvr w) i -> is_alive p = true -> is_downloading p = false -> dl_num (psvr w) < max_conn (psvr w) ->
  queue_holds (hasqueue p) ts -> (exists t k, t ∈ ts /\ fetchable (getchunks (psvr w)) t k) ->
  0 <= j -> j <= i < j + Z.of_nat n -> j + Z.of_nat n <= pl_count (peerlist (psvr w)) ->
  (forall e w', next_asked (psvr w) i p ts (psvr w') e -> out w' = out w ++ [e] -> Q tt w') -> wp (refresh_loop n j) Q w.
Proof.
  induction n as [|n IH]; intros j w Q Hs Hp Hal Ha Hd Hroom Hq Hex Hj Hi Hn HQ; cbn [refresh_loop]; [lia|]. wp_go.
  rewrite Z.geb_leb. destruct (Z.leb_spec (max_conn (psvr w)) (dl_num (psvr w))); [lia|]. wp_go.
  destruct (decide (j = i)) as [->|Hne].
  - eapply wp_get_peer; [apply Hp|]. rewrite Ha, Hd. cbn [negb orb]. wp_go.
    eapply (try_send_get_spec i p ts); [apply Hs|done|done|by apply server_inv_dl_max| |].
    { intros Hno. destruct Hex as (t & k & Ht & Hf). rewrite Forall_forall in Hno. exfalso. by apply (Hno t Ht k). }
    intros k dq d cs c e ts1 t ts2 w1 Ets _ Hqh Hk Hc Hu Htx Hmk Hwf He Hrun Hgi Hfr Ew1 Eo1. wp_go.
    assert (next_asked (psvr w) i p ts (psvr w1) e) as Hnext
      by (exists ts1, t, ts2, k, c, cs, dq, d; split_and!; try done; lia).
    assert (server_mem (psvr w1)) as Hm1.
    { rewrite Ew1. pose proof (sm_peers _ (si_mem _ Hs) _ _ Hp) as [_ _ Hul].
      eapply (server_mem_ext (upd_peer (psvr w) i (p .{ hasqueue := dq } .{ is_downloading := true } .{ dl := d })));
        [|done|apply Hs|exact Hwf|apply Hs|apply Hs].
      eapply server_mem_upd; [apply Hs|exact Hp|]. split; [by eapply queue_holds_ok|done|exact Hul]. }
    apply refresh_loop_skip; [done|lia|rewrite Ew1; simpl; lia| |by apply (HQ e)].
    intros j' q Hj'. rewrite Ew1. change (peerlist (_ .{ dl_num := _ })) with
      (peerlist (upd_peer (psvr w) i (p .{ hasqueue := dq } .{ is_downloading := true } .{ dl := d }))).
    rewrite upd_peer_get_ne by lia. intros Hq'. apply (Hal j' q); [lia|done].
  - destruct (server_inv_at _ j Hs) as (q & [Hqj _] & _); [lia|]. eapply wp_get_peer; [exact Hqj|].
    destruct (Hal j q Hne Hqj) as [-> _]. cbn [negb orb]. apply IH; try done; lia.
Qed.

Lemma refresh_alone i p ts w (Q : unit -> World -> Prop) : server_inv (psvr w) -> peer_at (psvr w) i p ->
  alone (psvr w) i -> is_alive p = true -> is_downloading p = false -> dl_num (psvr w) < max_conn (psvr w) ->
  queue_holds (hasqueue p) ts -> (exists t k, t ∈ ts /\ fetchable (getchunks (psvr w)) t k) ->
  (forall e w', next_asked (psvr w) i p ts (psvr w') e -> out w' = out w ++ [e] -> Q tt w') ->
  wp refresh_chunk_download Q w.
Proof.
  intros Hs Hp Hal Ha Hd Hroom Hq Hex HQ. pose proof (sm_cnt _ (si_mem _ Hs)). pose proof (server_inv_dl_max _ Hs).
  unfold refresh_chunk_download. wp_go. destruct Hp as [Hp Hi].
  eapply (refresh_loop_alone i p ts); [done|by split|done|done|done|done|done|done|lia|lia|lia|].
  intros e w' Hn Ho. wp_go. assert (dl_num (psvr w') = dl_num (psvr w) + 1) as ->.
  { by destruct Hn as (? & ? & ? & ? & ? & ? & ? & ? & _ & _ & _ & _ & _ & _ & _ & _ & _ & _ & ->). }
  destruct (Z.eqb_spec (dl_num (psvr w) + 1) 0); [lia|]. cbn [andb]. wp_go. by eapply HQ.
Qed.
End Next.

(** ** The end of a chunk *)

(** The log plays no part in the books. *)
Lemma books_log s log log' : books (view s log) -> books (view s log').
Proof. intros [H1 H2 H3 H4 H5]. by split. Qed.

Section Ends.
Context `{Env}.

(** A disk that takes every chunk. *)
Definition disk_ok : Prop := forall n, open_ok n = true /\ write_file n = BT_CHUNK_SIZE.

(** The state when the chunk of peer [i] has been saved. *)
Definition saved (s : PeerServer) (i : Z) (p : Peer) (cs : list ChunkLine) : PeerServer :=
  (with_chunks (released s i p) cs) .{ dl_remain := s32 (dl_remain s - 1) }.

Lemma end_outcome_saved s i p line s1 evs : disk_ok -> line_text line = sha1_text (buffer (dl p)) ->
  end_outcome s i p line s1 evs -> exists cs, marked s (get_index (dl p)) fetched cs /\ s1 = saved s i p cs.
Proof.
  intros Hdisk Htx [off cs _ Hmk|evs' s1' Hevs _]; [by exists cs|]. rewrite decide_True in Hevs by done.
  destruct Hevs as [_ [n [Hn|Hn]]]; destruct (Hdisk n); congruence.
Qed.

(** Then the next chunk that is announced and still wanted is asked for. *)
Lemma end_asks_next i p line ts w w' : disk_ok -> server_inv (psvr w) -> peer_at (psvr w) i p ->
  is_alive p = true -> is_downloading p = true -> alone (psvr w) i -> queue_holds (hasqueue p) ts ->
  zget (chunks (getchunks (psvr w))) (get_index (dl p)) = Some line -> line_text line = sha1_text (buffer (dl p)) ->
  (forall cs, marked (psvr w) (get_index (dl p)) fetched cs -> 0 < s32 (dl_remain (psvr w) - 1) ->
     exists t k, t ∈ ts /\ fetchable ((getchunks (psvr w)) .{ chunks := cs }) t k) ->
  end_download i w = Some (tt, w') ->
  exists cs, marked (psvr w) (get_index (dl p)) fetched cs /\ server_inv (psvr w') /\ (exists evs, out w' = out w ++ evs) /\
    if s32 (dl_remain (psvr w) - 1) >? 0
    then exists e, next_asked (saved (psvr w) i p cs) i (p .{ is_downloading := false }) ts (psvr w') e /\ e ∈ out w'
    else psvr w' = saved (psvr w) i p cs.
Proof.
  intros Hdisk Hs Hp Ha Hd Hal Hq Hline Htx Hex E.
  assert (wp (end_download i) (fun _ x => server_inv (psvr x)) w) as Hinv.
  { eapply end_download_inv; [done|exact Hp|done|]. by intros x []. }
  pose proof (wp_run _ _ _ _ _ Hinv E) as Hs'. cbn beta in Hs'.
  enough (wp (end_download i) (fun _ w' => exists cs, marked (psvr w) (get_index (dl p)) fetched cs /\
    (exists evs, out w' = out w ++ evs) /\
    if s32 (dl_remain (psvr w) - 1) >? 0
    then exists e, next_asked (saved (psvr w) i p cs) i (p .{ is_downloading := false }) ts (psvr w') e /\ e ∈ out w'
    else psvr w' = saved (psvr w) i p cs) w) as Hwp.
  { destruct (wp_run _ _ _ _ _ Hwp E) as (cs & H1 & H2 & H3). by exists cs. }
  eapply end_download_spec; [done|exact Hp|done|]. intros line' w1 evs Hline' Ho Eo [Hs1 _].
  assert (line' = line) as -> by congruence. destruct (end_outcome_saved _ _ _ _ _ _ Hdisk Htx Ho) as (cs & Hmk & Ew1).
  rewrite Ew1. change (dl_remain (saved (psvr w) i p cs)) with (s32 (dl_remain (psvr w) - 1)).
  destruct (Z.gtb_spec (s32 (dl_remain (psvr w) - 1)) 0) as [Hpos|Hnone].
  2: { wp_go. exists cs. split; [done|]. split; [by exists evs|done]. }
  set (p1 := p .{ is_downloading := false }). pose proof Hp as [_ Hi].
  assert (peer_at (psvr w1) i p1) as Hp1 by (rewrite Ew1; exact (upd_peer_at (psvr w) i p1 p Hp)).
  eapply (refresh_alone i p1 ts); [done|done| |done|done| |done| |].
  - rewrite Ew1. apply (alone_upd (psvr w)); [lia|done].
  - destruct (dl_num_dec _ _ _ Hs Hp Hd) as [_ ?]. destruct (si_dl _ Hs) as [_ ?]. rewrite Ew1.
    change (dl_num (psvr w) - 1 < max_conn (psvr w)). lia.
  - rewrite Ew1. exact (Hex cs Hmk Hpos).
  - intros e w2 Hn Eo2. exists cs. split; [done|]. rewrite Ew1 in Hn. split; [exists (evs ++ [e]); by rewrite Eo2, Eo, app_assoc|].
    exists e. split; [done|]. rewrite Eo2. apply elem_of_app. right. by left.
Qed.
End Ends.

(** ** Lists of chunks *)

Lemma marked_texts s k st cs : marked s k st cs -> texts ((getchunks s) .{ chunks := cs }) = texts (getchunks s).
Proof.
  intros (c & Hc & Hset). unfold texts. simpl. unfold range. rewrite !drop_0, !fmap_take. unfold zset in Hset. case_decide; [|done].
  injection Hset as <-. f_equal. rewrite list_fmap_insert. apply list_insert_id. rewrite list_lookup_fmap.
  unfold zget in Hc. rewrite decide_True in Hc by lia. by rewrite Hc.
Qed.

Lemma marked_line s k st cs k' : marked s k st cs -> k' <> k -> zget cs k' = zget (chunks (getchunks s)) k'.
Proof. intros (c & _ & Hset) Hne. by eapply zget_zset_ne. Qed.
Lemma marked_here s k st cs c : marked s k st cs -> zget (chunks (getchunks s)) k = Some c -> zget cs k = Some (c .{ state := st }).
Proof. intros (c' & Hc & Hset) Hk. assert (c' = c) as -> by congruence. by eapply zget_zset_eq. Qed.

Lemma texts_line cl k l : 0 <= k < cl_count cl -> zget (chunks cl) k = Some l -> texts cl !! Z.to_nat k = Some (line_text l).
Proof.
  intros Hk Hl. unfold texts, range. rewrite drop_0, list_lookup_fmap, lookup_take_lt by lia. unfold zget in Hl.
  rewrite decide_True in Hl by lia. by rewrite Hl.
Qed.
Lemma texts_apart cl k1 k2 l1 l2 : NoDup (texts cl) -> 0 <= k1 < cl_count cl -> 0 <= k2 < cl_count cl ->
  zget (chunks cl) k1 = Some l1 -> zget (chunks cl) k2 = Some l2 -> line_text l1 = line_text l2 -> k1 = k2.
Proof.
  intros Hnd H1 H2 Hl1 Hl2 E. pose proof (texts_line _ _ _ H1 Hl1) as T1. pose proof (texts_line _ _ _ H2 Hl2) as T2. rewrite <- E in T2.
  pose proof (NoDup_lookup _ _ _ _ Hnd T1 T2). lia.
Qed.

(** The server's own steps do not show in the schedule while data arrives. *)
Lemma abs_receiving w w1 i p d evs : zget (peers (peerlist (psvr w))) i = Some p -> dl_frame (dl p) d ->
  psvr w1 = upd_peer (psvr w) i (p .{ dl := d }) -> out w1 = out w ++ evs -> Forall quiet evs -> abs w1 = abs w.
Proof.
  intros Hp (Eg & _ & Ef) Ew Eo Hq. unfold abs. rewrite Ew, Eo, loud_app, (loud_quiet _ Hq), app_nil_r, (view_upd_peer _ _ p) by done.
  apply set_job_same. fold (abs w). rewrite (abs_job _ _ _ Hp). unfold job. simpl. by rewrite Eg, Ef.
Qed.

(** Saving the chunk of peer [i] is a step of the schedule. *)
Lemma saved_step `{Env} s i p line cs log : zget (peers (peerlist s)) i = Some p -> is_downloading p = true ->
  zget (chunks (getchunks s)) (get_index (dl p)) = Some line -> marked s (get_index (dl p)) fetched cs ->
  zlen (buffer (dl p)) = BT_CHUNK_SIZE -> line_text line = sha1_text (buffer (dl p)) ->
  exists log', fetch_step (view s log) (view (saved s i p cs) log').
Proof.
  intros Hp Hd Hline (c & Hc & Hset) Hb Htx. assert (c = line) as -> by congruence. eexists.
  assert (zget (f_jobs (view s log)) i = Some (Some (get_index (dl p), cstr (filename (dl p))))) as Hj.
  { simpl. rewrite zget_fmap, Hp. cbn. unfold job. by rewrite Hd. }
  assert (zget (f_lines (view s log)) (get_index (dl p)) = Some (want_of line)) as Hl by (simpl; by rewrite zget_fmap, Hline).
  assert (placed (want_of line) (w_id (want_of line) * BT_CHUNK_SIZE)) as Hoff by (by left).
  pose proof (step_save (view s log) _ _ _ _ _ (buffer (dl p)) Hj Hl Hoff (conj Hb Htx)) as Hst.
  match type of Hst with fetch_step _ ?t => replace t with (view (saved s i p cs) (f_log t)) in Hst; [exact Hst|] end.
  unfold zset in Hset. case_decide; [|done]. injection Hset as <-.
  unfold view, set_job, set_line. simpl. by rewrite !list_fmap_insert.
Qed.

(** While chunks are left after that, one of them is still in the queue. *)
Lemma saved_left `{Env} s i p line cs (ts : list (list Z)) log : books (view s log) -> zget (peers (peerlist s)) i = Some p -> is_downloading p = true ->
  zget (chunks (getchunks s)) (get_index (dl p)) = Some line -> marked s (get_index (dl p)) fetched cs ->
  zlen (buffer (dl p)) = BT_CHUNK_SIZE -> line_text line = sha1_text (buffer (dl p)) -> alone s i ->
  (forall k l, 0 <= k < cl_count (getchunks s) -> zget (chunks (getchunks s)) k = Some l -> state l = unfetched -> line_text l ∈ ts) ->
  0 < s32 (dl_remain s - 1) -> exists t k, t ∈ ts /\ fetchable ((getchunks s) .{ chunks := cs }) t k.
Proof.
  intros Hb Hp Hd Hline Hmk Hbuf Htx Hal Hq Hpos. destruct (saved_step s i p line cs log) as [log' Hst]; [done..|].
  pose proof (books_step _ _ Hb Hst) as [_ Hleft _ _ Hfet]. change (f_left _) with (s32 (dl_remain s - 1)) in Hleft.
  destruct (missing_line (view (saved s i p cs) log')) as (k & wl & Hk & Hl & Hnf); [lia|].
  pose proof Hl as Hl'. simpl in Hl'. rewrite zget_fmap in Hl'. apply fmap_Some in Hl' as (l & Hl' & ->). simpl in Hnf, Hk.
  pose proof (zget_Some_range _ _ _ Hp) as Hi.
  destruct (state l) eqn:Est; [| |done].
  - assert (k <> get_index (dl p)) as Hne.
    { intros ->. rewrite (marked_here _ _ _ _ _ Hmk Hline) in Hl'. by injection Hl' as <-. }
    exists (line_text l), k. split; [|split; [done|by exists l]]. rewrite (marked_line _ _ _ _ _ Hmk Hne) in Hl'. by eapply Hq.
  - exfalso. destruct (Hfet k (want_of l)) as (i' & name & Hjob); [simpl; lia|done|done|]. apply job_Some in Hjob as (q & Hq' & Hdq & _).
    change (zget (peers (peerlist (upd_peer s i (p .{ is_downloading := false })))) i' = Some q) in Hq'.
    destruct (decide (i' = i)) as [->|Hne].
    + rewrite (upd_peer_get _ _ _ _ Hp) in Hq'. by injection Hq' as <-.
    + rewrite upd_peer_get_ne in Hq' by (done || lia). destruct (Hal _ _ Hne Hq'). congruence.
Qed.

Section Lists.
Context (EA EB : Env) (a_addr b_addr : sockaddr_in) (i j : Z) (has : ChunkList) (wants : list (list Z)).

(** The other host has the chunk: its first line with that hash is of these bytes. *)
Definition holds_chunk (t b : list Z) : Prop :=
  exists h line, first_line has t h line /\ zlen b = BT_CHUNK_SIZE /\ sha1_text b = t /\
    forall n, @mmap EB n (place_of line) = Some b.
Definition source (t : list Z) : Prop := exists b, holds_chunk t b.
(** Bytes of one of its chunks. *)
Definition copied (bs : list Z) : Prop := exists b n, holds_chunk (sha1_text b) b /\ bs = take n b.

Lemma copied_whole d : zlen d = BT_CHUNK_SIZE -> copied d -> holds_chunk (sha1_text d) d.
Proof.
  intros Hd (b & n & Hb & ->). pose proof Hb as (_ & _ & _ & Hl & _). rewrite length_take in Hd. rewrite take_ge; [done|]. lia.
Qed.

(** The host that serves: [a] is its peer [j], and is not being served. *)
Record serves (w : World) : Prop := {
  sv_inv : @server_inv EB (psvr w);
  sv_peer : exists q, known (psvr w) j q /\ addr q = a_addr /\ is_alive q = true /\ is_uploading q = false;
  sv_room : ul_num (psvr w) < max_conn (psvr w);
  sv_has : haschunks (psvr w) = has }.

(** The host that fetches line [k] from [b], its peer [i], and has asked for it; [ts]
    are the hashes that [b] announced and it did not ask for yet. *)
Record asking (w : World) (k : Z) (ts : list (list Z)) : Prop := {
  ak_inv : @server_inv EA (psvr w);
  ak_peer : exists p, known (psvr w) i p /\ addr p = b_addr /\ is_alive p = true /\ is_downloading p = true /\
    fresh (dl p) /\ get_index (dl p) = k /\ queue_holds (hasqueue p) ts;
  ak_alone : alone (psvr w) i;
  ak_texts : texts (getchunks (psvr w)) = wants;
  ak_books : books (abs w);
  ak_queue : forall k' l, 0 <= k' < cl_count (getchunks (psvr w)) -> zget (chunks (getchunks (psvr w))) k' = Some l ->
    state l = unfetched -> line_text l ∈ ts;
  ak_line : exists c dg, 0 <= k < cl_count (getchunks (psvr w)) /\ zget (chunks (getchunks (psvr w))) k = Some c /\
    hash_datagram PACKET_TYPE_GET [hash_of c] dg /\ sent_to w b_addr dg }.

(** Asking for the next chunk. *)
Lemma next_asking s p0 p ts w e : NoDup wants -> next_asked s i p ts (psvr w) e -> e ∈ out w -> @server_inv EA (psvr w) ->
  known s i p0 -> addr p = addr p0 -> addr p = b_addr -> is_alive p = true -> alone s i -> texts (getchunks s) = wants -> books (abs w) ->
  (forall k l, 0 <= k < cl_count (getchunks s) -> zget (chunks (getchunks s)) k = Some l -> state l = unfetched -> line_text l ∈ ts) ->
  exists k ts', asking w k ts'.
Proof.
  intros Hnd (ts1 & t & ts2 & k & c & cs & dq & d & -> & Hk & Hc & Hu & Htx & Hmk & He & Hq & Hfr & Hgi & Ew) Hin Hs Hkn Hap Ha Hl Hal Ht Hb Hqu.
  pose proof Hkn as [[Hp Hi] _]. set (p' := p .{ hasqueue := dq } .{ is_downloading := true } .{ dl := d }) in Ew.
  exists k, (ts1 ++ ts2). split; try done.
  - exists p'. split_and!; try done. rewrite Ew. exact (known_upd s i p0 p' Hkn Hap).
  - rewrite Ew. apply (alone_upd s); [lia|done].
  - rewrite Ew. rewrite <- Ht. exact (marked_texts _ _ _ _ Hmk).
  - rewrite Ew. cbn [getchunks]. intros k' l Hk' Hl' Hu'. change (zget cs k' = Some l) in Hl'. change (0 <= k' < cl_count (getchunks s)) in Hk'.
    destruct (decide (k' = k)) as [->|Hne].
    { rewrite (marked_here _ _ _ _ _ Hmk Hc) in Hl'. by injection Hl' as <-. }
    rewrite (marked_line _ _ _ _ _ Hmk Hne) in Hl'. pose proof (Hqu _ _ Hk' Hl' Hu') as Hts.
    apply elem_of_app. apply elem_of_app in Hts as [?|[E|?]%elem_of_cons]; [by left| |by right].
    exfalso. apply Hne. rewrite <- Ht in Hnd. eapply (texts_apart (getchunks s)); [done|done|done|done|exact Hc|congruence].
  - destruct He as (q & dg & Hq' & Hdg & ->). assert (q = p0) as -> by congruence. rewrite <- Hap, Ha in Hin.
    exists (c .{ state := fetching }), dg. rewrite Ew. split; [exact Hk|]. split; [exact (marked_here _ _ _ _ _ Hmk Hc)|].
    split; [exact Hdg|]. by exists (sock s).
Qed.
End Lists.

(** ** From chunk to chunk *)

Section Rounds.
Context (EA EB : Env) (a_addr b_addr : sockaddr_in) (i j : Z) (has : ChunkList) (wants : list (list Z)).
Context (Hdisk : @disk_ok EA) (Hck : @clock_ok EB) (Hmm : @mmap_ok EB).
Context (Hnodup : NoDup wants) (Hsrc : Forall (source EB has) wants).

Abbreviation delivery := (delivery EA EB a_addr b_addr).
Abbreviation asking := (asking EA b_addr i wants).
Abbreviation serves := (serves EB a_addr j has).

(** The [GET] arrives. *)
Lemma get_served n k ts : asking (host_a n) k ts -> serves (host_b n) ->
  exists n1 c h b q u o sk, delivery n n1 /\ host_a n1 = host_a n /\ zget (chunks (getchunks (psvr (host_a n)))) k = Some c /\
    holds_chunk EB has (line_text c) b /\
    known (psvr (host_b n)) j q /\ addr q = a_addr /\ is_alive q = true /\ upload_started j h b u /\
    @server_inv EB (psvr (host_b n1)) /\ out (host_b n1) = o ++ data_events sk a_addr b 1 1 /\
    psvr (host_b n1) = (upd_peer (psvr (host_b n)) j (q .{ ul := u } .{ is_uploading := true }))
      .{ ul_num := ul_num (psvr (host_b n)) + 1 }.
Proof.
  intros [Hs _ _ Ht _ _ (c & dg & Hk & Hc & Hdg & Hin)] [Hsb (q & Hq & Hqa & Hql & Hqu) Hroom Hhas].
  assert (line_text c ∈ wants) as Hw.
  { rewrite <- Ht. eapply list_elem_of_lookup_2, texts_line; [exact Hk|exact Hc]. }
  rewrite Forall_forall in Hsrc. destruct (Hsrc _ Hw) as (b & Hhb). pose proof Hhb as (h & line & Hfl & Hb & Etx & Hmap).
  assert (good_line c) as Hg.
  { split; [exact (list_wf_line _ _ _ (list_ok_wf _ (sm_get _ (si_mem _ Hs))) Hc)|]. rewrite <- Etx. apply good_text_sha1. }
  rewrite <- Hhas in Hfl.
  destruct (@get_reaches EB j q (host_b n) Hsb Hq c dg h line b) as (w1 & u & evs & E & Hs1 & Hst & Ew1 & Eo1); [done..|].
  rewrite Hqa in E, Eo1.
  exists {| host_a := host_a n; host_b := w1 |}, c, h, b, q, u, (out (host_b n) ++ evs), (sock (psvr (host_b n))).
  split; [by eapply to_b|]. split; [done|]. split; [done|]. split; [exact Hhb|]. split_and!; try done. cbn [host_b]. by rewrite Eo1, app_assoc.
Qed.

(** The uploading host when the upload is over. *)
Lemma serves_again w w1 w' q q2 u' : serves w -> known (psvr w) j q -> addr q = a_addr -> is_alive q = true ->
  addr q2 = addr q -> is_alive q2 = is_alive q ->
  psvr w1 = upd_peer ((upd_peer (psvr w) j q2) .{ ul_num := ul_num (psvr w) + 1 }) j (q2 .{ ul := u' }) ->
  upload_over j w1 w' -> @server_inv EB (psvr w') -> serves w'.
Proof.
  intros [Hs _ Hroom Hhas] Hq Ha Hl Ha2 Hl2 Ew1 (q' & d & Hq' & _ & Ew') Hs'.
  assert (known (psvr w1) j (q2 .{ ul := u' })) as Hk1.
  { rewrite Ew1. eapply (known_upd _ j q2); [|done]. exact (known_upd (psvr w) j q q2 Hq Ha2). }
  assert (q' = q2 .{ ul := u' }) as -> by (destruct Hk1 as [[? _] _]; congruence).
  pose proof (ul_num_range _ Hs (si_ul _ Hs Hck)) as Hn. change MAX_PEER_NUM with 1024 in Hn.
  assert (ul_num (psvr w') = ul_num (psvr w)) as En.
  { rewrite Ew', Ew1. change (s32 (ul_num (psvr w) + 1 - 1) = ul_num (psvr w)). rewrite s32_small; lia. }
  split; [done| |rewrite En, Ew', Ew1; exact Hroom|rewrite Ew', Ew1; exact Hhas].
  set (q3 := _ .{ is_uploading := false }) in Ew'. exists q3. split_and!.
  - rewrite Ew'. exact (known_upd (psvr w1) j _ q3 Hk1 eq_refl).
  - simpl. congruence.
  - simpl. congruence.
  - done.
Qed.

(** The fetching host when the chunk is complete. *)
Lemma asking_ends w w1 w' k ts p d evs line : asking w k ts -> known (psvr w) i p -> addr p = b_addr -> is_alive p = true ->
  is_downloading p = true -> get_index (dl p) = k -> queue_holds (hasqueue p) ts ->
  psvr w1 = upd_peer (psvr w) i (p .{ dl := d }) -> @server_inv EA (psvr w1) -> dl_frame (dl p) d ->
  zget (chunks (getchunks (psvr w))) k = Some line -> sha1_text (buffer d) = line_text line ->
  out w1 = out w ++ evs -> Forall quiet evs -> @end_download EA i w1 = Some (tt, w') ->
  rtc (@fetch_step EA) (abs w) (abs w') /\ appends (wrote (fun bs => exists n, bs = take n (buffer d))) w w' /\
  dl_remain (psvr w') = dl_remain (psvr w) - 1 /\
  (dl_remain (psvr w') = 0 \/ exists k' ts', asking w' k' ts').
Proof.
  intros [_ _ Hal Ht Hb Hqueue _] Hkn Ha Hl Hd Hgi Hq Ew1 Hs1 Hfr Hline Htx Eo1 Hqu E. pose proof Hkn as [[Hp Hi] _].
  set (p1 := p .{ dl := d }) in *. pose proof Hfr as (Egi & _ & _).
  assert (get_index (dl p1) = k) as Hgi1 by (change (get_index d = k); congruence).
  assert (peer_at (psvr w1) i p1) as Hp1 by (rewrite Ew1; by eapply upd_peer_at).
  pose proof (sm_peers _ (si_mem _ Hs1) _ _ Hp1) as [_ Hdl1 _]. destruct (Hdl1 Hd) as (Hsafe1 & _).
  assert (getchunks (psvr w1) = getchunks (psvr w) /\ dl_remain (psvr w1) = dl_remain (psvr w)) as [Eg Er] by (by rewrite Ew1).
  assert (alone (psvr w1) i) as Hal1 by (rewrite Ew1; apply alone_upd; [lia|done]).
  assert (abs w1 = abs w) as Eabs by (by eapply abs_receiving).
  assert (zget (chunks (getchunks (psvr w1))) (get_index (dl p1)) = Some line) as Hline1 by (by rewrite Eg, Hgi1).
  assert (rtc (@fetch_step EA) (abs w) (abs w')) as Hst.
  { rewrite <- Eabs. refine (end_download_steps i p1 line w1 (proj1 Hp1) Hd (safe_buffer _ Hsafe1) Hline1 _ _ _ E).
    exact (list_wf_line _ _ _ (list_ok_wf _ (sm_get _ (si_mem _ Hs1))) Hline1). }
  assert (books (view (psvr w1) (loud_of (out w1)))) as Hb1 by (fold (abs w1); by rewrite Eabs).
  assert (0 < dl_remain (psvr w) <= 4096 /\ k < cl_count (getchunks (psvr w))) as [Hrem Hkc].
  { pose proof (bk_left _ Hb) as Hleft. pose proof (abs_job _ _ _ Hp) as Hj. unfold job in Hj. rewrite Hd, Hgi in Hj.
    destruct (bk_job _ Hb _ _ _ Hj) as (_ & Hk & l & Hl' & Hf). pose proof (missing_range (abs w)). pose proof (bk_count _ Hb) as [? Hmax].
    change MAX_CHUNK_NUM with 4096 in Hmax. change (f_left (abs w)) with (dl_remain (psvr w)) in Hleft.
    assert (0 < missing (abs w)); [|split; [lia|done]]. eapply (missing_pos _ k l); [done|lia|done|by rewrite Hf]. }
  destruct (@end_asks_next EA i p1 line ts w1 w') as (cs & Hmk & Hs' & _ & Hcase); try done.
  { intros cs Hmk Hpos. eapply (@saved_left EA (psvr w1) i p1 line cs ts); try done; [apply Hp1|apply Hsafe1|]. by rewrite Eg. }
  split; [exact Hst|]. split.
  { eapply appends_trans; [exists evs; split; [exact Eo1|]; by eapply Forall_impl; [|intros []]|].
    eapply appends_mono; [|exact (@end_download_writes EA i p1 w1 (si_mem _ Hs1) Hp1 Hd _ _ E)].
    intros [] He; try done. by destruct He as (? & _ & _ & _ & _ & _ & ?). }
  rewrite Er in Hcase. rewrite s32_small in Hcase by lia.
  assert (s32 (dl_remain (psvr w1) - 1) = dl_remain (psvr w) - 1) as E32 by (rewrite Er, s32_small; lia).
  destruct (Z.gtb_spec (dl_remain (psvr w) - 1) 0) as [Hpos|Hnone].
  2: { assert (dl_remain (psvr w') = dl_remain (psvr w) - 1) as -> by (rewrite Hcase; exact E32). split; [done|]. left. lia. }
  destruct Hcase as (e & Hnext & Hin).
  assert (dl_remain (psvr w') = dl_remain (psvr w) - 1) as Erem.
  { destruct Hnext as (? & ? & ? & ? & ? & ? & ? & ? & _ & _ & _ & _ & _ & _ & _ & _ & _ & _ & ->). exact E32. }
  split; [done|]. right. set (p2 := p1 .{ is_downloading := false }) in Hnext.
  eapply (next_asking EA b_addr i wants (saved (psvr w1) i p1 cs) p2 p2 ts w' e); try done.
  - rewrite Ew1. exact (known_upd _ i p1 p2 (known_upd _ i p p1 Hkn eq_refl) eq_refl).
  - apply (alone_upd (psvr w1)); [lia|done].
  - rewrite <- Ht, <- Eg. exact (marked_texts _ _ _ _ Hmk).
  - exact (@books_steps EA _ _ Hb Hst).
  - intros k' l Hk' Hl' Hu. change (zget cs k' = Some l) in Hl'. destruct (decide (k' = get_index (dl p1))) as [->|Hne].
    { rewrite (marked_here _ _ _ _ _ Hmk Hline1) in Hl'. by injection Hl' as <-. }
    rewrite (marked_line _ _ _ _ _ Hmk Hne), Eg in Hl'. eapply Hqueue; [|exact Hl'|exact Hu]. by rewrite <- Eg.
Qed.

(** One chunk after the other. *)
Lemma chunk_round n k ts : asking (host_a n) k ts -> serves (host_b n) ->
  exists n', rtc delivery n n' /\ serves (host_b n') /\ rtc (@fetch_step EA) (abs (host_a n)) (abs (host_a n')) /\
    appends (wrote (copied EB has)) (host_a n) (host_a n') /\
    dl_remain (psvr (host_a n')) = dl_remain (psvr (host_a n)) - 1 /\
    (dl_remain (psvr (host_a n')) = 0 \/ exists k' ts', asking (host_a n') k' ts').
Proof.
  intros Hak Hsv. destruct (get_served n k ts Hak Hsv)
    as (n1 & c & h & b & q & u & o & sk & Hstep & Ea & Hc & Hhb & Hq & Hqa & Hql & Hst & Hs1 & Eo1 & Ew1).
  pose proof (ak_peer _ _ _ _ _ _ _ Hak) as (p & Hp & Hpa & Hpl & Hpd & Hfr & Hgi & Hqh).
  set (q2 := q .{ ul := u } .{ is_uploading := true }) in Ew1.
  destruct (chunk_arrives EA EB a_addr b_addr b i j h p q2 n1 o sk Hck Hmm) as
    (n2 & d & w1 & u' & w2 & Hr & Ewa & Hsa & Hfd & Hbd & Eend & (evs & Eo & Hqu) & Hsb & Ew2 & Hover); rewrite ?Ea; try done.
  { exact (ak_inv _ _ _ _ _ _ _ Hak). }
  { rewrite Ew1. exact (known_upd _ j q q2 Hq eq_refl). }
  rewrite Ea in Ewa, Eo. exists n2. split; [by eapply rtc_l|]. split.
  { eapply (serves_again (host_b n) w2 (host_b n2) q q2 u'); try done. by rewrite Ew2, Ew1. }
  pose proof Hhb as (_ & _ & _ & _ & Etx & _).
  destruct (asking_ends (host_a n) w1 (host_a n2) k ts p d evs c) as (Hsteps & Happ & Hrest); try done; [by rewrite Hbd|].
  split; [exact Hsteps|]. split; [|exact Hrest]. eapply appends_mono; [|exact Happ]. intros [] He; try done.
  destruct He as [m ->]. exists b, m. rewrite Hbd. split; [by rewrite Etx|done].
Qed.

(** Until none is left. *)
Lemma all_rounds m : forall n k ts, asking (host_a n) k ts -> serves (host_b n) -> dl_remain (psvr (host_a n)) <= Z.of_nat m ->
  exists n', rtc delivery n n' /\ rtc (@fetch_step EA) (abs (host_a n)) (abs (host_a n')) /\
    appends (wrote (copied EB has)) (host_a n) (host_a n') /\ dl_remain (psvr (host_a n')) = 0.
Proof.
  induction m as [|m IH]; intros n k ts Hak Hsv Hm; destruct (chunk_round n k ts Hak Hsv) as (n1 & Hr & Hsv1 & Hst & Hw & Erem & Hcase).
  - destruct Hcase as [Hz|(k' & ts' & Hak')]; [by exists n1|]. exfalso.
    pose proof (ak_books _ _ _ _ _ _ _ Hak') as Hb'. pose proof (bk_left _ Hb') as Hleft. pose proof (missing_range (abs (host_a n1))).
    change (f_left _) with (dl_remain (psvr (host_a n1))) in Hleft. simpl in Hm. lia.
  - destruct Hcase as [Hz|(k' & ts' & Hak')]; [by exists n1|]. destruct (IH n1 k' ts' Hak' Hsv1) as (n2 & Hr2 & Hst2 & Hw2 & Hz); [lia|].
    exists n2. split_and!; [by etransitivity|by etransitivity|by eapply appends_trans|done].
Qed.

(** ** The announcements *)

(** The wanted chunks have been asked for, of the host that has them. *)
Record announced (w : World) (lines : list ChunkLine) : Prop := {
  an_inv : @server_inv EA (psvr w);
  an_peer : exists p, known (psvr w) i p /\ addr p = b_addr /\ is_downloading p = false;
  an_alone : alone (psvr w) i;
  an_room : dl_num (psvr w) < max_conn (psvr w);
  an_lines : lines = range (chunks (getchunks (psvr w))) 0 (cl_count (getchunks (psvr w)));
  an_texts : line_text <$> lines = wants;
  an_count : 1 <= zlen lines <= HASH_NUM_PKT;
  an_new : Forall (fun l => state l = unfetched) lines;
  an_books : books (abs w);
  an_sent : exists dg, hash_datagram PACKET_TYPE_WHOHAS (hash_of <$> lines) dg /\ sent_to w b_addr dg }.

Lemma range_line cl k l : 0 <= k < cl_count cl -> zget (chunks cl) k = Some l -> l ∈ range (chunks cl) 0 (cl_count cl).
Proof.
  intros Hk Hl. unfold range. rewrite drop_0. unfold zget in Hl. rewrite decide_True in Hl by lia.
  apply (list_elem_of_lookup_2 _ (Z.to_nat k)). by rewrite lookup_take_lt by lia.
Qed.

Lemma good_lines lines : Forall line_wf lines -> line_text <$> lines = wants -> Forall good_line lines.
Proof.
  intros Hwf Et. pose proof Hsrc as Hall. rewrite Forall_forall in Hwf. rewrite Forall_forall in Hall. apply Forall_forall. intros l Hl. split; [by apply Hwf|].
  destruct (Hall (line_text l)) as (b & _ & _ & _ & _ & <- & _); [|apply good_text_sha1].
  rewrite <- Et. by apply list_elem_of_fmap_2.
Qed.

Lemma sources_in_list : Forall (fun t => t ∈ texts has) wants.
Proof.
  eapply Forall_impl; [exact Hsrc|]. intros t (b & h & line & (Hh & Hl & <- & _) & _).
  by eapply list_elem_of_lookup_2, texts_line.
Qed.

Lemma announced_fetches n lines q : (forall k, @malloc_ok EA k = true) -> announced (host_a n) lines ->
  @server_inv EB (psvr (host_b n)) -> known (psvr (host_b n)) j q -> addr q = a_addr -> is_uploading q = false ->
  ul_num (psvr (host_b n)) < max_conn (psvr (host_b n)) -> haschunks (psvr (host_b n)) = has ->
  exists n', rtc delivery n n' /\ rtc (@fetch_step EA) (abs (host_a n)) (abs (host_a n')) /\
    appends (wrote (copied EB has)) (host_a n) (host_a n') /\ dl_remain (psvr (host_a n')) = 0.
Proof.
  intros Hmem [Hs (p & Hp & Hpa & Hpd) Hal Hroom El Et Hcnt Hnew Hb (dg & Hdg & Hin)] Hsb Hq Hqa Hqu Hrb Hhas.
  pose proof (sm_get _ (si_mem _ Hs)) as Hwf.
  assert (Forall line_wf lines) as Hlwf by (rewrite El; destruct Hwf as [(_ & _ & Hall) _]; by apply Forall_take, Forall_drop).
  destruct (@whohas_reaches EB j q (host_b n) Hsb Hq lines dg) as (wb & ih & lines' & dg' & sk & E1 & Hsb1 & Ewb & Eob & Hdg' & Hwf' & Et');
    [by apply good_lines|done|done| |done|done|].
  { rewrite Hhas. pose proof sources_in_list as Hin'. rewrite <- Et in Hin'. by apply Forall_fmap in Hin'. }
  rewrite Hqa in E1, Eob. assert (zlen lines' = zlen lines) as Hlen' by (rewrite <- (length_fmap line_text lines'), Et', length_fmap; done).
  set (n1 := {| host_a := host_a n; host_b := wb |}). assert (delivery n n1) as Hst1 by (by eapply to_b).
  destruct (@ihave_reaches EA i p (host_a n) Hs Hp lines' dg') as (wa & e & E2 & Hsa1 & Hst & Eoa & Hnext); try done.
  { apply good_lines; [done|congruence]. }
  { by rewrite Hlen'. }
  { assert (0 < cl_count (getchunks (psvr (host_a n)))) as Hpos.
    { destruct (decide (0 < cl_count (getchunks (psvr (host_a n))))); [done|]. rewrite El in Hcnt. unfold range in Hcnt.
      rewrite length_take in Hcnt. lia. }
    destruct (list_wf_get _ 0 (list_ok_wf _ Hwf)) as (c & Hc & _); [lia|]. pose proof (range_line (getchunks (psvr (host_a n))) 0 c ltac:(lia) Hc) as Hcin. rewrite <- El in Hcin.
    assert (line_text c ∈ line_text <$> lines') as (l & Htl & Hl)%list_elem_of_fmap by (rewrite Et'; by apply list_elem_of_fmap_2).
    exists l, 0. split; [done|]. split; [lia|]. exists c. split; [done|]. rewrite Forall_forall in Hnew. by split; [apply Hnew|]. }
  rewrite Hpa in E2. set (n2 := {| host_a := wa; host_b := wb |}).
  assert (delivery n1 n2) as Hst2. { eapply to_a; [|exact E2]. exists sk. cbn [host_b n1]. rewrite Eob. apply elem_of_app. right. by left. }
  assert (exists k ts', asking wa k ts') as (k & ts' & Hak).
  { eapply (next_asking EA b_addr i wants (psvr (host_a n)) p (p .{ is_alive := true }) (line_text <$> lines') wa e); try done.
    - rewrite Eoa. apply elem_of_app. right. by left.
    - unfold texts. by rewrite <- El.
    - exact (@books_steps EA _ _ Hb Hst).
    - intros k l Hk Hl _. rewrite Et', El. apply list_elem_of_fmap_2. by eapply range_line. }
  assert (serves wb) as Hsv.
  { set (q1 := q .{ is_alive := true }) in Ewb. split; [done| |by rewrite Ewb|by rewrite Ewb]. exists q1. split_and!; try done.
    rewrite Ewb. exact (known_upd (psvr (host_b n)) j q q1 Hq eq_refl). }
  destruct (all_rounds (Z.to_nat (dl_remain (psvr wa))) n2 k ts' Hak Hsv) as (n' & Hr & Hst' & Hw & Hz); [cbn [host_a n2]; lia|].
  exists n'. split_and!; [|by etransitivity| |done]; [eapply rtc_l; [exact Hst1|]; by eapply rtc_l|].
  eapply appends_trans; [|exact Hw]. exists [e]. split; [exact Eoa|]. by eapply Forall_singleton, next_asked_wrote.
Qed.
End Rounds.

(** ** The command *)

Section Command.
Context `{Env}.

(** [process_get] of a list that fits one packet asks every peer for it. *)
Lemma process_get_announces w cf outf file cl : gets_list w cf outf file cl -> 1 <= cl_count cl <= HASH_NUM_PKT ->
  Forall (fun l => state l = unfetched) (range (chunks cl) 0 (cl_count cl)) ->
  wp (process_get cf outf (Some file)) (fun _ w' => peerlist (psvr w') = peerlist (psvr w) /\ getchunks (psvr w') = cl /\
    max_conn (psvr w') = max_conn (psvr w) /\ dl_num (psvr w') = dl_num (psvr w) /\
    exists dg, hash_datagram PACKET_TYPE_WHOHAS (hash_of <$> range (chunks cl) 0 (cl_count cl)) dg /\
      forall i p, peer_at (psvr w) i p -> sent_to w' (addr p) dg) w.
Proof.
  intros [Hs _ (Hcf & Hof & Hlc & Hlo) Hfit Hcl] Hn Hnew. unfold process_get. rewrite !Z.geb_leb.
  destruct (Z.leb_spec BT_FILENAME_LEN (zlen (cstr outf))); [lia|]. destruct (Z.leb_spec BT_FILENAME_LEN (zlen (cstr cf))); [lia|]. wp_go.
  unfold id. destruct (sm_name _ (si_mem _ Hs)) as [[Hdl _] [Hgl _]].
  destruct (strcpy_fits (dl_filename (psvr w)) outf) as (df & Edf & Hdf); [done|lia|].
  destruct (strcpy_fits (getchunk_file (psvr w)) cf) as (gf & Egf & Hgf); [done|lia|]. rewrite Hdl in Hdf. rewrite Hgl in Hgf.
  eapply wp_lift; [exact Edf|]. wp_go. eapply wp_lift; [exact Egf|]. wp_go. eapply wp_lift; [exact Hcl|]. wp_go. cbn [fst snd].
  change (0 <? 0) with false. cbv iota. wp_go.
  destruct (parse_chunk_ok (getchunks (psvr w)) (Some file)) as (r & cl' & E & Hwf & _); [apply Hs|by intros f [= <-]|].
  assert (cl' = cl) as -> by congruence.
  match goal with |- context [wp _ _ ?x] => assert (psvr x = (psvr w) .{ dl_filename := df } .{ getchunk_file := gf }
    .{ getchunks := cl } .{ dl_remain := cl_count cl }) as Ew1 by done; revert Ew1; generalize x; intros w1 Ew1 end.
  assert (server_mem (psvr w1)) as Hm1.
  { rewrite Ew1. eapply (server_mem_ext (psvr w)); [apply Hs|done|apply Hs|exact Hwf|apply Hs|]. split; [exact Hdf|exact Hgf]. }
  apply send_whohas_spec; [done|]. intros evs w2 (dgs & Hpages & ->) [Ew2 Eo2]. wp_go.
  apply (get_timestamp_now_spec (fun _ => False)). intros now w3 _ [Ew3 Eo3]%emits_none. wp_go.
  assert (getchunks (psvr w1) = cl) as Eg by (by rewrite Ew1). rewrite Eg in Hpages.
  assert (pkt_num (cl_count cl) = 1) as Epk.
  { unfold pkt_num. change HASH_NUM_PKT with 74 in Hn. change SHA1_HASH_SIZE with 20. change MAX_PAYLOAD_SIZE with 1484.
    rewrite Z.quot_div_nonneg by lia. Z.div_mod_to_equations. lia. }
  rewrite Epk in Hpages. change (seqZ 0 1) with [0] in Hpages. apply Forall2_cons_inv_l in Hpages as (dg & dgs' & Hdg & Hnil & ->).
  apply Forall2_nil_inv_l in Hnil as ->.
  assert (page PACKET_TYPE_WHOHAS cl 0 (cl_count cl) 0 = hash_of <$> range (chunks cl) 0 (cl_count cl)) as Epage.
  { unfold page. rewrite !C_MIN_min. change HASH_NUM_PKT with 74 in *. rewrite Z.min_r, Z.min_l by lia.
    rewrite Z.mul_0_r, Z.sub_0_r, Z.add_0_l. unfold listed. f_equal. clear -Hnew. induction Hnew as [|l ls Hl _ IH]; [done|].
    rewrite filter_cons_True by (by unfold wanted; intros _). by rewrite IH. }
  change (hash_datagram PACKET_TYPE_WHOHAS (page PACKET_TYPE_WHOHAS cl 0 (cl_count cl) 0) dg) in Hdg. rewrite Epage in Hdg.
  simpl. rewrite Ew3, Ew2, Ew1. split_and!; try done. exists dg. split; [exact Hdg|]. intros i p [Hp Hi]. exists (sock (psvr w1)).
  cbn [out]. rewrite Eo3, app_nil_r, Eo2. apply elem_of_app. right. unfold sends_all. simpl. rewrite app_nil_r. apply list_elem_of_fmap.
  exists p. split; [done|]. rewrite Ew1. cbn [peerlist]. unfold range. rewrite drop_0. unfold zget in Hp. rewrite decide_True in Hp by lia.
  apply (list_elem_of_lookup_2 _ (Z.to_nat i)). change (peerlist (_ .{ dl_remain := _ })) with (peerlist (psvr w)).
  rewrite lookup_take_lt; [done|]. simpl. lia.
Qed.
End Command.

(** A host that knows the address of another, its only living peer, whose disk and memory
    do not fail. *)
Record ready_to_get `{Env} (w : World) (i : Z) (to : sockaddr_in) : Prop := {
  rg_peer : exists p, known (psvr w) i p /\ addr p = to;
  rg_others : forall j q, j <> i -> zget (peers (peerlist (psvr w))) j = Some q -> is_alive q = false;
  rg_room : 0 < max_conn (psvr w);
  rg_memory : forall n, malloc_ok n = true;
  rg_disk : disk_ok;
  rg_seek : forall n, lseek_ok n = true }.

(** The [GET] that its user types: a list of at most 74 different chunks, each with its
    own place. *)
Record fetcher `{Env} (w : World) (i : Z) (to : sockaddr_in) (cf outf file : list Z) (cl : ChunkList) : Prop := {
  fe_list : gets_list w cf outf file cl;
  fe_places : places_ok cl;
  fe_count : 1 <= cl_count cl <= HASH_NUM_PKT;
  fe_once : NoDup (texts cl);
  fe_ready : ready_to_get w i to }.

(** A host that knows that address and may upload. *)
Record ready_to_serve `{Env} (w : World) (j : Z) (to : sockaddr_in) : Prop := {
  rs_inv : server_inv (psvr w);
  rs_clock : clock_ok;
  rs_mmap : mmap_ok;
  rs_peer : exists q, known (psvr w) j q /\ addr q = to /\ is_uploading q = false;
  rs_room : ul_num (psvr w) < max_conn (psvr w) }.

(** It has the chunks of the list. *)
Definition holder (E : Env) (w : World) (j : Z) (to : sockaddr_in) (cl : ChunkList) : Prop :=
  @ready_to_serve E w j to /\ Forall (source E (haschunks (psvr w))) (texts cl).

Lemma idle_dl_num `{Env} s : server_inv s -> idle s -> dl_num s = 0.
Proof.
  intros Hs Hi. destruct (si_dl _ Hs) as [-> _]. unfold running.
  assert (Forall (fun p => is_downloading p = false) (take (Z.to_nat (pl_count (peerlist s))) (peers (peerlist s)))) as Hall
    by (by apply Forall_take).
  induction Hall as [|p ps Hp _ IH]; [done|]. rewrite filter_cons_False; [exact IH|congruence].
Qed.

Section Whole.
Context (EA EB : Env) (a_addr b_addr : sockaddr_in).

Lemma get_to_end i j wa wb cf outf file cl :
  @fetcher EA wa i b_addr cf outf file cl -> holder EB wb j a_addr cl ->
  exists w1 n', @process_get EA cf outf (Some file) wa = Some (tt, w1) /\
    rtc (delivery EA EB a_addr b_addr) {| host_a := w1; host_b := wb |} n' /\
    rtc (@fetch_step EA) (abs w1) (abs (host_a n')) /\
    appends (wrote (copied EB (haschunks (psvr wb)))) w1 (host_a n') /\ dl_remain (psvr (host_a n')) = 0.
Proof.
  intros [Hg Hpl Hcnt Hnd [(p & Hp & Hpa) Hoth Hroom Hmem Hdisk Hseek]] [[Hsb Hck Hmm (q & Hq & Hqa & Hqu) Hrb] Hsrc].
  pose proof Hg as [Hs Hidle _ _ Hcl]. destruct (parse_chunk_lines _ _ _ _ Hcl) as (_ & new & Hnew & _ & Ecs & Ecnt).
  assert (range (chunks cl) 0 (cl_count cl) = new) as Er.
  { unfold range. rewrite drop_0, Ecs, Ecnt, Nat2Z.id. apply take_app_length. }
  destruct (get_loads _ _ _ _ _ Hg) as (w1 & E1 & [Hs1 _] & Hb1 & _).
  assert (Forall (fun l => state l = unfetched) (range (chunks cl) 0 (cl_count cl))) as Hun by (by rewrite Er).
  destruct (wp_run _ _ _ _ _ (@process_get_announces EA wa cf outf file cl Hg Hcnt Hun) E1) as (El & Eg & Em & Ed & dg & Hdg & Hsent).
  set (n := {| host_a := w1; host_b := wb |}).
  assert (is_downloading p = false) as Hpd.
  { destruct Hp as [[Hp _] _]. unfold idle in Hidle. rewrite Forall_lookup in Hidle. unfold zget in Hp. case_decide; [|done].
    by eapply Hidle. }
  assert (announced EA b_addr i (texts cl) (host_a n) new) as Han.
  { split; cbn [host_a n].
    - done.
    - exists p. split_and!; [|done|done]. unfold known, peer_at. by rewrite El.
    - intros j' q' Hj Hq'. rewrite El in Hq'. split; [by eapply Hoth|]. unfold idle in Hidle. rewrite Forall_lookup in Hidle.
      unfold zget in Hq'. case_decide; [|done]. by eapply Hidle.
    - rewrite Ed, Em, (idle_dl_num _ Hs Hidle). lia.
    - by rewrite Eg.
    - unfold texts. by rewrite Er.
    - lia.
    - done.
    - done.
    - exists dg. rewrite <- Er. split; [done|]. rewrite <- Hpa. apply (Hsent i), Hp. }
  destruct (announced_fetches EA EB a_addr b_addr i j (haschunks (psvr wb)) (texts cl) Hdisk Hck Hmm Hnd Hsrc n new q)
    as (n' & Hr & Hst & Hw & Hz); [done..|].
  by exists w1, n'.
Qed.
(** What it leaves: every chunk at its place, as the other host has it. *)
Lemma list_fetched i j wa wb cf outf file cl :
  @fetcher EA wa i b_addr cf outf file cl -> holder EB wb j a_addr cl ->
  exists w1 n' evs, @process_get EA cf outf (Some file) wa = Some (tt, w1) /\
    rtc (delivery EA EB a_addr b_addr) {| host_a := w1; host_b := wb |} n' /\
    dl_remain (psvr (host_a n')) = 0 /\ loud_of (out (host_a n')) = loud_of (out w1) ++ evs /\ EvGot (cstr cf) ∈ evs /\
    forall f0 k line, 0 <= k < cl_count cl -> zget (chunks cl) k = Some line ->
      holds_chunk EB (haschunks (psvr wb)) (line_text line)
        (range (replay (cstr outf) f0 evs) (cl_id line * BT_CHUNK_SIZE) BT_CHUNK_SIZE).
Proof.
  intros Hf Hh. destruct (get_to_end i j wa wb cf outf file cl Hf Hh) as (w1 & n' & E & Hr & Hst & (es & Ees & Hes) & Hz).
  destruct Hf as [Hg Hpl Hcnt _ [_ _ _ _ _ Hseek]].
  destruct (@get_loads EA _ _ _ _ _ Hg) as (w1' & E' & _ & Hb & Hfl & El & Ec & Eo & Egt). assert (w1' = w1) as -> by congruence.
  destruct (@steps_complete EA _ _ cl Hseek Hst Hb Hfl El Ec Hpl) as (evs & Elog & Hgot & Hfile); [lia|].
  rewrite Egt in Hgot, Hfile. rewrite Eo in Hfile. exists w1, n', evs. split_and!; try done; [by apply Hgot|].
  assert (Forall (wrote (copied EB (haschunks (psvr wb)))) evs) as Hevs.
  { change (loud_of (out (host_a n')) = loud_of (out w1) ++ evs) in Elog. rewrite Ees, loud_app in Elog.
    apply app_inv_head in Elog as <-. rewrite Forall_forall in Hes. apply Forall_forall.
    by intros e [_ He%Hes]%list_elem_of_filter. }
  intros f0 k line Hk Hl. destruct (Hfile (proj2 Hgot Hz) _ f0 k line Hevs Hk Hl) as [[Hlen ->] Hc]. by apply copied_whole.
Qed.
End Whole.

(** ** Properties *)

(** C3: when the user of an idle host types [GET] for a list that another host has,
    datagrams need only arrive: some run of deliveries between the two servers ends
    with the list reported as got, and every chunk of it at its place in the output file,
    with the bytes that the other host has for that hash. *)
Theorem whole_list_fetched (EA EB : Env) (a_addr b_addr : sockaddr_in) (i j : Z) (wa wb : World) (cf outf file : list Z) (cl : ChunkList) :
  @fetcher EA wa i b_addr cf outf file cl -> holder EB wb j a_addr cl ->
  exists w1 n' evs, @process_get EA cf outf (Some file) wa = Some (tt, w1) /\
    rtc (delivery EA EB a_addr b_addr) {| host_a := w1; host_b := wb |} n' /\
    dl_remain (psvr (host_a n')) = 0 /\ loud_of (out (host_a n')) = loud_of (out w1) ++ evs /\ EvGot (cstr cf) ∈ evs /\
    forall f0 k line, 0 <= k < cl_count cl -> zget (chunks cl) k = Some line ->
      holds_chunk EB (haschunks (psvr wb)) (line_text line)
        (range (replay (cstr outf) f0 evs) (cl_id line * BT_CHUNK_SIZE) BT_CHUNK_SIZE).
Proof. apply list_fetched. Qed.

(** *** Examples *)

(** A host that is idle, and another that has a chunk of zeros; the first wants the chunk
    of hash [h]. *)
Definition wants_one (h : list Z) : ChunkList := {| cl_count := 1; chunks := read_line 0 h :: drop 1 (chunks zero_list) |}.
Definition has_one (h : list Z) : ChunkList := {| cl_count := 1; chunks := <[0%nat := read_line 0 h]> (chunks zero_list) |}.
Definition holding (h : list Z) : World := {| psvr := sample_idle .{ haschunks := has_one h }; tick := 0; out := [] |}.

Lemma read_line_text id h : Forall is_byte h -> line_text (read_line id h) = hexstring h.
Proof. intros Hb. apply cstr_plain, hexdigit_nonzero, hexstring_digits, Hb. Qed.

Lemma wants_one_texts h : Forall is_byte h -> texts (wants_one h) = [hexstring h].
Proof. intros Hb. rewrite <- (read_line_text 0 h Hb). reflexivity. Qed.

Lemma wants_one_gets h : good_hash h ->
  @gets_list sample_env one_get [103; 0] [111; 0] (make_chunks_output [h]) (wants_one h).
Proof.
  intros Hh. assert (Forall good_hash [h]) as Hg by (constructor; [exact Hh|constructor]). split.
  - exact sample_idle_inv.
  - repeat constructor.
  - split_and!; [by right; left|by right; left|reflexivity|reflexivity].
  - by apply make_chunks_file_fits.
  - apply (parse_printed zero_list [h]); [exact Hg|change (zlen [h]) with 1; by vm_compute|reflexivity|by apply Forall_replicate].
Qed.

Lemma wants_one_places h : places_ok (wants_one h).
Proof.
  split.
  - intros k l Hk Hl. change (cl_count (wants_one h)) with 1 in Hk. assert (k = 0) as -> by lia. injection Hl as <-.
    split; [discriminate|reflexivity].
  - intros k1 k2 l1 l2 H1 H2. change (cl_count (wants_one h)) with 1 in H1, H2. lia.
Qed.

Lemma sample_known : known sample_idle 0 sample_peer.
Proof. split; [exact sample_idle_peer|]. lia. Qed.

Lemma sample_ready_to_get : @ready_to_get sample_env one_get 0 (addr sample_peer).
Proof.
  split.
  - exists sample_peer. split; [exact sample_known|reflexivity].
  - intros j q Hj Hq. change (peers (peerlist (psvr one_get))) with [sample_peer] in Hq.
    pose proof (zget_Some_range _ _ _ Hq) as Hr. simpl length in Hr. lia.
  - reflexivity.
  - reflexivity.
  - intros n. split; reflexivity.
  - reflexivity.
Qed.

Lemma wants_one_fetcher h : good_hash h ->
  @fetcher sample_env one_get 0 (addr sample_peer) [103; 0] [111; 0] (make_chunks_output [h]) (wants_one h).
Proof.
  intros Hh. split.
  - by apply wants_one_gets.
  - apply wants_one_places.
  - split; discriminate.
  - rewrite wants_one_texts by apply Hh. apply NoDup_singleton.
  - exact sample_ready_to_get.
Qed.

Lemma holding_inv h : good_hash h -> @server_inv sample_env (psvr (holding h)).
Proof.
  intros [Hl Hb]. pose proof sample_idle_inv as Hs. assert (list_ok (has_one h)) as Hwf.
  { apply (list_ok_zset zero_list 0 (read_line 0 h)); [apply zero_list_ok|reflexivity| |done|by split].
    split; [|apply elem_of_app; right; by left].
    cbn [sha1_buf read_line]. rewrite length_app. change (length [0]) with 1%nat.
    pose proof (hexstring_length h). change SHA1_HASH_SIZE with 20 in Hl. change SHA1_BUF_SIZE with 41. lia. }
  apply (server_inv_ext sample_idle); try reflexivity; try apply Hs. exact Hwf.
Qed.

Lemma holding_ready h : good_hash h -> @ready_to_serve sample_env (holding h) 0 (addr sample_peer).
Proof.
  intros Hh. split.
  - by apply holding_inv.
  - exact sample_clock.
  - exact sample_mmap.
  - exists sample_peer. split_and!; [exact sample_known|reflexivity|reflexivity].
  - reflexivity.
Qed.

Lemma holding_holder h : good_hash h -> hexstring h = sha1_text zero_chunk ->
  holder sample_env (holding h) 0 (addr sample_peer) (wants_one h).
Proof.
  intros Hh Ez. split; [by apply holding_ready|]. rewrite wants_one_texts by apply Hh. apply Forall_singleton.
  exists zero_chunk, 0, (read_line 0 h). split_and!; [|exact zero_chunk_length|by symmetry|reflexivity].
  split_and!; [discriminate|reflexivity|reflexivity| |lia]. apply read_line_text, Hh.
Qed.

Lemma zero_chunk_hash : good_hash (sha1_spec zero_chunk).
Proof. split; [by rewrite sha1_spec_length|apply sha1_spec_bytes]. Qed.

Lemma whole_list_fetched_witness :
  exists w1 n' evs, @process_get sample_env [103; 0] [111; 0] (Some (make_chunks_output [sha1_spec zero_chunk])) one_get = Some (tt, w1) /\
    rtc (delivery sample_env sample_env (addr sample_peer) (addr sample_peer))
      {| host_a := w1; host_b := holding (sha1_spec zero_chunk) |} n' /\
    dl_remain (psvr (host_a n')) = 0 /\ loud_of (out (host_a n')) = loud_of (out w1) ++ evs /\ EvGot (cstr [103; 0]) ∈ evs /\
    forall f0 k line, 0 <= k < cl_count (wants_one (sha1_spec zero_chunk)) ->
      zget (chunks (wants_one (sha1_spec zero_chunk))) k = Some line ->
      holds_chunk sample_env (has_one (sha1_spec zero_chunk)) (line_text line)
        (range (replay (cstr [111; 0]) f0 evs) (cl_id line * BT_CHUNK_SIZE) BT_CHUNK_SIZE).
Proof.
  exact (whole_list_fetched sample_env sample_env (addr sample_peer) (addr sample_peer) 0 0 one_get (holding (sha1_spec zero_chunk))
    [103; 0] [111; 0] (make_chunks_output [sha1_spec zero_chunk]) (wants_one (sha1_spec zero_chunk))
    (wants_one_fetcher _ zero_chunk_hash) (holding_holder _ zero_chunk_hash eq_refl)).
Defined.
