(* ===== verification/Copied.v ===== *)
(** * Copied: a file is copied to another host

    From make-chunks to the copy: the owner of a file makes a list of its chunks and serves
    them; the user of another server gets the list, and has the file, byte for byte. *)

From S2P Require Import Prelude RecvWin LinkedList Sha Chunk ChunkList Machine Util Packet Sending Hashes.
From S2P Require Import Upload Download SendHelper PeerServer ParsePacket Transfer Liveness ServerInv ServerOps ServerSafe.
From S2P Require Import Handlers UserInput CommandLine PeerInit EventLoop Requests Integrity Outcomes Schedule ScheduleSteps.
From S2P Require Import GotFile MakeChunks ServerTransfer Alike Network Exchange.

(** ** Whole pieces *)

Section Whole.
Context (C : Z) (HC : 0 < C).

(** As many pieces as fit are all of full length. *)
Lemma full_pieces (cs : list (list Z)) : Forall (fun c => zlen c <= C) cs -> zlen (mjoin cs : list Z) = zlen cs * C ->
  Forall (fun c => zlen c = C) cs.
Proof.
  assert (forall cs : list (list Z), Forall (fun c => zlen c <= C) cs -> zlen (mjoin cs : list Z) <= zlen cs * C) as Hle.
  { intros l Hl. induction Hl as [|c l Hc _ IH]; [simpl; lia|]. change (mjoin (c :: l)) with (c ++ mjoin l). rewrite length_app. cbn [length]. lia. }
  intros Hall. induction Hall as [|c cs Hc Hall IH]; [constructor|]. change (mjoin (c :: cs)) with (c ++ mjoin cs). rewrite length_app. cbn [length].
  intros E. pose proof (Hle cs Hall) as Hcs. constructor; [lia|]. apply IH. lia.
Qed.

Lemma range_shift (c f : list Z) k : zlen c = C -> 0 <= k -> range (c ++ f) ((k + 1) * C) C = range f (k * C) C.
Proof.
  intros Hc Hk. unfold range. rewrite drop_app_ge by nia. do 2 f_equal. nia.
Qed.

Lemma piece_range (cs : list (list Z)) : forall k c, Forall (fun c => zlen c = C) cs -> cs !! k = Some c ->
  range (mjoin cs) (Z.of_nat k * C) C = c.
Proof.
  induction cs as [|c0 cs IH]; intros k c Hall Hk; [by rewrite lookup_nil in Hk|]. apply Forall_cons in Hall as [H0 Hall].
  change (mjoin (c0 :: cs)) with (c0 ++ mjoin cs). destruct k as [|k]; cbn in Hk.
  - injection Hk as ->. unfold range. rewrite Z.mul_0_l, drop_0. apply take_app_length'. lia.
  - rewrite Nat2Z.inj_succ, <- Z.add_1_r, range_shift by lia. by apply IH.
Qed.

(** A file that has every piece at its place has them all, one after the other. *)
Lemma pieces_make (cs : list (list Z)) : forall f : list Z, Forall (fun c => zlen c = C) cs ->
  (forall k c, cs !! k = Some c -> range f (Z.of_nat k * C) C = c) -> range f 0 (zlen cs * C) = mjoin cs.
Proof.
  induction cs as [|c cs IH]; intros f Hall Hf; [by unfold range|]. apply Forall_cons in Hall as [Hc Hall].
  pose proof (Hf 0%nat c eq_refl) as H0. rewrite Z.mul_0_l in H0. unfold range in H0. rewrite drop_0 in H0.
  change (mjoin (c :: cs)) with (c ++ mjoin cs).
  assert (zlen (c :: cs) * C = C + zlen cs * C) as -> by (cbn [length]; lia).
  unfold range. rewrite drop_0, Z2Nat.inj_add, <- take_take_drop, H0 by lia. f_equal.
  rewrite <- (IH (drop (Z.to_nat C) f) Hall); [unfold range; by rewrite drop_0|].
  intros k c' Hk. rewrite <- (Hf (S k) c' Hk). unfold range. rewrite drop_drop. do 2 f_equal. lia.
Qed.
End Whole.

(** ** The owner of a file *)

(** Its list of chunks is [text], and the file behind the list is [F]. *)
Record owns `{Env} (w : World) (F text : list Z) : Prop := {
  ow_list : exists l, list_wf l /\ parse_chunk l (Some text) = Some (0, haschunks (psvr w));
  ow_map : forall n k, 0 <= k -> (k + 1) * BT_CHUNK_SIZE <= zlen F ->
    mmap n (k * BT_CHUNK_SIZE) = Some (range F (k * BT_CHUNK_SIZE) BT_CHUNK_SIZE) }.

(** A file of [n] chunks that have different hashes. *)
Record chunked (F : list Z) (n : Z) : Prop := {
  ck_len : zlen F = n * BT_CHUNK_SIZE;
  ck_count : 1 <= n <= HASH_NUM_PKT;
  ck_apart : forall k1 k2, 0 <= k1 < n -> 0 <= k2 < n ->
    sha1_spec (range F (k1 * BT_CHUNK_SIZE) BT_CHUNK_SIZE) = sha1_spec (range F (k2 * BT_CHUNK_SIZE) BT_CHUNK_SIZE) -> k1 = k2 }.

Lemma chunked_pieces F n cs : chunked F n -> pieces F cs -> zlen cs = n /\ Forall (fun c => zlen c = BT_CHUNK_SIZE) cs.
Proof.
  intros [Hlen Hn _] [Hcat Hcs]. pose proof (pieces_number BT_CHUNK_SIZE cs eq_refl Hcs) as Ecs.
  rewrite Hcat, Hlen, Z.add_comm, Z.div_add in Ecs by done. change ((BT_CHUNK_SIZE - 1) / BT_CHUNK_SIZE) with 0 in Ecs.
  split; [lia|]. apply (full_pieces BT_CHUNK_SIZE).
  - apply Forall_lookup. intros i c Hi. destruct (Hcs i c Hi) as [? _]. lia.
  - rewrite Hcat, Hlen. f_equal. lia.
Qed.

Lemma chunked_once F n cs : chunked F n -> pieces F cs -> NoDup (hexstring <$> (sha1_spec <$> cs)).
Proof.
  intros Hf Hp. destruct (chunked_pieces _ _ _ Hf Hp) as [Hn Hall]. destruct Hf as [_ _ Hapart]. destruct Hp as [Hcat _].
  apply NoDup_alt. intros i j t Hi Hj. rewrite !list_lookup_fmap in Hi, Hj.
  apply fmap_Some in Hi as (h1 & (c1 & Hi & ->)%fmap_Some & ->), Hj as (h2 & (c2 & Hj & ->)%fmap_Some & E).
  apply hexstring_inj in E; [|apply sha1_spec_bytes|apply sha1_spec_bytes|by rewrite !sha1_spec_length].
  pose proof (lookup_lt_Some _ _ _ Hi). pose proof (lookup_lt_Some _ _ _ Hj).
  enough (Z.of_nat i = Z.of_nat j) by lia. apply Hapart; [lia|lia|]. rewrite <- Hcat.
  by rewrite (piece_range BT_CHUNK_SIZE eq_refl cs i c1), (piece_range BT_CHUNK_SIZE eq_refl cs j c2).
Qed.

(** The texts of a printed list. *)
Lemma printed_text hs l k c : Forall good_hash hs -> 0 <= k < zlen hs -> zget (chunks (printed hs l)) k = Some c ->
  exists h, hs !! Z.to_nat k = Some h /\ line_text c = hexstring h /\ cl_id c = k.
Proof.
  intros Hg Hk Hc. destruct (printed_line_inv _ _ _ _ Hk Hc) as (h & Hh & ->). exists h. split; [done|]. split; [|done].
  rewrite Forall_lookup in Hg. apply read_line_text, (Hg _ _ Hh).
Qed.

Lemma printed_texts hs l : Forall good_hash hs -> texts (printed hs l) = hexstring <$> hs.
Proof.
  intros Hg. unfold texts, range. rewrite drop_0. cbn [cl_count chunks printed]. rewrite Nat2Z.id, take_app_length' by (by rewrite length_imap).
  apply list_eq. intros k. rewrite !list_lookup_fmap, list_lookup_imap. destruct (hs !! k) as [h|] eqn:E; [|done]. simpl. f_equal.
  rewrite Forall_lookup in Hg. apply read_line_text, (Hg _ _ E).
Qed.

Section Owner.
Context (E : Env) (F : list Z) (cs : list (list Z)) (n : Z) (l : ChunkList) (Hf : chunked F n) (Hp : pieces F cs).
Context (Hmap : forall m k, 0 <= k -> (k + 1) * BT_CHUNK_SIZE <= zlen F ->
  @mmap E m (k * BT_CHUNK_SIZE) = Some (range F (k * BT_CHUNK_SIZE) BT_CHUNK_SIZE)).

Lemma hashes_good : Forall good_hash (sha1_spec <$> cs).
Proof. apply Forall_fmap, Forall_true. intros. apply sha1_good. Qed.

(** The bytes of the file behind the line of a piece. *)
Lemma piece_mapped m k c line : cs !! k = Some c -> cl_id line = Z.of_nat k -> @mmap E m (place_of line) = Some c.
Proof.
  intros Hk Eid. destruct (chunked_pieces _ _ _ Hf Hp) as [Hn Hall]. pose proof (lookup_lt_Some _ _ _ Hk).
  destruct Hf as [Hlen Hcount _]. destruct Hp as [Hcat _]. change HASH_NUM_PKT with 74 in Hcount.
  unfold place_of. rewrite Eid.
  rewrite Hmap by nia. f_equal. rewrite <- Hcat. by apply (piece_range BT_CHUNK_SIZE).
Qed.

(** The chunk that the owner has for a line is the piece of the file. *)
Lemma owner_piece k h d : cs !! k = Some h -> holds_chunk E (printed (sha1_spec <$> cs) l) (hexstring (sha1_spec h)) d -> d = h.
Proof.
  intros Hk (k' & line & (Hk' & Hl & Ht & _) & _ & _ & Hd). pose proof (chunked_once _ _ _ Hf Hp) as Hnd.
  destruct (printed_text _ _ _ _ hashes_good Hk' Hl) as (h' & Hh' & Et & Eid). change (0 <= k' < zlen (sha1_spec <$> cs)) in Hk'.
  assert (Z.to_nat k' = k) as Ek.
  { eapply NoDup_lookup; [exact Hnd| |]; rewrite list_lookup_fmap.
    - rewrite Hh'. simpl. by rewrite <- Et, Ht.
    - by rewrite list_lookup_fmap, Hk. }
  assert (Some d = Some h) as [= ->]; [|done]. rewrite <- (Hd 0%nat). apply (piece_mapped _ k); [done|lia].
Qed.

Lemma owner_source k h : cs !! k = Some h -> holds_chunk E (printed (sha1_spec <$> cs) l) (hexstring (sha1_spec h)) h.
Proof.
  intros Hk. pose proof (chunked_once _ _ _ Hf Hp) as Hnd. pose proof (lookup_lt_Some _ _ _ Hk) as Hlt.
  destruct (chunked_pieces _ _ _ Hf Hp) as [_ Hall]. assert ((sha1_spec <$> cs) !! k = Some (sha1_spec h)) as Hh by (by rewrite list_lookup_fmap, Hk).
  exists (Z.of_nat k), (read_line (Z.of_nat k) (sha1_spec h)). split; [split_and!|split_and!].
  - lia.
  - cbn [cl_count printed]. rewrite length_fmap. lia.
  - by apply printed_line.
  - apply read_line_text, sha1_spec_bytes.
  - intros j c Hj Hc E1. destruct (printed_text _ l j c hashes_good) as (h' & Hh' & Et & _); [rewrite length_fmap; lia|done|].
    assert (Z.to_nat j = k); [|lia]. eapply NoDup_lookup; [exact Hnd| |]; rewrite list_lookup_fmap.
    + rewrite Hh'. simpl. by rewrite <- Et, E1.
    + by rewrite Hh.
  - rewrite Forall_lookup in Hall. by eapply Hall.
  - done.
  - intros m. by apply (piece_mapped m k).
Qed.
End Owner.

(** ** Properties *)

(** C2: a file is copied: make-chunks lists its chunks, its owner serves them, and the user
    of another server gets the list. Some run of deliveries between the two servers ends
    with the list reported as got and an output file that, whatever it held before, starts
    with the bytes of the original. *)
Theorem file_copied (EA EB : Env) (a_addr b_addr : sockaddr_in) (i j n : Z) (wa wb : World) (cf outf original text junk ascii : list Z)
    (malloc : nat -> bool) :
  length junk = 64%nat -> zlen ascii = SHA1_BUF_SIZE -> (forall m, malloc m = true) ->
  make_chunks_main 2 (Some original) (Some (zlen original)) malloc junk ascii = Some (0, text) -> chunked original n ->
  @server_inv EA (psvr wa) -> idle (psvr wa) -> 0 ∈ cf -> 0 ∈ outf -> zlen (cstr cf) < BT_FILENAME_LEN ->
  zlen (cstr outf) < BT_FILENAME_LEN -> @ready_to_get EA wa i b_addr -> @ready_to_serve EB wb j a_addr -> @owns EB wb original text ->
  exists w1 n' evs, @process_get EA cf outf (Some text) wa = Some (tt, w1) /\
    rtc (delivery EA EB a_addr b_addr) {| host_a := w1; host_b := wb |} n' /\
    loud_of (out (host_a n')) = loud_of (out w1) ++ evs /\ EvGot (cstr cf) ∈ evs /\
    forall f0, range (replay (cstr outf) f0 evs) 0 (zlen original) = original.
Proof.
  intros Hj Ha Hm Hmain Hf Hs Hi Hcf Hof Hlc Hlo Hget Hserve [(l & Hl & Hlist) Hmap].
  pose proof Hf as [Hlen Hcount _]. change HASH_NUM_PKT with 74 in Hcount.
  assert (0 <= zlen original <= INT_MAX * BT_CHUNK_SIZE) as Hsize.
  { rewrite Hlen. change INT_MAX with 2147483647. change BT_CHUNK_SIZE with 524288. lia. }
  destruct (make_chunks_main_run original (zlen original) malloc junk ascii Hj Ha Hm Hsize) as (cs & Hp & E).
  rewrite E in Hmain. destruct (_ >? _); [done|]. injection Hmain as <-.
  destruct (chunked_pieces _ _ _ Hf Hp) as [Hn Hall]. pose proof (hashes_good cs) as Hg.
  assert (zlen (sha1_spec <$> cs) = n) as Hhn by (by rewrite length_fmap). set (hs := sha1_spec <$> cs) in *.
  assert (zlen hs <= MAX_CHUNK_NUM) as Hmax by (change MAX_CHUNK_NUM with 4096; lia).
  rewrite (printed_read hs l Hg Hmax Hl) in Hlist. injection Hlist as Ehas.
  destruct (list_fetched EA EB a_addr b_addr i j wa wb cf outf (make_chunks_output hs) (printed hs (getchunks (psvr wa))))
    as (w1 & n' & evs & E1 & Hr & _ & Elog & Hgot & Hfile).
  { split; [|by apply printed_places| |rewrite printed_texts by done; by eapply chunked_once|done].
    - split; [done|done|done|by apply make_chunks_file_fits|]. by apply printed_read, list_ok_wf, (sm_get _ (si_mem _ Hs)).
    - change (cl_count (printed hs _)) with (zlen hs). change HASH_NUM_PKT with 74. lia. }
  { split; [done|]. rewrite printed_texts, <- Ehas by done. apply Forall_fmap, Forall_fmap, Forall_lookup. intros k c Hk.
    exists c. by eapply owner_source. }
  exists w1, n', evs. split_and!; [done|done|done|done|]. intros f0. rewrite <- Ehas in Hfile.
  rewrite Hlen, <- Hn, (pieces_make BT_CHUNK_SIZE eq_refl cs); [apply Hp|done|]. intros k c Hk.
  pose proof (lookup_lt_Some _ _ _ Hk). assert (hs !! k = Some (sha1_spec c)) as Hh by (unfold hs; by rewrite list_lookup_fmap, Hk).
  pose proof (printed_line _ (getchunks (psvr wa)) _ _ Hh) as Hline.
  specialize (Hfile f0 (Z.of_nat k) _ ltac:(change (cl_count (printed hs _)) with (zlen hs); lia) Hline).
  rewrite read_line_text in Hfile by apply sha1_spec_bytes. cbn [cl_id read_line] in Hfile.
  by eapply owner_piece.
Qed.

(** *** Examples *)

(** A file of one chunk of zeros. *)
Lemma zero_range : range zero_chunk 0 BT_CHUNK_SIZE = zero_chunk.
Proof. unfold range. rewrite drop_0. apply take_ge. pose proof zero_chunk_length. lia. Qed.

Lemma zero_chunked : chunked zero_chunk 1.
Proof. split; [rewrite zero_chunk_length; lia|split; discriminate|lia]. Qed.

Lemma zero_listed : make_chunks_main 2 (Some zero_chunk) (Some (zlen zero_chunk)) (fun _ => true) (replicate 64 0) (replicate 41 0) =
  Some (0, make_chunks_output [sha1_spec zero_chunk]).
Proof.
  destruct (make_chunks_main_run zero_chunk (zlen zero_chunk) (fun _ => true) (replicate 64 0) (replicate 41 0)) as (cs & Hp & E);
    [reflexivity|reflexivity|reflexivity|rewrite zero_chunk_length; split; discriminate|].
  destruct (chunked_pieces _ _ _ zero_chunked Hp) as [Hn _]. destruct Hp as [Hcat _].
  destruct cs as [|c [|]]; [discriminate|change (c ++ [] = zero_chunk) in Hcat; rewrite app_nil_r in Hcat|simpl in Hn; lia].
  rewrite E, Hcat, zero_chunk_length. reflexivity.
Qed.

Lemma holding_owns h : good_hash h -> @owns sample_env (holding h) zero_chunk (make_chunks_output [h]).
Proof.
  intros Hh. split.
  - exists zero_list. split; [apply zero_list_wf|]. change (haschunks (psvr (holding h))) with (printed [h] zero_list).
    apply printed_read; [by apply Forall_singleton|by vm_compute|apply zero_list_wf].
  - intros m k Hk Hle. rewrite zero_chunk_length in Hle. change BT_CHUNK_SIZE with 524288 in Hle. assert (k = 0) as -> by lia. rewrite Z.mul_0_l, zero_range. reflexivity.
Qed.

Lemma file_copied_witness :
  exists w1 n' evs, @process_get sample_env [103; 0] [111; 0] (Some (make_chunks_output [sha1_spec zero_chunk])) one_get = Some (tt, w1) /\
    rtc (delivery sample_env sample_env (addr sample_peer) (addr sample_peer))
      {| host_a := w1; host_b := holding (sha1_spec zero_chunk) |} n' /\
    loud_of (out (host_a n')) = loud_of (out w1) ++ evs /\ EvGot (cstr [103; 0]) ∈ evs /\
    forall f0, range (replay (cstr [111; 0]) f0 evs) 0 (zlen zero_chunk) = zero_chunk.
Proof.
  apply (file_copied sample_env sample_env (addr sample_peer) (addr sample_peer) 0 0 1 one_get (holding (sha1_spec zero_chunk))
    [103; 0] [111; 0] zero_chunk (make_chunks_output [sha1_spec zero_chunk]) (replicate 64 0) (replicate 41 0) (fun _ => true)).
  - reflexivity.
  - reflexivity.
  - reflexivity.
  - exact zero_listed.
  - exact zero_chunked.
  - exact sample_idle_inv.
  - repeat constructor.
  - right. left.
  - right. left.
  - reflexivity.
  - reflexivity.
  - exact sample_ready_to_get.
  - exact (holding_ready _ zero_chunk_hash).
  - exact (holding_owns _ zero_chunk_hash).
Defined.
