(* ===== verification/ShaBuilds.v ===== *)
(** * ShaBuilds: every build of the SHA-1 implementation (sha.c)

    sha.c can be compiled in many ways: [SHA1_UNROLL] is 1, 2, 4, 5, 10 or 20,
    [SHA1_FAST_COPY] hashes whole blocks where they lie in the caller's memory, and the byte
    order of the machine is given by [WORDS_BIGENDIAN] or found when the program runs
    ([RUNTIME_ENDIAN]). [Sha] models the build of the Makefile; here the build is a record,
    the byte order of the machine a boolean, and the code is translated with its [#if]s.

    Every build that fits its machine computes SHA-1, stated as in FIPS 180: big-endian words,
    the functions Ch, Parity and Maj, and eighty rounds. *)

From S2P Require Import Prelude Sha Chunk.

(** ** The code *)

Record Build := { runtime_endian : bool; words_bigendian : bool; fast_copy : bool; SHA1_UNROLL : Z }.

(** The context with the field that [RUNTIME_ENDIAN] adds. *)
Record BuildContext := { base : SHA1Context; littleEndian : Z }.
#[export] Instance BuildContext_settable : Settable BuildContext := fun c => Build_BuildContext (base c) (littleEndian c).

(** A chain of [n] rounds; [W] walks along the schedule, which is not read past its end. *)
Fixpoint do_rounds (n : nat) (F : Z -> Z -> Z -> Z) (K : Z) (s : list Z * Regs) : option (list Z * Regs) :=
  match n with
  | O => Some s
  | S n' =>
    match fst s with
    | [] => None
    | w :: W => do_rounds n' F K (W, DO_ROUND F K (snd s) w)
    end
  end.

(** [for (i = m - 1; i >= 0; i--)] with [n] rounds in its body. *)
Fixpoint round_loop (m n : nat) (F : Z -> Z -> Z -> Z) (K : Z) (s : list Z * Regs) : option (list Z * Regs) :=
  match m with
  | O => Some s
  | S m' => s ← do_rounds n F K s; round_loop m' n F K s
  end.

Definition four_loops (m n : nat) (W : list Z) (r : Regs) : option Regs :=
  s ← round_loop m n F_0_19 K_0_19 (W, r);
  s ← round_loop m n F_20_39 K_20_39 s;
  s ← round_loop m n F_40_59 K_40_59 s;
  s ← round_loop m n F_60_79 K_60_79 s;
  Some (snd s).

(** 20 is written without a loop. Any other number is refused by the compiler. *)
Definition unrolled_rounds (u : Z) (W : list Z) (r : Regs) : option Regs :=
  if u =? 1 then four_loops 20 1 W r
  else if u =? 2 then four_loops 10 2 W r
  else if u =? 4 then four_loops 5 4 W r
  else if u =? 5 then four_loops 4 5 W r
  else if u =? 10 then four_loops 2 10 W r
  else if u =? 20 then four_loops 1 20 W r
  else None.

Section Code.
(** [big]: the byte order of the machine. *)
Context (b : Build) (big : bool).

(** Memory of the machine: the word at some bytes, the bytes of a word. *)
Definition load_w (bs : list Z) : Z := if big then load_le (reverse bs) else load_le bs.
Definition store_w (n : nat) (z : Z) : list Z := if big then store_be n z else store_le n z.

Definition setEndian : Z := if nth 0 (store_w 4 1) 0 =? 0 then 0 else 1.

Definition __byteswap64 (x : Z) : Z :=
  let a := u32 (Z.shiftr x 32) in
  let b := u32 x in
  Z.lor (Z.shiftl (BYTESWAP b) 32) (BYTESWAP a).
Definition _byteswap (littleEndian x : Z) : Z := if littleEndian =? 0 then x else BYTESWAP x.
Definition _byteswap64 (littleEndian x : Z) : Z := if littleEndian =? 0 then x else __byteswap64 x.

(** The macros [BYTESWAP] and [BYTESWAP64] of the build. *)
Definition SWAP (c : BuildContext) (x : Z) : Z :=
  if runtime_endian b then _byteswap (littleEndian c) x
  else if words_bigendian b then x else BYTESWAP x.
Definition SWAP64 (c : BuildContext) (x : Z) : Z :=
  if runtime_endian b then _byteswap64 (littleEndian c) x
  else if words_bigendian b then x else BYTESWAP64 x.

(** Without [RUNTIME_ENDIAN] there is no field [littleEndian]: nothing reads it. *)
Definition SHA1Init (junk : list Z) : BuildContext :=
  {| base := Sha.SHA1Init junk; littleEndian := if runtime_endian b then setEndian else 0 |}.

Definition SHA1Guts (c : BuildContext) (cbuf : list Z) : option BuildContext :=
  let h := hash (base c) in
  let W := schedule 64 (SWAP c <$> (load_w <$> reshape (replicate (length cbuf / 4) 4%nat) cbuf)) in
  let at_ i := nth i h 0 in
  r ← unrolled_rounds (SHA1_UNROLL b) W
        {| ra := at_ 0%nat; rb := at_ 1%nat; rc := at_ 2%nat; rd := at_ 3%nat; re := at_ 4%nat |};
  Some (c .{ base := (base c) .{ hash :=
    [u32 (at_ 0%nat + ra r); u32 (at_ 1%nat + rb r); u32 (at_ 2%nat + rc r);
     u32 (at_ 3%nat + rd r); u32 (at_ 4%nat + re r)] } }).

(** Bytes copied to the buffer, as far as it has place; a full buffer is hashed. The body of
    the loop, and the first part of the fast copy. The data left is returned. *)
Definition fill_buffer (c : BuildContext) (data : list Z) : option (BuildContext * list Z) :=
  let sc := base c in
  let bufferBytesLeft := u32 (64 - bufferLength sc) in
  let bytesToCopy := if bufferBytesLeft >? zlen data then zlen data else bufferBytesLeft in
  bs ← zwrite (buffer_bytes sc) (bufferLength sc) (take (Z.to_nat bytesToCopy) data);
  let sc := sc .{ buffer_bytes := bs }
               .{ totalLength := u64 (totalLength sc + bytesToCopy * 8) }
               .{ bufferLength := u32 (bufferLength sc + bytesToCopy) } in
  let c := c .{ base := sc } in
  c ← (if bufferLength sc =? 64 then
         c ← SHA1Guts c (buffer_bytes sc);
         Some (c .{ base := (base c) .{ bufferLength := 0 } })
       else Some c);
  Some (c, drop (Z.to_nat bytesToCopy) data).

(** [while (len)]. *)
Fixpoint slow_copy (fuel : nat) (c : BuildContext) (data : list Z) : option BuildContext :=
  if zlen data =? 0 then Some c else
  match fuel with
  | O => None
  | S fuel' => r ← fill_buffer c data; slow_copy fuel' (fst r) (snd r)
  end.

(** [while (len > 63)]: the blocks are hashed where they are. *)
Fixpoint whole_blocks (fuel : nat) (c : BuildContext) (data : list Z) : option (BuildContext * list Z) :=
  if negb (zlen data >? 63) then Some (c, data) else
  match fuel with
  | O => None
  | S fuel' =>
    let c := c .{ base := (base c) .{ totalLength := u64 (totalLength (base c) + 512) } } in
    c ← SHA1Guts c (take 64 data);
    whole_blocks fuel' c (drop 64 data)
  end.

(** [if (len)]: what is left is kept. *)
Definition keep_rest (c : BuildContext) (data : list Z) : option BuildContext :=
  if zlen data =? 0 then Some c else
  let sc := base c in
  bs ← zwrite (buffer_bytes sc) (bufferLength sc) data;
  Some (c .{ base := sc .{ buffer_bytes := bs } .{ totalLength := u64 (totalLength sc + zlen data * 8) }
                        .{ bufferLength := u32 (bufferLength sc + zlen data) } }).

Definition fast_update (c : BuildContext) (data : list Z) : option BuildContext :=
  r ← (if bufferLength (base c) =? 0 then Some (c, data) else fill_buffer c data);
  r ← whole_blocks (length (snd r)) (fst r) (snd r);
  keep_rest (fst r) (snd r).

Definition SHA1Update (c : BuildContext) (vdata : list Z) (len : Z) : option BuildContext :=
  data ← zread vdata 0 (u32 len);
  if fast_copy b then fast_update c data else slow_copy (length data) c data.

(** A word of the result, in [hash]. *)
Definition hash_word (c : BuildContext) (w : Z) : list Z :=
  if fast_copy b then store_w 4 (SWAP c w)
  else [u8 (Z.shiftr w 24); u8 (Z.shiftr w 16); u8 (Z.shiftr w 8); u8 w].

Definition SHA1Final (c : BuildContext) : option (list Z) :=
  let bytesToPad := u32 (120 - bufferLength (base c)) in
  let bytesToPad := if bytesToPad >? 64 then u32 (bytesToPad - 64) else bytesToPad in
  let lengthPad := SWAP64 c (totalLength (base c)) in
  c ← SHA1Update c padding bytesToPad;
  c ← SHA1Update c (store_w 8 lengthPad) 8;
  Some (mjoin (hash_word c <$> hash (base c))).

(** A message in pieces, as the callers absorb it. *)
Fixpoint absorb (c : BuildContext) (pieces : list (list Z)) : option BuildContext :=
  match pieces with
  | [] => Some c
  | p :: ps => c ← SHA1Update c p (zlen p); absorb c ps
  end.
End Code.

(** The stack that one call clears: 128 bytes, and those of the call it makes. [size] is an
    [int]; every call but the last is for at least 129 bytes, which bounds their number. *)
Fixpoint burnStack_loop (fuel : nat) (size : Z) : option Z :=
  let size := s32 (u64 (size - 128)) in
  if size >? 0 then
    match fuel with
    | O => None
    | S fuel' => n ← burnStack_loop fuel' size; Some (128 + n)
    end
  else Some 128.
Definition burnStack (size : Z) : option Z := burnStack_loop (Z.to_nat (size / 128)) size.

(** [sizeof (uint32_t[86]) + sizeof (uint32_t *[5]) + sizeof (int)]. *)
Definition burn_size : Z := 4 * 86 + 8 * 5 + 4.

(** ** SHA-1 of the standard *)

Definition Ch (x y z : Z) : Z := Z.lxor (Z.land x y) (Z.land (Z.lxor x (2 ^ 32 - 1)) z).
Definition Parity (x y z : Z) : Z := Z.lxor (Z.lxor x y) z.
Definition Maj (x y z : Z) : Z := Z.lxor (Z.lxor (Z.land x y) (Z.land x z)) (Z.land y z).

Definition fips_f (t : nat) : Z -> Z -> Z -> Z :=
  if (t <? 20)%nat then Ch else if (t <? 40)%nat then Parity else if (t <? 60)%nat then Maj else Parity.
Definition fips_K (t : nat) : Z :=
  if (t <? 20)%nat then 0x5a827999 else if (t <? 40)%nat then 0x6ed9eba1
  else if (t <? 60)%nat then 0x8f1bbcdc else 0xca62c1d6.

(** The message schedule: sixteen big-endian words, then the recurrence, for which see
    [schedule_recurrence]. *)
Definition load_be (bs : list Z) : Z := load_le (reverse bs).
Definition fips_W (block : list Z) : list Z := schedule 64 (load_be <$> reshape (replicate 16 4%nat) block).

Definition fips_round (W : list Z) (r : Regs) (t : nat) : Regs :=
  let T := u32 (ROTL (ra r) 5 + fips_f t (rb r) (rc r) (rd r) + re r + fips_K t + nth t W 0) in
  {| re := rd r; rd := rc r; rc := ROTL (rb r) 30; rb := ra r; ra := T |}.

Definition fips_block (H block : list Z) : list Z :=
  let at_ i := nth i H 0 in
  let r := foldl (fips_round (fips_W block))
             {| ra := at_ 0%nat; rb := at_ 1%nat; rc := at_ 2%nat; rd := at_ 3%nat; re := at_ 4%nat |} (List.seq 0 80) in
  [u32 (at_ 0%nat + ra r); u32 (at_ 1%nat + rb r); u32 (at_ 2%nat + rc r);
   u32 (at_ 3%nat + rd r); u32 (at_ 4%nat + re r)].

Definition fips_iv : list Z := [0x67452301; 0xefcdab89; 0x98badcfe; 0x10325476; 0xc3d2e1f0].
Definition fips_sha1 (m : list Z) : list Z :=
  mjoin (store_be 4 <$> foldl fips_block fips_iv (blocks (sha1_pad m))).

(** ** The rounds *)

Lemma schedule_length n : forall W, length (schedule n W) = (n + length W)%nat.
Proof. induction n as [|n IH]; intros W; cbn [schedule]; [done|]. rewrite IH, length_app. simpl. lia. Qed.

Lemma schedule_prefix n : forall W i, (i < length W)%nat -> nth i (schedule n W) 0 = nth i W 0.
Proof.
  induction n as [|n IH]; intros W i Hi; cbn [schedule]; [done|].
  rewrite IH by (rewrite length_app; simpl; lia). by rewrite app_nth1.
Qed.

Lemma schedule_recurrence n : forall W t, (16 <= length W)%nat -> (length W <= t < n + length W)%nat ->
  let at_ i := nth i (schedule n W) 0 in
  at_ t = ROTL (Z.lxor (Z.lxor (Z.lxor (at_ (t - 3)%nat) (at_ (t - 8)%nat)) (at_ (t - 14)%nat)) (at_ (t - 16)%nat)) 1.
Proof.
  induction n as [|n IH]; intros W t HW Ht; [lia|]. cbn [schedule].
  set (x := ROTL _ 1). destruct (decide (t = length W)) as [->|Ht'].
  - cbv zeta. rewrite !(schedule_prefix n (W ++ [x])) by (rewrite length_app; simpl; lia).
    rewrite app_nth2, Nat.sub_diag by lia. cbn [nth]. rewrite !app_nth1 by lia. done.
  - apply IH; rewrite length_app; simpl; lia.
Qed.

Definition is_word (x : Z) : Prop := 0 <= x < 2 ^ 32.
Definition regs_ok (r : Regs) : Prop := is_word (ra r) /\ is_word (rb r) /\ is_word (rc r) /\ is_word (rd r) /\ is_word (re r).

Lemma word_high x n : is_word x -> 32 <= n -> Z.testbit x n = false.
Proof. intros [H0 H] Hn. rewrite <- (Z.mod_small x (2 ^ 32)) by lia. by apply Z.mod_pow2_bits_high. Qed.

Lemma lor_word x y : is_word x -> is_word y -> is_word (Z.lor x y).
Proof.
  intros Hx Hy. assert (Z.lor x y = Z.lor x y mod 2 ^ 32) as E.
  { apply Z.bits_inj'. intros n Hn. destruct (Z.ltb_spec n 32); [by rewrite Z.mod_pow2_bits_low by lia|].
    rewrite Z.mod_pow2_bits_high, Z.lor_spec by lia. by rewrite (word_high x), (word_high y). }
  unfold is_word. rewrite E. by apply Z.mod_pos_bound.
Qed.

Lemma ROTL_word x n : is_word x -> 0 <= n <= 32 -> is_word (ROTL x n).
Proof.
  intros [H0 Hx] Hn. apply lor_word; [apply u32_range|]. unfold is_word. rewrite Z.shiftr_div_pow2 by lia.
  pose proof (Z.pow_pos_nonneg 2 (32 - n)). split; [apply Z.div_pos; lia|]. apply Z.div_lt_upper_bound; nia.
Qed.

Lemma Ch_spec x y z : is_word x -> is_word y -> is_word z -> F_0_19 x y z = Ch x y z.
Proof.
  intros Hx Hy Hz. apply Z.bits_inj'. intros n Hn. unfold F_0_19, Ch.
  rewrite !Z.lxor_spec, !Z.land_spec, !Z.lxor_spec. destruct (Z.ltb_spec n 32) as [H|H].
  - change (2 ^ 32 - 1) with (Z.ones 32). rewrite Z.ones_spec_low by lia. by destruct (Z.testbit x n), (Z.testbit y n), (Z.testbit z n).
  - by rewrite (word_high x), (word_high y), (word_high z), !andb_false_r by done.
Qed.

Lemma Maj_spec x y z : F_40_59 x y z = Maj x y z.
Proof.
  apply Z.bits_inj'. intros n Hn. unfold F_40_59, Maj. rewrite Z.lor_spec, !Z.lxor_spec, !Z.land_spec, Z.lor_spec.
  by destruct (Z.testbit x n), (Z.testbit y n), (Z.testbit z n).
Qed.

(** A round of the code is a round of the standard. *)
Lemma round_spec F K W r t :
  regs_ok r -> fips_K t = K -> (forall x y z, is_word x -> is_word y -> is_word z -> F x y z = fips_f t x y z) ->
  DO_ROUND F K r (nth t W 0) = fips_round W r t /\ regs_ok (fips_round W r t).
Proof.
  intros (Ha & Hb & Hc & Hd & He) HK HF. split.
  - unfold DO_ROUND, fips_round. rewrite HF, HK by done. f_equal. unfold u32. rewrite Z.add_mod_idemp_l by lia. f_equal. lia.
  - unfold fips_round, regs_ok. cbn [ra rb rc rd re]. split_and!; try done; [apply u32_range|apply ROTL_word; [done|lia]].
Qed.

Lemma foldl_agree {A B} (P : A -> Prop) (f g : A -> B -> A) l : forall a, P a ->
  (forall a x, x ∈ l -> P a -> f a x = g a x /\ P (g a x)) -> foldl f a l = foldl g a l /\ P (foldl g a l).
Proof.
  induction l as [|x l IH]; intros a Ha H; cbn [foldl]; [done|].
  destruct (H a x) as [-> Hp]; [by left|done|]. apply IH; [done|]. intros. apply H; [by right|done].
Qed.

Lemma take_drop_nth n : forall k (W : list Z), (k + n <= length W)%nat -> take n (drop k W) = (fun t => nth t W 0) <$> List.seq k n.
Proof.
  induction n as [|n IH]; intros k W Hk; [done|]. cbn [List.seq]. rewrite fmap_cons, <- IH by lia.
  destruct (lookup_lt_is_Some_2 W k) as [w Hw]; [lia|]. rewrite (drop_S _ _ _ Hw). cbn [take]. f_equal. by rewrite nth_lookup, Hw.
Qed.

(** Twenty rounds of the code, at a quarter [q] of the eighty. *)
Lemma quarter_spec F K W r q :
  (20 * q + 20 <= length W)%nat -> regs_ok r ->
  (forall t, (20 * q <= t < 20 * q + 20)%nat -> fips_K t = K /\
     forall x y z, is_word x -> is_word y -> is_word z -> F x y z = fips_f t x y z) ->
  foldl (DO_ROUND F K) r (take 20 (drop (20 * q) W)) = foldl (fips_round W) r (List.seq (20 * q) 20) /\
  regs_ok (foldl (fips_round W) r (List.seq (20 * q) 20)).
Proof.
  intros HW Hr H. rewrite take_drop_nth, foldl_fmap by done. apply (foldl_agree regs_ok); [done|].
  intros r' t Ht Hr'. apply elem_of_seq in Ht. destruct (H t Ht) as [HK HF]. by apply round_spec.
Qed.

Lemma quarter_range t q (b : bool) n : (20 * q <= t < 20 * q + 20)%nat -> b = (20 * q + 20 <=? n)%nat -> n = (n / 20 * 20)%nat -> (t <? n)%nat = b.
Proof.
  intros Ht -> Hn. destruct (Nat.leb_spec (20 * q + 20) n) as [H|H]; [apply Nat.ltb_lt; lia|].
  apply Nat.ltb_ge. assert (n / 20 < q + 1)%nat by (apply Nat.Div0.div_lt_upper_bound; lia). nia.
Qed.

Lemma rounds_fips W r : length W = 80%nat -> regs_ok r -> rounds W r = foldl (fips_round W) r (List.seq 0 80).
Proof.
  intros HW Hr. unfold rounds. change (List.seq 0 80) with (List.seq (20 * 0) 20 ++ List.seq (20 * 1) 20 ++ List.seq (20 * 2) 20 ++ List.seq (20 * 3) 20).
  rewrite !foldl_app.
  destruct (quarter_spec F_0_19 K_0_19 W r 0) as [-> H0]; [lia|done| |].
  { intros t Ht. unfold fips_K, fips_f. rewrite (quarter_range t 0 true 20) by done. split; [done|]. apply Ch_spec. }
  destruct (quarter_spec F_20_39 K_20_39 W _ 1 ltac:(lia) H0) as [-> H1].
  { intros t Ht. unfold fips_K, fips_f. by rewrite (quarter_range t 1 false 20), (quarter_range t 1 true 40). }
  destruct (quarter_spec F_40_59 K_40_59 W _ 2 ltac:(lia) H1) as [-> H2].
  { intros t Ht. unfold fips_K, fips_f. rewrite (quarter_range t 2 false 20), (quarter_range t 2 false 40), (quarter_range t 2 true 60) by done.
    split; [done|]. intros. apply Maj_spec. }
  destruct (quarter_spec F_60_79 K_60_79 W _ 3 ltac:(lia) H2) as [-> H3]; [|done].
  intros t Ht. unfold fips_K, fips_f. by rewrite (quarter_range t 3 false 20), (quarter_range t 3 false 40), (quarter_range t 3 false 60).
Qed.

Lemma do_rounds_spec n F K : forall W r, (n <= length W)%nat ->
  do_rounds n F K (W, r) = Some (drop n W, foldl (DO_ROUND F K) r (take n W)).
Proof.
  induction n as [|n IH]; intros W r Hn; [by rewrite drop_0|]. destruct W as [|w W]; [simpl in Hn; lia|].
  cbn [do_rounds fst snd]. rewrite IH by (simpl in Hn; lia). done.
Qed.

Lemma round_loop_spec n F K m : forall W r, (m * n <= length W)%nat ->
  round_loop m n F K (W, r) = Some (drop (m * n) W, foldl (DO_ROUND F K) r (take (m * n) W)).
Proof.
  induction m as [|m IH]; intros W r Hn; [by rewrite drop_0|]. cbn [round_loop].
  rewrite do_rounds_spec, option_bind_Some, IH by (rewrite ?length_drop; lia).
  change (S m * n)%nat with (n + m * n)%nat. by rewrite drop_drop, <- foldl_app, take_take_drop.
Qed.

(** However the rounds are grouped, they are the eighty. *)
Lemma four_loops_spec m n W r : (m * n = 20)%nat -> length W = 80%nat -> four_loops m n W r = Some (rounds W r).
Proof.
  intros Hmn HW. unfold four_loops.
  rewrite !round_loop_spec, !option_bind_Some, !round_loop_spec, !option_bind_Some, !round_loop_spec, !option_bind_Some,
    !round_loop_spec, !option_bind_Some by (rewrite ?length_drop; lia).
  rewrite Hmn, !drop_drop. done.
Qed.

Definition unrolls : list Z := [1; 2; 4; 5; 10; 20].

Lemma unrolled_rounds_spec u W r : u ∈ unrolls -> length W = 80%nat -> unrolled_rounds u W r = Some (rounds W r).
Proof.
  intros Hu HW. unfold unrolls in Hu. rewrite !elem_of_cons in Hu.
  destruct Hu as [->|[->|[->|[->|[->|[->|H]]]]]]; [..|by apply not_elem_of_nil in H]; by apply four_loops_spec.
Qed.

(** ** Byte order *)

Lemma BYTESWAP_bytes x : is_word x -> store_le 4 (BYTESWAP x) = reverse (store_le 4 x).
Proof.
  unfold is_word. intros Hx. apply list_eq. intros i. destruct (decide (i < 4)%nat) as [Hi|Hi]; last first.
  { rewrite !lookup_ge_None_2 by (rewrite ?length_reverse, store_le_length; lia). done. }
  rewrite reverse_lookup by (rewrite store_le_length; lia). rewrite store_le_length, !store_le_lookup by lia. f_equal.
  apply byte_ext; [lia..|]. intros j Hj. rewrite <- (BYTESWAP_testbit x (8 * Z.of_nat (4 - S i))) by lia. f_equal. lia.
Qed.

Lemma BYTESWAP_load bs : length bs = 4%nat -> Forall is_byte bs -> BYTESWAP (load_le bs) = load_be bs.
Proof.
  intros Hl Hb. pose proof (load_le_range bs Hb) as Hr. rewrite Hl in Hr. change (2 ^ (8 * Z.of_nat 4)) with (2 ^ 32) in Hr.
  pose proof (BYTESWAP_range _ Hr). unfold load_be.
  replace bs with (store_le 4 (load_le bs)) at 2 by (rewrite <- Hl; by apply store_load).
  by rewrite <- BYTESWAP_bytes, load_store_small.
Qed.

(** ** The builds *)

Section Proofs.
Context (b : Build) (big : bool).

(** The build fits the machine: a byte order fixed when it is compiled is the machine's, and
    the compiler accepts the number of rounds. *)
Record build_ok : Prop := {
  bo_endian : runtime_endian b = false -> words_bigendian b = big;
  bo_unroll : SHA1_UNROLL b ∈ unrolls;
}.
Context (Hb : build_ok).

(** What a context of the build stands for. *)
Definition swaps (c : BuildContext) : Prop :=
  (forall x, SWAP b c x = if big then x else BYTESWAP x) /\ (forall x, SWAP64 b c x = if big then x else BYTESWAP64 x).
Record holds (c : BuildContext) (m : list Z) : Prop := {
  ho_rep : ctx_rep (base c) m;
  ho_bytes : Forall is_byte (buffer_bytes (base c));
  ho_swaps : swaps c;
}.

Lemma init_holds junk : length junk = 64%nat -> Forall is_byte junk -> holds (SHA1Init b big junk) [].
Proof.
  intros Hl Hj. split; [by apply SHA1Init_rep|done|]. unfold swaps, SWAP, SWAP64, SHA1Init. cbn [littleEndian].
  destruct (runtime_endian b) eqn:Er; [|by rewrite (bo_endian Hb Er)].
  unfold setEndian, _byteswap, _byteswap64. destruct big; split; intros x; reflexivity.
Qed.

Lemma reshape_bytes (l : list Z) n : Forall is_byte l -> (4 * n <= length l)%nat ->
  Forall (fun w => length w = 4%nat /\ Forall is_byte w) (reshape (replicate n 4%nat) l).
Proof.
  revert l. induction n as [|n IH]; intros l Hl Hn; cbn [replicate reshape]; constructor.
  - rewrite length_take. split; [lia|by apply Forall_take].
  - apply IH; [by apply Forall_drop|rewrite length_drop; lia].
Qed.

(** The words of the schedule do not depend on the machine. *)
Lemma guts_words c cbuf : swaps c -> length cbuf = 64%nat -> Forall is_byte cbuf ->
  SWAP b c <$> (load_w big <$> reshape (replicate (length cbuf / 4) 4%nat) cbuf) = BYTESWAP <$> words_of cbuf.
Proof.
  intros [Hs _] Hl Hbs. unfold words_of. rewrite <- !list_fmap_compose. apply list_fmap_ext. intros i w Hw.
  pose proof (reshape_bytes cbuf (length cbuf / 4) Hbs) as HF. rewrite Hl in HF, Hw. specialize (HF ltac:(done)).
  rewrite Forall_lookup in HF. destruct (HF i w Hw) as [Hw4 Hwb]. unfold compose. rewrite Hs. unfold load_w.
  by destruct big; [rewrite BYTESWAP_load|].
Qed.

Lemma guts_spec c cbuf : swaps c -> length cbuf = 64%nat -> Forall is_byte cbuf ->
  SHA1Guts b big c cbuf = Some (c .{ base := (base c) .{ hash := Sha.SHA1Guts (hash (base c)) cbuf } }).
Proof.
  intros Hs Hl Hbs. unfold SHA1Guts. rewrite guts_words by done.
  rewrite unrolled_rounds_spec, option_bind_Some; [done|apply Hb|].
  rewrite schedule_length, length_fmap. unfold words_of. rewrite length_fmap, length_reshape, length_replicate, Hl. done.
Qed.

Lemma fill_buffer_holds c m data : holds c m -> Forall is_byte data ->
  exists c' n, fill_buffer b big c data = Some (c', drop n data) /\ holds c' (m ++ take n data) /\
    (data = [] \/ 0 < Z.of_nat n) /\ (bufferLength (base c') = 0 \/ drop n data = []).
Proof.
  intros [Hrep Hby Hs] Hd. pose proof Hrep as (whole & rest & Hm & _ & Hr & Hbuf & Hbl & _).
  unfold fill_buffer. rewrite (u32_small (64 - _)) by lia.
  set (n := if _ >? _ then _ else _).
  assert (0 <= n <= zlen data /\ n <= 64 - bufferLength (base c) /\ (n = zlen data \/ n = 64 - bufferLength (base c))) as (Hn & Hn64 & Hor).
  { unfold n. rewrite Z.gtb_ltb. destruct (Z.ltb_spec (zlen data) (64 - bufferLength (base c))); lia. }
  clearbody n. assert (zlen (take (Z.to_nat n) data) = n) as Htk by (rewrite length_take; lia).
  assert (data = [] \/ 0 < Z.of_nat (Z.to_nat n)) as Hpos by (destruct data; [by left|right; simpl in *; lia]).
  destruct (zwrite_is_Some (buffer_bytes (base c)) (bufferLength (base c)) (take (Z.to_nat n) data)) as [bs Hbs]; [lia..|].
  rewrite Hbs, option_bind_Some. pose proof (zwrite_length _ _ _ _ Hbs) as Hbsl.
  assert (bufferLength (base c) + zlen (take (Z.to_nat n) data) <= 64) as Hfit by lia.
  pose proof (absorb_rep _ _ _ _ Hrep Hfit Hbs) as Hstep. rewrite Htk in Hstep. cbv zeta in Hstep.
  assert (Forall is_byte bs) as Hbytes by (eapply zwrite_Forall; [exact Hbs|done|by apply Forall_take]).
  simpl in Hstep. simpl. revert Hstep. rewrite (u32_small (bufferLength (base c) + n)) by lia.
  destruct (Z.eqb_spec (bufferLength (base c) + n) 64) as [E|E]; intros Hstep.
  - rewrite guts_spec by (done || lia). rewrite !option_bind_Some. do 2 eexists. split; [reflexivity|].
    split; [by split|]. split; [done|by left].
  - rewrite option_bind_Some. do 2 eexists. split; [reflexivity|]. split; [by split|]. split; [done|right].
    apply drop_ge. lia.
Qed.

Lemma slow_copy_holds fuel : forall c m data, holds c m -> Forall is_byte data -> (length data <= fuel)%nat ->
  exists c', slow_copy b big fuel c data = Some c' /\ holds c' (m ++ data).
Proof.
  induction fuel as [|fuel IH]; intros c m data Hc Hd Hf; cbn [slow_copy].
  { destruct data; [|simpl in Hf; lia]. rewrite app_nil_r. eauto. }
  destruct (Z.eqb_spec (zlen data) 0) as [E|E].
  { destruct data; [|simpl in E; lia]. rewrite app_nil_r. eauto. }
  destruct (fill_buffer_holds c m data Hc Hd) as (c1 & n & -> & Hc1 & Hn & _). rewrite option_bind_Some. cbn [fst snd].
  destruct (IH c1 _ (drop n data) Hc1) as (c2 & -> & Hc2); [by apply Forall_drop| |].
  - rewrite length_drop. destruct Hn as [->|]; [done|lia].
  - exists c2. by rewrite <- app_assoc, take_drop in Hc2.
Qed.

(** A whole block, hashed where it lies. *)
Lemma block_rep sc m d : ctx_rep sc m -> bufferLength sc = 0 -> length d = 64%nat ->
  ctx_rep (sc .{ totalLength := u64 (totalLength sc + 512) } .{ hash := Sha.SHA1Guts (hash sc) d }) (m ++ d).
Proof.
  intros (whole & rest & -> & Hw & Hr & Hbuf & Hbl & _ & Hh & Ht) H0 Hd.
  destruct rest; [|simpl in *; lia].
  assert (length (whole ++ d) mod 64 = 0)%nat as Hmod by (rewrite length_app, Hd; exact (eq_trans (Nat.Div0.mod_add (length whole) 1 64) Hw)).
  exists (whole ++ d), []. rewrite !app_nil_r in *. split_and!; try done; simpl.
  - rewrite blocks_app, foldl_app, <- Hh, blocks_one by done. done.
  - rewrite Ht, u64_add_mul, length_app. f_equal. lia.
Qed.

Lemma whole_blocks_holds fuel : forall c m data, holds c m -> Forall is_byte data -> (length data <= fuel)%nat ->
  bufferLength (base c) = 0 \/ data = [] ->
  exists c' n, whole_blocks b big fuel c data = Some (c', drop n data) /\ holds c' (m ++ take n data) /\
    zlen (drop n data) < 64 /\ (bufferLength (base c') = 0 \/ drop n data = []).
Proof.
  induction fuel as [|fuel IH]; intros c m data Hc Hd Hf H0; cbn [whole_blocks].
  { destruct data; [|simpl in Hf; lia]. exists c, 0%nat. rewrite app_nil_r. split_and!; try done; by right. }
  rewrite Z.gtb_ltb. destruct (Z.ltb_spec 63 (zlen data)) as [E|E]; cbn [negb]; last first.
  { exists c, 0%nat. rewrite drop_0, app_nil_r. split_and!; try done; lia. }
  destruct H0 as [H0| ->]; [|simpl in E; lia]. destruct Hc as [Hrep Hby Hs].
  assert (length (take 64 data) = 64%nat) as Hl by (rewrite length_take; lia).
  rewrite guts_spec by (done || by apply Forall_take). rewrite option_bind_Some.
  pose proof (block_rep _ _ (take 64 data) Hrep H0 Hl) as Hstep. set (c1 := _ .{ base := _ }).
  destruct (IH c1 (m ++ take 64 data) (drop 64 data)) as (c2 & n & -> & Hc2 & Hlt & Hor);
    [by split|by apply Forall_drop|rewrite length_drop; lia|by left|].
  exists c2, (64 + n)%nat. rewrite <- drop_drop. split_and!; [done| |done|done].
  by rewrite <- take_take_drop, app_assoc.
Qed.

Lemma keep_rest_holds c m data : holds c m -> Forall is_byte data -> zlen data < 64 ->
  bufferLength (base c) = 0 \/ data = [] ->
  exists c', keep_rest c data = Some c' /\ holds c' (m ++ data).
Proof.
  intros Hc Hd Hlt H0. unfold keep_rest. destruct (Z.eqb_spec (zlen data) 0) as [E|E].
  { destruct data; [|simpl in E; lia]. rewrite app_nil_r. eauto. }
  destruct H0 as [H0| ->]; [|done]. destruct Hc as [Hrep Hby Hs].
  pose proof Hrep as (whole & rest & Hm & _ & Hr & Hbuf & Hbl & _).
  destruct (zwrite_is_Some (buffer_bytes (base c)) (bufferLength (base c)) data) as [bs Hbs]; [lia..|].
  rewrite Hbs, option_bind_Some. eexists. split; [reflexivity|].
  assert (bufferLength (base c) + zlen data <= 64) as Hfit by lia.
  pose proof (absorb_rep _ _ _ _ Hrep Hfit Hbs) as Hstep. cbv zeta in Hstep. simpl in Hstep.
  rewrite (u32_small (bufferLength (base c) + zlen data)) in Hstep by lia.
  destruct (Z.eqb_spec (bufferLength (base c) + zlen data) 64); [lia|].
  split; simpl; [by rewrite u32_small by lia| |done]. eapply zwrite_Forall; [exact Hbs|done|done].
Qed.

Lemma fast_update_holds c m data : holds c m -> Forall is_byte data ->
  exists c', fast_update b big c data = Some c' /\ holds c' (m ++ data).
Proof.
  intros Hc Hd. unfold fast_update.
  assert (exists c1 n, (if bufferLength (base c) =? 0 then Some (c, data) else fill_buffer b big c data) = Some (c1, drop n data) /\
    holds c1 (m ++ take n data) /\ (bufferLength (base c1) = 0 \/ drop n data = [])) as (c1 & n & -> & Hc1 & Hor).
  { destruct (Z.eqb_spec (bufferLength (base c)) 0) as [E0|E0].
    - exists c, 0%nat. rewrite drop_0, app_nil_r. eauto.
    - destruct (fill_buffer_holds c m data Hc Hd) as (c1 & n & E & H1 & _ & H2). eauto. }
  rewrite option_bind_Some. cbn [fst snd].
  destruct (whole_blocks_holds (length (drop n data)) c1 _ (drop n data) Hc1) as (c2 & k & -> & Hc2 & Hlt & Hor2);
    [by apply Forall_drop|done|done|]. rewrite option_bind_Some. cbn [fst snd].
  destruct (keep_rest_holds c2 _ (drop k (drop n data)) Hc2) as (c3 & -> & Hc3); [by apply Forall_drop, Forall_drop|done|done|].
  exists c3. split; [done|]. by rewrite <- !app_assoc, (take_drop k (drop n data)), take_drop in Hc3.
Qed.

Lemma update_holds c m data n : holds c m -> Forall is_byte data -> 0 <= n <= zlen data -> n < 2 ^ 32 ->
  exists c', SHA1Update b big c data n = Some c' /\ holds c' (m ++ take (Z.to_nat n) data).
Proof.
  intros Hc Hd Hn Hn32. unfold SHA1Update. rewrite u32_small by lia.
  unfold zread. rewrite decide_True by lia. rewrite drop_0, option_bind_Some.
  destruct (fast_copy b); [by apply fast_update_holds, Forall_take|by apply slow_copy_holds; [|apply Forall_take|]].
Qed.

Lemma padding_bytes n : Forall is_byte (take n padding).
Proof. apply Forall_take. unfold padding. constructor; [done|]. by apply Forall_replicate. Qed.

(** The length, in memory, is big-endian on every machine; so is a word of the result. *)
Lemma length_bytes c t : swaps c -> 0 <= t < 2 ^ 64 -> store_w big 8 (SWAP64 b c t) = store_be 8 t.
Proof. intros [_ Hs] Ht. rewrite Hs. unfold store_w. destruct big; [done|]. by apply BYTESWAP64_bytes. Qed.

Lemma hash_word_spec c w : swaps c -> is_word w -> hash_word b big c w = store_be 4 w.
Proof.
  intros [Hs _] Hw. unfold hash_word. rewrite word_bytes, Hs. destruct (fast_copy b); [|done].
  unfold store_w. destruct big; [done|]. by apply BYTESWAP_bytes.
Qed.

Lemma guts_words_range h d : Forall is_word (Sha.SHA1Guts h d).
Proof. unfold Sha.SHA1Guts. cbv zeta. repeat constructor; apply u32_range. Qed.

Lemma foldl_words bs : forall h, Forall is_word h -> Forall is_word (foldl Sha.SHA1Guts h bs).
Proof. induction bs as [|d bs IH]; intros h Hh; cbn [foldl]; [done|]. apply IH, guts_words_range. Qed.

Lemma final_holds c m : holds c m -> zlen m < 2 ^ 61 -> SHA1Final b big c = Some (sha1_spec m).
Proof.
  intros Hc Hm. pose proof (ho_rep _ _ Hc) as Hrep. pose proof (pad_count_range m).
  assert (totalLength (base c) = u64 (8 * zlen m)) as Ht by (destruct Hrep as (? & ? & Hrep); apply Hrep).
  unfold SHA1Final. rewrite (ctx_rep_bufferLength _ _ Hrep), pad_count_code.
  destruct (update_holds c m padding (pad_count m) Hc) as (c1 & -> & Hc1);
    [apply (padding_bytes 64)|change (zlen padding) with 64; lia|lia|]. rewrite option_bind_Some.
  rewrite length_bytes; [|apply (ho_swaps _ _ Hc)|rewrite Ht; by apply Z.mod_pos_bound]. rewrite Ht.
  assert (zlen (store_be 8 (u64 (8 * zlen m))) = 8) as Hl8 by (unfold store_be; by rewrite length_reverse, store_le_length).
  destruct (update_holds c1 _ (store_be 8 (u64 (8 * zlen m))) 8 Hc1) as (c2 & -> & Hc2);
    [apply Forall_reverse, store_le_bytes|lia|done|]. rewrite option_bind_Some.
  unfold store_be in Hc2. rewrite <- BYTESWAP64_bytes, <- app_assoc, final_padding in Hc2 by (done || by apply Z.mod_pos_bound).
  rewrite (ctx_rep_aligned _ _ (ho_rep _ _ Hc2) (sha1_pad_aligned m)), sha1_spec_eq. do 2 f_equal.
  apply list_fmap_ext. intros i w Hw. apply hash_word_spec; [apply Hc2|].
  assert (Forall is_word (foldl Sha.SHA1Guts iv (blocks (sha1_pad m)))) as HF.
  { apply foldl_words. unfold iv, Sha.SHA1Init. cbn [hash]. by repeat constructor. }
  rewrite Forall_lookup in HF. by eapply HF.
Qed.

Lemma absorb_holds pieces : forall c m, holds c m -> Forall (fun p => zlen p < 2 ^ 32 /\ Forall is_byte p) pieces ->
  exists c', absorb b big c pieces = Some c' /\ holds c' (m ++ mjoin pieces).
Proof.
  induction pieces as [|p ps IH]; intros c m Hc Hall; cbn [absorb]; [exists c; by rewrite app_nil_r|].
  apply Forall_cons in Hall as [[Hp Hpb] Hall].
  destruct (update_holds c m p (zlen p) Hc Hpb) as (c1 & -> & Hc1); [lia|done|].
  rewrite option_bind_Some. rewrite Nat2Z.id, take_ge in Hc1 by lia.
  destruct (IH _ _ Hc1 Hall) as (c2 & -> & Hc2). rewrite <- app_assoc in Hc2. eauto.
Qed.
End Proofs.

(** ** The standard *)

Lemma fips_block_spec h d : Forall is_word h -> length d = 64%nat -> Forall is_byte d -> Sha.SHA1Guts h d = fips_block h d.
Proof.
  intros Hh Hl Hd. unfold Sha.SHA1Guts, fips_block, fips_W.
  assert (BYTESWAP <$> words_of d = load_be <$> reshape (replicate 16 4%nat) d) as ->.
  { unfold words_of. rewrite Hl. change (64 / 4)%nat with 16%nat. rewrite <- list_fmap_compose. apply list_fmap_ext.
    intros i w Hw. pose proof (reshape_bytes d 16 Hd ltac:(lia)) as HF. rewrite Forall_lookup in HF.
    destruct (HF i w Hw). by apply BYTESWAP_load. }
  assert (forall i, is_word (nth i h 0)) as Hn.
  { intros i. rewrite nth_lookup. destruct (h !! i) as [w|] eqn:E; [|done]. rewrite Forall_lookup in Hh. by eapply Hh. }
  cbv zeta. rewrite rounds_fips; [done| |by split_and!; apply Hn].
  by rewrite schedule_length, length_fmap, length_reshape, length_replicate.
Qed.

Lemma fips_sha1_spec m : Forall is_byte m -> sha1_spec m = fips_sha1 m.
Proof.
  intros Hm. rewrite sha1_spec_eq. unfold fips_sha1. do 2 f_equal.
  assert (Forall (fun d => length d = 64%nat /\ Forall is_byte d) (blocks (sha1_pad m))) as HF.
  { unfold blocks. assert (Forall is_byte (sha1_pad m)) as Hp.
    { unfold sha1_pad, store_be. rewrite !Forall_app. split_and!; [done|by repeat constructor|by apply Forall_replicate|].
      apply Forall_reverse, store_le_bytes. }
    assert (64 * (length (sha1_pad m) / 64) <= length (sha1_pad m))%nat as Hk by apply Nat.Div0.mul_div_le.
    revert Hp Hk. generalize (sha1_pad m) as l, (length (sha1_pad m) / 64)%nat as k. intros l k. revert l.
    induction k as [|k IH]; intros l Hl Hk; cbn [replicate reshape]; constructor.
    - rewrite length_take. split; [lia|by apply Forall_take].
    - apply IH; [by apply Forall_drop|rewrite length_drop; lia]. }
  apply (foldl_agree (Forall is_word)); [by repeat constructor|].
  intros h d Hd Hh. rewrite Forall_forall in HF. destruct (HF d Hd) as [Hl Hb].
  split; [by apply fips_block_spec|]. rewrite <- fips_block_spec by done. apply guts_words_range.
Qed.

(** ** Properties *)

(** C38: every build of sha.c that fits its machine (any unrolling, with or without the fast
    copy, the byte order fixed or found at run time) computes the SHA-1 of FIPS 180 of a
    message, however it is cut into pieces and whatever the context's buffer held. *)
Theorem every_build_computes_sha1 (b : Build) (big : bool) (junk : list Z) (pieces : list (list Z)) :
  build_ok b big -> length junk = 64%nat -> Forall is_byte junk ->
  Forall (fun p => zlen p < 2 ^ 32 /\ Forall is_byte p) pieces -> zlen (mjoin pieces) < 2 ^ 61 ->
  exists c, absorb b big (SHA1Init b big junk) pieces = Some c /\ SHA1Final b big c = Some (fips_sha1 (mjoin pieces)).
Proof.
  intros Hb Hl Hj Hp Hm. destruct (absorb_holds b big Hb pieces _ [] (init_holds b big Hb junk Hl Hj) Hp) as (c & E & Hc).
  exists c. split; [done|]. cbn [app] in Hc. rewrite (final_holds b big Hb c _ Hc Hm), fips_sha1_spec; [done|].
  apply Forall_join. eapply Forall_impl; [exact Hp|]. by intros p [].
Qed.

Definition network_build : Build :=
  {| runtime_endian := true; words_bigendian := false; fast_copy := true; SHA1_UNROLL := 4 |}.

Lemma every_build_computes_sha1_witness :
  exists c, absorb network_build true (SHA1Init network_build true (replicate 64 7)) [[97]; []; [98; 99]] = Some c /\
    SHA1Final network_build true c = Some (fips_sha1 [97; 98; 99]).
Proof.
  apply (every_build_computes_sha1 network_build true (replicate 64 7) [[97]; []; [98; 99]]).
  - split; [done|]. unfold unrolls. rewrite !elem_of_cons. auto.
  - reflexivity.
  - by repeat constructor.
  - by repeat constructor.
  - vm_compute. reflexivity.
Defined.

(** The digests of the test program at the end of sha.c, for two builds. *)
Example fips_abc : fips_sha1 [97; 98; 99] =
  [0xa9; 0x99; 0x3e; 0x36; 0x47; 0x06; 0x81; 0x6a; 0xba; 0x3e; 0x25; 0x71; 0x78; 0x50; 0xc2; 0x6c; 0x9c; 0xd0; 0xd8; 0x9d].
Proof. vm_compute. reflexivity. Qed.

Lemma s32_u64 x : - 2 ^ 31 <= x < 2 ^ 31 -> s32 (u64 x) = x.
Proof. unfold s32, u64. intros. Z.div_mod_to_equations. lia. Qed.

(** The recursion of [burnStack] ends, and clears at least [size] bytes of the stack. *)
Lemma burnStack_loop_clears n : forall size, 0 < size < 2 ^ 31 -> size <= 128 * Z.of_nat n + 128 ->
  exists k, burnStack_loop n size = Some k /\ size <= k < size + 128.
Proof.
  induction n as [|n IH]; intros size Hs Hn; cbn [burnStack_loop]; rewrite s32_u64, Z.gtb_ltb by lia;
    destruct (Z.ltb_spec 0 (size - 128)) as [H|H]; try lia; try (exists 128; split; [done|lia]).
  destruct (IH (size - 128)) as (k & -> & Hk); [lia..|]. exists (128 + k). split; [done|lia].
Qed.

Lemma burnStack_clears size : 0 < size < 2 ^ 31 -> exists k, burnStack size = Some k /\ size <= k < size + 128.
Proof.
  intros Hs. apply burnStack_loop_clears; [done|]. rewrite Z2Nat.id by (apply Z.div_pos; lia).
  pose proof (Z.div_mod size 128). pose proof (Z.mod_pos_bound size 128). lia.
Qed.

Example burnStack_guts : burnStack burn_size = Some 512.
Proof. reflexivity. Qed.
