(* ===== verification/Printf.v ===== *)
(** * Printf: formatted output as bytes

    The conversions of [printf] that the diagnostics and the test programs use. A number
    that is printed by ["%d"] is read back by [atoi] and by a ["%d"] of [scanf]. *)

From stdpp Require Import strings.
From S2P Require Import Prelude Sha Chunk ChunkList Machine Util Packet Sending.
From S2P Require Import Upload Download SendHelper PeerServer CommandLine.

(** The bytes of a literal; a newline and a tab are written [nl] and [tab]. *)
Definition str (s : string) : list Z := (fun a => Z.of_N (Ascii.N_of_ascii a)) <$> String.list_ascii_of_string s.
Definition nl : list Z := [10].
Definition tab : list Z := [9].

(** ["%u"], ["%lu"] and ["%d"]; twenty digits are enough for 64 bits. An unsigned value
    that is given to ["%d"] is printed as an [int]. *)
Definition fmt_u (n : Z) : list Z := dec_digits 20 n.
Definition fmt_d (n : Z) : list Z := let n := s32 n in if n <? 0 then 45 :: fmt_u (- n) else fmt_u n.
(** The field width of ["%4d"]. *)
Definition pad (w : nat) (l : list Z) : list Z := replicate (w - length l) 32 ++ l.
(** ["%s"] on a buffer. *)
Definition fmt_s (buf : list Z) : list Z := cstr buf.

Lemma str_bytes s : Forall is_byte (str s).
Proof.
  unfold str. apply Forall_fmap, Forall_true. intros a. unfold is_byte, compose.
  pose proof (Ascii.N_ascii_bounded a). lia.
Qed.

(** ** Reading a number back *)

Lemma fmt_u_digits n : 0 <= n < 2 ^ 31 ->
  exists d ds, fmt_u n = d :: ds /\ Forall is_digit (d :: ds) /\ digits_value (d :: ds) = n.
Proof.
  intros Hn. destruct (dec_digits_spec 20 n) as (Hd & Hne & Hv); [|lia|].
  { split; [lia|]. eapply Z.lt_trans; [apply Hn|]. done. }
  fold (fmt_u n) in Hd, Hne, Hv. destruct (fmt_u n) as [|d ds]; [done|]. by exists d, ds.
Qed.

Lemma span_digits ds rest : Forall is_digit ds -> (match rest with [] => True | c :: _ => isdigit c = false end) ->
  span isdigit (ds ++ rest) = (ds, rest).
Proof.
  intros Hd Hr. apply digits_isdigit in Hd. induction Hd as [|d ds Hd1 _ IH]; cbn [app].
  - destruct rest as [|c rest]; cbn [span]; [done|by rewrite Hr].
  - cbn [span]. by rewrite Hd1, IH.
Qed.

(** What ["%d"] prints, [scanf] reads. *)
Lemma scan_printed n rest : - 2 ^ 31 < n < 2 ^ 31 ->
  (match rest with [] => True | c :: _ => isdigit c = false end) -> scan_int (fmt_d n ++ rest) = Some (n, rest).
Proof.
  intros Hn Hr. unfold fmt_d. rewrite s32_small by lia. cbv zeta.
  destruct (Z.ltb_spec n 0) as [Hneg|Hneg].
  - destruct (fmt_u_digits (- n)) as (d & ds & E & Hd & Hv); [lia|]. rewrite E.
    unfold scan_int. cbn [app skip_space]. change (isspace 45) with false. cbv iota. change (45 =? 45) with true. cbv iota.
    change (d :: ds ++ rest) with ((d :: ds) ++ rest). rewrite span_digits by done.
    unfold strtol. rewrite Hv, Z.min_r, Z.max_r, s32_small by lia. do 2 f_equal. lia.
  - destruct (fmt_u_digits n) as (d & ds & E & Hd & Hv); [lia|]. rewrite E.
    pose proof (Forall_inv Hd) as Hd1. unfold is_digit in Hd1.
    unfold scan_int. cbn [app]. rewrite skip_space_word by (apply isspace_digit; unfold is_hexdigit; lia).
    destruct (Z.eqb_spec d 45); [lia|]. destruct (Z.eqb_spec d 43); [lia|].
    change (d :: ds ++ rest) with ((d :: ds) ++ rest). rewrite span_digits by done.
    unfold strtol. by rewrite Hv, Z.min_r, Z.max_r, s32_small by lia.
Qed.

Lemma atoi_printed n : - 2 ^ 31 < n < 2 ^ 31 -> atoi (fmt_d n) = n.
Proof. intros Hn. unfold atoi. rewrite <- (app_nil_r (fmt_d n)). by rewrite scan_printed. Qed.

Example fmt_d_negative : fmt_d (u32 (-17)) = str "-17".
Proof. reflexivity. Qed.
