(* ===== verification/Diagnostics.v ===== *)
(** * Diagnostics: the log and what is printed for debugging

    logger.c, debug.c, and the functions of the other files that only print: print_packet
    (packet.c), ul_dump (upload.c), dl_dump (download.c), bt_dump_config, bt_usage and
    bt_help (bt_parse.c). Each is the bytes that it writes; [None] is undefined behaviour.
    None of them changes the state of the server. *)

From stdpp Require Import strings.
From S2P Require Import Prelude RecvWin LinkedList Sha Chunk ChunkList Machine Util Packet Sending.
From S2P Require Import Upload Download SendHelper PeerServer ServerInv ServerOps CommandLine Printf.

(** ** The log (logger.c) *)

Definition LOG_DEBUG : Z := 0.
Definition LOG_INFO : Z := 1.
Definition LOG_WARN : Z := 2.
Definition LOG_ERROR : Z := 3.
(** Without [DEBUG]. *)
Definition LOGLEVEL : Z := 1.

(** [log_fp]: null before [init_log] and when the file cannot be opened; a stream that was
    closed must not be used. *)
Inductive log_stream := log_null | log_stdout | log_file (name : list Z) | log_closed.

(** [opened] tells whether [fopen] succeeds. *)
Definition init_log (logfile : option (list Z)) (opened : bool) : Z * log_stream :=
  match logfile with
  | None => (0, log_stdout)
  | Some name => if opened then (0, log_file name) else (-1, log_null)
  end.

Definition log_usable (fp : log_stream) : bool :=
  match fp with log_stdout | log_file _ => true | _ => false end.

(** [msg] is what the format and its arguments give. *)
Definition log_print (fp : log_stream) (level : Z) (file : list Z) (line : Z) (msg : list Z) : option (list Z) :=
  if log_usable fp then
    let tag :=
      if level =? LOG_DEBUG then str "-DEBUG: "
      else if level =? LOG_INFO then str "-INFO: "
      else if level =? LOG_WARN then str "-WARN: "
      else if level =? LOG_ERROR then str "-ERROR: "
      else [] in
    Some (tag ++ str "[" ++ file ++ str "][line: " ++ fmt_d line ++ str "] " ++ msg ++ nl)
  else None.

(** The macro: messages below the level of the build are dropped. *)
Definition logger (fp : log_stream) (level : Z) (file : list Z) (line : Z) (msg : list Z) : option (list Z) :=
  if level >=? LOGLEVEL then log_print fp level file line msg else Some [].

Definition deinit_log (fp : log_stream) : option log_stream := if log_usable fp then Some log_closed else None.

(** ** Debug levels (debug.c, debug.h, debug-text.h) *)

Definition debugs : list (Z * list Z) :=
  [(0x00, str "No debugging"); (0x01, str "Verbose error reporting"); (0x02, str "Debug initialization");
   (0x04, str "Debug socket operations"); (0x08, str "Debug processes (fork/reap/etc)");
   (0x10, str "Debug the spiffy sending code")].

Definition debug_list : list Z :=
  str "Debug values and definitions" ++ nl ++ str "----------------------------" ++ nl ++
  mjoin ((fun d => pad 5 (fmt_d d.1) ++ str "  " ++ d.2 ++ nl) <$> debugs).

(** [set_debug] on the mask [debug]: its result, the mask, and what it prints. *)
Definition set_debug_mask (debug : Z) (arg : option (list Z)) : Z * Z * list Z :=
  match arg with
  | None | Some [] => (-1, debug, [])
  | Some (c :: s) =>
    if (c =? 63) || bool_decide (c :: s = str "list") then (-1, debug, debug_list)
    else (0, if isdigit c then Z.lor debug (u32 (atoi (c :: s))) else debug, [])
  end.

(** ** Packets (packet.c) *)

(** [for (i = 0; i < GET_CHUNK_CNT(pkt); i++)]: [n] turns are left. *)
Fixpoint print_hashes (n : nat) (i : Z) (pkt : packet_t) (hex : list Z) : option (list Z) :=
  match n with
  | O => Some []
  | S n' =>
    hex ← GET_HASH pkt i hex;
    rest ← print_hashes n' (i + 1) pkt hex;
    Some ((fmt_d i ++ str " " ++ fmt_s hex ++ nl) ++ rest)
  end.

Definition dashes : list Z := str "-----------------" ++ nl.
(** A line of a number between bars. *)
Definition bar (name : string) (n : list Z) : list Z := str name ++ n ++ tab ++ str "|" ++ nl.

Definition packet_head (pkt : packet_t) : list Z :=
  dashes ++ bar "| Magic: " (fmt_d (magic pkt)) ++ bar "| Version: " (fmt_d (version pkt)) ++
  bar "| Type: " (fmt_d (type pkt)) ++ bar "| Hdr_len: " (fmt_d (hdr_len pkt)) ++
  str "| Pkt_len: " ++ pad 4 (fmt_d (pkt_len pkt)) ++ str " |" ++ nl ++
  bar "| Seq: " (fmt_u (seq pkt)) ++ bar "| Ack: " (fmt_u (ack pkt)) ++
  str "| Data_len: " ++ pad 4 (fmt_d (GET_DATA_LEN pkt)) ++ str "|" ++ nl.

(** The packets whose number of hashes is printed. *)
Definition counted (pkt : packet_t) : bool :=
  nondata (type pkt) && negb (type pkt =? PACKET_TYPE_GET).

(** [hex] is the buffer on the stack. *)
Definition print_packet (pkt : packet_t) (hex : list Z) : option (list Z) :=
  count ← (if counted pkt then cnt ← GET_CHUNK_CNT pkt; Some (bar "| Chunk_cnt: " (fmt_d cnt)) else Some []);
  hashes ← (if counted pkt then cnt ← GET_CHUNK_CNT pkt; print_hashes (Z.to_nat cnt) 0 pkt hex
            else if type pkt =? PACKET_TYPE_GET then print_hashes 1 0 pkt hex
            else Some []);
  Some (packet_head pkt ++ count ++ dashes ++ hashes ++ nl).

(** ** Transfers (upload.c, download.c) *)

(** [for (i = 0; i < BT_CHUNK_SIZE / PAYLOAD_SIZE + 1; i++)]. *)
Fixpoint dump_acks (n : nat) (i : Z) (cnts : list Z) : option (list Z) :=
  match n with
  | O => Some []
  | S n' =>
    c ← zget cnts i;
    rest ← dump_acks n' (i + 1) cnts;
    Some ((if c >? 1 then fmt_d i ++ str ": " ++ fmt_d c ++ str ", " else []) ++ rest)
  end.

Definition status_line (st : ul_status) : list Z :=
  match st with
  | UL_STATUS_SLOW_START => bar "| status: SS" []
  | UL_STATUS_CONGESTION_AVOIDANCE => bar "| status: CA" []
  | UL_STATUS_FAST_RETRANSMIT => bar "| status: FR" []
  | UL_STATUS_FAST_RECOVERY => bar "| status: FC" []
  | UL_STATUS_FAST_RETRANSMIT_SS => str "| status: FR_SS" ++ nl
  | UL_STATUS_FAST_RETRANSMIT_CA => str "| status: FR_CA" ++ nl
  end.

(** A line that only starts with a bar. *)
Definition open_line (name : string) (n : list Z) : list Z := str name ++ n ++ nl.

(** [ptr]: how the C library prints the pointer to the data. *)
Definition ul_dump (u : upload_t) (ptr : list Z) : option (list Z) :=
  let head := dashes ++ bar "| finished: " (fmt_d (Z.b2z (ul_finished u))) ++ bar "| p_index: " (fmt_d (ul_p_index u)) ++
    status_line (status u) ++ bar "| window_size: " (fmt_d (window_size u)) ++
    bar "| rtt: " (fmt_u (ul_rtt u)) ++ bar "| dev: " (fmt_u (ul_dev u)) ++
    bar "| last_ack: " (fmt_d (last_pkt_acked u)) ++
    open_line "| last_sent: " (fmt_d (last_pkt_sent u) ++ tab) ++ open_line "| max_sent: " (fmt_d (max_pkt_sent u) ++ tab) ++
    open_line "| max_retransmit: " (fmt_d (max_retransmit_seq u) ++ tab) ++
    open_line "| timeout_cnt: " (fmt_d (ul_timeout_cnt u)) ++ open_line "| has_index: " (fmt_d (has_index u)) ++
    open_line "| data: " ptr ++ open_line "| rto: " (fmt_u (rto u)) ++
    open_line "| ss_threshold: " (fmt_d (ss_threshold u)) ++ str "dup acks:" ++ nl in
  acks ← dump_acks (Z.to_nat (CHUNK_PKTS + 1)) 0 (ack_cnt u);
  Some (head ++ acks ++ nl).

Definition dl_dump (d : download_t) : list Z :=
  dashes ++ bar "| p_index: " (fmt_d (dl_p_index d)) ++ open_line "| get_index: " (fmt_d (get_index d)) ++
  open_line "| ts: " (fmt_u (dl_ts d)) ++ bar "| rtt: " (fmt_u (dl_rtt d)) ++ bar "| dev: " (fmt_u (dl_dev d)) ++
  bar "| timeout_cnt: " (fmt_d (dl_timeout_cnt d)) ++ bar "| filename: " (fmt_s (filename d)) ++
  open_line "| started: " (fmt_d (Z.b2z (started d))) ++ open_line "| finished: " (fmt_d (Z.b2z (dl_finished d))) ++
  open_line "| next_pkt_expected : " (fmt_d (next_pkt_expected d)) ++ open_line "| data_length: " (fmt_u (data_length d)).

(** Called by nobody: the hash is checked by [check_hash_succeed]. *)
Definition dl_check_hash : Z := 0.

(** ** The configuration (bt_parse.c) *)

Definition bt_usage : list Z :=
  str "usage:  peer [-h] [-d <debug>] -p <peerfile> -c <chunkfile> -m <maxconn>" ++ nl ++
  str "            -f <master-chunk-file> -i <identity>" ++ nl.

Definition bt_help : list Z :=
  bt_usage ++
  str "         -h                help (this message)" ++ nl ++
  str "         -p <peerfile>     The list of all peers" ++ nl ++
  str "         -c <chunkfile>    The list of chunks" ++ nl ++
  str "         -m <maxconn>      Max # of downloads" ++ nl ++
  tab ++ str "    -f <master-chunk> The master chunk file" ++ nl ++
  str "         -i <identity>     Which peer # am I?" ++ nl.

(** The four bytes of an address in memory, with dots between them. *)
Definition inet_ntoa (a : Z) : list Z :=
  match fmt_u <$> store_le 4 a with
  | [b1; b2; b3; b4] => b1 ++ str "." ++ b2 ++ str "." ++ b3 ++ str "." ++ b4
  | _ => []
  end.

Definition bt_dump_config (c : bt_config_t) : list Z :=
  str "15-441 PROJECT 2 PEER" ++ nl ++ nl ++
  open_line "chunk-file:     " (fmt_s (cfg_chunk_file c)) ++ open_line "has-chunk-file: " (fmt_s (cfg_has_chunk_file c)) ++
  open_line "max-conn:       " (fmt_d (cfg_max_conn c)) ++ open_line "peer-identity:  " (fmt_d (cfg_identity c)) ++
  open_line "peer-list-file: " (fmt_s (cfg_peer_list_file c)) ++
  mjoin ((fun p => str "  peer " ++ fmt_d (bp_id p) ++ str ": " ++ inet_ntoa (s_addr (bp_addr p)) ++ str ":" ++
                   fmt_d (ntohs (sin_port (bp_addr p))) ++ nl) <$> cfg_peers c).

(** ** What they do *)

(** The mask and the text of [set_debug] leave its result as [bt_parse_command_line] sees it. *)
Lemma set_debug_mask_result debug arg : (set_debug_mask debug (Some arg)).1.1 = set_debug arg.
Proof.
  unfold set_debug_mask, set_debug. destruct arg as [|c s]; [done|].
  change [108; 105; 115; 116] with (str "list"). by destruct (_ || _).
Qed.

(** After [main]'s [init_log(NULL)] every message can be logged, and takes one line. *)
Lemma logger_defined level file line msg : exists text,
  logger (init_log None true).2 level file line msg = Some text /\
  (LOGLEVEL <= level <-> text <> []).
Proof.
  unfold logger, log_print. cbn [init_log snd log_usable]. destruct (Z.geb_spec level LOGLEVEL) as [H|H].
  - eexists. split; [reflexivity|]. split; [|done]. intros _ E. apply app_eq_nil in E as [_ E]. done.
  - eexists. split; [reflexivity|]. split; [lia|done].
Qed.

Lemma log_after_failed_open name level file line msg :
  LOGLEVEL <= level -> logger (init_log (Some name) false).2 level file line msg = None.
Proof. intros H. unfold logger. by destruct (Z.geb_spec level LOGLEVEL); [|lia]. Qed.

(** Whatever hash is asked for, the 20 bytes are inside the payload, for packets too short
    for a hash as well. *)
Lemma HASH_OFFSET_inside p n : packet_valid p -> 0 <= n ->
  0 <= HASH_OFFSET p n <= MAX_PAYLOAD_SIZE - SHA1_HASH_SIZE.
Proof.
  intros (_ & _ & _ & Hh & Hl & _) Hn. unfold HASH_OFFSET, MAX_OFFSET, EXT_HEADER_SIZE, GET_DATA_LEN. rewrite C_MIN_min, C_MAX_max.
  unfold MAX_PAYLOAD_SIZE, PACKET_SIZE, HEADER_SIZE, SHA1_HASH_SIZE in *. destruct (type p =? PACKET_TYPE_GET); lia.
Qed.

Definition hash_line (pkt : packet_t) (j : Z) : list Z := fmt_d j ++ str " " ++ asked pkt j ++ nl.

Lemma print_hashes_spec pkt n : forall i hex, packet_valid pkt -> 0 <= i -> zlen hex = SHA1_BUF_SIZE ->
  print_hashes n i pkt hex = Some (mjoin (hash_line pkt <$> seqZ i (Z.of_nat n))).
Proof.
  induction n as [|n IH]; intros i hex Hv Hi Hx; cbn [print_hashes]; [done|].
  pose proof (HASH_OFFSET_inside pkt i Hv Hi) as Ho. pose proof Hv as ([_ Hpay] & _).
  change SHA1_BUF_SIZE with 41 in Hx. change MAX_PAYLOAD_SIZE with 1484 in *. change SHA1_HASH_SIZE with 20 in *.
  destruct (zread_is_Some (payload pkt) (HASH_OFFSET pkt i) 20) as [src Hsrc]; [lia..|].
  pose proof (zread_length _ _ _ _ Hsrc) as Hs.
  unfold GET_HASH. change SHA1_HASH_SIZE with 20. rewrite Hsrc, option_bind_Some.
  pose proof (binary2hex_spec src hex ltac:(lia)) as E. rewrite Hs in E. rewrite E, option_bind_Some.
  change (Z.to_nat (2 * 20 + 1)) with 41%nat. pose proof (hexstring_length src) as Hl.
  rewrite IH by (rewrite ?length_app; cbn [length]; rewrite ?length_drop; lia || done || change SHA1_BUF_SIZE with 41; lia).
  rewrite option_bind_Some, (seqZ_cons i) by lia. rewrite fmap_cons. change (mjoin (?a :: ?b)) with (a ++ mjoin b).
  replace (Z.pred (Z.of_nat (S n))) with (Z.of_nat n) by lia. do 2 f_equal. unfold hash_line, fmt_s, asked.
  do 3 f_equal. rewrite (cstr_nul _ _ []). unfold zread in Hsrc. case_decide; [|done]. by injection Hsrc as <-.
Qed.

(** [print_packet] is safe on every packet that [valid_packet] accepts, also on those that
    no peer handles, and lists the hashes as [GET_HASH] finds them. *)
Lemma print_packet_valid pkt hex : packet_valid pkt -> zlen hex = SHA1_BUF_SIZE ->
  exists cnt, GET_CHUNK_CNT pkt = Some cnt /\
    print_packet pkt hex = Some (packet_head pkt ++ (if counted pkt then bar "| Chunk_cnt: " (fmt_d cnt) else []) ++ dashes ++
      mjoin (hash_line pkt <$> seqZ 0 (if counted pkt then Z.max 0 cnt else if type pkt =? PACKET_TYPE_GET then 1 else 0)) ++ nl).
Proof.
  intros Hv Hx. pose proof Hv as ([_ Hpay] & _ & _ & Hh & Hl & _).
  destruct (DATA_OFFSET_range pkt) as [H0 H1]; [lia|].
  destruct (zget_is_Some (payload pkt) (DATA_OFFSET pkt)) as [cnt Hc].
  { unfold DATA_OFFSET, MAX_OFFSET, EXT_HEADER_SIZE, GET_DATA_LEN in *. rewrite C_MIN_min, C_MAX_max in *.
    change MAX_PAYLOAD_SIZE with 1484 in *. change PACKET_SIZE with 1500 in *. change HEADER_SIZE with 16 in *.
    change SHA1_HASH_SIZE with 20 in *. lia. }
  exists cnt. split; [exact Hc|]. unfold print_packet. unfold GET_CHUNK_CNT. rewrite Hc, !option_bind_Some.
  destruct (counted pkt).
  - rewrite option_bind_Some, print_hashes_spec by done. rewrite option_bind_Some.
    by replace (Z.max 0 cnt) with (Z.of_nat (Z.to_nat cnt)) by lia.
  - rewrite option_bind_Some. destruct (type pkt =? PACKET_TYPE_GET); [by rewrite print_hashes_spec by done|done].
Qed.

(** [ul_dump] reads the counts inside their array, and lists the acknowledgements that
    were repeated. *)
Definition repeated (c : Z * Z) : list Z := if c.2 >? 1 then fmt_d c.1 ++ str ": " ++ fmt_d c.2 ++ str ", " else [].

Lemma dump_acks_spec n : forall pre cs, length cs = n ->
  dump_acks n (zlen pre) (pre ++ cs) = Some (mjoin (imap (fun k c => repeated (Z.of_nat (length pre + k), c)) cs)).
Proof.
  induction n as [|n IH]; intros pre cs Hl; destruct cs as [|c cs]; simplify_eq/=; [done|].
  assert (zget (pre ++ c :: cs) (zlen pre) = Some c) as ->.
  { unfold zget. rewrite decide_True by lia. by rewrite Nat2Z.id, list_lookup_middle. }
  rewrite option_bind_Some. specialize (IH (pre ++ [c]) cs eq_refl). rewrite <- app_assoc in IH. cbn [app] in IH.
  replace (zlen pre + 1) with (zlen (pre ++ [c])) by (rewrite length_app; simpl; lia). rewrite IH, option_bind_Some.
  do 2 f_equal; [by rewrite Nat.add_0_r|]. f_equal. apply imap_ext. intros k x _. simpl. rewrite length_app. simpl.
  f_equal. f_equal. lia.
Qed.

Lemma ul_dump_defined u ptr : ul_wf u -> exists head,
  ul_dump u ptr = Some (head ++ mjoin (imap (fun k c => repeated (Z.of_nat k, c)) (ack_cnt u)) ++ nl).
Proof.
  intros Hu. pose proof (wf_cnt u Hu) as Hl. unfold ul_dump. cbv zeta.
  rewrite (dump_acks_spec _ [] (ack_cnt u)) by lia. rewrite option_bind_Some. eexists. reflexivity.
Qed.

Example debug_level_16 : set_debug_mask 1 (Some (str "16")) = (0, 17, []).
Proof. reflexivity. Qed.
Example print_address : inet_ntoa (1 * 2 ^ 24 + 127) = str "127.0.0.1".
Proof. reflexivity. Qed.
