(* ===== verification/TestPrograms.v ===== *)
(** * TestPrograms: the small programs beside the peer

    client.c and server.c (a pair that sends a number through spiffy), test_input_buffer.c,
    and the [main] functions that sha.c, chunk.c and debug.c have under a macro. A program
    is its exit status and what it prints; [None] is undefined behaviour or a failed
    [assert]. *)

From stdpp Require Import strings.
From S2P Require Import Prelude Sha Chunk ChunkList Machine Util Packet Sending.
From S2P Require Import Upload Download SendHelper PeerServer ParsePacket ServerInv ServerOps ServerSafe Handlers MakeChunks UserInput CommandLine Spiffy ShaBuilds Printf Diagnostics.

(** ** client.c and server.c *)

Definition BUFLEN : Z := 100.

(** [data_packet_t] in memory: the magic number, 14 bytes of header that are not set, and
    the data. *)
Definition data_packet (magicnum : Z) (junk : list Z) : list Z := store_le 2 (u16 magicnum) ++ junk ++ zeros BUFLEN.
Definition sizeof_data_packet : Z := 16 + BUFLEN.

(** The address 127.0.0.1, as [inet_aton] stores it. *)
Definition localhost : Z := 127 + 2 ^ 24.
(** The ports are arguments of [htons]. *)
Definition local_addr (port : list Z) : sockaddr_in := {| sin_port := htons (u16 (atoi port)); s_addr := localhost |}.

Section Programs.
Context (router : option (list Z)) (inet_aton : list Z -> option Z) (malloc : Z -> option (list Z)).

(** [argv] without its final null pointer: reading past it gives that pointer to [atoi].
    [bound]: whether [bind] succeeds, which an [assert] demands. *)
Definition client_main (argv : list (list Z)) (bound : bool) (sendto : sockaddr_in -> list Z -> Z) (junk : list Z)
    : option (Z * list Z * option (sockaddr_in * list Z)) :=
  if zlen argv <? 4 then
    name ← argv !! 0%nat;
    Some (1, str "usage: " ++ name ++ str " <node id> <my port> <to port> <magic number>" ++ nl, None)
  else
    node ← argv !! 1%nat; my_port ← argv !! 2%nat; to_port ← argv !! 3%nat;
    if negb bound then None else
    g ← spiffy_init router inet_aton (atoi node) (local_addr my_port) spiffy_zero;
    number ← argv !! 4%nat;
    r ← spiffy_sendto g.2 malloc sendto (data_packet (htons (u16 (atoi number))) junk) sizeof_data_packet
          AF_INET (local_addr to_port);
    Some (0, str "Sent MAGIC: " ++ fmt_d (atoi number) ++ nl, r.2).

(** The server until its loop: the state of spiffy, or the usage. *)
Definition server_start (argv : list (list Z)) : option (list Z + spiffy) :=
  if zlen argv <? 3 then
    name ← argv !! 0%nat;
    Some (inl (str "usage: " ++ name ++ str " <node id> <port>" ++ nl))
  else
    node ← argv !! 1%nat; port ← argv !! 2%nat;
    g ← spiffy_init router inet_aton (atoi node) (local_addr port) spiffy_zero;
    Some (inr g.2).

(** A turn of the loop when a datagram is there; [buf] and [from] are on the stack. *)
Definition server_turn (g : spiffy) (datagram : option (list Z * sockaddr_in)) (buf : list Z) (from : sockaddr_in)
    : option (list Z * list Z * sockaddr_in) :=
  r ← spiffy_recvfrom g malloc datagram buf BUFLEN from;
  magicnum ← zread r.1.2 0 2;
  Some (str "MAGIC: " ++ fmt_d (ntohs (load_le magicnum)) ++ nl, r.1.2, r.2).
End Programs.

(** ** test_input_buffer.c *)

(** [printf] writes to standard output. *)
Definition printline (printf : list Z -> M unit) (line : list Z) : M unit :=
  printf (str "LINE:  " ++ fmt_s line ++ nl) ;;;
  printf (str "CBDATA:  " ++ str "Cows moo!" ++ nl).

(** The program on what the reads give, one after the other; [None]: it has exited. *)
Definition test_input_main `{Env} (printf : list Z -> M unit) (ds : list (list Z)) : M (option user_iobuf) :=
  u <- create_userbuf ;;
  match u with
  | None => lift None
  | Some u => feed (printline printf) ds u
  end.

(** ** The test of sha.c *)

(** [for (i = 0; i < SHA1_HASH_SIZE;)]: a blank after every fourth byte. *)
Definition print_digest (hash : list Z) : list Z :=
  mjoin (imap (fun i h => sprintf_2x h ++ (if (Z.of_nat (S i)) mod 4 =? 0 then str " " else [])) hash) ++ nl.

Definition fips_message : list Z := str "abcdbcdecdefdefgefghfghighijhijkijkljklmklmnlmnomnopnopq".

(** [junk]: what the context's buffer holds at each [SHA1Init]. *)
Definition sha1_test (b : Build) (big : bool) (junk : nat -> list Z) : option (list Z) :=
  let digest k pieces := c ← absorb b big (ShaBuilds.SHA1Init b big (junk k)) pieces; ShaBuilds.SHA1Final b big c in
  h1 ← digest 0%nat [str "abc"];
  h2 ← digest 1%nat [fips_message];
  h3 ← digest 2%nat (replicate 1000 (replicate 1000 97));
  Some (print_digest h1 ++ print_digest h2 ++ print_digest h3).

(** ** The tests of chunk.c and debug.c *)

Definition chunk_test (junk hash1 ascii : list Z) : option (list Z) :=
  hash ← shahash junk (str "dash") 4;
  ascii ← binary2hex hash SHA1_HASH_SIZE ascii;
  if negb (zlen (cstr ascii) =? 40) then None else
  hash1 ← hex2binary ascii (zlen (cstr ascii)) hash1;
  ascii' ← binary2hex hash1 SHA1_HASH_SIZE ascii;
  Some (fmt_s ascii ++ nl ++ fmt_s ascii' ++ nl).

Definition debug_test : list Z :=
  let '(r, _, text) := set_debug_mask 0 (Some (str "?")) in
  text ++ (if r =? -1 then [] else str "set_debug(" ++ [34; 63; 34] ++ str ") returned wrong result code" ++ nl).

(** ** What they print *)

(** With three arguments the client passes its test of [argc] and reads past them. *)
Lemma client_three_arguments router inet_aton malloc name node my to bound sendto junk :
  client_main router inet_aton malloc [name; node; my; to] bound sendto junk = None.
Proof.
  unfold client_main. cbn -[spiffy_init]. destruct bound; [|done]. by destruct (spiffy_init _ _ _ _ _) as [g|].
Qed.

Lemma ntohs_stored x : 0 <= x < 2 ^ 16 -> ntohs (load_le (store_le 2 (u16 (htons x)))) = x.
Proof.
  intros Hx. change ntohs with (swap_bytes 2). change htons with (swap_bytes 2).
  pose proof (swap_range 2 x) as Hr. change (2 ^ (8 * Z.of_nat 2)) with (2 ^ 16) in Hr.
  rewrite u16_small, load_store_small by done. by apply swap_swap.
Qed.

(** [recvfrom] drops what does not fit. *)
Lemma spiffy_recvfrom_truncates g malloc dg from buf size addr : 0 <= size -> giSpiffyEnabled g <> 0 ->
  spiffy_recvfrom g malloc (Some (dg, from)) buf size addr =
  spiffy_recvfrom g malloc (Some (take (Z.to_nat (size + sizeof_header)) dg, from)) buf size addr.
Proof.
  intros Hs Hen. unfold spiffy_recvfrom. rewrite (proj2 (Z.eqb_neq _ 0)) by done.
  destruct (malloc _); [|done]. by rewrite take_take, Nat.min_id.
Qed.

(** What the client prints and sends, and what the server prints of it: through the router
    of spiffy the 16 low bits of the number arrive, though the datagram is longer than the
    server's buffer. *)
Lemma magic_arrives (name node my to : list Z) (n : Z) (router : option (list Z)) inet_aton malloc (sendto : sockaddr_in -> list Z -> Z)
    (g g' : spiffy) (junk buf : list Z) (from from0 : sockaddr_in) :
  - 2 ^ 31 < n < 2 ^ 31 -> length junk = 14%nat -> memory malloc ->
  spiffy_init router inet_aton (atoi node) (local_addr my) spiffy_zero = Some (0, g) -> giSpiffyEnabled g' <> 0 ->
  zlen buf = PACKET_SIZE ->
  exists dg buf', client_main router inet_aton malloc [name; node; my; to; fmt_d n] true sendto junk =
      Some (0, str "Sent MAGIC: " ++ fmt_d n ++ nl, Some (gsSpiffyRouter g, dg)) /\
    server_turn malloc g' (Some (dg, from)) buf from0 = Some (str "MAGIC: " ++ fmt_d (u16 n) ++ nl, buf', local_addr my).
Proof.
  intros Hn Hj Hmem Hinit Hen Hbuf. pose proof (spiffy_init_bound _ _ _ _ _ _ Hinit) as Hb.
  set (m := data_packet (htons (u16 n)) junk).
  assert (zlen m = 116) as Hm.
  { unfold m, data_packet. rewrite !length_app, store_le_length, Hj. unfold zeros. rewrite length_replicate. done. }
  exists (header_bytes (sent_header g (local_addr to)) ++ m).
  pose proof (sent_header_ok g _ (local_addr to) Hb) as Hh. set (h := sent_header g (local_addr to)) in *.
  unfold server_turn. rewrite spiffy_recvfrom_truncates by done.
  change (Z.to_nat (BUFLEN + sizeof_header)) with (16 + 100)%nat.
  rewrite take_app. pose proof (header_bytes_length h) as Hhl. rewrite Hhl. change (16 + 100 - 16)%nat with 100%nat.
  rewrite (take_ge (header_bytes h)) by lia.
  assert (zlen (take 100 m) = 100) as Ht by (rewrite length_take; lia).
  destruct (spiffy_recvfrom_spec g' malloc h (take 100 m) from buf BUFLEN from0) as (buf' & E & Hl & Htk & _);
    [done..|rewrite Ht; done|rewrite Hbuf; done|rewrite Ht; done|].
  exists buf'. split.
  - unfold client_main. cbn [length lookup list_lookup]. change (Z.of_nat 5 <? 4) with false. cbv iota.
    rewrite !option_bind_Some. cbn [negb]. rewrite Hinit, !option_bind_Some, atoi_printed by done. cbn [snd]. fold m.
    rewrite (spiffy_sendto_spec g _ _ m _ (local_addr my)) by (done || rewrite Hm; done). cbv zeta.
    rewrite option_bind_Some. cbn [snd]. by rewrite take_ge by (change sizeof_data_packet with 116; lia).
  - rewrite E, option_bind_Some. cbn [fst snd].
    assert (zread buf' 0 2 = Some (store_le 2 (u16 (htons (u16 n))))) as ->.
    { unfold zread. rewrite decide_True by (change PACKET_SIZE with 1500 in Hbuf; lia). rewrite drop_0. f_equal.
      change (Z.to_nat 2) with 2%nat. replace (take 2 buf') with (take 2 (take (length (take 100 m)) buf'))
        by (rewrite take_take; f_equal; lia). rewrite Htk. unfold m, data_packet. rewrite take_take.
      by rewrite take_app_le, take_ge by (rewrite store_le_length; done). }
    rewrite option_bind_Some, ntohs_stored by apply u16_range. do 3 f_equal.
    unfold h, sent_header. cbn [lSrcPort lSrcAddr]. destruct Hb as (_ & -> & ->).
    unfold local_addr. cbn [sin_port s_addr]. rewrite u16_s16, u32_s32 by (done || apply (swap_range 2)). done.
Qed.

(** Each line of the input is printed, with the text that goes with it. *)
Definition line_text (printf : list Z -> M unit) (line : list Z) : M unit :=
  printf (str "LINE:  " ++ line ++ nl) ;;; printf (str "CBDATA:  " ++ str "Cows moo!" ++ nl).

Lemma test_input_prints `{Env} (printf : list Z -> M unit) (ds : list (list Z)) (w : World) :
  (forall n, malloc_ok n = true) -> fits [] ds ->
  test_input_main printf ds w =
    (handle_all (line_text printf) (split_lines (mjoin ds)).1 ;;; ret (Some (ub_of (split_lines (mjoin ds)).2)))
      (w .{ tick := S (S (tick w)) }).
Proof.
  intros Hm Hf. unfold test_input_main, create_userbuf. unfold bind, ask, ret. cbv beta iota.
  rewrite Hm. cbn [negb]. cbv beta iota. rewrite Hm. cbn [negb]. cbv beta iota. exact (feed_lines (line_text printf) ds [] _ ltac:(constructor) Hf).
Qed.

Lemma mjoin_one {A} (l : list A) : mjoin [l] = l.
Proof. exact (app_nil_r l). Qed.
Lemma mjoin_replicate_length {A} n (l : list A) : length (mjoin (replicate n l)) = (n * length l)%nat.
Proof. induction n as [|n IH]; [done|]. cbn [replicate]. change (mjoin (?a :: ?b)) with (a ++ mjoin b). rewrite length_app, IH. lia. Qed.

(** Every build prints the three digests of the standard. *)
Lemma sha1_test_prints (b : Build) (big : bool) (junk : nat -> list Z) :
  build_ok b big -> (forall k, length (junk k) = 64%nat /\ Forall is_byte (junk k)) ->
  sha1_test b big junk = Some (print_digest (fips_sha1 (str "abc")) ++ print_digest (fips_sha1 fips_message) ++
    print_digest (fips_sha1 (mjoin (replicate 1000 (replicate 1000 97))))).
Proof.
  intros Hb Hj. unfold sha1_test, fips_message.
  assert (forall k pieces, Forall (fun p => zlen p < 2 ^ 32 /\ Forall is_byte p) pieces -> zlen (mjoin pieces) < 2 ^ 61 ->
    (c ← absorb b big (ShaBuilds.SHA1Init b big (junk k)) pieces; ShaBuilds.SHA1Final b big c) = Some (fips_sha1 (mjoin pieces))) as Hd.
  { intros k pieces Hp Hm. destruct (Hj k) as [Hl Hbj].
    destruct (absorb_holds b big Hb pieces _ [] (init_holds b big Hb _ Hl Hbj) Hp) as (c & -> & Hc).
    rewrite option_bind_Some. cbn [app] in Hc. rewrite (final_holds b big Hb c _ Hc Hm), fips_sha1_spec; [done|].
    apply Forall_join. eapply Forall_impl; [exact Hp|]. by intros p []. }
  assert (zlen (mjoin (replicate 1000 (replicate 1000 97))) < 2 ^ 61) as H3.
  { rewrite mjoin_replicate_length, length_replicate. lia. }
  assert (Forall (fun p => zlen p < 2 ^ 32 /\ Forall is_byte p) (replicate 1000 (replicate 1000 97))) as H4.
  { apply Forall_replicate. rewrite length_replicate. split; [lia|]. generalize 1000%nat as n. intros n. apply Forall_replicate. unfold is_byte. lia. }
  assert (forall s, zlen (str s) < 2 ^ 32 -> Forall (fun p => zlen p < 2 ^ 32 /\ Forall is_byte p) [str s] /\ zlen (mjoin [str s]) < 2 ^ 61) as Hs.
  { intros s Hs. split; [constructor; [split; [done|apply str_bytes]|done]|]. rewrite mjoin_one. lia. }
  destruct (Hs "abc"%string) as [A1 A2]; [reflexivity|].
  destruct (Hs "abcdbcdecdefdefgefghfghighijhijkijkljklmklmnlmnomnopnopq"%string) as [B1 B2]; [reflexivity|].
  rewrite (Hd 0%nat _ A1 A2), option_bind_Some, (Hd 1%nat _ B1 B2), option_bind_Some, (Hd 2%nat _ H4 H3), option_bind_Some.
  rewrite !mjoin_one. reflexivity.
Qed.

(** The test of chunk.c prints the hash twice: the conversions are inverse. *)
Lemma chunk_test_prints (junk hash1 ascii : list Z) :
  length junk = 64%nat -> zlen hash1 = SHA1_HASH_SIZE -> zlen ascii = SHA1_BUF_SIZE ->
  chunk_test junk hash1 ascii =
    Some (hexstring (sha1_spec (str "dash")) ++ nl ++ hexstring (sha1_spec (str "dash")) ++ nl).
Proof.
  intros Hj H1 Ha. unfold chunk_test. change 4 with (zlen (str "dash")). rewrite shahash_spec by done. rewrite option_bind_Some.
  set (h := sha1_spec (str "dash")). assert (zlen h = 20) as Hl by (unfold h; by rewrite sha1_spec_length).
  assert (Forall is_byte h) as Hb by apply sha1_spec_bytes. pose proof (hexstring_length h) as Hhl. clearbody h.
  change SHA1_HASH_SIZE with 20 in *. change SHA1_BUF_SIZE with 41 in *.
  pose proof (binary2hex_spec h ascii ltac:(lia)) as E. rewrite Hl in E. rewrite E, option_bind_Some.
  assert (forall r, cstr (hexstring h ++ 0 :: r) = hexstring h) as Hc.
  { intros r. apply cstr_plain, hexdigit_nonzero, hexstring_digits, Hb. }
  rewrite Hc, Hhl, Hl. change (2 * 20 =? 40) with true. cbn [negb].
  pose proof (hex2binary_spec h (0 :: drop (Z.to_nat (2 * 20 + 1)) ascii) hash1 Hb ltac:(lia)) as E2. rewrite Hl in E2.
  rewrite E2, option_bind_Some. rewrite (drop_ge hash1) by lia. rewrite app_nil_r.
  set (a1 := hexstring h ++ _). assert (zlen a1 = 41) as Hl1 by (unfold a1; rewrite length_app; cbn [length]; rewrite length_drop; lia).
  pose proof (binary2hex_spec h a1 ltac:(lia)) as E3. rewrite Hl in E3. rewrite E3, option_bind_Some.
  unfold fmt_s, a1. by rewrite !Hc.
Qed.

(** The test of debug.c only prints the list. *)
Example debug_test_prints : debug_test = debug_list.
Proof. reflexivity. Qed.
