(* ===== verification/UnitTests.v ===== *)
(** * UnitTests: the programs of src/src/test

    Programs that drive one component each from the network or the terminal: an upload,
    a download, a validation, a sender of all packets and one of malformed packets. A
    program is what its [main] returns, and [None] for [exit] or a loop that still runs
    when the turns are used up; the outer option is undefined behaviour, as elsewhere.
    test_chunk.c and test_packet.c call functions that chunk.h no longer has and are not
    built. *)

From stdpp Require Import strings.
From S2P Require Import Prelude RecvWin LinkedList Sha Chunk ChunkList Machine Util Packet Sending Hashes.
From S2P Require Import Upload Download SendHelper PeerServer ParsePacket ServerInv ServerOps ServerSafe Handlers.
From S2P Require Import UserInput CommandLine PeerInit EventLoop Printf Diagnostics.

(** ** Accessors of packets (packet.h) *)

Definition GET_TYPE (p : packet_t) : Z := type p.
Definition SET_TYPE (p : packet_t) (v : Z) : packet_t := p .{ type := u8 v }.
Definition SET_HDR_LEN (p : packet_t) (v : Z) : packet_t := p .{ hdr_len := u16 v }.
Definition SET_PKT_LEN (p : packet_t) (v : Z) : packet_t := p .{ pkt_len := u16 v }.
Definition GET_SEQ (p : packet_t) : Z := seq p.
Definition GET_ACK (p : packet_t) : Z := ack p.

(** ** The programs *)

(** A turn of a loop: nothing is there, [recvfrom] fails, or a datagram. *)
Abbreviation arrived := (option (option (list Z))).
(** The arguments and the files of a program. *)
Record startup := {
  st_testing : bool;
  st_opts : list opt; st_fopen : list Z -> option (list Z); st_host : list Z -> option Z;
  st_socket : option Z; st_bind : bool }.

Section Code.
Context `{Env}.

(** [main] up to [peer_init]; [false] for [exit]. *)
Definition test_start (st : startup) : M bool :=
  config <- lift (start_config (st_testing st)) ;;
  r <- bt_parse_command_line (st_opts st) (st_fopen st) (st_host st) config ;;
  match r with
  | None => ret false
  | Some config =>
    modify (fun s => s .{ no_output := negb (cfg_no_output config =? 0) }) ;;;
    r <- peer_init (st_fopen st) config ;;
    ret (negb (r <? 0))
  end.

(** The socket, when it can be opened and bound; [keep]: it becomes [psvr.sock]. *)
Definition test_socket (keep : bool) (st : startup) : M (option Z) :=
  match st_socket st with
  | None => ret None
  | Some k =>
    (if keep then modify (fun s => s .{ sock := k }) else ret tt) ;;;
    ret (if st_bind st then Some k else None)
  end.

(** A datagram of at most [PACKET_SIZE] bytes, decoded from the stack as [process_inbound_udp]
    does; [None] for [continue], when nothing was received. *)
Definition recv_packet (dg : option (list Z)) : M (option packet_t) :=
  let r := match dg with Some bytes => Z.min PACKET_SIZE (zlen bytes) | None => -1 end in
  if r <=? 0 then ret None else
  pkt <- receive_datagram dg ;;
  ret (Some pkt).

(** *** test_upload.c *)

Definition upload_rest (u : upload_t) : M (bool * upload_t) :=
  r <- ul_check_timeout u ;;
  r <- ul_send (snd r) ;;
  ret (ul_finished (snd r), snd r).

Definition upload_turn (t : arrived) (u : upload_t) : M (bool * upload_t) :=
  match t with
  | None => upload_rest u
  | Some dg =>
    p <- recv_packet dg ;;
    match p with
    | None => ret (false, u)
    | Some pkt =>
      u <- (if PACKET_TYPE_ACK =? GET_TYPE pkt then ul_handle_ack u (GET_ACK pkt) else ret u) ;;
      upload_rest u
    end
  end.

Fixpoint upload_loop (ts : list arrived) (u : upload_t) : M (option upload_t) :=
  match ts with
  | [] => ret None
  | t :: ts' =>
    r <- upload_turn t u ;;
    if fst r : bool then ret (Some (snd r)) else upload_loop ts' (snd r)
  end.

(** [main] behind [bind]. *)
Definition upload_test (ts : list arrived) : M (option Z) :=
  r <- ul_init 1 0 ;;
  if fst r <? 0 then ret (Some (-1)) else
  o <- upload_loop ts (snd r) ;;
  match o with
  | None => ret None
  | Some u => r <- ul_deinit u ;; ret (Some (if fst r <? 0 then -1 else 0))
  end.

Definition test_upload_main (st : startup) (ts : list arrived) : M (option Z) :=
  ok <- test_start st ;;
  if negb ok then ret None else
  k <- test_socket true st ;;
  match k with None => ret None | Some _ => upload_test ts end.

(** *** test_download.c: packets go to [dl_recv] without [valid_packet] *)

Definition download_rest (d : download_t) : M (bool * download_t) :=
  r <- dl_check_timeout d ;;
  ret (dl_finished (snd r), snd r).

Definition download_turn (t : arrived) (d : download_t) : M (bool * download_t) :=
  match t with
  | None => download_rest d
  | Some dg =>
    p <- recv_packet dg ;;
    match p with
    | None => ret (false, d)
    | Some pkt => r <- dl_recv d pkt ;; download_rest (snd r)
    end
  end.

Fixpoint download_loop (ts : list arrived) (d : download_t) : M (option download_t) :=
  match ts with
  | [] => ret None
  | t :: ts' =>
    r <- download_turn t d ;;
    if fst r : bool then ret (Some (snd r)) else download_loop ts' (snd r)
  end.

Definition download_test (ts : list arrived) : M (option Z) :=
  r <- dl_init 1 0 (str "test.log" ++ [0]) ;;
  if fst r <? 0 then ret (Some (-1)) else
  o <- download_loop ts (snd r) ;;
  match o with
  | None => ret None
  | Some d => dl_save_buffer d ;;; ret (Some 0)
  end.

Definition test_download_main (st : startup) (ts : list arrived) : M (option Z) :=
  ok <- test_start st ;;
  if negb ok then ret None else
  k <- test_socket true st ;;
  match k with None => ret None | Some _ => download_test ts end.
End Code.

(** ** The programs that send and print *)

Section Messages.
Context `{Env} (printf : list Z -> M unit).

(** *** test_recv_message.c; [hex] is the buffer of [print_packet] *)

Definition recv_message_turn (dg : option (list Z)) (hex : list Z) : M unit :=
  p <- recv_packet dg ;;
  match p with
  | None => ret tt
  | Some pkt =>
    printf (str "recv a packet" ++ nl) ;;;
    v <- lift (valid_packet pkt) ;;
    if v : bool then
      printf (str "validation ok" ++ nl) ;;;
      text <- lift (print_packet pkt hex) ;;
      printf text
    else ret tt
  end.

Fixpoint recv_message_loop (ts : list (option (list Z) * list Z)) : M unit :=
  match ts with
  | [] => ret tt
  | (dg, hex) :: ts' => recv_message_turn dg hex ;;; recv_message_loop ts'
  end.

Definition test_recv_message_main (st : startup) (ts : list (option (list Z) * list Z)) : M (option Z) :=
  ok <- test_start st ;;
  if negb ok then ret None else
  k <- test_socket false st ;;
  match k with
  | None => ret None
  | Some _ => printf (str "listening..." ++ nl) ;;; recv_message_loop ts ;;; ret None
  end.

(** *** test_sender.c and test_receiver.c *)

(** [sscanf(line, "%d", &v)] in a condition, [v] an [uint32_t]: without a digit it gives 0,
    at the end of the line EOF, which is true and leaves [v] as it was on the stack. *)
Definition scan_number (line : list Z) : M (option Z) :=
  b <- ask stack ;;
  ret (match skip_space (cstr (line ++ [0])) with
       | [] => Some (load_le (u8 <$> resize 4 0 b))
       | rest => match scan_int rest with Some (v, _) => Some (u32 v) | None => None end
       end).

(** Parameters of a packet to all peers. *)
Definition to_all (sk : Z) (c : ChunkList) : pkt_param_t :=
  PKT_PARAM_CLEAR .{ pp_socket := sk } .{ pp_p_count := -1 } .{ pp_c := Some c } .{ pp_c_count := 0 }.

(** [handle_user_input] of test_receiver.c. *)
Definition ack_line (sk : Z) (line : list Z) : M unit :=
  n <- scan_number line ;;
  match n with
  | None => ret tt
  | Some n =>
    c <- gets haschunks ;;
    send_packet ((to_all sk c) .{ pp_seq := 0 } .{ pp_ack := n } .{ pp_type := PACKET_TYPE_ACK })
  end.

(** [handle_user_input] of test_sender.c: [data] is on the stack. *)
Definition data_line (sk : Z) (line : list Z) : M unit :=
  n <- scan_number line ;;
  match n with
  | None => ret tt
  | Some n =>
    b <- ask stack ;;
    data <- lift (zwrite (u8 <$> resize 900 0 b) 0 (str "data packet[" ++ fmt_d n ++ str "]" ++ [0])) ;;
    c <- gets haschunks ;;
    send_packet ((to_all sk c) .{ pp_seq := n } .{ pp_ack := 0 } .{ pp_type := PACKET_TYPE_DATA }
      .{ pp_payload := Some data } .{ pp_payload_size := zlen data })
  end.

(** A turn of both loops: what arrived, what was typed; [show] is the field printed. *)
Definition message_turn (label : list Z) (show : packet_t -> Z) (handle_line : list Z -> M unit)
    (t : arrived * option (option (list Z))) (userbuf : user_iobuf) : M (option user_iobuf) :=
  let typed := match snd t with
               | Some avail => process_user_input avail userbuf handle_line
               | None => ret (Some userbuf)
               end in
  match fst t with
  | None => typed
  | Some dg =>
    p <- recv_packet dg ;;
    match p with
    | None => ret (Some userbuf)
    | Some pkt => printf (str "recv a packet" ++ nl) ;;; printf (label ++ fmt_d (show pkt) ++ nl) ;;; typed
    end
  end.

Fixpoint message_loop (label : list Z) (show : packet_t -> Z) (handle_line : list Z -> M unit)
    (ts : list (arrived * option (option (list Z)))) (userbuf : user_iobuf) : M unit :=
  match ts with
  | [] => ret tt
  | t :: ts' =>
    u <- message_turn label show handle_line t userbuf ;;
    match u with Some userbuf => message_loop label show handle_line ts' userbuf | None => ret tt end
  end.

(** The two programs differ in the handler and in what they print. *)
Definition message_main (label : list Z) (show : packet_t -> Z) (handle_line : Z -> list Z -> M unit)
    (st : startup) (ts : list (arrived * option (option (list Z)))) : M (option Z) :=
  ok <- test_start st ;;
  if negb ok then ret None else
  u <- create_userbuf ;;
  match u with
  | None => ret None
  | Some userbuf =>
    k <- test_socket false st ;;
    match k with
    | None => ret None
    | Some sk => printf (str "listening..." ++ nl) ;;; message_loop label show (handle_line sk) ts userbuf ;;; ret None
    end
  end.

Definition test_receiver_main := message_main (str "packet seq: ") GET_SEQ ack_line.
Definition test_sender_main := message_main (str "packet ack: ") GET_ACK data_line.

(** *** test_send_message.c: a packet of every kind, then all hashes again *)

Definition test_send_message_main (st : startup) : M (option Z) :=
  ok <- test_start st ;;
  if negb ok then ret None else
  k <- test_socket false st ;;
  match k with
  | None => ret None
  | Some sk =>
    c <- gets haschunks ;;
    let hello := str "hello world" ++ [0] in
    let param := (to_all sk c) .{ pp_c_count := -1 } .{ pp_seq := 1 } .{ pp_ack := 1 }
                   .{ pp_payload := Some hello } .{ pp_payload_size := zlen hello } in
    send_packet (param .{ pp_type := PACKET_TYPE_WHOHAS }) ;;;
    send_packet (param .{ pp_type := PACKET_TYPE_IHAVE }) ;;;
    let param := param .{ pp_c_count := 1 } in
    send_packet (param .{ pp_type := PACKET_TYPE_GET }) ;;;
    send_packet (param .{ pp_type := PACKET_TYPE_DATA }) ;;;
    send_packet (param .{ pp_type := PACKET_TYPE_ACK }) ;;;
    send_packet (param .{ pp_type := PACKET_TYPE_DENIED }) ;;;
    printf (str "sending many hashes" ++ nl) ;;;
    send_packet ((to_all sk c) .{ pp_c_count := -1 } .{ pp_type := PACKET_TYPE_WHOHAS }) ;;;
    printf (str "PASS" ++ nl) ;;;
    ret (Some 0)
  end.

(** *** test_send_corrupt.c *)

Definition BUFSIZE : Z := 50000.

(** The packets: type, length of the header and of the packet, count of hashes, and how
    often it is sent. *)
Record malformed := { m_type : Z; m_hdr : Z; m_pkt : Z; m_cnt : Z; m_times : nat }.
Definition malformed_packets : list malformed :=
  [Build_malformed PACKET_TYPE_WHOHAS 16 10000 1 1; Build_malformed PACKET_TYPE_WHOHAS 10000 1500 1 1;
   Build_malformed PACKET_TYPE_WHOHAS 100 50 1 1; Build_malformed PACKET_TYPE_WHOHAS 10 50 1 1;
   Build_malformed PACKET_TYPE_WHOHAS 16 1500 0 1; Build_malformed PACKET_TYPE_WHOHAS 16 1500 80 2;
   Build_malformed PACKET_TYPE_WHOHAS 16 26 1 1; Build_malformed PACKET_TYPE_GET 16 20 1 1].

Definition set_malformed (m : malformed) (pkt : packet_t) : option packet_t :=
  SET_CHUNK_CNT (SET_HDR_LEN (SET_TYPE (SET_PKT_LEN (pkt .{ magic := MAGIC } .{ version := VERSION })
    (m_pkt m)) (m_type m)) (m_hdr m)) (m_cnt m).

Fixpoint send_udps (times : nat) (sk count : Z) (buf : list Z) : M unit :=
  match times with O => ret tt | S n => send_udp sk 0 count buf ;;; send_udps n sk count buf end.

(** The 1500 bytes sent are those of the packet and what the buffer holds behind it. *)
Fixpoint corrupt_loop (ms : list malformed) (sk count : Z) (pkt : packet_t) (buf : list Z) : M unit :=
  match ms with
  | [] => ret tt
  | m :: ms' =>
    pkt <- lift (set_malformed m pkt) ;;
    d <- lift (ENCODE_PKT pkt) ;;
    buf <- lift (zwrite buf 0 d) ;;
    send_udps (m_times m) sk count (take 1500 buf) ;;;
    corrupt_loop ms' sk count (swap_fields pkt) buf
  end.

(** Random bytes for every peer: [rand i] is what the buffer is filled with, of which
    [rand_len i] bytes are sent. Returns the buffer. *)
Fixpoint random_loop (n : nat) (i sk : Z) (rand : Z -> list Z) (rand_len : Z -> Z) (buf : list Z) : M (list Z) :=
  match n with
  | O => ret buf
  | S n' =>
    buf <- lift (zwrite buf 0 (rand i)) ;;
    send_udp sk i 1 (take (Z.to_nat (rand_len i)) buf) ;;;
    random_loop n' (i + 1) sk rand rand_len buf
  end.

Definition test_send_corrupt_main (st : startup) (rand : Z -> list Z) (rand_len : Z -> Z) : M (option Z) :=
  ok <- test_start st ;;
  if negb ok then ret None else
  k <- test_socket false st ;;
  match k with
  | None => ret None
  | Some sk =>
    count <- gets (fun s => pl_count (peerlist s)) ;;
    b <- ask stack ;;
    buf <- random_loop (Z.to_nat count) 0 sk rand rand_len (u8 <$> resize (Z.to_nat BUFSIZE) 0 b) ;;
    pkt <- stack_packet ;;
    corrupt_loop malformed_packets sk count pkt buf ;;;
    ret (Some 0)
  end.
End Messages.

(** ** What they do *)

Section Specs.
Context `{Env}.

(** What arrives are bytes. *)
Definition arrived_ok (t : arrived) : Prop := match t with Some (Some dg) => Forall is_byte dg | _ => True end.

(** A datagram that is received is decoded as in the server. *)
Lemma recv_packet_spec dg w (Q : option packet_t -> World -> Prop) :
  Forall is_byte (default [] dg) ->
  (forall w', psvr w' = psvr w -> Q None w') ->
  (forall pkt w', packet_wf pkt -> psvr w' = psvr w -> Q (Some pkt) w') -> wp (recv_packet dg) Q w.
Proof.
  intros Hb HN HS. unfold recv_packet. destruct dg as [dg|].
  2: { change (-1 <=? 0) with true. cbv iota. wp_go. by apply HN. }
  destruct (Z.min PACKET_SIZE (zlen dg) <=? 0); wp_go; [by apply HN|].
  apply receive_datagram_spec; [done|]. intros pkt w' Hwf _ Ew. wp_go. by apply HS.
Qed.

(** *** The upload *)

Lemma ul_run_send i p u w (Q : Z * upload_t -> World -> Prop) :
  ul_run i u -> zget (peers (peerlist (psvr w))) i = Some p ->
  (forall r u' w', ul_run i u' -> psvr w' = psvr w -> Q (r, u') w') -> wp (ul_send u) Q w.
Proof.
  intros (Hwf & Hidx & Hst & b & Hb) Hp HQ. apply (ul_send_spec b _ _ _ p); [done|done|by rewrite Hidx|].
  intros ok u' w' Hwf' _ _ Hmv [Ew _]. destruct (sender_moved_frame _ _ Hmv) as (Ed & Ei & _ & Es & _). simpl in Ed, Ei, Es.
  apply HQ; [|done]. split_and!; [done|congruence|congruence|]. exists b. destruct Hb. split; congruence.
Qed.

Lemma ul_run_timeout i p u w (Q : Z * upload_t -> World -> Prop) :
  ul_run i u -> zget (peers (peerlist (psvr w))) i = Some p ->
  (forall r u' w', ul_run i u' -> psvr w' = psvr w -> Q (r, u') w') -> wp (ul_check_timeout u) Q w.
Proof.
  intros (Hwf & Hidx & Hst & b & Hb) Hp HQ. apply (ul_check_timeout_spec b _ _ _ p); [done|done|by rewrite Hidx|].
  intros r u' resent w1 w' Hout Hwf' Hem [Ew _]. destruct (timeout_outcome_frame _ _ _ _ _ Hout) as (Ed & Ei & _ & Es & _).
  apply HQ; [|by rewrite Ew, (emits_psvr _ _ _ Hem)]. split_and!; [done|congruence|by apply Es|]. exists b. destruct Hb. split; congruence.
Qed.

Lemma ul_run_ack i p u a w (Q : upload_t -> World -> Prop) :
  ul_run i u -> zget (peers (peerlist (psvr w))) i = Some p ->
  (forall u' w', ul_run i u' -> psvr w' = psvr w -> Q u' w') -> wp (ul_handle_ack u a) Q w.
Proof.
  intros (Hwf & Hidx & Hst & b & Hb) Hp HQ. apply ul_handle_ack_spec; [done|done|rewrite Hidx; by eapply zget_Some_range|].
  intros u' w' Hout Hem. destruct (ack_outcome_frame _ _ _ Hout Hst) as (Ed & Ei & _ & Hst1 & _).
  apply HQ; [|by apply (emits_psvr _ _ _ Hem)]. split_and!; [by eapply ack_outcome_wf|congruence|done|]. exists b. destruct Hb. split; congruence.
Qed.

(** The loop ends when every packet is acknowledged. *)
Lemma upload_loop_spec i p ts : forall u w (Q : option upload_t -> World -> Prop),
  ul_run i u -> zget (peers (peerlist (psvr w))) i = Some p -> Forall arrived_ok ts ->
  (forall o w', (forall u', o = Some u' -> ul_run i u' /\ last_pkt_acked u' = CHUNK_PKTS) -> psvr w' = psvr w -> Q o w') ->
  wp (upload_loop ts u) Q w.
Proof.
  assert (forall u w (Q : bool * upload_t -> World -> Prop), ul_run i u -> zget (peers (peerlist (psvr w))) i = Some p ->
    (forall u' w', ul_run i u' -> psvr w' = psvr w -> Q (ul_finished u', u') w') -> wp (upload_rest u) Q w) as Hrest.
  { intros u w Q Hu Hp HQ. unfold upload_rest. wp_go. apply (ul_run_timeout i p); [done|done|]. intros r1 u1 w1 Hu1 E1. wp_go.
    apply (ul_run_send i p); [done|by rewrite E1|]. intros r2 u2 w2 Hu2 E2. wp_go. apply HQ; [done|congruence]. }
  induction ts as [|t ts IH]; intros u w Q Hu Hp Hok HQ; cbn [upload_loop]; [wp_go; by apply HQ|].
  apply Forall_cons in Hok as [Ht Hok]. apply wp_bind.
  assert (wp (upload_turn t u) (fun r w' => ul_run i (snd r) /\ psvr w' = psvr w /\ (fst r = true -> ul_finished (snd r) = true)) w)
    as ([fin u'] & w' & E & Hu' & Ew & Hfin).
  { destruct t as [dg|]; [|apply Hrest; [done|done|by auto]]. unfold upload_turn. wp_go.
    apply recv_packet_spec; [by destruct dg; [|constructor]|by intros w1 E1; wp_go|].
    intros pkt w1 _ E1. wp_go. eapply (wp_mono _ (fun u1 w2 => ul_run i u1 /\ psvr w2 = psvr w)).
    - destruct (_ =? _); wp_go; [|done]. apply (ul_run_ack i p); [done|by rewrite E1|]. intros u2 w2 Hu2 E2. split; [done|congruence].
    - intros u1 w2 [Hu1 E2]. apply Hrest; [done|by rewrite E2|]. intros u3 w3 Hu3 E3. split_and!; [done|simpl; congruence|done]. }
  exists (fin, u'), w'. split; [exact E|]. cbn [fst snd] in *. destruct fin; wp_go.
  - apply HQ; [|done]. intros ? [= <-]. split; [done|]. destruct Hu' as [Hwf _]. by apply (wf_finished _ Hwf), Hfin.
  - apply IH; [done|by rewrite Ew|done|]. intros o w2 Ho E2. apply HQ; [done|congruence].
Qed.

(** The upload is safe whatever arrives, and only ends with a whole chunk acknowledged
    (then the result is that of [ul_deinit]) or when the file cannot be mapped. *)
Lemma upload_test_safe ts w : peer_ok (psvr w) 1 -> 0 < zlen (chunks (haschunks (psvr w))) ->
  places_int (haschunks (psvr w)) -> mmap_ok -> Forall arrived_ok ts ->
  exists r w', upload_test ts w = Some (r, w') /\ psvr w' = psvr w.
Proof.
  intros Hp Hh Hpl Hmm Hts. destruct (zget_is_Some _ _ Hp) as [p Hpg]. destruct (zget_is_Some (chunks (haschunks (psvr w))) 0) as [line Hline]; [lia|].
  enough (wp (upload_test ts) (fun _ w' => psvr w' = psvr w) w) as (r & w' & ?) by (by exists r, w').
  unfold upload_test. wp_go. eapply ul_init_spec; [done|exact Hline|by eapply places_line|].
  intros n w1 Hem. pose proof (emits_psvr _ _ _ Hem) as E1.
  destruct (Hmm n (place_of line)) as (b & -> & Hb). cbn [fst snd]. change (0 <? 0) with false. wp_go.
  apply (upload_loop_spec 1 p); [|by rewrite E1|done|].
  { split_and!; [|done|done|exists b; split; [done|exact Hb]]. apply ul_start_wf. }
  intros o w2 Ho E2. destruct o as [u|]; wp_go; [|congruence]. destruct (Ho u eq_refl) as [(_ & _ & _ & b' & Hb') _].
  apply ul_deinit_spec; [destruct Hb'; congruence|]. intros r d w3 [E3 _]. wp_go. congruence.
Qed.

(** *** The download: safe for packets that [valid_packet] accepts *)

(** Datagrams that, whatever the stack holds, decode to valid packets. *)
Definition arrived_valid (t : arrived) : Prop :=
  match t with
  | Some (Some dg) => Forall is_byte dg /\ forall w pkt w', receive_datagram (Some dg) w = Some (pkt, w') -> packet_valid pkt
  | _ => True
  end.

Lemma download_loop_spec ts : forall d w (Q : option download_t -> World -> Prop),
  dl_safe d -> peer_ok (psvr w) (dl_p_index d) -> Forall arrived_valid ts ->
  (forall o w', (forall d', o = Some d' -> dl_safe d' /\ dl_frame d d' /\ dl_finished d' = true) -> psvr w' = psvr w -> Q o w') ->
  wp (download_loop ts d) Q w.
Proof.
  assert (forall d w (Q : bool * download_t -> World -> Prop), dl_safe d -> peer_ok (psvr w) (dl_p_index d) ->
    (forall d' w', dl_safe d' -> dl_frame d d' -> psvr w' = psvr w -> Q (dl_finished d', d') w') -> wp (download_rest d) Q w) as Hrest.
  { intros d w Q Hd Hp HQ. unfold download_rest. wp_go. apply dl_check_timeout_safe; [done|done|].
    intros r d' w' Hd' Hf Hem. wp_go. apply HQ; [done|done|by apply (emits_psvr _ _ _ Hem)]. }
  induction ts as [|t ts IH]; intros d w Q Hd Hp Hok HQ; cbn [download_loop]; [wp_go; by apply HQ|].
  apply Forall_cons in Hok as [Ht Hok]. apply wp_bind.
  assert (wp (download_turn t d) (fun r w' => (dl_safe (snd r) /\ dl_frame d (snd r)) /\ psvr w' = psvr w /\
    (fst r = true -> dl_finished (snd r) = true)) w) as ([fin d'] & w' & E & [Hd' Hf] & Ew & Hfin).
  { destruct t as [dg|]; [|apply Hrest; [done|done|by auto]]. unfold download_turn, recv_packet.
    destruct dg as [dg|]; [|change (-1 <=? 0) with true; cbv iota; wp_go; by pose proof (dl_frame_refl d)].
    destruct (_ <=? 0); wp_go; [by pose proof (dl_frame_refl d)|]. destruct Ht as [Hb Hv].
    assert (wp (receive_datagram (Some dg)) (fun pkt w' => packet_wf pkt /\ psvr w' = psvr w) w) as (pkt & w1 & E1 & _ & Ew1)
      by (apply receive_datagram_spec; [done|by auto]).
    exists pkt, w1. split; [done|]. wp_go. apply dl_recv_safe; [done|by eapply Hv|by rewrite Ew1|].
    intros r d1 w2 Hd1 Hf1 Hem. pose proof (emits_psvr _ _ _ Hem) as Ew2. wp_go. cbn [snd]. pose proof Hf1 as (_ & Ei & _).
    apply Hrest; [done|by rewrite Ew2, Ew1, Ei|]. intros d2 w3 Hd2 Hf2 Ew3.
    split; [split; [done|by eapply dl_frame_trans]|]. split; [congruence|done]. }
  exists (fin, d'), w'. split; [exact E|]. cbn [fst snd] in *. destruct fin; wp_go.
  - apply HQ; [|done]. intros ? [= <-]. split; [done|]. split; [done|by apply Hfin].
  - pose proof Hf as (_ & Ei & _). apply IH; [done|by rewrite Ew, Ei|done|]. intros o w2 Ho E2. apply HQ; [|congruence].
    intros d2 Hd2. destruct (Ho d2 Hd2) as (? & ? & ?). split; [done|]. split; [by eapply dl_frame_trans|done].
Qed.

(** *** Malformed packets *)

(** A packet with the fields of a malformed one. *)
Record carries (m : malformed) (p : packet_t) : Prop := {
  ca_magic : magic p = MAGIC; ca_version : version p = VERSION; ca_type : type p = m_type m;
  ca_hdr : hdr_len p = m_hdr m; ca_pkt : pkt_len p = m_pkt m;
  ca_cnt : m_hdr m = HEADER_SIZE -> zget (payload p) 0 = Some (m_cnt m) }.

Lemma set_malformed_carries m pkt p : m ∈ malformed_packets -> set_malformed m pkt = Some p -> carries m p.
Proof.
  intros Hm E. unfold set_malformed, SET_CHUNK_CNT in E. set (q := SET_HDR_LEN _ _) in E.
  destruct (zset (payload q) _ _) as [b|] eqn:Hb; [|done]. rewrite option_bind_Some in E. injection E as <-.
  unfold malformed_packets in Hm. rewrite !elem_of_cons, elem_of_nil in Hm.
  repeat (destruct Hm as [-> | Hm]; [split; try reflexivity; intros Eh; try discriminate Eh; cbn;
    exact (zget_zset_eq _ _ _ _ Hb)|]). done.
Qed.

(** What test_send_corrupt.c is for: no such packet is valid, so the server drops it. *)
Lemma malformed_invalid m p : m ∈ malformed_packets -> carries m p -> valid_packet p = Some false.
Proof.
  intros Hm [Hma Hv Ht Hh Hp Hc]. unfold malformed_packets in Hm. rewrite !elem_of_cons, elem_of_nil in Hm.
  unfold valid_packet, GET_CHUNK_CNT, DATA_OFFSET, MAX_OFFSET, EXT_HEADER_SIZE, GET_DATA_LEN. rewrite Hma, Hv, Ht, Hh, Hp.
  repeat (destruct Hm as [-> | Hm]; [try reflexivity; cbn [m_type m_hdr m_pkt m_cnt] in *;
    change (C_MIN _ _) with 0; rewrite Hc by reflexivity; reflexivity|]). done.
Qed.

Lemma malformed_ignored m dg from w pkt w1 : m ∈ malformed_packets -> receive_datagram (Some dg) w = Some (pkt, w1) ->
  carries m pkt -> process_inbound_udp (Some dg) from w = Some (tt, w1).
Proof.
  intros Hm E Hc. unfold process_inbound_udp, bind, lift. by rewrite E, (malformed_invalid m pkt Hm Hc).
Qed.

(** But the program never sends one: its first packet announces 10000 bytes, which
    [ENCODE_PKT] reads from a structure of 1500. *)
Lemma corrupt_loop_undefined sk count pkt buf w : zlen (payload pkt) = MAX_PAYLOAD_SIZE ->
  corrupt_loop malformed_packets sk count pkt buf w = None.
Proof.
  intros Hl. unfold malformed_packets. cbn [corrupt_loop]. unfold bind at 1, lift at 1.
  destruct (set_malformed _ pkt) as [p|] eqn:E; [|done]. unfold bind at 1, lift at 1.
  assert (zlen (payload p) = MAX_PAYLOAD_SIZE /\ pkt_len p = 10000) as [Hp Hpl].
  { unfold set_malformed, SET_CHUNK_CNT in E. destruct (zset _ _ _) as [b|] eqn:Hb; [|done]. injection E as <-.
    split; [|done]. cbn. by rewrite (zset_length _ _ _ _ Hb). }
  assert (ENCODE_PKT p = None) as ->; [|done]. unfold ENCODE_PKT. change (pkt_len (swap_fields p)) with (htons (pkt_len p)).
  rewrite Hpl. change (ntohs (htons 10000)) with 10000. unfold zread. rewrite decide_False; [done|].
  intros [_ Hle]. rewrite image_length in Hle. change (zlen (payload (swap_fields p))) with (zlen (payload p)) in Hle. rewrite Hp in Hle. revert Hle. unfold MAX_PAYLOAD_SIZE, PACKET_SIZE, HEADER_SIZE. lia.
Qed.
End Specs.

(** *** Printing and numbers *)

Section Prints.
Context `{Env} (printf : list Z -> M unit).
(** [printf] changes nothing that the peer reads. *)
Context (Hprintf : forall s w, exists w', printf s w = Some (tt, w') /\ psvr w' = psvr w).

Lemma wp_printf s w (Q : unit -> World -> Prop) : (forall w', psvr w' = psvr w -> Q tt w') -> wp (printf s) Q w.
Proof. intros HQ. destruct (Hprintf s w) as (w' & E & Ew). exists tt, w'. split; [done|by apply HQ]. Qed.

(** Whatever arrives is printed or refused. *)
Lemma recv_message_safe ts : forall w, Forall (fun t => Forall is_byte (default [] (fst t)) /\ zlen (snd t) = SHA1_BUF_SIZE) ts ->
  exists w', recv_message_loop printf ts w = Some (tt, w') /\ psvr w' = psvr w.
Proof.
  intros w Hts. enough (wp (recv_message_loop printf ts) (fun _ w' => psvr w' = psvr w) w) as ([] & w' & ?) by (by exists w').
  revert w. induction Hts as [|[dg hex] ts [Hdg Hhex] _ IH]; intros w; cbn [recv_message_loop]; [by wp_go|]. cbn [recv_message_loop]. wp_go.
  cbn [fst snd] in *. assert (forall w', psvr w' = psvr w -> wp (recv_message_loop printf ts) (fun _ w' => psvr w' = psvr w) w') as Hnext.
  { intros w' E. eapply wp_mono; [apply IH|]. intros [] w2 E2. congruence. }
  unfold recv_message_turn. wp_go. apply recv_packet_spec; [done|by intros w1 E1; wp_go; apply Hnext|].
  intros pkt w1 Hwf E1. wp_go. apply wp_printf. intros w2 E2. wp_go. destruct (valid_packet_spec pkt Hwf) as (v & Ev & Hv).
  eapply wp_lift; [exact Ev|]. destruct v; wp_go; [|apply Hnext; congruence]. apply wp_printf. intros w3 E3. wp_go.
  destruct (print_packet_valid pkt hex) as (cnt & _ & Ep); [by apply Hv|done|]. eapply wp_lift; [exact Ep|].
  apply wp_printf. intros w4 E4. apply Hnext. congruence.
Qed.
End Prints.

Section Numbers.
Context `{Env}.

(** An acknowledgement to all peers. *)
Lemma send_ack_to_all sk c n w (Q : unit -> World -> Prop) : 0 <= n < 2 ^ 32 ->
  0 <= pl_count (peerlist (psvr w)) <= zlen (peers (peerlist (psvr w))) ->
  (forall w', emitted (sends sk (range (peers (peerlist (psvr w))) 0 (pl_count (peerlist (psvr w)))) (ack_datagram n)) w w' -> Q tt w') ->
  wp (send_packet ((to_all sk c) .{ pp_seq := 0 } .{ pp_ack := n } .{ pp_type := PACKET_TYPE_ACK })) Q w.
Proof.
  intros Hn Hcnt HQ. set (pp := (to_all sk c) .{ pp_seq := 0 } .{ pp_ack := n } .{ pp_type := PACKET_TYPE_ACK }).
  unfold send_packet. wp_go. eapply wp_lift; [reflexivity|]. change ((pp_p_index pp <? 0) || (pp_c_index pp <? 0)) with false.
  change (nondata (pp_type pp)) with false. change (pp_p_count pp <? 0) with true. change (pp_c pp) with (Some c).
  cbv iota. wp_go. apply (stack_packet_spec (fun _ => False)). intros pkt w1 Hraw [E1 O1]%emits_none.
  pose proof (raw_packet_payload _ Hraw) as Hpl. change (Z.to_nat 1) with 1%nat. cbn [send_packet_loop].
  apply wp_bind. exists (Some (0, set_header PACKET_TYPE_ACK 0 n pkt)), w1. split; [reflexivity|]. cbv iota beta. wp_go.
  eapply wp_lift; [apply (ENCODE_own PACKET_TYPE_ACK 0 n _ []); [done|done|done|done|by apply set_header_own|done]|]. wp_go.
  apply send_udp_spec; [done|lia|rewrite E1; simpl; lia|]. intros w2 [E2 O2]. wp_go. apply HQ.
  split; [congruence|]. by rewrite O2, O1, E1, app_nil_r.
Qed.

(** A number that is typed at test_receiver.c is acknowledged to every peer. *)
Lemma ack_line_sends sk n rest w : 0 <= n < 2 ^ 31 -> (match rest with [] => True | c :: _ => isdigit c = false end) ->
  Forall (fun c => c <> 0) rest -> server_mem (psvr w) ->
  exists w', ack_line sk (fmt_d n ++ rest) w = Some (tt, w') /\
    emitted (sends sk (range (peers (peerlist (psvr w))) 0 (pl_count (peerlist (psvr w)))) (ack_datagram n)) w w'.
Proof.
  intros Hn Hr Hnz Hm. match goal with |- exists w', _ = Some (tt, w') /\ @?P w' => 
    enough (wp (ack_line sk (fmt_d n ++ rest)) (fun _ => P) w) as ([] & w' & ?) by (by exists w') end.
  assert (scan_int (fmt_d n ++ rest) = Some (n, rest)) as Es by (apply scan_printed; [lia|done]).
  assert (Forall (fun c => c <> 0) (fmt_d n)) as Hd.
  { destruct (fmt_u_digits n Hn) as (d & ds & E & Hds & _). unfold fmt_d. rewrite s32_small by lia.
    destruct (Z.ltb_spec n 0); [lia|]. rewrite E. eapply Forall_impl; [exact Hds|]. unfold is_digit. lia. }
  unfold ack_line, scan_number. wp_go. apply wp_ask_any. intros b. wp_go.
  rewrite cstr_plain by (by apply Forall_app). destruct (skip_space (fmt_d n ++ rest)) as [|c l] eqn:Esk.
  { unfold scan_int in Es. by rewrite Esk in Es. }
  assert (scan_int (c :: l) = Some (n, rest)) as ->.
  { rewrite <- Es. unfold scan_int. rewrite Esk. destruct (isspace c) eqn:Ec; [|simpl; by rewrite Ec].
    exfalso. clear -Esk Ec. induction (fmt_d n ++ rest) as [|x xs IH]; [done|]. cbn [skip_space] in Esk.
    destruct (isspace x) eqn:Ex; [by apply IH|]. injection Esk as -> ->. congruence. }
  wp_go. rewrite u32_small by lia. apply send_ack_to_all; [lia|apply (sm_cnt _ Hm)|]. done.
Qed.
End Numbers.

(** A datagram of 16 bytes that announces 3000 makes [dl_recv] copy 2984 bytes from a payload
    of 1484: test_download.c does not ask [valid_packet], which refuses it. *)
Definition long_header : list Z := [60; 81; 1; 3; 0; 16; 11; 184; 0; 0; 0; 1; 0; 0; 0; 0].

Definition two_peers : World :=
  {| psvr := sample_server .{ peerlist := {| pl_count := 2; peers := [sample_peer; sample_peer] |} }; tick := 0; out := [] |}.

Lemma download_over_reads : @download_test sample_env [Some (Some long_header)] two_peers = None.
Proof. vm_compute. reflexivity. Qed.

(** The same bytes with an honest length are stored and acknowledged. *)
Definition short_header : list Z := [60; 81; 1; 3; 0; 16; 0; 17; 0; 0; 0; 1; 0; 0; 0; 0; 77].
Lemma download_reads :
  match @download_test sample_env [Some (Some short_header)] two_peers with
  | Some (None, w) => out w = [EvSend 3 (addr sample_peer) (ack_datagram 1)]
  | _ => False
  end.
Proof. vm_compute. reflexivity. Qed.

Lemma long_header_refused :
  match @receive_datagram sample_env (Some long_header) two_peers with
  | Some (pkt, _) => valid_packet pkt = Some false /\ seq pkt = 1 /\ pkt_len pkt = 3000
  | None => False
  end.
Proof. vm_compute. done. Qed.
